(* ===== verification/_CoqProject ===== *)
-Q . S2P
Prelude.v
Utf8.v
GoFloat.v
Filters.v
Metrics.v
MetricTable.v
Aggregators.v
PodAggregator.v
Distribution.v
Wf.v
DistributionTags.v
Sink.v
RateCalculator.v
Util.v
GoFmt.v
Converter.v
Enrichers.v
MetricReader.v
Prometheus.v
SourceManager.v
SinkManager.v
Leadership.v
LeadershipLock.v
Discovery.v
Summary.v
PointGroups.v
Configuration.v
KState.v
Telegraf.v
Encoder.v
FloatExact.v
Interleaving.v
Systemd.v
GoSlice.v
DiscoveryConfig.v
ConfigHandler.v
DiscoveryQueue.v
Startup.v
Options.v
Stats.v
Events.v
SinkSetup.v
Pipeline.v
ClusterTotals.v
Clients.v
NodeSources.v
Flush.v
LineGrammar.v
MetricDiff.v
LogVerifier.v
CadvisorMetrics.v
LineFormat.v
Listers.v
SummaryProvider.v
TestSender.v
