(* ===== verification/Prelude.v ===== *)
(** * The Wavefront collector for Kubernetes: a verification development

    The collector scrapes the kubelets, Prometheus pages and other sources of
    a cluster, combines what it gets into batches of metric sets and points,
    runs the batches through a chain of processors, turns the sets into points
    and sends everything to Wavefront.  This library models the parts of the
    program that compute something, translated from the Go sources, and proves
    what they do.

    ** How the program is put together

    - Sources (plugins/sources) produce a [Batch]: a timestamp, a map from
      resource keys to metric sets, and a list of points.  A timer per provider
      triggers the scrapes (plugins/sources/manager.go, interval_timer.go).
    - A flush (plugins/manager/manager.go) takes the pending batches, combines
      them and runs the processors in the order of
      cmd/wavefront-collector/main.go: rate calculator, distribution rate
      calculator, cumulative distribution converter, pod enricher, namespace
      enricher, pod, namespace, node and cluster aggregators, node autoscaling
      enricher, point converter.
    - The sink manager (plugins/sinks/manager.go) hands the result to the
      Wavefront sinks (plugins/sinks/wavefront), which clean the tags, filter
      and send.
    - Discovery (plugins/discovery) finds pods and services to scrape and adds
      and removes providers; services are watched only while this instance
      leads (internal/leadership).  Its rules come from the configuration and,
      at run time, from config maps and secrets.
    - The program itself (cmd/wavefront-collector) loads and checks a
      configuration, makes the sources, processors and sinks, starts an agent,
      and replaces it when the configuration changes.  Events go their own way
      from an informer to the sinks (plugins/events).

    ** Files

    - Prelude.v (this file): results of fallible functions, 64-bit integers,
      times, map iteration, sums, strings, sorting; the hint and rewrite
      databases and tactics of the development.
    - GoFloat.v: binary64 arithmetic on Stdlib's specification floats, with the
      sign lemmas the histogram rates need.  GoFmt.v: how fmt prints a float.
    - Filters.v: internal/filter and plugins/events/filter.go.  The class
      [MetricFilter] is the interface filters offer to points and sinks.
    - Metrics.v, MetricTable.v: internal/metrics (values, sets, labels, keys and
      the table of metrics).
    - Aggregators.v, PodAggregator.v, RateCalculator.v, Enrichers.v:
      plugins/processors.  Distribution.v: internal/wf/distribution.go and the
      two histogram processors.
    - Wf.v: internal/wf (points, the metric interface, filtering) on a heap of
      shared tag maps.  DistributionTags.v: the tag methods of a distribution.
      Converter.v: the point converter of the summary source.  Sink.v:
      plugins/sinks/wavefront.
    - Util.v: internal/util.  Listers.v: its shared listers and reflectors, and
      the resource lister of discovery.
    - MetricReader.v, Prometheus.v: plugins/sources/prometheus.  Summary.v and
      SummaryProvider.v: plugins/sources/summary/summary.go, what a source
      makes of statistics and how sources are made.
    - SourceManager.v: the interval timer, the source manager and the flush.
      SinkManager.v: plugins/sinks/manager.go.
    - Leadership.v: internal/leadership, a callback at a time, and the agent
      type.  LeadershipLock.v: the same a send at a time, with the lock and the
      agent that main subscribes.
    - Discovery.v: plugins/discovery and internal/discovery.  DiscoveryQueue.v:
      the queue of the discoverer and its goroutines.  Encoder.v: the
      Prometheus and Telegraf encoders of discovery.  DiscoveryConfig.v:
      runtime rules, the life of the discovery manager and the access checker.
      ConfigHandler.v: the informers of the runtime rules.
    - Configuration.v: internal/configuration, internal/flags and the
      conversion of internal/options.  Options.v: the command line, the
      experimental features and the parts of an agent.  Startup.v:
      cmd/wavefront-collector and the providers built from a configuration.
      Flush.v: internal/agent and the loop of plugins/manager, across reloads.
    - KState.v, Telegraf.v, Systemd.v, Stats.v: the sources of those names
      under plugins/sources.  NodeSources.v: the Prometheus provider, cadvisor
      and the control plane.  Clients.v: internal/httputil,
      internal/kubernetes and the client of the kubelet.
    - Events.v: plugins/events and internal/events.  SinkSetup.v: the
      construction and heartbeat of the sinks, and the file watcher.
      TestSender.v: the sender of the test mode.
    - Pipeline.v: the aggregators after the first one after the other.
      ClusterTotals.v: all four, from containers to the cluster.
    - CadvisorMetrics.v: the closures of metrics.go over cadvisor statistics and
      internal/metrics/historical_types.go.
    - MetricDiff.v, LogVerifier.v: the test proxy (internal/testproxy and
      cmd/test-proxy), which integration tests send metrics and logs to.
      LineGrammar.v: its grammar of metric lines, as parsing expressions.
      Utf8.v: strings as runes.  LineFormat.v: the lines that the vendored
      SDK makes of metrics, and the way from the sink to the proxy's store.
    - PointGroups.v (points that share a tag map, and what a filter makes of
      them), Interleaving.v (the merges of several sequences), FloatExact.v
      (floats that count) and GoSlice.v (slices that share an array) hold what
      several of these need.

    ** How the code is modelled

    A Go function is a function of the same name; methods and loop bodies that
    need a name of their own say in their comment what they are.  Loops over
    slices are folds; loops over maps take the visiting order as an argument,
    any list that [iterates] the map, and the theorems hold for all of them.
    Functions that return an error return a [result]; run-time panics are
    [None] or an error value, as the definition says.  Integers are [Z] and
    wrap to 64 bits where the code can overflow; floats are binary64.
    Goroutines and channels are step relations whose steps are the
    operations under their locks, and the theorems are invariants of every
    reachable state.

    Third-party code is a parameter: the glob library, the hash of histogram
    keys, the Prometheus text parser, the YAML and JSON decoders, the HTTP,
    D-Bus and Wavefront clients, the Telegraf plugins, the metric registry, the
    Kubernetes listers, informers and clients; so are the parsing of URLs, IP
    addresses and durations of the standard library.

    Fuel is used in seven places: the search for a float's shortest digits (17
    digits always suffice for binary64, so 17 rounds), the decimal digits of
    integers, the loops of the Prometheus reader, whose fuel is the number of
    bytes left, the white-space test, whose fuel is the length of the line,
    the replacement of placeholders in Encoder.v, whose fuel is the length of
    the text plus one, the repetitions of LineGrammar.v, whose fuel is the
    number of runes left plus one ([many_eq] is the equation without it), and
    the callback of an election in LeadershipLock.v, whose fuel is the number
    of subscribers left to tell ([run_callback_atomic]); each round takes at
    least one byte, rune or subscriber.  The reader's theorems prove that its
    fuel is enough and that its loops end.

    ** What the theorems show

    - Aggregation: for every batch of integer metrics and every visiting order,
      the namespace, node, cluster and pod aggregators succeed and each group
      has exactly the 64-bit sums and counts of its live members.
    - Rates: which rates are computed, from which pair of scrapes, with what
      value, and what the calculators remember; histogram rates refine a
      stateless description and stay nonnegative.
    - Enrichment: which sets are kept, dropped and added, and the request and
      limit metrics of a container.
    - Points: conversion of sets, filtering, tags (sharing included), cleaning
      of tags to the limit, and the accounting of an export.
    - Kubelet summary: which sets a scrape holds for the containers of pods,
      and their exact labels and values.
    - Prometheus: a page is cut into blocks without losing a line, a scrape
      yields the expected points on every branch, and the instances behind a
      service are found.
    - Other sources: the points of a scrape of the Kubernetes state, of systemd
      (in every interleaving of its goroutines), of a Telegraf plugin and of
      the internal statistics are exactly the filtered points of what they
      look at; which pages of kubelets and API servers are scraped, and that
      tokens travel over TLS only.
    - Scheduling: the timer stays on its grid; for every interleaving no batch
      is lost or duplicated between sources and flush, between overlapping
      flushes and reloads, or between flush and sinks; stopped workers and
      sinks stay stopped, and flushes under way come to an end.
    - Composition: what the cluster reports in terms of the pods and containers
      of the batch, after three aggregators and after all four; what the proxy
      stores of the metrics that the sink exports.
    - Discovery: whatever the goroutines do, the discoverer has done one
      operation after the other, on every resource that was sent, and the
      registered endpoints are those that are held; with one informer for each
      name the table converges to what the last events say; what stopping
      leaves behind; the runtime rules in force are those of the last events,
      and when changes of them are noticed; what an encoder builds.
    - Leadership: with the agent subscribed, a node that has led and is demoted
      waits for ever with the lock held.
    - Events: which are sent, with which annotations, and that sinks which
      share an event do not disturb one another.
    - Test proxy: well-formed metric lines are read back to what they were
      printed from; what a diff reports; what the log results hold after any
      interleaving of requests.
    - Configuration: filters accept exactly what their lists say; the legacy
      filter syntax round-trips; which command lines are accepted and what they
      mean; what flags are converted to; what holds of every agent that starts;
      which sinks a configuration gives.

    Some theorems state behaviour that is not what the code means to do; their
    comments say so (pods that do not exist in the count of the cluster, a
    handler whose type is never delivered, points hidden by a shared tag map,
    a reload that is not validated, an event router that stays deaf, rule
    changes that go unnoticed, leadership that is never given up, a demotion
    that never ends, resources that are registered after everything was
    deleted).

    ** What is not modelled

    Logging, the informers and reflectors around client-go, the registration of
    internal counters where nothing depends on it, profiling, and the sampling
    of error logs are I/O around libraries, and so are the flags and sockets of
    the test proxy.  The code that its grammar's generator adds to print syntax
    trees and to describe errors computes nothing that is read.  The dummies of
    internal/util and internal/discovery serve the tests. *)

From Stdlib Require Import ZArith Lia.
From stdpp Require Export base gmap strings list fin_maps sorting.
From stdpp Require Import option.
From Stdlib Require Export Ascii.
From stdpp Require Export strings.

#[export] Set Default Goal Selector "!".

Declare Scope go_scope.
Delimit Scope go_scope with go.

(** ** Results of fallible Go functions

    A Go function returning [(T, error)] is modelled by [result T]: the error
    text is kept, the value that accompanies a non-nil error is not (every
    caller in the source drops it unless a definition says otherwise). *)

Inductive result (A : Type) : Type :=
  | Ok (a : A)
  | Err (msg : string).
Arguments Ok {_} _.
Arguments Err {_} _.

#[export] Instance result_ret : MRet result := fun _ a => Ok a.
#[export] Instance result_bind : MBind result := fun _ _ f r =>
  match r with Ok a => f a | Err e => Err e end.

Definition is_ok {A} (r : result A) : bool :=
  match r with Ok _ => true | Err _ => false end.

Lemma result_bind_ok {A B} (f : A -> result B) (r : result A) b :
  (r ≫= f) = Ok b <-> exists a, r = Ok a /\ f a = Ok b.
Proof.
  destruct r as [a|e]; cbn.
  - split; [eauto|]. by intros (? & [= <-] & ?).
  - split; [done|]. by intros (? & ? & ?).
Qed.

(** Folding a fallible step over a list, stopping at the first error: the
    shape of every [for ... range] loop with an early [return err]. *)
Fixpoint foldM {A S} (step : S -> A -> result S) (s : S) (l : list A) : result S :=
  match l with
  | [] => Ok s
  | a :: l' => step s a ≫= fun s' => foldM step s' l'
  end.

Lemma foldM_app {A S} (step : S -> A -> result S) s l1 l2 :
  foldM step s (l1 ++ l2) = foldM step s l1 ≫= fun s' => foldM step s' l2.
Proof.
  revert s; induction l1 as [|a l1 IH]; intros s; cbn; [done|].
  destruct (step s a) as [s'|e]; cbn; [apply IH|done].
Qed.

(** An invariant of the step holds at the end of a successful loop. *)
Lemma foldM_inv {A S} (step : S -> A -> result S) (P : S -> Prop) l s s' :
  (forall s a s', a ∈ l -> P s -> step s a = Ok s' -> P s') ->
  P s -> foldM step s l = Ok s' -> P s'.
Proof.
  revert s; induction l as [|a l IH]; intros s Hstep Hs; cbn.
  - by intros [= <-].
  - destruct (step s a) as [s1|e] eqn:E; cbn; [|done].
    apply IH; [|by eapply Hstep; [left| |]].
    intros ??? Hin; apply Hstep; by right.
Qed.

(** A loop whose step succeeds and keeps an invariant succeeds. *)
Lemma foldM_total {A S} (step : S -> A -> result S) (P : S -> Prop) l s :
  (forall s a, a ∈ l -> P s -> exists s', step s a = Ok s' /\ P s') ->
  P s -> exists s', foldM step s l = Ok s' /\ P s'.
Proof.
  revert s; induction l as [|a l IH]; intros s Hstep Hs; cbn; [by eauto|].
  destruct (Hstep s a) as (s' & -> & Hs'); [by left|done|]. cbn.
  apply IH; [|done]. intros s'' b Hb. apply Hstep. by right.
Qed.

(** ** Machine integers

    Go's [int64] addition, subtraction and multiplication wrap around two's
    complement; division truncates toward zero.  A value of type [int64] is
    a [Z] in the range of [in_i64]. *)

Definition two63 : Z := 9223372036854775808.
Definition two64 : Z := 18446744073709551616.

Definition wrap64 (z : Z) : Z := ((z + two63) mod two64 - two63)%Z.
Definition wrapu64 (z : Z) : Z := (z mod two64)%Z.
Definition in_i64 (z : Z) : Prop := (- two63 <= z < two63)%Z.
Definition in_u64 (z : Z) : Prop := (0 <= z < two64)%Z.

Definition i64_add (a b : Z) : Z := wrap64 (a + b).
Definition i64_sub (a b : Z) : Z := wrap64 (a - b).
Definition i64_mul (a b : Z) : Z := wrap64 (a * b).
(** [a / b]: a zero divisor panics, which is [None]. *)
Definition i64_div (a b : Z) : option Z :=
  if (b =? 0)%Z then None else Some (wrap64 (Z.quot a b)).

#[export] Instance in_i64_dec z : Decision (in_i64 z).
Proof. unfold in_i64; apply _. Defined.

Lemma wrap64_range z : in_i64 (wrap64 z).
Proof.
  unfold in_i64, wrap64, two63, two64.
  pose proof (Z.mod_pos_bound (z + 9223372036854775808) 18446744073709551616).
  lia.
Qed.

Lemma wrap64_id z : in_i64 z -> wrap64 z = z.
Proof.
  unfold in_i64, wrap64, two63, two64; intros H.
  rewrite Z.mod_small; lia.
Qed.

Lemma wrap64_add_l a b : wrap64 (wrap64 a + b) = wrap64 (a + b).
Proof.
  unfold wrap64. f_equal.
  replace ((a + two63) mod two64 - two63 + b + two63)%Z
    with ((a + two63) mod two64 + b)%Z by lia.
  rewrite Zplus_mod_idemp_l. f_equal; lia.
Qed.

Lemma wrap64_add_r a b : wrap64 (a + wrap64 b) = wrap64 (a + b).
Proof. rewrite Z.add_comm, wrap64_add_l. f_equal; lia. Qed.

Lemma wrap64_idemp a : wrap64 (wrap64 a) = wrap64 a.
Proof. apply wrap64_id, wrap64_range. Qed.

Lemma wrapu64_range z : in_u64 (wrapu64 z).
Proof. unfold in_u64, wrapu64, two64. apply Z.mod_pos_bound; lia. Qed.

Lemma wrapu64_id z : in_u64 z -> wrapu64 z = z.
Proof. unfold in_u64, wrapu64, two64. apply Z.mod_small. Qed.

Create HintDb collector discriminated.
Create Rewrite HintDb go_norm.
#[export] Hint Resolve wrap64_range wrapu64_range : collector.
#[export] Hint Rewrite wrap64_add_l wrap64_add_r wrap64_idemp : go_norm.

(** ** Instants and durations

    A [time.Time] is its number of nanoseconds since the Unix epoch and a
    [time.Duration] its number of nanoseconds.  [time_zero] is Go's zero
    time, 1 January of year 1. *)

Definition time_zero : Z := (-62135596800 * 1000000000)%Z.
Definition time_is_zero (t : Z) : bool := (t =? time_zero)%Z.
Definition time_before (t u : Z) : bool := (t <? u)%Z.
Definition time_after (t u : Z) : bool := (u <? t)%Z.
Definition unix_nano (t : Z) : Z := wrap64 t.
Definition unix (t : Z) : Z := (t / 1000000000)%Z.
(** [t.Sub(u)] saturates at the bounds of [int64]. *)
Definition time_sub (t u : Z) : Z :=
  Z.max (- two63) (Z.min (two63 - 1) (t - u)).
Definition millisecond : Z := 1000000.
Definition second : Z := 1000000000.
Definition minute : Z := (60 * second)%Z.
Definition hour : Z := (60 * minute)%Z.

(** ** Go maps

    The iteration order of a Go map is unspecified: a [range] loop over [m]
    visits the entries in some order [l] with [iterates l m], and every
    theorem about such a loop is stated for all orders. *)

Definition iterates {V} (l : list (string * V)) (m : gmap string V) : Prop :=
  l ≡ₚ map_to_list m.

Section iterates.
Context {V : Type}.
Implicit Types (m : gmap string V) (l : list (string * V)).

Lemma iterates_elem l m k v : iterates l m -> (k, v) ∈ l <-> m !! k = Some v.
Proof. unfold iterates; intros ->. apply elem_of_map_to_list. Qed.

Lemma iterates_NoDup l m : iterates l m -> NoDup (l.*1).
Proof. unfold iterates; intros ->. apply NoDup_fst_map_to_list. Qed.

Lemma iterates_canonical m : iterates (map_to_list m) m.
Proof. unfold iterates; reflexivity. Qed.

Lemma iterates_to_map l m : iterates l m -> list_to_map l = m.
Proof.
  unfold iterates; intros H. symmetry. apply list_to_map_flip. by symmetry.
Qed.
End iterates.

#[export] Hint Resolve iterates_canonical : collector.

(** [m[k]] of a map whose zero value is the empty string. *)
Definition get_str (m : gmap string string) (k : string) : string :=
  default "" (m !! k).

(** [for k, v := range src { dst[k] = v }]. *)
Definition copy_into {V} (dst src : gmap string V) : gmap string V := src ∪ dst.

(** ** Loops whose steps commute

    A fold whose steps commute gives the same result for every order of the
    visits: the tool for the map-iteration theorems. *)
Lemma foldl_comm_perm {A S} (f : S -> A -> S) l1 l2 s :
  (forall s a b, a ∈ l1 -> b ∈ l1 -> f (f s a) b = f (f s b) a) ->
  l1 ≡ₚ l2 -> foldl f s l1 = foldl f s l2.
Proof.
  intros Hcomm Hp. revert s; induction Hp as [|x l l' Hp IH|x y l|l l' l'' Hp1 IH1 Hp2 IH2];
    intros s; cbn.
  - done.
  - apply IH. intros; apply Hcomm; by right.
  - rewrite Hcomm; [done|by left|by right; left].
  - rewrite IH1 by done. apply IH2. intros; apply Hcomm; by rewrite Hp1.
Qed.

Lemma foldl_inv {A S} (f : S -> A -> S) (P : S -> Prop) l s :
  (forall s a, a ∈ l -> P s -> P (f s a)) -> P s -> P (foldl f s l).
Proof.
  revert s; induction l as [|a l IH]; intros s Hf Hs; cbn; [done|].
  apply IH; [|by apply Hf; [left|]].
  intros; apply Hf; [by right|done].
Qed.

(** ** Sums over lists *)

Definition zsum {A} (f : A -> Z) (l : list A) : Z := foldr (fun a acc => f a + acc)%Z 0%Z l.

Lemma zsum_cons {A} (f : A -> Z) a l : zsum f (a :: l) = (f a + zsum f l)%Z.
Proof. done. Qed.

Lemma zsum_app {A} (f : A -> Z) l1 l2 : zsum f (l1 ++ l2) = (zsum f l1 + zsum f l2)%Z.
Proof. induction l1 as [|a l IH]; cbn; [done|]. unfold zsum in *; lia. Qed.

Lemma nonempty_perm {A} (l1 l2 : list A) : l1 ≡ₚ l2 -> l1 <> [] <-> l2 <> [].
Proof.
  intros H. split; intros Hne ->; apply Hne.
  - by apply Permutation_nil_r in H.
  - by apply Permutation_nil_l in H.
Qed.

Lemma zsum_insert {A} (f : A -> Z) l i x y :
  l !! i = Some x -> zsum f (<[i := y]> l) = (zsum f l + f y - f x)%Z.
Proof.
  revert i; induction l as [|a l IH]; intros [|i] H; try done.
  - injection H as ->. change (<[0 := y]> (x :: l)) with (y :: l). rewrite !zsum_cons. lia.
  - change (<[S i := y]> (a :: l)) with (a :: <[i := y]> l). rewrite !zsum_cons, (IH i) by done. lia.
Qed.

Lemma zsum_perm {A} (f : A -> Z) l1 l2 : l1 ≡ₚ l2 -> zsum f l1 = zsum f l2.
Proof. induction 1; unfold zsum in *; cbn in *; lia. Qed.

Lemma zsum_ext {A} (f g : A -> Z) l :
  (forall a, a ∈ l -> f a = g a) -> zsum f l = zsum g l.
Proof.
  intros H; induction l as [|a l IH]; cbn; [done|].
  rewrite (H a) by (by left). unfold zsum in IH; rewrite IH; [done|].
  intros; apply H; by right.
Qed.

Lemma zsum_nonneg {A} (f : A -> Z) l :
  (forall a, a ∈ l -> 0 <= f a)%Z -> (0 <= zsum f l)%Z.
Proof.
  intros H; induction l as [|a l IH]; cbn; [done|].
  assert (0 <= f a)%Z by (apply H; by left).
  assert (0 <= zsum f l)%Z by (apply IH; intros; apply H; by right).
  unfold zsum in *; lia.
Qed.

#[export] Instance zsum_Permutation {A} (f : A -> Z) :
  Proper ((≡ₚ) ==> (=)) (zsum f).
Proof. intros l1 l2; apply zsum_perm. Qed.

Lemma zsum_map {A B} (f : B -> Z) (g : A -> B) l : zsum f (map g l) = zsum (fun a => f (g a)) l.
Proof. induction l as [|a l IH]; [done|]. cbn [map]. by rewrite !zsum_cons, IH. Qed.

Lemma zsum_omap {A} (f : A -> Z) (h : string -> option A) (ks : list string) :
  zsum f (omap h ks) = zsum (fun k => match h k with Some a => f a | None => 0%Z end) ks.
Proof.
  induction ks as [|k l IH]; [done|]. rewrite zsum_cons, <- IH. cbn [omap list_omap].
  by destruct (h k).
Qed.

(** Sums by group. *)
Section zsum.
Context {A B : Type} `{EqDecision B}.
Implicit Types (f : A -> Z) (h : B -> Z) (g : A -> B) (l : list A) (bs : list B).

Lemma zsum_add h h' bs : zsum (fun b => h b + h' b)%Z bs = (zsum h bs + zsum h' bs)%Z.
Proof. induction bs as [|b bs IH]; [done|]. rewrite !zsum_cons, IH. lia. Qed.

Lemma zsum_zero h bs : (forall b, b ∈ bs -> h b = 0%Z) -> zsum h bs = 0%Z.
Proof.
  induction bs as [|b bs IH]; intros H; [done|].
  rewrite zsum_cons, IH, (H b) by (set_solver). done.
Qed.

Lemma zsum_at (b0 : B) (x : Z) bs :
  NoDup bs -> b0 ∈ bs -> zsum (fun b => if decide (b0 = b) then x else 0)%Z bs = x.
Proof.
  induction bs as [|b bs IH]; [by intros _ ?%not_elem_of_nil|].
  intros [Hb Hnd]%NoDup_cons Hin. rewrite zsum_cons. destruct (decide (b0 = b)) as [->|Hne].
  - rewrite zsum_zero; [lia|]. intros c Hc. by rewrite decide_False by (by intros <-).
  - apply elem_of_cons in Hin as [?|Hin]; [done|]. rewrite IH by done. lia.
Qed.

(** A sum is the sum over the groups of the sums in each. *)
Lemma zsum_group f g l bs :
  NoDup bs -> (forall a, a ∈ l -> g a ∈ bs) ->
  zsum f l = zsum (fun b => zsum f (filter (fun a => g a = b) l)) bs.
Proof.
  intros Hnd. induction l as [|a l IH]; intros Hin; [by rewrite zsum_zero|].
  rewrite zsum_cons, IH by (set_solver).
  rewrite <- (zsum_at (g a) (f a) bs) at 1 by set_solver.
  rewrite <- zsum_add. apply zsum_ext. intros b _. rewrite filter_cons.
  by destruct (decide (g a = b)).
Qed.

Lemma zsum_wrap h bs : wrap64 (zsum (fun b => wrap64 (h b)) bs) = wrap64 (zsum h bs).
Proof.
  induction bs as [|b bs IH]; [done|]. rewrite !zsum_cons, wrap64_add_l.
  rewrite <- wrap64_add_r, IH. by rewrite wrap64_add_r.
Qed.

Lemma zsum_count (P : B -> Prop) `{!forall b, Decision (P b)} bs :
  zsum (fun b => if decide (P b) then 1 else 0)%Z bs = Z.of_nat (length (filter P bs)).
Proof.
  induction bs as [|b bs IH]; [done|]. rewrite zsum_cons, IH, filter_cons.
  destruct (decide (P b)); cbn [length]; lia.
Qed.
End zsum.

(** ** Strings *)

Fixpoint has_prefix (p s : string) : bool :=
  match p, s with
  | EmptyString, _ => true
  | String a p', String b s' => Ascii.eqb a b && has_prefix p' s'
  | _, _ => false
  end.

Fixpoint contains (sub s : string) : bool :=
  has_prefix sub s ||
  match s with EmptyString => false | String _ s' => contains sub s' end.

Fixpoint str_drop (n : nat) (s : string) : string :=
  match n, s with
  | O, _ => s
  | _, EmptyString => ""
  | S n', String _ s' => str_drop n' s'
  end.

Definition has_suffix (p s : string) : bool :=
  (String.length p <=? String.length s)%nat &&
  String.eqb (str_drop (String.length s - String.length p) s) p.

(** [strings.Split(s, sep)] for a one-character separator. *)
Fixpoint split_on (sep : Ascii.ascii) (s : string) : list string :=
  match s with
  | EmptyString => [""]
  | String c s' =>
      if Ascii.eqb c sep then "" :: split_on sep s'
      else match split_on sep s' with
           | [] => [String c ""]
           | x :: xs => String c x :: xs
           end
  end.

(** [strings.SplitN(s, sep, 2)] for a one-character separator: the part
    before the first separator, and the part after it when there is one. *)
Fixpoint split_first (sep : Ascii.ascii) (s : string) : string * option string :=
  match s with
  | EmptyString => ("", None)
  | String c s' =>
      if Ascii.eqb c sep then ("", Some s')
      else let '(a, b) := split_first sep s' in (String c a, b)
  end.

(** [strings.Join(l, sep)]. *)
Definition join (sep : string) (l : list string) : string := String.concat sep l.

(** [strings.Replace(s, a, b, -1)] for one-character [a]. *)
Fixpoint replace_char (a : Ascii.ascii) (b : string) (s : string) : string :=
  match s with
  | EmptyString => ""
  | String c s' =>
      if Ascii.eqb c a then (b +:+ replace_char a b s')%string
      else String c (replace_char a b s')
  end.

(** [strings.Trim(s, cutset)] for a one-character cutset. *)
Fixpoint trim_left (c : Ascii.ascii) (s : string) : string :=
  match s with
  | String x s' => if Ascii.eqb x c then trim_left c s' else s
  | EmptyString => ""
  end.

Fixpoint str_rev_append (s acc : string) : string :=
  match s with
  | EmptyString => acc
  | String c s' => str_rev_append s' (String c acc)
  end.

Definition str_rev (s : string) : string := str_rev_append s "".

Definition trim (c : Ascii.ascii) (s : string) : string :=
  str_rev (trim_left c (str_rev (trim_left c s))).

(** [sort.Strings]. *)
Definition sort_strings (l : list string) : list string := merge_sort String.le l.

Lemma sort_strings_perm l : sort_strings l ≡ₚ l.
Proof. apply merge_sort_Permutation. Qed.

Lemma sort_strings_sorted l : StronglySorted String.le (sort_strings l).
Proof. apply StronglySorted_merge_sort; apply _. Qed.

(** Sorting a list is insensitive to the order of its elements. *)
Lemma sort_strings_proper l1 l2 : l1 ≡ₚ l2 -> sort_strings l1 = sort_strings l2.
Proof.
  intros Hp. eapply (StronglySorted_unique String.le).
  - apply sort_strings_sorted.
  - apply sort_strings_sorted.
  - by rewrite !sort_strings_perm.
Qed.

(** The sorted keys of a map, in the order every sorted loop of the source
    uses: [sortKeys], [sortedMetricSetKeys] and the like. *)
Definition sorted_keys {V} (m : gmap string V) : list string :=
  sort_strings ((map_to_list m).*1).

Lemma sorted_keys_elem {V} (m : gmap string V) k :
  k ∈ sorted_keys m <-> is_Some (m !! k).
Proof.
  unfold sorted_keys. rewrite sort_strings_perm.
  rewrite list_elem_of_fmap. split.
  - intros ([k' v] & -> & Hin). apply elem_of_map_to_list in Hin. by eexists.
  - intros [v Hv]. exists (k, v). split; [done|]. by apply elem_of_map_to_list.
Qed.

Lemma sorted_keys_NoDup {V} (m : gmap string V) : NoDup (sorted_keys m).
Proof. unfold sorted_keys. rewrite sort_strings_perm. apply NoDup_fst_map_to_list. Qed.

(** A selection of the keys of a map that are visited in some order is, up
    to order, the selection of its sorted keys. *)
Lemma omap_visits {A B} (m : gmap string A) (f : string -> option B) visits :
  NoDup visits -> (forall k, is_Some (m !! k) -> k ∈ visits) -> (forall k, m !! k = None -> f k = None) ->
  omap f visits ≡ₚ omap f (sorted_keys m).
Proof.
  intros Hnd Hall Hf.
  assert (omap f visits = omap f (filter (fun k => is_Some (m !! k)) visits)) as ->.
  { clear Hnd Hall. induction visits as [|k l IH]; [done|]. rewrite filter_cons. cbn.
    destruct (m !! k) as [a|] eqn:E.
    - rewrite decide_True by (by eexists). cbn. by rewrite IH.
    - rewrite decide_False by (by intros []). rewrite Hf by done. exact IH. }
  apply omap_Permutation, NoDup_Permutation; [by apply NoDup_filter|apply sorted_keys_NoDup|].
  intros k. rewrite list_elem_of_filter, sorted_keys_elem. naive_solver.
Qed.

(** ** String facts shared by the key and name theorems *)

Lemma str_app_assoc (a b c : string) : ((a +:+ b) +:+ c = a +:+ (b +:+ c))%string.
Proof. induction a as [|x a IH]; [done|]. exact (f_equal (String x) IH). Qed.

Lemma str_app_inj_l (a b c : string) : (a +:+ b = a +:+ c)%string -> b = c.
Proof.
  induction a as [|x a IH]; [done|].
  change (String x (a +:+ b) = String x (a +:+ c) -> b = c). intros [= H]. by apply IH.
Qed.

Lemma str_app_nil_r (a : string) : (a +:+ "" = a)%string.
Proof. induction a as [|x a IH]; [done|]. exact (f_equal (String x) IH). Qed.

(** [c] does not occur in [s]. *)
Fixpoint str_free (c : Ascii.ascii) (s : string) : bool :=
  match s with
  | EmptyString => true
  | String x s' => negb (Ascii.eqb x c) && str_free c s'
  end.

Lemma split_first_free c a r : str_free c a = true -> split_first c (a +:+ String c r)%string = (a, Some r).
Proof.
  induction a as [|x a IH]; intros H.
  - change ("" +:+ String c r)%string with (String c r). cbn [split_first]. by rewrite (proj2 (Ascii.eqb_eq c c)).
  - cbn [str_free] in H. apply andb_prop in H as [Hx Ha]. apply negb_true_iff in Hx.
    change (String x a +:+ String c r)%string with (String x (a +:+ String c r)). cbn [split_first]. by rewrite Hx, IH.
Qed.

(** A separator that occurs in neither prefix splits a string uniquely. *)
Lemma str_sep_inj c a1 b1 a2 b2 :
  str_free c a1 = true -> str_free c a2 = true ->
  (a1 +:+ String c b1 = a2 +:+ String c b2)%string -> a1 = a2 /\ b1 = b2.
Proof.
  revert a2; induction a1 as [|x a1 IH]; intros [|y a2]; unfold String.append;
    fold String.append; cbn; intros H1 H2 E.
  - by injection E as ->.
  - injection E as -> _. by rewrite Ascii.eqb_refl in H2.
  - injection E as -> _. by rewrite Ascii.eqb_refl in H1.
  - injection E as -> E. apply andb_prop in H1 as [_ H1], H2 as [_ H2].
    destruct (IH a2 H1 H2 E) as [-> ->]. done.
Qed.

(** A string without the separator is not one with it. *)
Lemma str_sep_free c a b s :
  str_free c s = true -> (a +:+ String c b)%string <> s.
Proof.
  revert s; induction a as [|x a IH]; intros [|y s]; unfold String.append;
    fold String.append; cbn; intros Hs E; try done.
  - injection E as -> _. by rewrite Ascii.eqb_refl in Hs.
  - injection E as -> E. apply andb_prop in Hs as [_ Hs]. by eapply IH.
Qed.

(** A loop over the entries of a map that inserts each accepted entry under
    an injective image of its key. *)
Lemma foldl_insert_lookup (g : string -> string) (ok : string -> string -> bool) (m dst : gmap string string) k :
  (forall a b, g a = g b -> a = b) ->
  foldl (fun out '(k, v) => if ok k v then <[g k := v]> out else out) dst (map_to_list m) !! g k =
    match m !! k with Some v => if ok k v then Some v else dst !! g k | None => dst !! g k end.
Proof.
  intros Hinj. assert (m !! k = (list_to_map (map_to_list m) : gmap string string) !! k) as ->
    by (by rewrite list_to_map_to_list).
  pose proof (NoDup_fst_map_to_list m) as Hnd. revert dst Hnd.
  induction (map_to_list m) as [|[a v] l IH]; intros dst Hnd; [by cbn; rewrite lookup_empty|].
  cbn in Hnd. apply NoDup_cons in Hnd as [Ha Hnd]. cbn [foldl]. rewrite IH by done. rewrite list_to_map_cons.
  destruct (decide (k = a)) as [->|Hne].
  - rewrite lookup_insert_eq, not_elem_of_list_to_map_1 by done.
    destruct (ok a v); [by rewrite lookup_insert_eq|done].
  - rewrite lookup_insert_ne by done.
    assert ((if ok a v then <[g a := v]> dst else dst) !! g k = dst !! g k) as ->; [|done].
    destruct (ok a v); [|done]. rewrite lookup_insert_ne; [done|]. intros E. by apply Hne, Hinj.
Qed.

Lemma foldl_insert_other (g : string -> string) (ok : string -> string -> bool) (m dst : gmap string string) k' :
  (forall k, g k <> k') ->
  foldl (fun out '(k, v) => if ok k v then <[g k := v]> out else out) dst (map_to_list m) !! k' = dst !! k'.
Proof.
  intros Hg. generalize (map_to_list m) as l. intros l. revert dst; induction l as [|[a v] l IH]; intros dst; [done|].
  cbn [foldl]. rewrite IH. destruct (ok a v); [|done]. by rewrite lookup_insert_ne.
Qed.

(** ** Automation *)

(** Split the conjunctions of the goal and close what is arithmetic or
    immediate. *)
Ltac split_and_solve := repeat split; try lia; try done; eauto with collector.

(** Case analysis on the boolean tests of a model, turning each into the
    proposition it decides. *)
Ltac case_tests :=
  repeat match goal with
  | |- context [Z.eqb ?a ?b] => destruct (Z.eqb_spec a b)
  | |- context [Z.ltb ?a ?b] => destruct (Z.ltb_spec a b)
  | |- context [Z.leb ?a ?b] => destruct (Z.leb_spec a b)
  | |- context [String.eqb ?a ?b] => destruct (String.eqb_spec a b)
  end.
