(* ===== verification/Utf8.v ===== *)
(** Conversions between strings and runes: Go's [[]rune(s)] and
    [string(runes)], and [strings.TrimSpace].  A string is a list of bytes; a
    byte that does not start a well-formed sequence becomes the replacement
    rune and is skipped alone. *)

From Stdlib Require Import ZArith Lia.
From S2P Require Import Prelude.

Definition byte (a : Ascii.ascii) : Z := Z.of_nat (Ascii.nat_of_ascii a).
Definition ascii_of (b : Z) : Ascii.ascii := Ascii.ascii_of_nat (Z.to_nat b).

Definition rune_error : Z := 65533.
Definition in_range (lo hi b : Z) : bool := (lo <=? b)%Z && (b <=? hi)%Z.
Definition cont (b : Z) : bool := in_range 128 191 b.

(** The first two bytes of a sequence of three, and of four. *)
Definition start3 (b0 b1 : Z) : bool :=
  in_range 224 239 b0 &&
  in_range (if (b0 =? 224)%Z then 160 else 128) (if (b0 =? 237)%Z then 159 else 191) b1.
Definition start4 (b0 b1 : Z) : bool :=
  in_range 240 244 b0 &&
  in_range (if (b0 =? 240)%Z then 144 else 128) (if (b0 =? 244)%Z then 143 else 191) b1.

Definition rune2 (b0 b1 : Z) : Z := ((b0 - 192) * 64 + (b1 - 128))%Z.
Definition rune3 (b0 b1 b2 : Z) : Z := (((b0 - 224) * 64 + (b1 - 128)) * 64 + (b2 - 128))%Z.
Definition rune4 (b0 b1 b2 b3 : Z) : Z :=
  ((((b0 - 240) * 64 + (b1 - 128)) * 64 + (b2 - 128)) * 64 + (b3 - 128))%Z.

(** The runes of a string, each with the bytes it was read from. *)
Fixpoint units (s : string) : list (Z * string) :=
  match s with
  | EmptyString => []
  | String a s1 =>
      let b0 := byte a in
      if (b0 <? 128)%Z then (b0, String a "") :: units s1
      else match s1 with
      | String b s2 =>
          let b1 := byte b in
          if in_range 194 223 b0 && cont b1 then (rune2 b0 b1, String a (String b "")) :: units s2
          else match s2 with
          | String c s3 =>
              let b2 := byte c in
              if start3 b0 b1 && cont b2 then (rune3 b0 b1 b2, String a (String b (String c ""))) :: units s3
              else match s3 with
              | String d s4 =>
                  if start4 b0 b1 && cont b2 && cont (byte d)
                  then (rune4 b0 b1 b2 (byte d), String a (String b (String c (String d "")))) :: units s4
                  else (rune_error, String a "") :: units s1
              | EmptyString => (rune_error, String a "") :: units s1
              end
          | EmptyString => (rune_error, String a "") :: units s1
          end
      | EmptyString => (rune_error, String a "") :: units s1
      end
  end.
Definition runes (s : string) : list Z := map fst (units s).

(** Code points: no surrogate, at most 0x10FFFF. *)
Definition valid_rune (r : Z) : bool := in_range 0 1114111 r && negb (in_range 55296 57343 r).

Definition encode_bytes (r : Z) : list Z :=
  if (r <? 128)%Z then [r]
  else if (r <? 2048)%Z then [192 + r / 64; 128 + r mod 64]%Z
  else if (r <? 65536)%Z then [224 + r / 4096; 128 + r / 64 mod 64; 128 + r mod 64]%Z
  else [240 + r / 262144; 128 + r / 4096 mod 64; 128 + r / 64 mod 64; 128 + r mod 64]%Z.
Definition encode_rune (r : Z) : list Z := encode_bytes (if valid_rune r then r else rune_error).

Definition string_of_bytes (l : list Z) : string := foldr (fun b s => String (ascii_of b) s) "" l.
Definition string_of (rs : list Z) : string := string_of_bytes (concat (map encode_rune rs)).

(** ** White space *)

(** [unicode.IsSpace]. *)
Definition is_space (r : Z) : bool :=
  in_range 9 13 r || existsb (Z.eqb r) [32; 133; 160; 5760; 8232; 8233; 8239; 8287; 12288]%Z || in_range 8192 8202 r.
Fixpoint drop_while {A} (f : A -> bool) (l : list A) : list A :=
  match l with x :: l' => if f x then drop_while f l' else l | [] => [] end.
Definition trim {A} (f : A -> bool) (l : list A) : list A := rev (drop_while f (rev (drop_while f l))).
(** [strings.TrimSpace]. *)
Definition TrimSpace (s : string) : string :=
  foldr String.append "" (map snd (trim (fun u => is_space (fst u)) (units s))).

(** ** The round trip *)

Lemma byte_of b : (0 <= b < 256)%Z -> byte (ascii_of b) = b.
Proof. intros H. unfold byte, ascii_of. rewrite Ascii.nat_ascii_embedding; lia. Qed.

Lemma in_range_true lo hi b : in_range lo hi b = true <-> (lo <= b <= hi)%Z.
Proof. unfold in_range. rewrite andb_true_iff, Z.leb_le, Z.leb_le. lia. Qed.
Lemma in_range_false lo hi b : in_range lo hi b = false <-> (b < lo \/ hi < b)%Z.
Proof. unfold in_range. rewrite andb_false_iff, Z.leb_gt, Z.leb_gt. lia. Qed.

Lemma valid_rune_true r : valid_rune r = true <-> (0 <= r <= 1114111)%Z /\ ~ (55296 <= r <= 57343)%Z.
Proof. unfold valid_rune. rewrite andb_true_iff, negb_true_iff, in_range_true, in_range_false. lia. Qed.

Ltac bytes := repeat (rewrite byte_of by (Z.to_euclidean_division_equations; lia)).
Ltac ranges := unfold start3, start4, cont; repeat rewrite andb_true_iff; rewrite ?in_range_true;
  repeat match goal with |- context [(?a =? ?b)%Z] => destruct (Z.eqb_spec a b) end;
  Z.to_euclidean_division_equations; lia.

Lemma units_encode r s :
  valid_rune r = true ->
  units (foldr (fun b s => String (ascii_of b) s) s (encode_bytes r)) = (r, string_of_bytes (encode_bytes r)) :: units s.
Proof.
  intros [Hr Hs]%valid_rune_true. unfold encode_bytes.
  destruct (Z.ltb_spec r 128); [|destruct (Z.ltb_spec r 2048); [|destruct (Z.ltb_spec r 65536)]]; cbn [foldr units string_of_bytes].
  - bytes. by rewrite (proj2 (Z.ltb_lt _ _)).
  - bytes. rewrite (proj2 (Z.ltb_ge _ _)) by (Z.to_euclidean_division_equations; lia).
    replace (in_range 194 223 (192 + r / 64) && cont (128 + r mod 64)) with true by (symmetry; ranges).
    do 2 f_equal. unfold rune2. Z.to_euclidean_division_equations; lia.
  - bytes. rewrite (proj2 (Z.ltb_ge _ _)) by (Z.to_euclidean_division_equations; lia).
    replace (in_range 194 223 (224 + r / 4096)) with false
      by (symmetry; apply in_range_false; Z.to_euclidean_division_equations; lia). cbn [andb].
    replace (start3 (224 + r / 4096) (128 + r / 64 mod 64) && cont (128 + r mod 64)) with true by (symmetry; ranges).
    do 2 f_equal. unfold rune3. Z.to_euclidean_division_equations; lia.
  - bytes. rewrite (proj2 (Z.ltb_ge _ _)) by (Z.to_euclidean_division_equations; lia).
    replace (in_range 194 223 (240 + r / 262144)) with false
      by (symmetry; apply in_range_false; Z.to_euclidean_division_equations; lia). cbn [andb].
    replace (start3 (240 + r / 262144) (128 + r / 4096 mod 64)) with false.
    2:{ symmetry. unfold start3. rewrite (proj2 (in_range_false 224 239 _)); [done|]. Z.to_euclidean_division_equations; lia. }
    cbn [andb].
    replace (start4 (240 + r / 262144) (128 + r / 4096 mod 64) && cont (128 + r / 64 mod 64) && cont (128 + r mod 64))
      with true by (symmetry; ranges).
    do 2 f_equal. unfold rune4. Z.to_euclidean_division_equations; lia.
Qed.

(** The units of a text are its runes. *)
Lemma units_string_of rs :
  Forall (fun r => valid_rune r = true) rs -> units (string_of rs) = map (fun r => (r, string_of [r])) rs.
Proof.
  unfold string_of, string_of_bytes at 1. induction 1 as [|r rs Hr _ IH]; [done|].
  cbn [map concat]. rewrite foldr_app, app_nil_r.
  replace (encode_rune r) with (encode_bytes r) by (unfold encode_rune; by rewrite Hr).
  by rewrite units_encode, IH.
Qed.

(** Reading back the text of a list of code points gives the code points. *)
Lemma runes_string_of rs : Forall (fun r => valid_rune r = true) rs -> runes (string_of rs) = rs.
Proof. intros H. unfold runes. rewrite units_string_of by done. rewrite map_map. apply map_id. Qed.

Lemma string_of_app a b : string_of (a ++ b) = (string_of a +:+ string_of b)%string.
Proof.
  unfold string_of, string_of_bytes. rewrite map_app, concat_app. generalize (concat (map encode_rune b)) as l'.
  generalize (concat (map encode_rune a)) as l. intros l l'.
  induction l as [|x l IH]; [done|]. cbn [app foldr]. rewrite IH. done.
Qed.

(** ** Trimming *)

Lemma drop_while_map {A B} (f : B -> bool) (g : A -> B) l :
  drop_while f (map g l) = map g (drop_while (fun x => f (g x)) l).
Proof. induction l as [|x l IH]; [done|]. cbn. by destruct (f (g x)). Qed.

Lemma trim_map {A B} (f : B -> bool) (g : A -> B) l : trim f (map g l) = map g (trim (fun x => f (g x)) l).
Proof. unfold trim. by rewrite drop_while_map, <- map_rev, drop_while_map, <- map_rev. Qed.

Lemma drop_while_Forall {A} (P : A -> Prop) f l : Forall P l -> Forall P (drop_while f l).
Proof. induction 1 as [|x l Hx Hl IH]; [constructor|]. cbn. destruct (f x); [done|by constructor]. Qed.

Lemma trim_Forall {A} (P : A -> Prop) f l : Forall P l -> Forall P (trim f l).
Proof. intros H. unfold trim. by apply Forall_rev, drop_while_Forall, Forall_rev, drop_while_Forall. Qed.

Lemma TrimSpace_of rs : Forall (fun r => valid_rune r = true) rs -> TrimSpace (string_of rs) = string_of (trim is_space rs).
Proof.
  intros H. unfold TrimSpace. rewrite units_string_of by done. rewrite trim_map. cbn [fst].
  rewrite map_map. cbn [snd]. induction (trim _ rs) as [|r l IH]; [done|]. cbn [map foldr]. rewrite IH.
  by rewrite <- (string_of_app [r]).
Qed.
