(* ===== verification/GoFloat.v ===== *)
(** Go's [float64] as the IEEE-754 binary64 arithmetic of the Standard
    Library's [SpecFloat] (53 bits of precision, maximal exponent 1024): every
    operation is executable and rounds to nearest even as Go's does.  The one
    difference is that all NaNs are one value.  The sign lemmas at the end are
    what the distribution theorems need. *)

From Stdlib Require Import ZArith Lia SpecFloat.
From S2P Require Import Prelude.

Abbreviation f64 := spec_float.

#[export] Instance f64_eq_dec : EqDecision f64.
Proof. solve_decision. Defined.

Definition f64_prec : Z := 53.
Definition f64_emax : Z := 1024.

Definition f64_add : f64 -> f64 -> f64 := SFadd 53 1024.
Definition f64_sub : f64 -> f64 -> f64 := SFsub 53 1024.
Definition f64_mul : f64 -> f64 -> f64 := SFmul 53 1024.
Definition f64_div : f64 -> f64 -> f64 := SFdiv 53 1024.

(** The comparisons are false on NaN, as in Go. *)
Definition f64_eqb : f64 -> f64 -> bool := SFeqb.
Definition f64_ltb : f64 -> f64 -> bool := SFltb.
Definition f64_leb : f64 -> f64 -> bool := SFleb.

(** [float64(z)] for an integer [z]. *)
Definition f64_of_Z (z : Z) : f64 := binary_normalize 53 1024 z 0 false.

Definition f64_zero : f64 := S754_zero false.
Definition f64_inf : f64 := S754_infinity false.
Definition f64_max_value : f64 := S754_finite false 9007199254740991 971.
Definition f64_one : f64 := f64_of_Z 1.

Definition f64_is_nan (x : f64) : bool :=
  match x with S754_nan => true | _ => false end.

(** [math.Max]. *)
Definition f64_max (x y : f64) : f64 :=
  match x, y with
  | S754_infinity false, _ | _, S754_infinity false => f64_inf
  | S754_nan, _ | _, S754_nan => S754_nan
  | S754_zero sx, S754_zero sy => S754_zero (sx && sy)
  | _, _ => if f64_ltb y x then x else y
  end.

(** The magnitude of a finite [m * 2^e] rounded toward zero. *)
Definition trunc_mag (m : positive) (e : Z) : Z := Z.shiftl (Z.pos m) e.

(** [math.Trunc]. *)
Definition f64_trunc (x : f64) : f64 :=
  match x with
  | S754_finite s m e =>
      if (0 <=? e)%Z then x
      else match trunc_mag m e with
           | Z0 => S754_zero s
           | z => if s then SFopp (f64_of_Z z) else f64_of_Z z
           end
  | _ => x
  end.

(** The conversion [int64(x)]: toward zero, and the amd64 result (the least
    [int64]) when the value is not representable. *)
Definition f64_to_i64 (x : f64) : Z :=
  match x with
  | S754_zero _ => 0
  | S754_finite s m e =>
      let z := cond_Zopp s (trunc_mag m e) in
      if decide (in_i64 z) then z else (- two63)%Z
  | _ => (- two63)%Z
  end.

(** [time.Duration.Seconds] and [time.Duration.Minutes]: the whole part and
    the remainder are converted separately. *)
Definition duration_seconds (d : Z) : f64 :=
  f64_add (f64_of_Z (Z.quot d second))
          (f64_div (f64_of_Z (Z.rem d second)) (f64_of_Z second)).
Definition duration_minutes (d : Z) : f64 :=
  f64_add (f64_of_Z (Z.quot d minute))
          (f64_div (f64_of_Z (Z.rem d minute)) (f64_of_Z minute)).

(** ** Signs *)

(** Zero or positive, possibly infinite; not NaN. *)
Definition f64_nonneg (x : f64) : bool :=
  match x with
  | S754_zero _ => true
  | S754_infinity s | S754_finite s _ _ => negb s
  | S754_nan => false
  end.

Definition f64_pos_finite (x : f64) : bool :=
  match x with S754_finite false _ _ => true | _ => false end.

Definition f64_finite (x : f64) : bool :=
  match x with S754_zero _ | S754_finite _ _ _ => true | _ => false end.

(** A bit pattern that is a canonical binary64: every value of type [float64]. *)
Definition f64_valid (x : f64) : bool := valid_binary 53 1024 x.

Lemma shr_1_nonneg mrs : (0 <= shr_m mrs)%Z -> (0 <= shr_m (shr_1 mrs))%Z.
Proof. destruct mrs as [[|[p|p|]|[p|p|]] r s]; cbn; lia. Qed.

Lemma shr_nonneg mrs e n : (0 <= shr_m mrs)%Z -> (0 <= shr_m (fst (shr mrs e n)))%Z.
Proof.
  intros H. destruct n as [|p|p]; cbn; [done| |done].
  revert mrs H; induction p as [p IH|p IH|]; intros mrs H; cbn.
  - apply IH, IH, shr_1_nonneg, H.
  - apply IH, IH, H.
  - by apply shr_1_nonneg.
Qed.

Lemma shr_fexp_nonneg m e l :
  (0 <= m)%Z -> (0 <= shr_m (fst (shr_fexp 53 1024 m e l)))%Z.
Proof.
  intros H. unfold shr_fexp. apply shr_nonneg.
  destruct l as [|[]]; cbn; done.
Qed.

Lemma round_nearest_even_nonneg m l : (0 <= m)%Z -> (0 <= round_nearest_even m l)%Z.
Proof. intros H. destruct l as [|[]]; cbn; try destruct (Z.even m); lia. Qed.

(** Rounding a nonnegative magnitude with the positive sign is nonnegative. *)
Lemma binary_round_aux_nonneg m e l :
  (0 <= m)%Z -> f64_nonneg (binary_round_aux 53 1024 false m e l) = true.
Proof.
  intros H. unfold binary_round_aux.
  pose proof (shr_fexp_nonneg m e l H) as H1.
  destruct (shr_fexp 53 1024 m e l) as [mrs' e'] eqn:E1; cbn [fst] in H1.
  pose proof (shr_fexp_nonneg _ e' loc_Exact
    (round_nearest_even_nonneg _ (loc_of_shr_record mrs') H1)) as H2.
  destruct (shr_fexp 53 1024 (round_nearest_even (shr_m mrs') (loc_of_shr_record mrs'))
    e' loc_Exact) as [mrs'' e''] eqn:E2; cbn [fst] in H2.
  destruct (shr_m mrs'') as [|p|p]; [done| |lia].
  by destruct (e'' <=? 1024 - 53)%Z.
Qed.

Lemma binary_normalize_nonneg m e :
  (0 <= m)%Z -> f64_nonneg (binary_normalize 53 1024 m e false) = true.
Proof.
  intros H. destruct m as [|p|p]; cbn; [done| |lia].
  unfold binary_round. destruct (shl_align _ _ _) as [mz ez].
  apply binary_round_aux_nonneg; lia.
Qed.

Lemma f64_of_Z_nonneg z : (0 <= z)%Z -> f64_nonneg (f64_of_Z z) = true.
Proof. apply binary_normalize_nonneg. Qed.

Lemma f64_add_nonneg x y :
  f64_nonneg x = true -> f64_nonneg y = true -> f64_nonneg (f64_add x y) = true.
Proof.
  destruct x as [[]|[]| |[] mx ex], y as [[]|[]| |[] my ey]; cbn; try done.
  intros _ _. by apply binary_normalize_nonneg.
Qed.

Lemma SFdiv_core_nonneg m1 e1 m2 e2 :
  (0 < m1)%Z -> (0 < m2)%Z ->
  (0 <= fst (fst (SFdiv_core_binary 53 1024 m1 e1 m2 e2)))%Z.
Proof.
  intros H1 H2. unfold SFdiv_core_binary. cbv zeta.
  set (s := (e1 - e2 - _)%Z).
  assert (Hm : (0 <= match s with Z0 => m1 | Z.pos _ => Z.shiftl m1 s | Z.neg _ => 0 end)%Z).
  { destruct s; [lia| |lia]. apply Z.shiftl_nonneg; lia. }
  set (m' := match s with Z0 => m1 | Z.pos _ => Z.shiftl m1 s | Z.neg _ => 0%Z end) in *.
  pose proof (Z.div_pos m' m2 Hm H2) as Hd. unfold Z.div in Hd.
  by destruct (Z.div_eucl m' m2) as [q r].
Qed.

Lemma f64_div_nonneg x y :
  f64_nonneg x = true -> f64_pos_finite y = true ->
  f64_nonneg (f64_div x y) = true.
Proof.
  destruct x as [[]|[]| |[] mx ex], y as [[]|[]| |[] my ey];
    cbn -[SFdiv_core_binary]; try done.
  intros _ _.
  pose proof (SFdiv_core_nonneg (Z.pos mx) ex (Z.pos my) ey ltac:(lia) ltac:(lia)) as H.
  destruct (SFdiv_core_binary 53 1024 (Z.pos mx) ex (Z.pos my) ey) as [[mz ez] lz].
  by apply binary_round_aux_nonneg.
Qed.

Lemma digits2_pos_spec p :
  (2 ^ (Z.pos (digits2_pos p) - 1) <= Z.pos p < 2 ^ Z.pos (digits2_pos p))%Z.
Proof.
  induction p as [p IH|p IH|]; cbn [digits2_pos]; [| |lia].
  all: rewrite Pos2Z.inj_succ; replace (Z.succ (Z.pos (digits2_pos p)) - 1)%Z
      with (Z.succ (Z.pos (digits2_pos p) - 1)) by lia;
    rewrite !Z.pow_succ_r by lia; lia.
Qed.

Lemma shl_align_val m e e' :
  (e' <= e)%Z -> Z.pos (fst (shl_align m e e')) = (Z.pos m * 2 ^ (e - e'))%Z.
Proof.
  intros H. unfold shl_align. destruct (e' - e)%Z as [|d|d] eqn:E; cbn [fst].
  - replace (e - e')%Z with 0%Z by lia. lia.
  - lia.
  - replace (e - e')%Z with (Z.pos d) by lia. clear E H.
    induction d as [|d IH] using Pos.peano_ind; [cbn; lia|].
    rewrite Pos.iter_succ. rewrite Pos2Z.inj_succ, Z.pow_succ_r by lia.
    change (Z.pos (Pos.iter xO m d)~0) with (2 * Z.pos (Pos.iter xO m d))%Z.
    rewrite IH. lia.
Qed.

(** Among canonical floats a larger exponent is a larger number. *)
Lemma canonical_exp_lt m1 e1 m2 e2 :
  canonical_mantissa 53 1024 m1 e1 = true ->
  canonical_mantissa 53 1024 m2 e2 = true ->
  (e2 < e1)%Z -> (Z.pos m2 <= Z.pos m1 * 2 ^ (e1 - e2))%Z.
Proof.
  unfold canonical_mantissa, fexp, SpecFloat.emin.
  intros H1%Z.eqb_eq H2%Z.eqb_eq He.
  pose proof (digits2_pos_spec m1) as D1. pose proof (digits2_pos_spec m2) as D2.
  assert (Z.pos (digits2_pos m1) = 53)%Z as E1 by lia.
  assert (Z.pos (digits2_pos m2) <= 53)%Z as E2 by lia.
  rewrite E1 in D1.
  assert (2 ^ Z.pos (digits2_pos m2) <= 2 ^ 53)%Z by (apply Z.pow_le_mono_r; lia).
  assert (2 ^ 1 <= 2 ^ (e1 - e2))%Z by (apply Z.pow_le_mono_r; lia).
  change (2 ^ (53 - 1))%Z with 4503599627370496%Z in D1.
  change (2 ^ 53)%Z with 9007199254740992%Z in *. change (2 ^ 1)%Z with 2%Z in *. nia.
Qed.

(** The difference of two nonnegative floats, the larger first, is
    nonnegative: Go's [a - b] under the guard [!(a < b)]. *)
Lemma f64_sub_nonneg x y :
  f64_valid x = true -> f64_valid y = true ->
  f64_nonneg x = true -> f64_nonneg y = true -> f64_finite y = true ->
  f64_ltb x y = false -> f64_nonneg (f64_sub x y) = true.
Proof.
  destruct x as [[]|[]| |[] mx ex], y as [[]|[]| |[] my ey]; cbn; try done.
  unfold bounded. intros [Hx _]%andb_prop [Hy _]%andb_prop _ _ _ Hlt.
  apply binary_normalize_nonneg. cbn.
  enough (Z.pos (fst (shl_align my ey (Z.min ex ey)))
          <= Z.pos (fst (shl_align mx ex (Z.min ex ey))))%Z by lia.
  rewrite !shl_align_val by lia.
  unfold f64_ltb, SFltb, SFcompare in Hlt.
  destruct (Z.compare_spec ex ey) as [->|Hc|Hc]; [|done|].
  - rewrite !Z.min_id, !Z.sub_diag, !Z.mul_1_r.
    destruct (Pos.compare_cont Eq mx my) eqn:Ec; try done.
    + apply Pos.compare_eq in Ec; subst; lia.
    + apply Pos.compare_gt_iff in Ec. lia.
  - rewrite (Z.min_r ex ey) by lia. rewrite Z.sub_diag, Z.mul_1_r.
    by apply canonical_exp_lt.
Qed.

