(* ===== verification/Filters.v ===== *)
(** The metric filters: internal/filter (glob.go, util.go, config.go) and the
    event filter of plugins/events/filter.go.

    The glob library is third-party code: [glob_compile] is the parameter
    that stands for [glob.Compile] (the matcher, or [None] for a pattern it
    rejects), and nothing is assumed of it. *)

From S2P Require Import Prelude.

(** A compiled [glob.Glob]. *)
Abbreviation Glob := (string -> bool).

(** What the filters promise their clients: the interface [filter.Filter]. *)
Class MetricFilter (F : Type) : Type := {
  match_metric : F -> string -> gmap string string -> bool;
  match_tag : F -> string -> bool;
}.

Module Config.
Record Config := MkConfig {
  MetricAllowList : list string;
  MetricDenyList : list string;
  MetricTagAllowList : gmap string (list string);
  MetricTagDenyList : gmap string (list string);
  TagInclude : list string;
  TagExclude : list string;
  MetricWhitelist : list string;
  MetricBlacklist : list string;
  MetricTagWhitelist : gmap string (list string);
  MetricTagBlacklist : gmap string (list string);
}.

Definition zero : Config := MkConfig [] [] ∅ ∅ [] [] [] [] ∅ ∅.
End Config.
Import Config.

(** [len(l) == 0] of a slice, and of a map. *)
Definition nil_list {A} (l : list A) : bool := match l with [] => true | _ => false end.
Definition nil_map {V} (m : gmap string V) : bool := bool_decide (m = ∅).

Definition Empty (cfg : Config) : bool :=
  nil_list (MetricWhitelist cfg) && nil_list (MetricAllowList cfg) &&
  nil_list (MetricBlacklist cfg) && nil_list (MetricDenyList cfg) &&
  bool_decide (size (MetricTagWhitelist cfg) = 0) &&
  bool_decide (size (MetricTagAllowList cfg) = 0) &&
  bool_decide (size (MetricTagBlacklist cfg) = 0) &&
  bool_decide (size (MetricTagDenyList cfg) = 0) &&
  nil_list (TagInclude cfg) && nil_list (TagExclude cfg).

(** [if len(pref) > 0 { pref } else { old }]. *)
Definition prefer_list {A} (pref old : list A) : list A :=
  match pref with [] => old | _ => pref end.
Definition prefer_map {V} (pref old : gmap string V) : gmap string V :=
  if bool_decide (size pref = 0) then old else pref.

(** [MatchesTags] and [MatchesAllTags]: the loop over the matchers. *)
Definition MatchesTags (matchers : gmap string Glob) (tags : gmap string string) : bool :=
  existsb (fun '(k, matcher) =>
    match tags !! k with Some v => matcher v | None => false end) (map_to_list matchers).

Definition MatchesAllTags (matchers : gmap string Glob) (tags : gmap string string) : bool :=
  forallb (fun '(k, matcher) =>
    match tags !! k with Some v => matcher v | None => false end) (map_to_list matchers).

(** A nil matcher map disables its test. *)
Definition opt_test {A} (o : option A) (f : A -> bool) (dflt : bool) : bool :=
  match o with Some a => f a | None => dflt end.

Record globFilter := MkGlobFilter {
  metricAllowList : option Glob;
  metricDenyList : option Glob;
  metricTagAllowList : option (gmap string Glob);
  metricTagDenyList : option (gmap string Glob);
  tagInclude : option Glob;
  tagExclude : option Glob;
}.

Definition MatchMetric (gf : globFilter) (name : string) (tags : gmap string string) : bool :=
  if opt_test (metricAllowList gf) (fun g => negb (g name)) false then false
  else if opt_test (metricDenyList gf) (fun g => g name) false then false
  else if opt_test (metricTagAllowList gf) (fun m => negb (MatchesTags m tags)) false then false
  else if opt_test (metricTagDenyList gf) (fun m => MatchesTags m tags) false then false
  else true.

Definition MatchTag (gf : globFilter) (tagName : string) : bool :=
  let matches := true in
  let matches := match tagInclude gf with
    | Some g => matches && g tagName | None => matches end in
  match tagExclude gf with
  | Some g => matches && negb (g tagName) | None => matches end.

#[export] Instance globFilter_MetricFilter : MetricFilter globFilter := {
  match_metric := MatchMetric;
  match_tag := MatchTag;
}.

(** ** Parsing the legacy query form ["tagK:[glob1, glob2, ...]"] *)

(** [val[i:j]]: [None] is the run-time panic of an out-of-range slice. *)
Definition slice_str (s : string) (i j : nat) : option string :=
  if (i <=? j)%nat && (j <=? String.length s)%nat
  then Some (String.substring i (j - i) s) else None.

(** [parseValue]: the inner [option] is the run-time panic of the slice. *)
Definition parseValue (val : string) : option (result (list string)) :=
  if negb (has_prefix "[" val) || negb (has_suffix "]" val)
  then Some (Err ("invalid metric tag filter: " +:+ val)%string)
  else match slice_str val 1 (String.length val - 1) with
       | Some tagValue => Some (Ok (split_on ","%char tagValue))
       | None => None
       end.

(** One round of the loop of [parseFilters]. *)
Definition parse_filter_step (out : gmap string (list string)) (tag : string)
    : gmap string (list string) :=
  match split_on ":"%char tag with
  | [k; v] =>
      match parseValue v with
      | Some (Ok patterns) => <[k := patterns]> out
      | _ => out
      end
  | _ => out
  end.

(** A nil result (no filters) reads as the empty map everywhere it is used. *)
Definition parseFilters (slice : list string) : gmap string (list string) :=
  foldl parse_filter_step ∅ slice.

Definition FromQuery (vals : gmap string (list string)) : Config :=
  if bool_decide (size vals = 0) then Config.zero
  else
    let get k := default [] (vals !! k) in
    let metricWhitelist := get "metricWhitelist" in
    let metricBlacklist := get "metricBlacklist" in
    let metricTagWhitelist := parseFilters (get "metricTagWhitelist") in
    let metricTagBlacklist := parseFilters (get "metricTagBlacklist") in
    let tagInclude := get "tagInclude" in
    let tagExclude := get "tagExclude" in
    if nil_list metricWhitelist && nil_list metricBlacklist &&
       bool_decide (size metricTagWhitelist = 0) &&
       bool_decide (size metricTagBlacklist = 0) &&
       nil_list tagInclude && nil_list tagExclude
    then Config.zero
    else MkConfig [] [] ∅ ∅ tagInclude tagExclude
           metricWhitelist metricBlacklist metricTagWhitelist metricTagBlacklist.

Section glob.
Context (glob_compile : string -> option Glob).

(** [g, _ := glob.Compile(..)]: a pattern the library rejects leaves a nil
    glob, that is, no filter. *)
Definition Compile (filters : list string) : option Glob :=
  match filters with
  | [] => None
  | [f] => glob_compile f
  | _ => glob_compile ("{" +:+ join "," filters +:+ "}")%string
  end.

Definition MultiCompile (filters : gmap string (list string)) : option (gmap string Glob) :=
  if bool_decide (size filters = 0) then None else Some (omap Compile filters).

Definition MultiSetCompile (filters : list (gmap string (list string)))
    : option (list (option (gmap string Glob))) :=
  match filters with [] => None | _ => Some (map MultiCompile filters) end.

Definition NewGlobFilter (cfg : Config) : globFilter := {|
  metricAllowList := Compile (MetricAllowList cfg);
  metricDenyList := Compile (MetricDenyList cfg);
  metricTagAllowList := MultiCompile (MetricTagAllowList cfg);
  metricTagDenyList := MultiCompile (MetricTagDenyList cfg);
  tagInclude := Compile (TagInclude cfg);
  tagExclude := Compile (TagExclude cfg);
|}.

(** [FromConfig]: [None] is the nil filter, which passes every metric. *)
Definition FromConfig (cfg : Config) : option globFilter :=
  if Empty cfg then None
  else
    let metricAllowList := prefer_list (MetricAllowList cfg) (MetricWhitelist cfg) in
    let metricDenyList := prefer_list (MetricDenyList cfg) (MetricBlacklist cfg) in
    let metricTagAllowList := prefer_map (MetricTagAllowList cfg) (MetricTagWhitelist cfg) in
    let metricTagDenyList := prefer_map (MetricTagDenyList cfg) (MetricTagBlacklist cfg) in
    if nil_list metricAllowList && nil_list metricDenyList &&
       bool_decide (size metricTagAllowList = 0) &&
       bool_decide (size metricTagDenyList = 0) &&
       nil_list (TagInclude cfg) && nil_list (TagExclude cfg)
    then None
    else Some (NewGlobFilter (MkConfig metricAllowList metricDenyList
           metricTagAllowList metricTagDenyList (TagInclude cfg) (TagExclude cfg)
           [] [] ∅ ∅)).
End glob.

(** ** The event filter *)

Record EventsFilter := MkEventsFilter {
  TagAllowList : gmap string (list string);
  TagDenyList : gmap string (list string);
  TagAllowListSets : list (gmap string (list string));
  TagDenyListSets : list (gmap string (list string));
  TagWhitelist : gmap string (list string);
  TagBlacklist : gmap string (list string);
  TagWhitelistSets : list (gmap string (list string));
  TagBlacklistSets : list (gmap string (list string));
}.

Record eventFilter := MkEventFilter {
  allowList : option (gmap string Glob);
  denyList : option (gmap string Glob);
  allowListSets : option (list (option (gmap string Glob)));
  denyListSets : option (list (option (gmap string Glob)));
}.

Definition newEventFilter (glob_compile : string -> option Glob) (filters : EventsFilter)
    : eventFilter := {|
  allowList := MultiCompile glob_compile (prefer_map (TagAllowList filters) (TagWhitelist filters));
  denyList := MultiCompile glob_compile (prefer_map (TagDenyList filters) (TagBlacklist filters));
  allowListSets := MultiSetCompile glob_compile
    (prefer_list (TagAllowListSets filters) (TagWhitelistSets filters));
  denyListSets := MultiSetCompile glob_compile
    (prefer_list (TagDenyListSets filters) (TagBlacklistSets filters));
|}.

Definition opt_map {V} (o : option (gmap string V)) : gmap string V := default ∅ o.
Definition opt_list {A} (o : option (list A)) : list A := default [] o.

Definition event_matches (ef : eventFilter) (tags : gmap string string) : bool :=
  if bool_decide (0 < size (opt_map (allowList ef))) && negb (MatchesTags (opt_map (allowList ef)) tags)
  then false
  else if bool_decide (0 < size (opt_map (denyList ef))) && MatchesTags (opt_map (denyList ef)) tags
  then false
  else match opt_list (allowListSets ef) with
       | _ :: _ => existsb (fun wl => MatchesAllTags (opt_map wl) tags) (opt_list (allowListSets ef))
       | [] => negb (existsb (fun bl => MatchesAllTags (opt_map bl) tags) (opt_list (denyListSets ef)))
       end.

(** ** Lemmas *)

Lemma nil_list_spec {A} (l : list A) : nil_list l = true <-> l = [].
Proof. by destruct l. Qed.

Lemma prefer_list_nil {A} (p o : list A) :
  nil_list (prefer_list p o) = nil_list p && nil_list o.
Proof. by destruct p. Qed.

Lemma prefer_map_nil {V} (p o : gmap string V) :
  bool_decide (size (prefer_map p o) = 0)
  = bool_decide (size p = 0) && bool_decide (size o = 0).
Proof.
  unfold prefer_map. destruct (bool_decide (size p = 0)) eqn:E; cbn; [done|]. exact E.
Qed.

Lemma existsb_map_iff {V} (m : gmap string V) (f : string * V -> bool) :
  existsb f (map_to_list m) = true <-> exists k v, m !! k = Some v /\ f (k, v) = true.
Proof.
  rewrite existsb_exists. split.
  - intros ([k v] & Hin%list_elem_of_In & Hf).
    exists k, v. by rewrite <- elem_of_map_to_list.
  - intros (k & v & Hk%elem_of_map_to_list & Hf).
    exists (k, v). by rewrite <- list_elem_of_In.
Qed.

Lemma forallb_map_iff {V} (m : gmap string V) (f : string * V -> bool) :
  forallb f (map_to_list m) = true <-> forall k v, m !! k = Some v -> f (k, v) = true.
Proof.
  rewrite forallb_forall. split.
  - intros H k v Hk%elem_of_map_to_list. by apply H, list_elem_of_In.
  - intros H [k v] Hin%list_elem_of_In. by apply H, elem_of_map_to_list.
Qed.

(** Some tag of the metric is matched by the matcher of its key. *)
Definition some_tag_matches (matchers : gmap string Glob) (tags : gmap string string) : Prop :=
  exists k g v, matchers !! k = Some g /\ tags !! k = Some v /\ g v = true.

Lemma MatchesTags_spec matchers tags :
  MatchesTags matchers tags = true <-> some_tag_matches matchers tags.
Proof.
  unfold MatchesTags, some_tag_matches. rewrite existsb_map_iff. split.
  - intros (k & g & Hk & Hm). destruct (tags !! k) as [v|] eqn:Hv; [|done]. eauto 6.
  - intros (k & g & v & Hk & Hv & Hg). exists k, g. by rewrite Hv.
Qed.

Lemma MatchesAllTags_spec matchers tags :
  MatchesAllTags matchers tags = true <->
  forall k g, matchers !! k = Some g -> exists v, tags !! k = Some v /\ g v = true.
Proof.
  unfold MatchesAllTags. rewrite forallb_map_iff. split; intros H k g Hk.
  - specialize (H k g Hk). cbn in H. destruct (tags !! k); [eauto|done].
  - cbn. destruct (H k g Hk) as (v & -> & Hg). done.
Qed.

Lemma MatchMetric_spec gf name tags :
  MatchMetric gf name tags = true <->
  (forall g, metricAllowList gf = Some g -> g name = true) /\
  (forall g, metricDenyList gf = Some g -> g name = false) /\
  (forall m, metricTagAllowList gf = Some m -> some_tag_matches m tags) /\
  (forall m, metricTagDenyList gf = Some m -> ~ some_tag_matches m tags).
Proof.
  unfold MatchMetric. setoid_rewrite <- MatchesTags_spec.
  destruct (metricAllowList gf) as [a|], (metricDenyList gf) as [d|],
    (metricTagAllowList gf) as [ta|], (metricTagDenyList gf) as [td|]; cbn.
  all: repeat match goal with |- context [negb ?b] => destruct b eqn:?; cbn
       | |- context [if ?b then _ else _] => destruct b eqn:?; cbn end.
  all: split; [intros; split_and!|intros (?&?&?&?)]; intros; simplify_eq; try done;
    repeat match goal with H : forall x, Some _ = Some x -> _ |- _ =>
      specialize (H _ eq_refl) end; congruence.
Qed.

Lemma MultiCompile_lookup gc fs m k :
  MultiCompile gc fs = Some m -> m !! k = fs !! k ≫= Compile gc.
Proof.
  unfold MultiCompile. destruct (bool_decide _); [done|]. intros [= <-].
  apply lookup_omap.
Qed.

(** ** The parser of the legacy query *)

(** The text of one legacy tag filter. *)
Definition render_filter (f : string * list string) : string :=
  (f.1 +:+ ":" +:+ "[" +:+ join "," f.2 +:+ "]")%string.

(** Keys and patterns that the legacy syntax can carry. *)
Definition filter_wf (f : string * list string) : bool :=
  str_free ":" f.1 && negb (nil_list f.2) &&
  forallb (fun p => str_free ":" p && str_free "," p) f.2.

Lemma split_on_free c s : str_free c s = true -> split_on c s = [s].
Proof.
  induction s as [|x s IH]; cbn; [done|].
  destruct (Ascii.eqb x c); cbn; [done|]. intros H. by rewrite IH.
Qed.

Lemma split_on_sep c a b :
  str_free c a = true -> split_on c (a +:+ String c b)%string = a :: split_on c b.
Proof.
  induction a as [|x a IH]; unfold String.append; fold String.append; cbn.
  - by rewrite Ascii.eqb_refl.
  - destruct (Ascii.eqb x c); cbn; [done|]. intros H. by rewrite IH.
Qed.

Lemma split_on_join c l :
  l <> [] -> forallb (str_free c) l = true ->
  split_on c (join (String c "") l) = l.
Proof.
  intros Hl Hf. induction l as [|x [|y l] IH]; [done| |]; cbn in Hf.
  - cbn. apply andb_prop in Hf as [Hx _]. by apply split_on_free.
  - apply andb_prop in Hf as [Hx Hf].
    change (split_on c (x +:+ (String c (join (String c "") (y :: l))))%string = x :: y :: l).
    rewrite split_on_sep by done. f_equal. by apply IH.
Qed.

Lemma str_free_app c a b :
  str_free c (a +:+ b)%string = str_free c a && str_free c b.
Proof.
  induction a as [|x a IH]; [done|].
  change (negb (Ascii.eqb x c) && str_free c (a +:+ b)%string
    = negb (Ascii.eqb x c) && str_free c a && str_free c b).
  by rewrite IH, andb_assoc.
Qed.

Lemma str_free_join c d l :
  Ascii.eqb d c = false -> forallb (str_free c) l = true ->
  str_free c (join (String d "") l) = true.
Proof.
  intros Hd Hl. induction l as [|x [|y l] IH]; [done| |]; cbn in Hl.
  - by apply andb_prop in Hl as [? _].
  - apply andb_prop in Hl as [Hx Hl].
    change (str_free c (x +:+ String d (join (String d "") (y :: l)))%string = true).
    rewrite str_free_app, Hx. cbn. rewrite Hd. by apply IH.
Qed.

Lemma str_length_app a b :
  String.length (a +:+ b)%string = (String.length a + String.length b)%nat.
Proof. induction a as [|x a IH]; [done|]. exact (f_equal S IH). Qed.

Lemma str_drop_app a b : str_drop (String.length a) (a +:+ b)%string = b.
Proof. induction a as [|x a IH]; [by destruct b|exact IH]. Qed.

Lemma has_suffix_app a b : has_suffix b (a +:+ b)%string = true.
Proof.
  unfold has_suffix. rewrite str_length_app.
  replace (String.length a + String.length b - String.length b)%nat
    with (String.length a) by lia.
  rewrite str_drop_app, String.eqb_refl, andb_true_r. apply Nat.leb_le; lia.
Qed.

Lemma substring_prefix a b : String.substring 0 (String.length a) (a +:+ b)%string = a.
Proof.
  induction a as [|x a IH]; [by destruct b|]. exact (f_equal (String x) IH).
Qed.

(** The slice of [parseValue] is always in range, and what it returns. *)
Lemma parseValue_brackets s : parseValue ("[" +:+ s +:+ "]")%string = Some (Ok (split_on "," s)).
Proof.
  unfold parseValue.
  change (has_prefix "[" ("[" +:+ s +:+ "]")%string) with true.
  rewrite <- str_app_assoc, has_suffix_app. cbn [negb orb].
  unfold slice_str. rewrite !str_length_app. cbn [String.length].
  replace (1 <=? 1 + String.length s + 1 - 1)%nat with true by (symmetry; apply Nat.leb_le; lia).
  replace (1 + String.length s + 1 - 1 <=? 1 + String.length s + 1)%nat
    with true by (symmetry; apply Nat.leb_le; lia).
  cbn [andb]. replace (1 + String.length s + 1 - 1 - 1)%nat with (String.length s) by lia.
  rewrite str_app_assoc.
  change (String.substring 1 (String.length s) ("[" +:+ (s +:+ "]"))%string)
    with (String.substring 0 (String.length s) (s +:+ "]")%string).
  by rewrite substring_prefix.
Qed.

Lemma parse_filter_step_render out f :
  filter_wf f = true -> parse_filter_step out (render_filter f) = <[f.1 := f.2]> out.
Proof.
  destruct f as [k ps]. unfold filter_wf, render_filter, parse_filter_step. cbn [fst snd].
  intros [[Hk Hps]%andb_prop Hfree]%andb_prop.
  assert (Hc : forallb (str_free ":") ps = true /\ forallb (str_free ",") ps = true).
  { split; apply forallb_forall; intros p Hp;
      by apply (proj1 (forallb_forall _ _) Hfree), andb_prop in Hp as [? ?]. }
  change (k +:+ ":" +:+ "[" +:+ join "," ps +:+ "]")%string
    with (k +:+ String ":" ("[" +:+ join "," ps +:+ "]"))%string.
  rewrite split_on_sep by done. rewrite split_on_free.
  - rewrite parseValue_brackets, split_on_join; [done| |apply Hc]. by destruct ps.
  - rewrite !str_free_app. rewrite (str_free_join ":" "," ps); [done|done|apply Hc].
Qed.

(** ** Properties *)

(** C27: what a configured filter accepts.  A configuration yields no filter
    exactly when all ten of its lists are empty.  Otherwise a metric passes
    exactly when the effective allow list (the new spelling when given, else
    the deprecated one) matches its name, the effective deny list does not,
    some tag matches the tag allow list when there is one, and none matches
    the tag deny list.  A pattern the glob library rejects disables its test. *)
Theorem FromConfig_accepts (gc : string -> option Glob) (cfg : Config) :
  (FromConfig gc cfg = None <-> Empty cfg = true) /\
  forall gf, FromConfig gc cfg = Some gf -> forall name tags,
    match_metric gf name tags = true <->
    (forall g, Compile gc (prefer_list (MetricAllowList cfg) (MetricWhitelist cfg)) = Some g ->
       g name = true) /\
    (forall g, Compile gc (prefer_list (MetricDenyList cfg) (MetricBlacklist cfg)) = Some g ->
       g name = false) /\
    (forall m, MultiCompile gc (prefer_map (MetricTagAllowList cfg) (MetricTagWhitelist cfg)) = Some m ->
       exists k g v, m !! k = Some g /\ tags !! k = Some v /\ g v = true) /\
    (forall m, MultiCompile gc (prefer_map (MetricTagDenyList cfg) (MetricTagBlacklist cfg)) = Some m ->
       ~ exists k g v, m !! k = Some g /\ tags !! k = Some v /\ g v = true).
Proof.
  unfold FromConfig. rewrite !prefer_list_nil, !prefer_map_nil. split.
  - unfold Empty. destruct (nil_list (MetricWhitelist cfg)), (nil_list (MetricAllowList cfg)),
      (nil_list (MetricBlacklist cfg)), (nil_list (MetricDenyList cfg)),
      (bool_decide (size (MetricTagWhitelist cfg) = 0)),
      (bool_decide (size (MetricTagAllowList cfg) = 0)),
      (bool_decide (size (MetricTagBlacklist cfg) = 0)),
      (bool_decide (size (MetricTagDenyList cfg) = 0)),
      (nil_list (TagInclude cfg)), (nil_list (TagExclude cfg)); done.
  - intros gf H name tags. destruct (Empty cfg); [done|].
    destruct (_ && _); [done|]. injection H as <-. apply MatchMetric_spec.
Qed.

Definition glob_exact (p : string) : option Glob := Some (String.eqb p).

Lemma FromConfig_accepts_witness :
  let cfg := MkConfig [] ["b"%string] ∅ ∅ [] [] ["a"%string] ["z"%string] ∅ ∅ in
  (exists gf, FromConfig glob_exact cfg = Some gf) /\
  forall gf, FromConfig glob_exact cfg = Some gf -> match_metric gf "a"%string ∅ = true.
Proof.
  intros cfg. split; [by eexists|]. intros gf H.
  apply (FromConfig_accepts glob_exact cfg); [exact H|].
  split_and!; intros ? [= <-]; done.
Defined.

(** The legacy command-line syntax round-trips: parsing the texts of a
    list of tag filters gives the map with those filters, a later one for
    the same tag winning; the slice [val[1:len(val)-1]] never panics. *)
Theorem parseFilters_roundtrip (fs : list (string * list string)) :
  forallb filter_wf fs = true ->
  parseFilters (map render_filter fs) = foldl (fun m f => <[f.1 := f.2]> m) ∅ fs /\
  forall val, parseValue val <> None.
Proof.
  intros Hwf. split.
  - unfold parseFilters. generalize (∅ : gmap string (list string)).
    induction fs as [|f fs IH]; intros out; cbn in *; [done|].
    apply andb_prop in Hwf as [Hf Hfs]. rewrite parse_filter_step_render by done. by apply IH.
  - intros val. unfold parseValue.
    destruct (has_prefix "[" val) eqn:Hp, (has_suffix "]" val) eqn:Hs; cbn; try done.
    unfold slice_str. destruct val as [|x [|y val]]; [done| |].
    + exfalso. cbn -[Ascii.eqb] in Hp. unfold has_suffix in Hs. cbn -[Ascii.eqb] in Hs.
      rewrite andb_true_r in Hp. apply Ascii.eqb_eq in Hp as <-. done.
    + cbn [String.length]. replace (1 <=? S (S (String.length val)) - 1)%nat with true
        by (symmetry; apply Nat.leb_le; lia).
      by replace (S (S (String.length val)) - 1 <=? S (S (String.length val)))%nat
        with true by (symmetry; apply Nat.leb_le; lia).
Qed.

Lemma parseFilters_roundtrip_witness :
  parseFilters ["env:[prod*,dev]"%string] = {["env"%string := ["prod*"%string; "dev"%string]]}.
Proof.
  exact (proj1 (parseFilters_roundtrip [("env", ["prod*"; "dev"])]%string eq_refl)).
Defined.

(** The event filter.  An event is kept exactly when it passes the allow
    and deny lists and then the sets: when allow sets are configured some set
    must match entirely and the deny sets are not consulted at all; without
    allow sets no deny set may match entirely. *)
Theorem event_matches_spec (ef : eventFilter) (tags : gmap string string) :
  let all m := forall k g, opt_map m !! k = Some g -> exists v, tags !! k = Some v /\ g v = true in
  event_matches ef tags = true <->
  (opt_map (allowList ef) <> ∅ -> some_tag_matches (opt_map (allowList ef)) tags) /\
  ~ some_tag_matches (opt_map (denyList ef)) tags /\
  (opt_list (allowListSets ef) <> [] -> exists s, s ∈ opt_list (allowListSets ef) /\ all s) /\
  (opt_list (allowListSets ef) = [] -> forall s, s ∈ opt_list (denyListSets ef) -> ~ all s).
Proof.
  intros all.
  assert (Hall : forall m, all m <-> MatchesAllTags (opt_map m) tags = true).
  { intros m. by rewrite MatchesAllTags_spec. }
  unfold event_matches. rewrite <- !MatchesTags_spec.
  assert (Hsz : forall m : gmap string Glob, bool_decide (0 < size m) = true <-> m <> ∅).
  { intros m. rewrite bool_decide_eq_true. pose proof (map_size_empty_iff m) as Hm. split.
    - intros H He%Hm. lia.
    - intros H. destruct (decide (size m = 0)) as [He|]; [|lia]. by apply Hm in He. }
  assert (Hempty : MatchesTags (opt_map (denyList ef)) tags = true ->
    bool_decide (0 < size (opt_map (denyList ef))) = true).
  { rewrite MatchesTags_spec, Hsz. intros (k & g & v & Hk & _) He. by rewrite He, lookup_empty in Hk. }
  rewrite <- Hsz.
  destruct (bool_decide (0 < size (opt_map (allowList ef)))),
    (MatchesTags (opt_map (allowList ef)) tags),
    (MatchesTags (opt_map (denyList ef)) tags); cbn [andb negb];
    try rewrite Hempty by done; try (split; [done|naive_solver]).
  all: rewrite ?andb_false_r.
  all: destruct (opt_list (allowListSets ef)) as [|s0 ss] eqn:Es.
  all: rewrite ?negb_true_iff, <- ?not_true_iff_false, existsb_exists.
  all: setoid_rewrite Hall; setoid_rewrite list_elem_of_In; clear Hall Hsz Hempty; split; [|naive_solver].
  all: intros H; split_and!; try done; try naive_solver.
Qed.
