(* ===== verification/Metrics.v ===== *)
(** The metric data model of internal/metrics: values, labelled values, sets,
    batches (types.go, set.go, batch.go), label descriptors (labels.go) and
    resource keys (resource_key.go).  Set is named [MSet] here.

    A [map[string]string] of labels is a Go pointer.  Code that only reads
    the labels of a labelled value uses [MSet (gmap string string)]; the point
    converter, which writes to maps that several values share, uses
    [MSet (option loc)] with an explicit store (Wf.v, Converter.v).  The record
    is therefore parametric in the type [L] of the label map. *)

From S2P Require Import Prelude GoFloat.

(** ** Types and values (types.go) *)

Inductive Type_ := Cumulative | Gauge | Delta.
Inductive Unit_ := Count | Bytes | Milliseconds | Nanoseconds | Millicores.

(** The two constants of [ValueType], and every other [int8]. *)
Inductive ValueType_ := ValueInt64 | ValueFloat | ValueOther (n : Z).

#[export] Instance Type_eq_dec : EqDecision Type_.
Proof. solve_decision. Defined.
#[export] Instance Unit_eq_dec : EqDecision Unit_.
Proof. solve_decision. Defined.
#[export] Instance ValueType_eq_dec : EqDecision ValueType_.
Proof. solve_decision. Defined.

Definition Type_String (t : Type_) : string :=
  match t with Cumulative => "cumulative" | Gauge => "gauge" | Delta => "delta" end.

Definition Unit_String (u : Unit_) : string :=
  match u with
  | Bytes => "bytes" | Milliseconds => "ms" | Nanoseconds => "ns"
  | Millicores => "millicores" | Count => ""
  end.

Definition ValueType_String (v : ValueType_) : string :=
  match v with ValueInt64 => "int64" | ValueFloat => "double" | ValueOther _ => "" end.

Record Value := MkValue {
  IntValue : Z;
  FloatValue : f64;
  ValueType : ValueType_;
}.

#[export] Instance Value_eq_dec : EqDecision Value.
Proof. solve_decision. Defined.

(** The zero [Value]. *)
Definition value_zero : Value := MkValue 0 f64_zero ValueInt64.

Inductive any_value := AnyInt (z : Z) | AnyFloat (f : f64) | AnyNil.

Definition GetValue (v : Value) : any_value :=
  match ValueType v with
  | ValueInt64 => AnyInt (IntValue v)
  | ValueFloat => AnyFloat (FloatValue v)
  | ValueOther _ => AnyNil
  end.

(** [intValue] of pod_based_enricher.go, and the float literal of the
    enrichers: the other field keeps its zero value. *)
Definition intValue (z : Z) : Value := MkValue z f64_zero ValueInt64.
Definition floatValue (f : f64) : Value := MkValue 0 f ValueFloat.

Record LabeledValue (L : Type) := MkLabeledValue {
  lv_Name : string;
  lv_Labels : L;
  lv_Value : Value;
}.
Arguments MkLabeledValue {L} _ _ _.
Arguments lv_Name {L} _.
Arguments lv_Labels {L} _.
Arguments lv_Value {L} _.

Definition LabeledValue_GetValue {L} (l : LabeledValue L) : any_value :=
  match ValueType (lv_Value l) with
  | ValueInt64 => AnyInt (IntValue (lv_Value l))
  | ValueFloat => AnyFloat (FloatValue (lv_Value l))
  | ValueOther _ => AnyNil
  end.

(** ** Metric sets (set.go) *)

Record MSet (L : Type) := MkSet {
  CollectionStartTime : Z;
  EntityCreateTime : Z;
  ScrapeTime : Z;
  Values : gmap string Value;
  Labels : gmap string string;
  LabeledValues : list (LabeledValue L);
}.
Arguments MkSet {L} _ _ _ _ _ _.
Arguments CollectionStartTime {L} _.
Arguments EntityCreateTime {L} _.
Arguments ScrapeTime {L} _.
Arguments Values {L} _.
Arguments Labels {L} _.
Arguments LabeledValues {L} _.

Abbreviation Set_ := (MSet (gmap string string)).

Section set_updates.
Context {L : Type}.
Implicit Types s : MSet L.

Definition with_Values (f : gmap string Value -> gmap string Value) s : MSet L :=
  MkSet (CollectionStartTime s) (EntityCreateTime s) (ScrapeTime s) (f (Values s))
    (Labels s) (LabeledValues s).
Definition with_Labels (f : gmap string string -> gmap string string) s : MSet L :=
  MkSet (CollectionStartTime s) (EntityCreateTime s) (ScrapeTime s) (Values s)
    (f (Labels s)) (LabeledValues s).
Definition with_LabeledValues (f : list (LabeledValue L) -> list (LabeledValue L)) s : MSet L :=
  MkSet (CollectionStartTime s) (EntityCreateTime s) (ScrapeTime s) (Values s)
    (Labels s) (f (LabeledValues s)).
Definition with_EntityCreateTime (t : Z) s : MSet L :=
  MkSet (CollectionStartTime s) t (ScrapeTime s) (Values s) (Labels s) (LabeledValues s).

(** A set literal [&Set{Values: .., Labels: ..}] with zero times. *)
Definition set_of (vals : gmap string Value) (labels : gmap string string) : MSet L :=
  MkSet time_zero time_zero time_zero vals labels [].

Definition set_value (name : string) (v : Value) s : MSet L :=
  with_Values (fun vs => <[name := v]> vs) s.
Definition set_label (name v : string) s : MSet L :=
  with_Labels (fun ls => <[name := v]> ls) s.
Definition add_labeled (lv : LabeledValue L) s : MSet L :=
  with_LabeledValues (fun l => l ++ [lv]) s.
End set_updates.

(** [FindLabels]: the labels of a metric of the set, and whether it is there.
    The labels of the set win over those of the value. *)
Definition copyLabels (dst src : gmap string string) : gmap string string := copy_into dst src.

Fixpoint find_labeled {L} (name : string) (l : list (LabeledValue L)) : option (LabeledValue L) :=
  match l with
  | [] => None
  | lv :: l' => if String.eqb (lv_Name lv) name then Some lv else find_labeled name l'
  end.

Definition FindLabels (s : Set_) (name : string) : gmap string string * bool :=
  match Values s !! name with
  | Some _ => (Labels s, true)
  | None =>
      match find_labeled name (LabeledValues s) with
      | Some lv => (copyLabels (copyLabels ∅ (lv_Labels lv)) (Labels s), true)
      | None => (∅, false)
      end
  end.

Definition Set_Points {L} (s : MSet L) : Z :=
  Z.of_nat (size (Values s)) + Z.of_nat (length (LabeledValues s)).

(** ** Label descriptors (labels.go) *)

Record LabelDescriptor := MkLabel { Key : string; Description : string }.

#[export] Instance LabelDescriptor_eq_dec : EqDecision LabelDescriptor.
Proof. solve_decision. Defined.

Definition label_zero : LabelDescriptor := MkLabel "" "".

Definition LabelMetricSetType := MkLabel "type"
  "Type of the metrics set (container, pod, namespace, node, cluster)".
Definition MetricSetTypeSystemContainer : string := "sys_container".
Definition MetricSetTypePodContainer : string := "pod_container".
Definition MetricSetTypePod : string := "pod".
Definition MetricSetTypeNamespace : string := "ns".
Definition MetricSetTypeNode : string := "node".
Definition MetricSetTypeCluster : string := "cluster".
Definition LabelCluster := MkLabel "cluster" "The name of the kubernetes cluster".
Definition LabelPodId := MkLabel "pod_id" "The unique ID of the pod".
Definition LabelPodName := MkLabel "pod_name" "The name of the pod".
Definition LabelNamespaceName := MkLabel "namespace_name" "The name of the namespace".
Definition LabelPodNamespaceUID := MkLabel "namespace_id" "The UID of namespace of the pod".
Definition LabelContainerName := MkLabel "container_name"
  "User-provided name of the container or full container name for system containers".
Definition LabelLabels := MkLabel "labels" "Comma-separated list of user-provided labels".
Definition LabelNodename := MkLabel "nodename" "nodename where the container ran".
Definition LabelNodeRole := MkLabel "node_role" "Node role worker or control-plane".
Definition LabelHostname := MkLabel "hostname" "Hostname where the container ran".
Definition LabelResourceID := MkLabel "resource_id" "Identifier(s) specific to a metric".
Definition LabelHostID := MkLabel "host_id"
  "Identifier specific to a host. Set by cloud provider or user".
Definition LabelContainerBaseImage := MkLabel "container_base_image"
  "User-defined image name that is run inside the container".
Definition LabelCustomMetricName := MkLabel "custom_metric_name"
  "User-defined name of the exported custom metric".
Definition LabelGCEResourceID := MkLabel "resource_id" "Resource id for nodes specific for GCE.".
Definition LabelGCEResourceType := MkLabel "resource_type"
  "Resource types for nodes specific for GCE.".
Definition LabelNodeSchedulable := MkLabel "schedulable" "Node schedulable status.".
Definition LabelVolumeName := MkLabel "volume_name" "The name of the volume.".
Definition LabelAcceleratorMake := MkLabel "make"
  "Make of the accelerator (nvidia, amd, google etc.)".
Definition LabelAcceleratorModel := MkLabel "model"
  "Model of the accelerator (tesla-p100, tesla-k80 etc.)".
Definition LabelAcceleratorID := MkLabel "accelerator_id" "ID of the accelerator".

Definition commonLabels := [LabelNodename; LabelHostname; LabelHostID].
Definition containerLabels := [LabelContainerName; LabelContainerBaseImage].
Definition podLabels := [LabelPodName; LabelPodId; LabelPodNamespaceUID; LabelLabels].
Definition metricLabels := [LabelResourceID].
Definition customMetricLabels := [LabelCustomMetricName].
Definition acceleratorLabels := [LabelAcceleratorMake; LabelAcceleratorModel; LabelAcceleratorID].
Definition gcmLabels := [LabelMetricSetType; LabelPodName; LabelNamespaceName; LabelHostname;
  LabelHostID; LabelContainerName; LabelContainerBaseImage; LabelCustomMetricName; LabelResourceID].
Definition gcmNodeAutoscalingLabels := [LabelGCEResourceID; LabelGCEResourceType; LabelHostname].

(** [copy(dst, src)] overwrites the first [min(len(dst), len(src))] elements. *)
Definition copy_slice {A} (dst src : list A) : list A :=
  take (length dst) src ++ drop (length src) dst.

(** [make([]LabelDescriptor, n)]. *)
Definition make_labels (n : nat) : list LabelDescriptor := replicate n label_zero.

Definition CommonLabels := copy_slice (make_labels (length commonLabels)) commonLabels.
Definition ContainerLabels := copy_slice (make_labels (length containerLabels)) containerLabels.
Definition PodLabels := copy_slice (make_labels (length podLabels)) podLabels.
Definition MetricLabels :=
  copy_slice
    (copy_slice (make_labels (length metricLabels + length customMetricLabels)) metricLabels)
    customMetricLabels.
Definition SupportedLabels := CommonLabels ++ PodLabels ++ MetricLabels.

Definition labels_by_key (l : list LabelDescriptor) : gmap string LabelDescriptor :=
  foldl (fun m d => <[Key d := d]> m) ∅ l.
Definition GcmLabels := labels_by_key gcmLabels.
Definition GcmNodeAutoscalingLabels := labels_by_key gcmNodeAutoscalingLabels.

(** ** Resource keys (resource_key.go) *)

Abbreviation ResourceKey := string (only parsing).

Definition Append (s t : ResourceKey) : ResourceKey := (s +:+ t)%string.
Definition PodContainerKey (namespace podName containerName : string) : ResourceKey :=
  ("namespace:" +:+ namespace +:+ "/pod:" +:+ podName +:+ "/container:" +:+ containerName)%string.
Definition PodKey (namespace podName : string) : ResourceKey :=
  ("namespace:" +:+ namespace +:+ "/pod:" +:+ podName)%string.
Definition NamespaceKey (namespace : string) : ResourceKey := ("namespace:" +:+ namespace)%string.
Definition NodeKey (node : string) : ResourceKey := ("node:" +:+ node)%string.
Definition NodeContainerKey (node container : string) : ResourceKey :=
  ("node:" +:+ node +:+ "/container:" +:+ container)%string.
Definition ClusterKey : ResourceKey := "cluster".
Definition ResourceKeys_Less (s t : ResourceKey) : bool := String.ltb s t.

(** ** Lemmas *)

Lemma Values_with_Values {L} f (s : MSet L) : Values (with_Values f s) = f (Values s).
Proof. done. Qed.
Lemma Labels_with_Values {L} f (s : MSet L) : Labels (with_Values f s) = Labels s.
Proof. done. Qed.

(** The components of a resource key. *)
Inductive key_parts :=
  | KPodContainer (ns pod c : string) | KPod (ns pod : string) | KNamespace (ns : string)
  | KNode (n : string) | KNodeContainer (n c : string) | KCluster.

Definition key_of (k : key_parts) : ResourceKey :=
  match k with
  | KPodContainer ns p c => PodContainerKey ns p c
  | KPod ns p => PodKey ns p
  | KNamespace ns => NamespaceKey ns
  | KNode n => NodeKey n
  | KNodeContainer n c => NodeContainerKey n c
  | KCluster => ClusterKey
  end.

(** Names as Kubernetes admits them: no slash.  The container of a
    node key may contain one (systemd slices do). *)
Definition key_wf (k : key_parts) : bool :=
  match k with
  | KPodContainer ns p c => str_free "/" ns && str_free "/" p && str_free "/" c
  | KPod ns p => str_free "/" ns && str_free "/" p
  | KNamespace ns => str_free "/" ns
  | KNode n => str_free "/" n
  | KNodeContainer n c => str_free "/" n
  | KCluster => true
  end.

Definition slash (s : string) : string := String "/" s.

Lemma PodKey_slash ns p : PodKey ns p = ("namespace:" +:+ (ns +:+ slash ("pod:" +:+ p)))%string.
Proof. done. Qed.
Lemma PodContainerKey_slash ns p c :
  PodContainerKey ns p c
  = ("namespace:" +:+ (ns +:+ slash ("pod:" +:+ (p +:+ slash ("container:" +:+ c)))))%string.
Proof. done. Qed.
Lemma NodeContainerKey_slash n c :
  NodeContainerKey n c = ("node:" +:+ (n +:+ slash ("container:" +:+ c)))%string.
Proof. done. Qed.

(** Equations between keys: strip the common prefix, then split at slashes. *)
Ltac solve_keys :=
  repeat match goal with
  | H : (?a +:+ ?b)%string = (?a +:+ ?c)%string |- _ => apply str_app_inj_l in H
  | H : slash _ = slash _ |- _ => injection H as H
  | H : (?a +:+ slash ?b)%string = (?c +:+ slash ?d)%string |- _ =>
      apply str_sep_inj in H as [? H]; [subst|done|done]
  | H : (?a +:+ slash ?b)%string = ?s |- _ =>
      exfalso; apply (str_sep_free "/" a b s); [done|exact H]
  | H : ?s = (?a +:+ slash ?b)%string |- _ => symmetry in H
  end.

Lemma key_of_inj (k1 k2 : key_parts) :
  key_wf k1 = true -> key_wf k2 = true -> key_of k1 = key_of k2 -> k1 = k2.
Proof.
  destruct k1 as [ns1 p1 c1|ns1 p1|ns1|n1|n1 c1|], k2 as [ns2 p2 c2|ns2 p2|ns2|n2|n2 c2|];
    cbn [key_wf key_of]; intros H1 H2 E; try discriminate E; try done.
  all: rewrite ?PodContainerKey_slash, ?PodKey_slash, ?NodeContainerKey_slash in E.
  all: unfold NamespaceKey, NodeKey in E.
  all: repeat match goal with H : _ && _ = true |- _ => apply andb_prop in H as [? ?] end.
  all: solve_keys; try congruence.
Qed.

(** ** Properties *)

(** Resource keys identify resources.  For names without a slash, the
    keys of two resources are equal only when the resources are of the same
    kind and have the same names, so no two entities of a batch share an
    entry of [Batch.Sets]. *)
Theorem key_of_injective (k1 k2 : key_parts) :
  key_wf k1 = true -> key_wf k2 = true -> key_of k1 = key_of k2 -> k1 = k2.
Proof. apply key_of_inj. Qed.

Lemma key_of_injective_witness :
  PodKey "a" "b" = PodKey "a" "b" /\ KPod "a" "b" = KPod "a" "b".
Proof. split; [done|]. by apply (key_of_injective (KPod "a" "b") (KPod "a" "b")). Defined.

(** [MetricLabels] loses the resource-id label.  Its second [copy] writes
    over the first instead of after it, so the slice has the custom-metric
    label followed by an empty descriptor, and [SupportedLabels] contains the
    empty descriptor and not the label of the resource id. *)
Theorem MetricLabels_overwritten :
  MetricLabels = [LabelCustomMetricName; label_zero] /\
  label_zero ∈ SupportedLabels /\ LabelResourceID ∉ SupportedLabels.
Proof.
  split_and!; [reflexivity| |].
  - apply (bool_decide_unpack _). by vm_compute.
  - apply (bool_decide_unpack _). by vm_compute.
Qed.
