(* ===== verification/MetricTable.v ===== *)
(** The metric table of internal/metrics/metrics.go: one [MetricDescriptor] per
    metric, the lists that group them, the mapping from cumulative metrics to
    their rates and the metric families.  The [HasValue]/[GetValue] closures
    over cAdvisor's container spec, which nothing in the collector calls, are
    not part of the table. *)

From S2P Require Import Prelude Metrics.

Record MetricDescriptor := MkDescriptor {
  md_Name : string;
  md_Description : string;
  md_Type : Type_;
  md_ValueType : ValueType_;
  md_Units : Unit_;
  md_Labels : list LabelDescriptor;
}.

Definition CustomMetricPrefix : string := "custom/".

Definition MetricUptime : MetricDescriptor := MkDescriptor
  "uptime" "Number of milliseconds since the container was started"
  Cumulative ValueInt64 Milliseconds [].

Definition MetricRestartCount : MetricDescriptor := MkDescriptor
  "restart_count" "Number of container restarts"
  Cumulative ValueInt64 Count [].

Definition MetricCpuLoad : MetricDescriptor := MkDescriptor
  "cpu/load" "CPU load"
  Gauge ValueInt64 Count [].

Definition MetricCpuUsage : MetricDescriptor := MkDescriptor
  "cpu/usage" "Cumulative CPU usage on all cores"
  Cumulative ValueInt64 Nanoseconds [].

Definition MetricCpuUsageCores : MetricDescriptor := MkDescriptor
  "cpu/usage_millicores" "Cumulative CPU usage on all cores averaged over time window"
  Cumulative ValueInt64 Millicores [].

Definition MetricEphemeralStorageUsage : MetricDescriptor := MkDescriptor
  "ephemeral_storage/usage" "Ephemeral storage usage"
  Gauge ValueInt64 Bytes [].

Definition MetricMemoryUsage : MetricDescriptor := MkDescriptor
  "memory/usage" "Total memory usage"
  Gauge ValueInt64 Bytes [].

Definition MetricMemoryCache : MetricDescriptor := MkDescriptor
  "memory/cache" "Cache memory"
  Gauge ValueInt64 Bytes [].

Definition MetricMemoryRSS : MetricDescriptor := MkDescriptor
  "memory/rss" "RSS memory"
  Gauge ValueInt64 Bytes [].

Definition MetricMemoryWorkingSet : MetricDescriptor := MkDescriptor
  "memory/working_set" "Total working set usage. Working set is the memory being used and not easily dropped by the kernel"
  Gauge ValueInt64 Bytes [].

Definition MetricMemoryPageFaults : MetricDescriptor := MkDescriptor
  "memory/page_faults" "Number of page faults"
  Cumulative ValueInt64 Count [].

Definition MetricMemoryMajorPageFaults : MetricDescriptor := MkDescriptor
  "memory/major_page_faults" "Number of major page faults"
  Cumulative ValueInt64 Count [].

Definition MetricNetworkRx : MetricDescriptor := MkDescriptor
  "network/rx" "Cumulative number of bytes received over the network"
  Cumulative ValueInt64 Bytes [].

Definition MetricNetworkRxErrors : MetricDescriptor := MkDescriptor
  "network/rx_errors" "Cumulative number of errors while receiving over the network"
  Cumulative ValueInt64 Count [].

Definition MetricNetworkTx : MetricDescriptor := MkDescriptor
  "network/tx" "Cumulative number of bytes sent over the network"
  Cumulative ValueInt64 Bytes [].

Definition MetricNetworkTxErrors : MetricDescriptor := MkDescriptor
  "network/tx_errors" "Cumulative number of errors while sending over the network"
  Cumulative ValueInt64 Count [].

Definition MetricCpuRequest : MetricDescriptor := MkDescriptor
  "cpu/request" "CPU request (the guaranteed amount of resources) in millicores. This metric is Kubernetes specific."
  Gauge ValueInt64 Count [].

Definition MetricCpuLimit : MetricDescriptor := MkDescriptor
  "cpu/limit" "CPU hard limit in millicores."
  Gauge ValueInt64 Count [].

Definition MetricMemoryRequest : MetricDescriptor := MkDescriptor
  "memory/request" "Memory request (the guaranteed amount of resources) in bytes. This metric is Kubernetes specific."
  Gauge ValueInt64 Bytes [].

Definition MetricMemoryLimit : MetricDescriptor := MkDescriptor
  "memory/limit" "Memory hard limit in bytes."
  Gauge ValueInt64 Bytes [].

Definition MetricEphemeralStorageRequest : MetricDescriptor := MkDescriptor
  "ephemeral_storage/request" "ephemeral storage request (the guaranteed amount of resources) in bytes. This metric is Kubernetes specific."
  Gauge ValueInt64 Bytes [].

Definition MetricEphemeralStorageLimit : MetricDescriptor := MkDescriptor
  "ephemeral_storage/limit" "ephemeral storage hard limit in bytes."
  Gauge ValueInt64 Bytes [].

Definition MetricCpuUsageRate : MetricDescriptor := MkDescriptor
  "cpu/usage_rate" "CPU usage on all cores in millicores"
  Gauge ValueInt64 Count [].

Definition MetricMemoryPageFaultsRate : MetricDescriptor := MkDescriptor
  "memory/page_faults_rate" "Rate of page faults in counts per second"
  Gauge ValueFloat Count [].

Definition MetricMemoryMajorPageFaultsRate : MetricDescriptor := MkDescriptor
  "memory/major_page_faults_rate" "Rate of major page faults in counts per second"
  Gauge ValueFloat Count [].

Definition MetricNetworkRxRate : MetricDescriptor := MkDescriptor
  "network/rx_rate" "Rate of bytes received over the network in bytes per second"
  Gauge ValueFloat Count [].

Definition MetricNetworkRxErrorsRate : MetricDescriptor := MkDescriptor
  "network/rx_errors_rate" "Rate of errors sending over the network in errors per second"
  Gauge ValueFloat Count [].

Definition MetricNetworkTxRate : MetricDescriptor := MkDescriptor
  "network/tx_rate" "Rate of bytes transmitted over the network in bytes per second"
  Gauge ValueFloat Count [].

Definition MetricNetworkTxErrorsRate : MetricDescriptor := MkDescriptor
  "network/tx_errors_rate" "Rate of errors transmitting over the network in errors per second"
  Gauge ValueFloat Count [].

Definition MetricNodeCpuCapacity : MetricDescriptor := MkDescriptor
  "cpu/node_capacity" "Cpu capacity of a node"
  Gauge ValueFloat Count [].

Definition MetricNodeMemoryCapacity : MetricDescriptor := MkDescriptor
  "memory/node_capacity" "Memory capacity of a node"
  Gauge ValueFloat Count [].

Definition MetricNodeEphemeralStorageCapacity : MetricDescriptor := MkDescriptor
  "ephemeral_storage/node_capacity" "Ephemeral storage capacity of a node"
  Gauge ValueFloat Count [].

Definition MetricNodeCpuAllocatable : MetricDescriptor := MkDescriptor
  "cpu/node_allocatable" "Cpu allocatable of a node"
  Gauge ValueFloat Count [].

Definition MetricNodeMemoryAllocatable : MetricDescriptor := MkDescriptor
  "memory/node_allocatable" "Memory allocatable of a node"
  Gauge ValueFloat Count [].

Definition MetricNodeEphemeralStorageAllocatable : MetricDescriptor := MkDescriptor
  "ephemeral_storage/node_allocatable" "Ephemeral storage allocatable of a node"
  Gauge ValueFloat Count [].

Definition MetricNodeCpuUtilization : MetricDescriptor := MkDescriptor
  "cpu/node_utilization" "Cpu utilization as a share of node capacity"
  Gauge ValueFloat Count [].

Definition MetricNodeMemoryUtilization : MetricDescriptor := MkDescriptor
  "memory/node_utilization" "Memory utilization as a share of memory capacity"
  Gauge ValueFloat Count [].

Definition MetricNodeEphemeralStorageUtilization : MetricDescriptor := MkDescriptor
  "ephemeral_storage/node_utilization" "Ephemeral storage utilization as a share of storage capacity"
  Gauge ValueFloat Count [].

Definition MetricNodeCpuReservation : MetricDescriptor := MkDescriptor
  "cpu/node_reservation" "Share of cpu that is reserved on the node"
  Gauge ValueFloat Count [].

Definition MetricNodeMemoryReservation : MetricDescriptor := MkDescriptor
  "memory/node_reservation" "Share of memory that is reserved on the node"
  Gauge ValueFloat Count [].

Definition MetricNodeEphemeralStorageReservation : MetricDescriptor := MkDescriptor
  "ephemeral_storage/node_reservation" "Share of ephemeral storage that is reserved on the node"
  Gauge ValueFloat Count [].

Definition MetricNodeCondition : MetricDescriptor := MkDescriptor
  "status/condition" "Node conditions"
  Gauge ValueInt64 Count [].

Definition MetricPodPhase : MetricDescriptor := MkDescriptor
  "status/phase" "Phase of pods"
  Gauge ValueInt64 Count [].

Definition MetricContainerStatus : MetricDescriptor := MkDescriptor
  "status" "Container status"
  Gauge ValueInt64 Count [].

Definition MetricPodCount : MetricDescriptor := MkDescriptor
  "pod/count" "Count of pods"
  Gauge ValueInt64 Count [].

Definition MetricPodContainerCount : MetricDescriptor := MkDescriptor
  "pod_container/count" "Count of pod containers"
  Gauge ValueInt64 Count [].

Definition MetricFilesystemUsage : MetricDescriptor := MkDescriptor
  "filesystem/usage" "Total number of bytes consumed on a filesystem"
  Gauge ValueInt64 Bytes metricLabels.

Definition MetricFilesystemLimit : MetricDescriptor := MkDescriptor
  "filesystem/limit" "The total size of filesystem in bytes"
  Gauge ValueInt64 Bytes metricLabels.

Definition MetricFilesystemAvailable : MetricDescriptor := MkDescriptor
  "filesystem/available" "The number of available bytes remaining in a the filesystem"
  Gauge ValueInt64 Bytes metricLabels.

Definition MetricFilesystemInodes : MetricDescriptor := MkDescriptor
  "filesystem/inodes" "Total number of inodes on a filesystem"
  Gauge ValueInt64 Bytes metricLabels.

Definition MetricFilesystemInodesFree : MetricDescriptor := MkDescriptor
  "filesystem/inodes_free" "Free number of inodes on a filesystem"
  Gauge ValueInt64 Bytes metricLabels.

Definition MetricAcceleratorMemoryTotal : MetricDescriptor := MkDescriptor
  "accelerator/memory_total" "Total accelerator memory (in bytes)"
  Gauge ValueInt64 Bytes acceleratorLabels.

Definition MetricAcceleratorMemoryUsed : MetricDescriptor := MkDescriptor
  "accelerator/memory_used" "Total accelerator memory allocated (in bytes)"
  Gauge ValueInt64 Bytes acceleratorLabels.

Definition MetricAcceleratorDutyCycle : MetricDescriptor := MkDescriptor
  "accelerator/duty_cycle" "Percent of time over the past sample period (10s) during which the accelerator was actively processing"
  Gauge ValueInt64 Count acceleratorLabels.

Definition MetricDiskIORead : MetricDescriptor := MkDescriptor
  "disk/io_read_bytes" "Cumulative number of bytes read over disk"
  Cumulative ValueInt64 Bytes metricLabels.

Definition MetricDiskIOWrite : MetricDescriptor := MkDescriptor
  "disk/io_write_bytes" "Cumulative number of bytes write over disk"
  Cumulative ValueInt64 Bytes metricLabels.

Definition MetricDiskIOReadRate : MetricDescriptor := MkDescriptor
  "disk/io_read_bytes_rate" "Rate of bytes read over disk in bytes per second"
  Gauge ValueFloat Count metricLabels.

Definition MetricDiskIOWriteRate : MetricDescriptor := MkDescriptor
  "disk/io_write_bytes_rate" "Rate of bytes written over disk in bytes per second"
  Gauge ValueFloat Count metricLabels.

Definition StandardMetrics : list MetricDescriptor := [
  MetricUptime;
  MetricCpuUsage;
  MetricCpuLoad;
  MetricEphemeralStorageUsage;
  MetricMemoryUsage;
  MetricMemoryRSS;
  MetricMemoryCache;
  MetricMemoryWorkingSet;
  MetricMemoryPageFaults;
  MetricMemoryMajorPageFaults;
  MetricNetworkRx;
  MetricNetworkRxErrors;
  MetricNetworkTx;
  MetricNetworkTxErrors
].

Definition AdditionalMetrics : list MetricDescriptor := [
  MetricCpuRequest;
  MetricCpuLimit;
  MetricMemoryRequest;
  MetricMemoryLimit;
  MetricEphemeralStorageRequest;
  MetricEphemeralStorageLimit
].

Definition RateMetrics : list MetricDescriptor := [
  MetricCpuUsageRate;
  MetricMemoryPageFaultsRate;
  MetricMemoryMajorPageFaultsRate;
  MetricNetworkRxRate;
  MetricNetworkRxErrorsRate;
  MetricNetworkTxRate;
  MetricNetworkTxErrorsRate;
  MetricDiskIOReadRate;
  MetricDiskIOWriteRate
].

Definition LabeledMetrics : list MetricDescriptor := [
  MetricDiskIORead;
  MetricDiskIOReadRate;
  MetricDiskIOWrite;
  MetricDiskIOWriteRate;
  MetricFilesystemUsage;
  MetricFilesystemLimit;
  MetricFilesystemAvailable;
  MetricFilesystemInodes;
  MetricFilesystemInodesFree;
  MetricAcceleratorMemoryTotal;
  MetricAcceleratorMemoryUsed;
  MetricAcceleratorDutyCycle
].

Definition NodeAutoscalingMetrics : list MetricDescriptor := [
  MetricNodeCpuCapacity;
  MetricNodeMemoryCapacity;
  MetricNodeEphemeralStorageCapacity;
  MetricNodeCpuAllocatable;
  MetricNodeMemoryAllocatable;
  MetricNodeEphemeralStorageAllocatable;
  MetricNodeCpuUtilization;
  MetricNodeMemoryUtilization;
  MetricNodeEphemeralStorageUtilization;
  MetricNodeCpuReservation;
  MetricNodeMemoryReservation;
  MetricNodeEphemeralStorageReservation
].

Definition CpuMetrics : list MetricDescriptor := [
  MetricCpuLimit;
  MetricCpuRequest;
  MetricCpuUsage;
  MetricCpuLoad;
  MetricCpuUsageRate;
  MetricNodeCpuAllocatable;
  MetricNodeCpuCapacity;
  MetricNodeCpuReservation;
  MetricNodeCpuUtilization
].

Definition FilesystemMetrics : list MetricDescriptor := [
  MetricFilesystemAvailable;
  MetricFilesystemLimit;
  MetricFilesystemUsage;
  MetricFilesystemInodes;
  MetricFilesystemInodesFree
].

Definition MemoryMetrics : list MetricDescriptor := [
  MetricMemoryLimit;
  MetricMemoryMajorPageFaults;
  MetricMemoryMajorPageFaultsRate;
  MetricMemoryPageFaults;
  MetricMemoryPageFaultsRate;
  MetricMemoryRequest;
  MetricMemoryUsage;
  MetricMemoryRSS;
  MetricMemoryCache;
  MetricMemoryWorkingSet;
  MetricNodeMemoryAllocatable;
  MetricNodeMemoryCapacity;
  MetricNodeMemoryUtilization;
  MetricNodeMemoryReservation
].

Definition NetworkMetrics : list MetricDescriptor := [
  MetricNetworkRx;
  MetricNetworkRxErrors;
  MetricNetworkRxErrorsRate;
  MetricNetworkRxRate;
  MetricNetworkTx;
  MetricNetworkTxErrors;
  MetricNetworkTxErrorsRate;
  MetricNetworkTxRate
].

Definition AllMetrics : list MetricDescriptor :=
  StandardMetrics ++ AdditionalMetrics ++ RateMetrics ++ LabeledMetrics ++ NodeAutoscalingMetrics.

(** The composite literal of [RateMetricsMapping], and the map it builds. *)
Definition rate_entries : list (string * MetricDescriptor) := [
  (md_Name MetricCpuUsage, MetricCpuUsageRate);
  (md_Name MetricMemoryPageFaults, MetricMemoryPageFaultsRate);
  (md_Name MetricMemoryMajorPageFaults, MetricMemoryMajorPageFaultsRate);
  (md_Name MetricNetworkRx, MetricNetworkRxRate);
  (md_Name MetricNetworkRxErrors, MetricNetworkRxErrorsRate);
  (md_Name MetricNetworkTx, MetricNetworkTxRate);
  (md_Name MetricNetworkTxErrors, MetricNetworkTxErrorsRate);
  (md_Name MetricDiskIORead, MetricDiskIOReadRate);
  (md_Name MetricDiskIOWrite, MetricDiskIOWriteRate)
].
Definition RateMetricsMapping : gmap string MetricDescriptor := list_to_map rate_entries.

(** The request metrics known before any pod is seen; [updateContainerResources-
    AndLimits] adds to the map (PodEnricher.v). *)
Definition ResourceRequestMetrics : gmap string MetricDescriptor := list_to_map [
  ("cpu", MetricCpuRequest);
  ("memory", MetricMemoryRequest);
  ("ephemeral-storage", MetricEphemeralStorageRequest)
].

Definition MetricFamilyGeneral : string := "general".
Definition MetricFamilies : gmap string (list MetricDescriptor) := list_to_map [
  ("cpu", CpuMetrics);
  ("filesystem", FilesystemMetrics);
  ("memory", MemoryMetrics);
  ("network", NetworkMetrics)
].

Definition has_name (name : string) (l : list MetricDescriptor) : bool :=
  existsb (fun m => String.eqb name (md_Name m)) l.

(** [MetricFamilyForName]: [order] is the order in which the loop visits the
    families. *)
Fixpoint MetricFamilyForName (order : list (string * list MetricDescriptor))
    (metricName : string) : string :=
  match order with
  | [] => MetricFamilyGeneral
  | (family, ms) :: order' =>
      if has_name metricName ms then family else MetricFamilyForName order' metricName
  end.

Definition IsNodeAutoscalingMetric (name : string) : bool :=
  existsb (fun m => String.eqb (md_Name m) name) NodeAutoscalingMetrics.

(** ** Properties *)

(** The names that occur in two families. *)
Definition family_clash : bool :=
  forallb (fun '(f1, l1) => forallb (fun '(f2, l2) =>
    String.eqb f1 f2 || negb (existsb (fun m => has_name (md_Name m) l2) l1))
    (map_to_list MetricFamilies)) (map_to_list MetricFamilies).

Lemma family_clash_free : family_clash = true.
Proof. by vm_compute. Qed.

Lemma has_name_clash n l1 l2 :
  has_name n l1 = true -> has_name n l2 = true ->
  existsb (fun m => has_name (md_Name m) l2) l1 = true.
Proof.
  unfold has_name at 1. rewrite existsb_exists. intros (m & Hin & ->%String.eqb_eq) H2.
  apply existsb_exists. eauto.
Qed.

Lemma families_disjoint f1 l1 f2 l2 n :
  MetricFamilies !! f1 = Some l1 -> MetricFamilies !! f2 = Some l2 ->
  has_name n l1 = true -> has_name n l2 = true -> f1 = f2.
Proof.
  intros H1%elem_of_map_to_list%list_elem_of_In H2%elem_of_map_to_list%list_elem_of_In Hn1 Hn2.
  pose proof family_clash_free as Hc. unfold family_clash in Hc.
  pose proof (proj1 (forallb_forall _ _) Hc _ H1) as Hc1. cbn in Hc1.
  pose proof (proj1 (forallb_forall _ _) Hc1 _ H2) as Hc2. cbn in Hc2.
  rewrite (has_name_clash n l1 l2 Hn1 Hn2), orb_false_r in Hc2.
  by apply String.eqb_eq in Hc2.
Qed.

Lemma MetricFamilyForName_elem order n f :
  MetricFamilyForName order n = f ->
  (exists l, (f, l) ∈ order /\ has_name n l = true) \/
  (f = MetricFamilyGeneral /\ forall f' l, (f', l) ∈ order -> has_name n l = false).
Proof.
  induction order as [|[f0 l0] order IH]; cbn; intros H.
  - right. split; [done|]. intros ?? Hin. by apply not_elem_of_nil in Hin.
  - destruct (has_name n l0) eqn:E.
    + subst. left. exists l0. split; [by left|done].
    + destruct (IH H) as [(l & Hin & Hl)|[-> Hall]].
      * left. exists l. split; [by right|done].
      * right. split; [done|]. intros f' l [[= -> ->]|Hin]%elem_of_cons; [done|]. by eapply Hall.
Qed.

(** [MetricFamilyForName] is a function of the metric name although it
    ranges over a map: no metric name is in two families, so every iteration
    order of [MetricFamilies] gives the same family. *)
Theorem MetricFamilyForName_order_irrelevant (o1 o2 : list (string * list MetricDescriptor)) (n : string) :
  iterates o1 MetricFamilies -> iterates o2 MetricFamilies ->
  MetricFamilyForName o1 n = MetricFamilyForName o2 n.
Proof.
  intros H1 H2.
  destruct (MetricFamilyForName_elem o1 n _ eq_refl) as [(l1 & Hi1 & Hn1)|[-> Hg1]],
    (MetricFamilyForName_elem o2 n _ eq_refl) as [(l2 & Hi2 & Hn2)|[-> Hg2]].
  - eapply families_disjoint; [| |exact Hn1|exact Hn2];
      [by rewrite <- (iterates_elem _ _ _ _ H1)|by rewrite <- (iterates_elem _ _ _ _ H2)].
  - exfalso. rewrite (iterates_elem _ _ _ _ H1), <- (iterates_elem _ _ _ _ H2) in Hi1.
    by rewrite (Hg2 _ _ Hi1) in Hn1.
  - exfalso. rewrite (iterates_elem _ _ _ _ H2), <- (iterates_elem _ _ _ _ H1) in Hi2.
    by rewrite (Hg1 _ _ Hi2) in Hn2.
  - done.
Qed.

Lemma MetricFamilyForName_order_irrelevant_witness :
  MetricFamilyForName (map_to_list MetricFamilies) "cpu/limit"
  = MetricFamilyForName (reverse (map_to_list MetricFamilies)) "cpu/limit".
Proof.
  apply MetricFamilyForName_order_irrelevant;
    [apply iterates_canonical|unfold iterates; apply reverse_Permutation].
Defined.

(** The rate table is well formed: what [RateCalculator] relies on. *)
Definition rate_table_ok : bool :=
  forallb (fun '(n, t) =>
    existsb (fun m => String.eqb (md_Name m) n && bool_decide (md_Type m = Cumulative))
      (StandardMetrics ++ LabeledMetrics)
    && bool_decide (md_Type t = Gauge)
    && negb (existsb (fun '(n', _) => String.eqb n' (md_Name t)) rate_entries)
    && bool_decide (md_ValueType t = if String.eqb n "cpu/usage" then ValueInt64 else ValueFloat)
    && existsb (fun m => String.eqb (md_Name m) (md_Name t)) RateMetrics) rate_entries
  && bool_decide (NoDup (map fst rate_entries))
  && bool_decide (NoDup (map (fun e => md_Name e.2) rate_entries)).

Lemma rate_table_is_ok : rate_table_ok = true.
Proof. by vm_compute. Qed.
