(* ===== verification/Aggregators.v ===== *)
(** The aggregating processors: plugins/processors helper.go,
    sum_count_aggregator.go, namespace_aggregator.go, node_aggregator.go and
    cluster_aggregator.go, with the lists cmd/wavefront-collector/main.go
    configures them with.

    Every key of [Batch.Sets] holds its own set object (each source allocates
    one per key), so a batch is a map from keys to sets and an update through
    a group's pointer is an update of the group's entry.  A [range] over
    [batch.Sets] that also inserts into it visits the keys in some order, with
    keys inserted on the way visited or not: the visited keys are an argument,
    constrained by [valid_visits]. *)

From S2P Require Import Prelude GoFloat Metrics MetricTable.

Abbreviation Sets := (gmap string Set_).

(** ** helper.go *)

(** One round of the loop of [aggregate]. *)
Definition aggregate_step (src : Set_) (dst : Set_) (metricName : string) : result Set_ :=
  match Values src !! metricName with
  | None => Ok dst
  | Some metricValue =>
      match Values dst !! metricName with
      | Some aggregatedValue =>
          if decide (ValueType aggregatedValue = ValueType metricValue) then
            match ValueType aggregatedValue with
            | ValueInt64 => Ok (set_value metricName
                (MkValue (i64_add (IntValue aggregatedValue) (IntValue metricValue))
                   (FloatValue aggregatedValue) ValueInt64) dst)
            | ValueFloat => Ok (set_value metricName
                (MkValue (IntValue aggregatedValue)
                   (f64_add (FloatValue aggregatedValue) (FloatValue metricValue)) ValueFloat) dst)
            | ValueOther _ => Err ("aggregator: type not supported in " +:+ metricName)%string
            end
          else Err ("aggregator: type not supported in " +:+ metricName)%string
      | None => Ok (set_value metricName metricValue dst)
      end
  end.

Definition aggregate (src dst : Set_) (metricsToAggregate : list string) : result Set_ :=
  foldM (aggregate_step src) dst metricsToAggregate.

(** The count a source contributes: its own count, or one. *)
Definition src_count (metricName : string) (src : Set_) : Z :=
  match Values src !! metricName with Some count => IntValue count | None => 1 end.

Definition aggregateCount (src dst : Set_) (metricName : string) : Set_ :=
  let srcCount := src_count metricName src in
  match Values dst !! metricName with
  | Some dstCount => set_value metricName
      (MkValue (i64_add (IntValue dstCount) srcCount) (FloatValue dstCount) (ValueType dstCount)) dst
  | None => set_value metricName (intValue srcCount) dst
  end.

(** ** sum_count_aggregator.go *)

Record SumCountAggregateSpec := MkSpec {
  ResourceSumMetrics : list string;
  ResourceCountMetric : string;
  IsPartOfGroup : Set_ -> bool;
  Group : Sets -> string -> Set_ -> string * option Set_;
}.

Record SumCountAggregator := NewSumCountAggregator { agg_name : string; agg_specs : list SumCountAggregateSpec }.

Definition SumCountAggregator_Name (a : SumCountAggregator) : string :=
  (agg_name a +:+ "_aggregator")%string.

Definition isType (matchType : string) (set : Set_) : bool :=
  String.eqb (get_str (Labels set) (Key LabelMetricSetType)) matchType.

Definition podTakesUpResources (set : Set_) : bool :=
  let '(labels, _) := FindLabels set (md_Name MetricPodPhase) in
  String.eqb (get_str labels "phase") "Running".

Definition podContainerTakesUpResources (set : Set_) : bool :=
  let '(labels, _) := FindLabels set (md_Name MetricContainerStatus) in
  negb (String.eqb (get_str labels "state") "terminated").

Definition isAggregatablePod (set : Set_) : bool :=
  isType MetricSetTypePod set && podTakesUpResources set.
Definition isAggregatablePodContainer (set : Set_) : bool :=
  isType MetricSetTypePodContainer set && podContainerTakesUpResources set.

(** One visit of the loop over [batch.Sets]. *)
Definition process_step (spec : SumCountAggregateSpec) (sets : Sets) (resourceKey : string)
    : result Sets :=
  match sets !! resourceKey with
  | None => Ok sets
  | Some resourceSet =>
      if negb (IsPartOfGroup spec resourceSet) then Ok sets
      else match Group spec sets resourceKey resourceSet with
           | (_, None) => Ok sets
           | (groupKey, Some groupSet) =>
               let groupSet := aggregateCount resourceSet groupSet (ResourceCountMetric spec) in
               aggregate resourceSet groupSet (ResourceSumMetrics spec) ≫= fun groupSet =>
               Ok (<[groupKey := groupSet]> sets)
           end
  end.

Definition process_spec (spec : SumCountAggregateSpec) (visits : list string) (sets : Sets)
    : result Sets := foldM (process_step spec) sets visits.

(** [Process]: one sequence of visits per specification. *)
Fixpoint process_specs (specs : list SumCountAggregateSpec) (visits : list (list string))
    (sets : Sets) : result Sets :=
  match specs, visits with
  | spec :: specs', v :: visits' => process_spec spec v sets ≫= process_specs specs' visits'
  | _, _ => Ok sets
  end.

Definition Process (a : SumCountAggregator) (visits : list (list string)) (sets : Sets)
    : result Sets := process_specs (agg_specs a) visits sets.

(** Every key of the map is visited, and none twice. *)
Definition valid_visits (sets : Sets) (visits : list string) : Prop :=
  NoDup visits /\ forall k, is_Some (sets !! k) -> k ∈ visits.

(** ** The three groupings *)

Definition namespaceMetricSet (namespaceName uid : string) : Set_ :=
  set_of ∅ (<[Key LabelPodNamespaceUID := uid]>
            (<[Key LabelNamespaceName := namespaceName]>
             {[Key LabelMetricSetType := MetricSetTypeNamespace]})).

Definition namespaceGroup (sets : Sets) (resourceKey : string) (resourceSet : Set_)
    : string * option Set_ :=
  match Labels resourceSet !! Key LabelNamespaceName with
  | None => ("", None)
  | Some namespaceName =>
      let namespaceKey := NamespaceKey namespaceName in
      match sets !! namespaceKey with
      | Some namespaceSet => (namespaceKey, Some namespaceSet)
      | None => (namespaceKey, Some (namespaceMetricSet namespaceName
          (get_str (Labels resourceSet) (Key LabelPodNamespaceUID))))
      end
  end.

Definition nodeGroup (sets : Sets) (resourceKey : string) (resourceSet : Set_)
    : string * option Set_ :=
  let nodeName := get_str (Labels resourceSet) (Key LabelNodename) in
  if String.eqb nodeName "" then ("", None)
  else let nodeKey := NodeKey nodeName in (nodeKey, sets !! nodeKey).

Definition clusterMetricSet : Set_ :=
  set_of ∅ {[Key LabelMetricSetType := MetricSetTypeCluster]}.

Definition clusterGroup (sets : Sets) (_ : string) (_ : Set_) : string * option Set_ :=
  match sets !! ClusterKey with
  | Some clusterSet => (ClusterKey, Some clusterSet)
  | None => (ClusterKey, Some clusterMetricSet)
  end.

Definition pod_spec (ms : list string) group :=
  MkSpec ms (md_Name MetricPodCount) isAggregatablePod group.
Definition container_spec group :=
  MkSpec [] (md_Name MetricPodContainerCount) isAggregatablePodContainer group.

Definition NewNamespaceAggregator (metricsToAggregate : list string) : SumCountAggregator :=
  NewSumCountAggregator "namespace" [pod_spec metricsToAggregate namespaceGroup;
    container_spec namespaceGroup].
Definition NewNodeAggregator (metricsToAggregate : list string) : SumCountAggregator :=
  NewSumCountAggregator "node" [pod_spec metricsToAggregate nodeGroup; container_spec nodeGroup].

Definition cluster_pod_spec (ms : list string) :=
  MkSpec ms (md_Name MetricPodCount) (isType MetricSetTypeNamespace) clusterGroup.
Definition cluster_container_spec :=
  MkSpec [] (md_Name MetricPodContainerCount) (isType MetricSetTypeNamespace) clusterGroup.
Definition NewClusterAggregator (metricsToAggregate : list string) : SumCountAggregator :=
  NewSumCountAggregator "cluster" [cluster_pod_spec metricsToAggregate; cluster_container_spec].

(** What main.go passes to them. *)
Definition metricsToAggregate : list string := map md_Name
  [MetricCpuUsageRate; MetricMemoryUsage; MetricCpuRequest; MetricCpuLimit;
   MetricMemoryRequest; MetricMemoryLimit].
Definition metricsToAggregateForNode : list string := map md_Name
  [MetricCpuRequest; MetricCpuLimit; MetricMemoryRequest; MetricMemoryLimit;
   MetricEphemeralStorageRequest; MetricEphemeralStorageLimit].

(** ** The integer a set reports for a metric *)

Definition int_at (name : string) (s : Set_) : Z :=
  match Values s !! name with Some v => IntValue v | None => 0 end.
Definition int_typed (name : string) (s : Set_) : Prop :=
  forall v, Values s !! name = Some v -> ValueType v = ValueInt64.

(** The values of the named metrics are [int64]s, as the sources report them. *)
Definition int_values (ms : list string) (s : Set_) : Prop :=
  forall n v, n ∈ ms -> Values s !! n = Some v -> ValueType v = ValueInt64 /\ in_i64 (IntValue v).
Definition batch_ints (ms : list string) (sets : Sets) : Prop :=
  forall k s, sets !! k = Some s -> int_values ms s.

Lemma int_values_typed ms s n : int_values ms s -> n ∈ ms -> int_typed n s.
Proof. intros H Hn v Hv. by apply (H n). Qed.

Lemma int_values_range ms s n : int_values ms s -> n ∈ ms -> in_i64 (int_at n s).
Proof.
  intros H Hn. unfold int_at. destruct (Values s !! n) eqn:E; [by apply (H n)|done].
Qed.

Lemma src_count_range ms s n : int_values ms s -> n ∈ ms -> in_i64 (src_count n s).
Proof.
  intros H Hn. unfold src_count. destruct (Values s !! n) eqn:E; [by apply (H n)|done].
Qed.

Lemma int_values_empty ms s : Values s = ∅ -> int_values ms s.
Proof. intros H n v _. by rewrite H, lookup_empty. Qed.

Lemma int_values_set ms s n v :
  int_values ms s -> ValueType v = ValueInt64 -> in_i64 (IntValue v) ->
  int_values ms (set_value n v s).
Proof.
  intros H Hty Hr m w Hm. cbn. destruct (decide (n = m)) as [->|Hne].
  - rewrite lookup_insert_eq. by intros [= <-].
  - rewrite lookup_insert_ne by done. by apply H.
Qed.

(** On integer values an aggregation succeeds and stays within them. *)
Lemma aggregate_step_total ms src dst n :
  n ∈ ms -> int_values ms src -> int_values ms dst ->
  exists dst', aggregate_step src dst n = Ok dst' /\ int_values ms dst'.
Proof.
  intros Hn Hs Hd. unfold aggregate_step.
  destruct (Values src !! n) as [v|] eqn:Ev; [|by eauto].
  destruct (Hs n v Hn Ev) as [Hv Hvr].
  destruct (Values dst !! n) as [a|] eqn:Ea.
  - destruct (Hd n a Hn Ea) as [Ha Har]. rewrite decide_True by congruence. rewrite Ha.
    eexists; split; [done|]. apply int_values_set; [done|done|apply wrap64_range].
  - eexists; split; [done|]. by apply int_values_set.
Qed.

Lemma aggregate_total ms ns src dst :
  ns ⊆ ms -> int_values ms src -> int_values ms dst ->
  exists dst', aggregate src dst ns = Ok dst' /\ int_values ms dst'.
Proof.
  intros Hsub Hs Hd. apply foldM_total; [|done].
  intros d n Hn Hd'. apply aggregate_step_total; [by apply Hsub|done|done].
Qed.

Lemma aggregateCount_ints ms src dst n :
  n ∈ ms -> int_values ms src -> int_values ms dst -> int_values ms (aggregateCount src dst n).
Proof.
  intros Hn Hs Hd. unfold aggregateCount. destruct (Values dst !! n) as [a|] eqn:Ea.
  - destruct (Hd n a Hn Ea) as [Ha Har]. apply int_values_set; [done|done|apply wrap64_range].
  - apply int_values_set; [done|done|by eapply src_count_range].
Qed.

Lemma aggregateCount_other src dst n m :
  n <> m -> int_at m (aggregateCount src dst n) = int_at m dst.
Proof.
  intros Hne. unfold aggregateCount, int_at.
  destruct (Values dst !! n); cbn; by rewrite lookup_insert_ne.
Qed.

Lemma aggregateCount_count src dst n :
  in_i64 (src_count n src) ->
  int_at n (aggregateCount src dst n) = wrap64 (int_at n dst + src_count n src).
Proof.
  intros Hr. unfold aggregateCount, int_at.
  destruct (Values dst !! n); cbn; rewrite lookup_insert_eq; [done|].
  cbn. by rewrite wrap64_id.
Qed.

Lemma aggregate_step_labels src dst n dst' :
  aggregate_step src dst n = Ok dst' -> exists f, dst' = with_Values f dst.
Proof.
  unfold aggregate_step, set_value. intros H. repeat case_match; simplify_eq; eauto.
  exists id. by destruct dst'.
Qed.

Lemma aggregate_labels src dst ms dst' :
  aggregate src dst ms = Ok dst' -> exists f, dst' = with_Values f dst.
Proof.
  unfold aggregate. apply (foldM_inv _ (fun d => exists f, d = with_Values f dst)).
  - intros d n d' _ [f ->] H. apply aggregate_step_labels in H as [g ->].
    exists (fun v => g (f v)). done.
  - exists id. by destruct dst.
Qed.

Lemma aggregateCount_labels src dst n : exists f, aggregateCount src dst n = with_Values f dst.
Proof. unfold aggregateCount, set_value. case_match; eauto. Qed.

Lemma aggregate_step_other src dst n m dst' :
  n <> m -> aggregate_step src dst n = Ok dst' -> Values dst' !! m = Values dst !! m.
Proof.
  unfold aggregate_step, set_value. intros Hne H.
  repeat case_match; simplify_eq; cbn; by rewrite ?lookup_insert_ne.
Qed.

Lemma aggregate_other src dst ms m dst' :
  m ∉ ms -> aggregate src dst ms = Ok dst' -> Values dst' !! m = Values dst !! m.
Proof.
  intros Hm. unfold aggregate.
  apply (foldM_inv _ (fun d => Values d !! m = Values dst !! m)); [|done].
  intros d n d' Hn <- H. eapply aggregate_step_other; [|exact H]. by intros ->.
Qed.

Lemma aggregate_step_int src dst n dst' :
  int_typed n src -> in_i64 (int_at n src) -> in_i64 (int_at n dst) ->
  aggregate_step src dst n = Ok dst' ->
  int_at n dst' = wrap64 (int_at n dst + int_at n src).
Proof.
  unfold aggregate_step, set_value, int_at. intros Hty Hs Hd H.
  destruct (Values src !! n) as [v|] eqn:Ev.
  - specialize (Hty v Ev). destruct (Values dst !! n) as [a|] eqn:Ea.
    + case_decide as Hdec; [|done]. rewrite Hty in Hdec. rewrite Hdec in H.
      injection H as <-. cbn. by rewrite lookup_insert_eq.
    + injection H as <-. cbn. rewrite lookup_insert_eq. symmetry; by apply wrap64_id.
  - injection H as <-. rewrite Z.add_0_r. by rewrite wrap64_id.
Qed.

Lemma aggregate_int src dst ms n dst' :
  NoDup ms -> n ∈ ms -> int_typed n src -> in_i64 (int_at n src) -> in_i64 (int_at n dst) ->
  aggregate src dst ms = Ok dst' -> int_at n dst' = wrap64 (int_at n dst + int_at n src).
Proof.
  intros Hnd Hin Hty Hs Hd. revert dst Hd. unfold aggregate.
  induction ms as [|m ms IH]; [by apply not_elem_of_nil in Hin|].
  apply NoDup_cons in Hnd as [Hm Hnd]. intros dst Hd; cbn.
  destruct (aggregate_step src dst m) as [d|e] eqn:E; cbn; [|done]. intros H.
  apply elem_of_cons in Hin as [->|Hin].
  - unfold int_at at 1. rewrite (aggregate_other src d ms m dst' Hm H).
    by apply aggregate_step_int.
  - assert (int_at n d = int_at n dst) as Ed.
    { unfold int_at. erewrite aggregate_step_other; [done| |exact E]. by intros ->. }
    rewrite <- Ed. apply IH; [done|done|by rewrite Ed|done].
Qed.

(** ** The contract of a grouping

    What [SumCountAggregator] needs of a specification: its group is a
    function of the resource set, a missing group is created empty or not at
    all, and a set of the group's kind is never a member (so that groups are
    not aggregated into groups). *)
Class Grouping (spec : SumCountAggregateSpec) : Type := {
  grp_key : Set_ -> option string;
  grp_new : Set_ -> option Set_;
  grp_kind : Set_ -> bool;
  grp_creates : bool;
  grp_new_creates s g : grp_key s = Some g -> grp_creates = bool_decide (is_Some (grp_new s));
  grp_member_kind s : IsPartOfGroup spec s = true -> grp_kind s = true;
  grp_kind_values f s : grp_kind (with_Values f s) = grp_kind s;
  grp_new_spec s d : grp_new s = Some d -> grp_kind d = false /\ Values d = ∅;
  grp_group sets k s :
    Group spec sets k s =
    match grp_key s with
    | None => ("", None)
    | Some g => (g, match sets !! g with Some gs => Some gs | None => grp_new s end)
    end;
}.

Definition namespace_key (s : Set_) : option string :=
  match Labels s !! Key LabelNamespaceName with Some n => Some (NamespaceKey n) | None => None end.
Definition namespace_new (s : Set_) : option Set_ :=
  match Labels s !! Key LabelNamespaceName with
  | Some n => Some (namespaceMetricSet n (get_str (Labels s) (Key LabelPodNamespaceUID)))
  | None => None
  end.

Lemma namespaceGroup_eq sets k s :
  namespaceGroup sets k s =
  match namespace_key s with
  | None => ("", None)
  | Some g => (g, match sets !! g with Some gs => Some gs | None => namespace_new s end)
  end.
Proof.
  unfold namespaceGroup, namespace_key, namespace_new.
  destruct (Labels s !! Key LabelNamespaceName) as [n|]; [|done].
  by destruct (sets !! NamespaceKey n).
Qed.

Lemma namespace_new_spec kind s d :
  kind <> MetricSetTypeNamespace -> namespace_new s = Some d ->
  isType kind d = false /\ Values d = ∅.
Proof.
  unfold namespace_new. intros Hk H. case_match; [|done]. injection H as <-.
  split; [|done]. unfold isType. cbn. by apply String.eqb_neq.
Qed.

Lemma namespace_new_creates s g :
  namespace_key s = Some g -> true = bool_decide (is_Some (namespace_new s)).
Proof. unfold namespace_key, namespace_new. by destruct (Labels s !! Key LabelNamespaceName). Qed.

#[export] Program Instance namespace_pod_grouping ms : Grouping (pod_spec ms namespaceGroup) := {
  grp_key := namespace_key;
  grp_new := namespace_new;
  grp_kind := isType MetricSetTypePod;
  grp_creates := true;
}.
Next Obligation. intros ms s g. apply namespace_new_creates. Qed.
Next Obligation. by intros ms s [? _]%andb_prop. Qed.
Next Obligation. done. Qed.
Next Obligation. intros ms s d. by apply namespace_new_spec. Qed.
Next Obligation. intros ms. exact namespaceGroup_eq. Qed.

#[export] Program Instance namespace_container_grouping : Grouping (container_spec namespaceGroup) := {
  grp_key := namespace_key;
  grp_new := namespace_new;
  grp_kind := isType MetricSetTypePodContainer;
  grp_creates := true;
}.
Next Obligation. intros s g. apply namespace_new_creates. Qed.
Next Obligation. by intros s [? _]%andb_prop. Qed.
Next Obligation. done. Qed.
Next Obligation. intros s d. by apply namespace_new_spec. Qed.
Next Obligation. exact namespaceGroup_eq. Qed.

Definition node_key (s : Set_) : option string :=
  let n := get_str (Labels s) (Key LabelNodename) in
  if String.eqb n "" then None else Some (NodeKey n).

Lemma nodeGroup_eq sets k s :
  nodeGroup sets k s =
  match node_key s with
  | None => ("", None)
  | Some g => (g, match sets !! g with Some gs => Some gs | None => None end)
  end.
Proof.
  unfold nodeGroup, node_key. destruct (String.eqb _ ""); [done|].
  by destruct (sets !! _).
Qed.

#[export] Program Instance node_pod_grouping ms : Grouping (pod_spec ms nodeGroup) := {
  grp_key := node_key;
  grp_new _ := None;
  grp_kind := isType MetricSetTypePod;
  grp_creates := false;
}.
Next Obligation. done. Qed.
Next Obligation. by intros ms s [? _]%andb_prop. Qed.
Next Obligation. done. Qed.
Next Obligation. done. Qed.
Next Obligation. intros ms. exact nodeGroup_eq. Qed.

#[export] Program Instance node_container_grouping : Grouping (container_spec nodeGroup) := {
  grp_key := node_key;
  grp_new _ := None;
  grp_kind := isType MetricSetTypePodContainer;
  grp_creates := false;
}.
Next Obligation. done. Qed.
Next Obligation. by intros s [? _]%andb_prop. Qed.
Next Obligation. done. Qed.
Next Obligation. done. Qed.
Next Obligation. exact nodeGroup_eq. Qed.

#[export] Program Instance cluster_pod_grouping ms : Grouping (cluster_pod_spec ms) := {
  grp_key _ := Some ClusterKey;
  grp_new _ := Some clusterMetricSet;
  grp_kind := isType MetricSetTypeNamespace;
  grp_creates := true;
}.
Next Obligation. done. Qed.
Next Obligation. done. Qed.
Next Obligation. done. Qed.
Next Obligation. intros ms s d H; injection H as <-; done. Qed.
Next Obligation. intros ms sets k s. cbn. unfold clusterGroup. by destruct (sets !! _). Qed.

#[export] Program Instance cluster_container_grouping : Grouping cluster_container_spec := {
  grp_key _ := Some ClusterKey;
  grp_new _ := Some clusterMetricSet;
  grp_kind := isType MetricSetTypeNamespace;
  grp_creates := true;
}.
Next Obligation. done. Qed.
Next Obligation. done. Qed.
Next Obligation. done. Qed.
Next Obligation. intros s d H; injection H as <-; done. Qed.
Next Obligation. intros sets k s. cbn. unfold clusterGroup. by destruct (sets !! _). Qed.

(** ** One specification computes, per group, the fold over its members *)

Section grouping.
Context (spec : SumCountAggregateSpec) `{!Grouping spec}.

(** The members of group [g] among the visited keys, in visiting order. *)
Definition member_at (sets : Sets) (g k : string) : option Set_ :=
  s ← sets !! k;
  if IsPartOfGroup spec s && bool_decide (grp_key s = Some g) then Some s else None.
Definition members_of (sets : Sets) (g : string) (visits : list string) : list Set_ :=
  omap (member_at sets g) visits.

Lemma members_of_cons sets g k visits :
  members_of sets g (k :: visits) =
  match member_at sets g k with
  | Some s => s :: members_of sets g visits
  | None => members_of sets g visits
  end.
Proof. done. Qed.

(** One member added to a group that may not exist yet. *)
Definition add_member (o : option Set_) (s : Set_) : result (option Set_) :=
  match (match o with Some gs => Some gs | None => grp_new s end) with
  | None => Ok None
  | Some gs => aggregate s (aggregateCount s gs (ResourceCountMetric spec))
                 (ResourceSumMetrics spec) ≫= fun gs' => Ok (Some gs')
  end.

(** No group of a member is itself of the member kind. *)
Definition separated (sets : Sets) : Prop :=
  forall k s g gs, sets !! k = Some s -> IsPartOfGroup spec s = true ->
    grp_key s = Some g -> sets !! g = Some gs -> grp_kind gs = false.

Lemma nonmember_at sets g k x :
  grp_kind x = false -> member_at (<[k := x]> sets) g k = None.
Proof.
  intros Hx. unfold member_at. rewrite lookup_insert_eq. cbn.
  destruct (IsPartOfGroup spec x) eqn:E; [|done].
  by rewrite (grp_member_kind x E) in Hx.
Qed.

Lemma member_at_insert sets g k g0 x :
  grp_kind x = false -> (forall gs, sets !! g0 = Some gs -> grp_kind gs = false) ->
  member_at (<[g0 := x]> sets) g k = member_at sets g k.
Proof.
  intros Hx Hold. destruct (decide (k = g0)) as [->|Hne].
  - rewrite nonmember_at by done. unfold member_at.
    destruct (sets !! g0) as [gs|] eqn:E; [|done]. cbn.
    destruct (IsPartOfGroup spec gs) eqn:Em; [|done].
    apply grp_member_kind in Em. by rewrite Hold in Em.
  - unfold member_at. by rewrite lookup_insert_ne.
Qed.

Lemma members_of_insert sets g g0 x visits :
  grp_kind x = false -> (forall gs, sets !! g0 = Some gs -> grp_kind gs = false) ->
  members_of (<[g0 := x]> sets) g visits = members_of sets g visits.
Proof.
  intros Hx Hold. unfold members_of. induction visits as [|k v IH]; cbn; [done|].
  rewrite member_at_insert by done. by rewrite IH.
Qed.

Lemma separated_insert sets g0 x :
  separated sets -> grp_kind x = false ->
  (forall gs, sets !! g0 = Some gs -> grp_kind gs = false) ->
  separated (<[g0 := x]> sets).
Proof.
  intros Hsep Hx Hold k s g gs Hk Hs Hg Hgs.
  destruct (decide (g = g0)) as [->|Hne].
  - rewrite lookup_insert_eq in Hgs. by simplify_eq.
  - rewrite lookup_insert_ne in Hgs by done.
    destruct (decide (k = g0)) as [->|Hk'].
    + rewrite lookup_insert_eq in Hk. simplify_eq.
      apply grp_member_kind in Hs. congruence.
    + rewrite lookup_insert_ne in Hk by done. exact (Hsep k s g gs Hk Hs Hg Hgs).
Qed.

(** The three outcomes of a visit. *)
Lemma process_step_cases sets k sets' :
  separated sets -> process_step spec sets k = Ok sets' ->
  (sets' = sets /\ forall g, member_at sets g k <> None -> sets !! g = None /\
      exists s, member_at sets g k = Some s /\ grp_new s = None) \/
  exists s g x, member_at sets g k = Some s /\ add_member (sets !! g) s = Ok (Some x) /\
    sets' = <[g := x]> sets /\ grp_kind x = false /\
    (forall gs, sets !! g = Some gs -> grp_kind gs = false) /\
    (forall g', g' <> g -> member_at sets g' k = None).
Proof.
  intros Hsep. unfold process_step, member_at.
  destruct (sets !! k) as [s|] eqn:Hk; [|intros [= <-]; left; split; [done|by intros ? []]].
  cbn. destruct (IsPartOfGroup spec s) eqn:Hm; cbn;
    [|intros [= <-]; left; split; [done|by intros ? []]].
  rewrite grp_group. destruct (grp_key s) as [g|] eqn:Hg; cbn.
  2:{ intros [= <-]; left; split; [done|]. intros g. by rewrite bool_decide_eq_false_2. }
  destruct (match sets !! g with Some gs => Some gs | None => grp_new s end) as [gs|] eqn:Egs.
  2:{ intros [= <-]; left; split; [done|]. intros g'.
      case_bool_decide as Hgg; [|done]. injection Hgg as <-. intros _.
      destruct (sets !! g); [done|]. eauto. }
  destruct (aggregate _ _ _) as [x|] eqn:Ea; cbn; [|done]. intros [= <-]. right.
  exists s, g, x. rewrite bool_decide_eq_true_2 by done. split_and!; try done.
  - unfold add_member. by rewrite Egs, Ea.
  - destruct (aggregate_labels _ _ _ _ Ea) as [f ->].
    destruct (aggregateCount_labels s gs (ResourceCountMetric spec)) as [f' ->].
    rewrite !grp_kind_values. destruct (sets !! g) as [gs'|] eqn:E.
    + injection Egs as ->. exact (Hsep k s g gs Hk Hm Hg E).
    + exact (proj1 (grp_new_spec _ _ Egs)).
  - intros gs' E. exact (Hsep k s g gs' Hk Hm Hg E).
  - intros g' Hne. rewrite bool_decide_eq_false_2; [done|congruence].
Qed.

(** The entry of every key after the loop is the fold of the members of
    the group with that key over the entry before it. *)
Lemma process_spec_local visits sets sets' :
  separated sets -> NoDup visits -> process_spec spec visits sets = Ok sets' ->
  separated sets' /\
  forall g, foldM add_member (sets !! g) (members_of sets g visits) = Ok (sets' !! g).
Proof.
  revert sets; induction visits as [|k v IH]; intros sets Hsep Hnd.
  { cbn; intros [= <-]. done. }
  apply NoDup_cons in Hnd as [Hk Hnd]. unfold process_spec; cbn [foldM].
  destruct (process_step spec sets k) as [s1|e] eqn:E; cbn [mbind result_bind]; [|done]. intros Hp.
  destruct (process_step_cases _ _ _ Hsep E) as [[-> Hnone]|(s & g0 & x & Hmem & Hadd & -> & Hx & Hold & Hother)].
  - destruct (IH sets Hsep Hnd Hp) as [Hsep' Hfold]. split; [done|]. intros g. rewrite members_of_cons.
    destruct (member_at sets g k) as [s|] eqn:Em; [|apply Hfold].
    destruct (Hnone g) as (Hg & s' & Hs' & Hnew); [by rewrite Em|].
    cbn. rewrite Hg. assert (s' = s) as -> by congruence.
    replace (add_member None s) with (Ok (@None Set_)) by (unfold add_member; by rewrite Hnew).
    cbn. rewrite <- Hg. apply Hfold.
  - destruct (IH _ (separated_insert _ _ _ Hsep Hx Hold) Hnd Hp) as [Hsep' Hfold].
    split; [done|]. intros g. specialize (Hfold g).
    rewrite members_of_insert in Hfold by done. rewrite members_of_cons.
    destruct (decide (g = g0)) as [->|Hne].
    + rewrite Hmem. cbn. rewrite Hadd. cbn. by rewrite lookup_insert_eq in Hfold.
    + rewrite Hother by done. by rewrite lookup_insert_ne in Hfold.
Qed.

(** *** Totals *)

Abbreviation count_metric := (ResourceCountMetric spec).
Abbreviation sum_metrics := (ResourceSumMetrics spec).

Context (ms : list string) (Hms : count_metric :: sum_metrics ⊆ ms).

Definition opt_value (n : string) (o : option Set_) : option Value := s ← o; Values s !! n.
Definition opt_int (n : string) (o : option Set_) : Z :=
  match o with Some s => int_at n s | None => 0 end.

Lemma opt_int_value n o o' : opt_value n o = opt_value n o' -> opt_int n o = opt_int n o'.
Proof. unfold opt_value, opt_int, int_at. destruct o, o'; cbn; [by intros ->|by intros ->|by intros <-|done]. Qed.

Lemma process_step_total sets k :
  separated sets -> batch_ints ms sets ->
  exists sets', process_step spec sets k = Ok sets' /\
    separated sets' /\ batch_ints ms sets'.
Proof.
  intros Hsep Hints. unfold process_step.
  destruct (sets !! k) as [s|] eqn:Hk; [|by eauto].
  destruct (IsPartOfGroup spec s) eqn:Hm; cbn; [|by eauto].
  rewrite grp_group. destruct (grp_key s) as [g|] eqn:Hg; [|by eauto].
  destruct (match sets !! g with Some gs => Some gs | None => grp_new s end) as [gs|] eqn:Egs;
    [|by eauto].
  assert (int_values ms gs /\ grp_kind gs = false) as [Hgs Hkind].
  { destruct (sets !! g) eqn:E.
    - injection Egs as ->. split; [by eapply Hints|exact (Hsep k s g gs Hk Hm Hg E)].
    - apply grp_new_spec in Egs as [? ?]. split; [by apply int_values_empty|done]. }
  destruct (aggregate_total ms sum_metrics s
    (aggregateCount s gs count_metric)) as (gs' & Ea & Hgs').
  { by intros n Hn; apply Hms; right. }
  { by eapply Hints. }
  { apply aggregateCount_ints; [by apply Hms; left|by eapply Hints|done]. }
  rewrite Ea. cbn. eexists; split; [done|]. split.
  - apply separated_insert; [done| |].
    + destruct (aggregate_labels _ _ _ _ Ea) as [f ->].
      destruct (aggregateCount_labels s gs count_metric) as [f' ->].
      by rewrite !grp_kind_values.
    + intros gs0 E. exact (Hsep k s g gs0 Hk Hm Hg E).
  - intros k' s'. destruct (decide (k' = g)) as [->|Hne].
    + rewrite lookup_insert_eq. by intros [= <-].
    + rewrite lookup_insert_ne by done. apply Hints.
Qed.

Lemma process_spec_total visits sets :
  separated sets -> batch_ints ms sets ->
  exists sets', process_spec spec visits sets = Ok sets' /\
    separated sets' /\ batch_ints ms sets'.
Proof.
  intros Hsep Hints.
  destruct (foldM_total (process_step spec)
    (fun sets => separated sets /\ batch_ints ms sets) visits sets)
    as (sets' & H & ? & ?); [|done|by eauto].
  intros sets1 k _ [? ?]. destruct (process_step_total sets1 k) as (s' & ? & ? & ?); eauto.
Qed.

Definition opt_ints (o : option Set_) : Prop :=
  forall s, o = Some s -> int_values ms s.
Definition creates_uniform (s : Set_) : Prop := grp_creates = bool_decide (is_Some (grp_new s)).

(** What a group holds once the sources [M] are added to [o]. *)
Record totals (o : option Set_) (M : list Set_) (o' : option Set_) : Prop := {
  totals_exists : is_Some o' <-> is_Some o \/ (grp_creates = true /\ M <> []);
  totals_sum n : is_Some o' -> n ∈ sum_metrics ->
    opt_int n o' = wrap64 (opt_int n o + zsum (int_at n) M);
  totals_count : is_Some o' ->
    opt_int count_metric o' = wrap64 (opt_int count_metric o + zsum (src_count count_metric) M);
  totals_counted : M <> [] -> is_Some o' -> is_Some (opt_value count_metric o');
}.

Lemma totals_perm o M M' o' : M ≡ₚ M' -> totals o M o' -> totals o M' o'.
Proof.
  intros Hp. assert (M = [] <-> M' = []) as Hnil.
  { split; intros ->; [by apply Permutation_nil in Hp|].
    symmetry in Hp. by apply Permutation_nil in Hp. }
  intros [H1 H2 H3 H4]. split; [naive_solver| | |naive_solver].
  - intros n ??. by rewrite <- Hp, H2.
  - intros ?. by rewrite <- Hp, H3.
Qed.

Lemma opt_int_range o n : opt_ints o -> n ∈ ms -> in_i64 (opt_int n o).
Proof. intros Ho Hn. destruct o; cbn; [by eapply int_values_range; [apply Ho|]|done]. Qed.

Lemma add_member_sums o s o' :
  NoDup (count_metric :: sum_metrics) -> opt_ints o ->
  int_values ms s -> add_member o s = Ok o' ->
  (o' = None /\ o = None /\ grp_new s = None) \/
  exists gs', o' = Some gs' /\ opt_ints o' /\ (is_Some o \/ is_Some (grp_new s)) /\
    (forall n, n ∈ sum_metrics -> int_at n gs' = wrap64 (opt_int n o + int_at n s)) /\
    int_at count_metric gs' = wrap64 (opt_int count_metric o + src_count count_metric s).
Proof.
  intros Hnd Ho Hs. apply NoDup_cons in Hnd as [Hcnt Hnd]. unfold add_member.
  destruct (match o with Some gs => Some gs | None => grp_new s end) as [gs|] eqn:Egs.
  2:{ intros [= <-]. left. by destruct o. }
  assert (opt_ints (Some gs) /\ (forall n, int_at n gs = opt_int n o) /\
          (is_Some o \/ is_Some (grp_new s))) as (Hgs & Hopt & Hsome).
  { destruct o as [gs0|].
    - injection Egs as ->. split_and!; [done|done|by left].
    - pose proof (grp_new_spec _ _ Egs) as [_ Hv]. split_and!; [| |by right].
      + intros ? [= <-]. by apply int_values_empty.
      + intros n. unfold int_at. by rewrite Hv, lookup_empty. }
  specialize (Hgs _ eq_refl).
  destruct (aggregate _ _ _) as [gs'|] eqn:Ea; cbn; [|done]. intros [= <-]. right.
  exists gs'. split_and!; [done| |done| |].
  - intros ? [= <-].
    destruct (aggregate_total ms sum_metrics s
      (aggregateCount s gs count_metric)) as (x & Ex & Hx);
      [by intros n Hn; apply Hms; right|done|by apply aggregateCount_ints; [apply Hms; left| |]|].
    rewrite Ea in Ex. by injection Ex as ->.
  - intros n Hn.
    assert (count_metric <> n) by (by intros <-).
    erewrite (aggregate_int s _ sum_metrics n gs' Hnd Hn); [| | | |exact Ea].
    + by rewrite aggregateCount_other, Hopt.
    + eapply int_values_typed; [done|by apply Hms; right].
    + eapply int_values_range; [done|by apply Hms; right].
    + rewrite aggregateCount_other by done. eapply int_values_range; [exact Hgs|by apply Hms; right].
  - unfold int_at at 1. rewrite (aggregate_other _ _ _ _ _ Hcnt Ea).
    fold (int_at count_metric (aggregateCount s gs count_metric)).
    rewrite aggregateCount_count, Hopt; [done|]. eapply src_count_range; [done|by apply Hms; left].
Qed.

Lemma add_member_values o s o' n :
  add_member o s = Ok o' ->
  (n ∉ count_metric :: sum_metrics -> opt_value n o' = opt_value n o) /\
  (n = count_metric -> n ∉ sum_metrics -> is_Some o' -> is_Some (opt_value n o')).
Proof.
  unfold add_member, opt_value.
  destruct (match o with Some gs => Some gs | None => grp_new s end) as [gs|] eqn:Egs.
  2:{ intros [= <-]. destruct o; [done|]. split; [done|by intros ?? []]. }
  destruct (aggregate _ _ _) as [gs'|] eqn:Ea; cbn; [|done]. intros [= <-]. cbn. split.
  - intros [Hn1 Hn2]%not_elem_of_cons. rewrite (aggregate_other _ _ _ _ _ Hn2 Ea).
    assert (Values (aggregateCount s gs count_metric) !! n = Values gs !! n) as ->.
    { unfold aggregateCount. destruct (Values gs !! count_metric); cbn; by rewrite lookup_insert_ne. }
    destruct o; cbn; [by injection Egs as ->|]. apply grp_new_spec in Egs as [_ ->]. apply lookup_empty.
  - intros -> Hn _. rewrite (aggregate_other _ _ _ _ _ Hn Ea). unfold aggregateCount.
    destruct (Values gs !! count_metric); cbn; rewrite lookup_insert_eq; by eexists.
Qed.

Lemma add_members_other M o o' n :
  n ∉ count_metric :: sum_metrics -> foldM add_member o M = Ok o' -> opt_value n o' = opt_value n o.
Proof.
  intros Hn. apply (foldM_inv _ (fun o' => opt_value n o' = opt_value n o)); [|done].
  intros x s x' _ <- Hx. by apply (add_member_values _ _ _ _ Hx).
Qed.

(** A group that has been given a member has a count. *)
Lemma add_members_counted M o o' :
  count_metric ∉ sum_metrics -> foldM add_member o M = Ok o' ->
  is_Some (opt_value count_metric o) \/ M <> [] -> is_Some o' -> is_Some (opt_value count_metric o').
Proof.
  intros Hn. revert o; induction M as [|s M IH]; intros o; cbn [foldM].
  - intros [= <-] [?|?] ?; done.
  - destruct (add_member o s) as [o1|] eqn:E; cbn [mbind result_bind]; [|done]. intros Hf _ Ho'.
    destruct (add_member_values _ _ _ count_metric E) as [_ Hc].
    destruct o1 as [x|]; [by eapply IH; [|left; apply Hc|]|].
    destruct M; [|by eapply IH; [|right|]]. injection Hf as <-. by destruct Ho'.
Qed.

Lemma add_members_sums M o o' :
  NoDup (count_metric :: sum_metrics) -> opt_ints o ->
  (forall s, s ∈ M -> int_values ms s /\ creates_uniform s) ->
  foldM add_member o M = Ok o' ->
  (is_Some o' <-> is_Some o \/ (grp_creates = true /\ M <> [])) /\
  (forall n, is_Some o' -> n ∈ sum_metrics -> opt_int n o' = wrap64 (opt_int n o + zsum (int_at n) M)) /\
  (is_Some o' -> opt_int count_metric o' = wrap64 (opt_int count_metric o + zsum (src_count count_metric) M)).
Proof.
  intros Hnd. revert o; induction M as [|s M IH]; intros o Ho HM.
  { cbn. intros [= <-]. split_and!; [naive_solver| |].
    - intros n _ Hn. rewrite Z.add_0_r, wrap64_id; [done|]. apply opt_int_range; [done|by apply Hms; right].
    - intros _. rewrite Z.add_0_r, wrap64_id; [done|]. apply opt_int_range; [done|by apply Hms; left]. }
  destruct (HM s) as [Hs Hc]; [by left|]. cbn [foldM].
  destruct (add_member o s) as [o1|] eqn:E; cbn [mbind result_bind]; [|done]. intros Hf.
  assert (forall s, s ∈ M -> int_values ms s /\ creates_uniform s)
    as HM' by (intros; apply HM; by right).
  destruct (add_member_sums o s o1 Hnd Ho Hs E) as [(-> & -> & Hnone)|(gs & -> & Ho1 & Hex & Hsum & Hcount)].
  - unfold creates_uniform in Hc. rewrite Hnone in Hc. cbn in Hc.
    destruct (IH None Ho HM' Hf) as (Hx & _ & _).
    assert (o' = None) as ->.
    { destruct o' as [x|]; [|done]. exfalso. destruct Hx as [Hx _].
      destruct Hx as [[? ?]|[? _]]; [by eexists|done|congruence]. }
    split_and!; [|by intros ? []|by intros []]. split; [by intros []|].
    intros [[]|[? _]]; congruence.
  - destruct (IH _ Ho1 HM' Hf) as (Hx & Hs' & Hc'). split_and!.
    + split; [|by intros _; apply Hx; left].
      intros _. destruct Hex as [Hex|Hex]; [by left|right].
      unfold creates_uniform in Hc. by rewrite Hc, bool_decide_eq_true_2.
    + intros n Hn Hin. rewrite Hs' by done. cbn [opt_int]. rewrite Hsum, zsum_cons by done.
      autorewrite with go_norm. f_equal; lia.
    + intros Hn. rewrite Hc' by done. cbn [opt_int]. rewrite Hcount, zsum_cons.
      autorewrite with go_norm. f_equal; lia.
Qed.

Lemma add_members_totals M o o' :
  NoDup (count_metric :: sum_metrics) -> opt_ints o ->
  (forall s, s ∈ M -> int_values ms s /\ creates_uniform s) ->
  foldM add_member o M = Ok o' -> totals o M o'.
Proof.
  intros Hnd Ho HM Hf. destruct (add_members_sums M o o' Hnd Ho HM Hf) as (Hx & Hs & Hc).
  split; [done|done|done|]. intros HM' Ho'.
  exact (add_members_counted M o o' (proj1 (proj1 (NoDup_cons _ _) Hnd)) Hf (or_intror HM') Ho').
Qed.
(** The members of a group, in a fixed order. *)
Definition group_members (sets : Sets) (g : string) : list Set_ :=
  members_of sets g (sorted_keys sets).

Lemma members_of_elem sets g visits s :
  s ∈ members_of sets g visits ->
  exists k, sets !! k = Some s /\ IsPartOfGroup spec s = true /\ grp_key s = Some g.
Proof.
  intros (k & _ & H)%list_elem_of_omap. exists k. unfold member_at in H.
  destruct (sets !! k) as [x|]; cbn in H; [|done]. destruct (IsPartOfGroup spec x) eqn:E; [|done].
  case_bool_decide; [|done]. cbn in H. by injection H as <-.
Qed.

Definition is_member (sets : Sets) (k : string) : Prop :=
  exists s, sets !! k = Some s /\ IsPartOfGroup spec s = true.
#[local] Instance is_member_dec sets k : Decision (is_member sets k).
Proof.
  unfold is_member. destruct (sets !! k) as [s|]; [|right; by intros (? & ? & ?)].
  destruct (IsPartOfGroup spec s) eqn:E; [left; by exists s|right].
  intros (? & [= <-] & ?). congruence.
Defined.
Definition covers (sets : Sets) (visits : list string) : Prop :=
  NoDup visits /\ forall k s, sets !! k = Some s -> IsPartOfGroup spec s = true -> k ∈ visits.

Lemma valid_visits_covers sets visits : valid_visits sets visits -> covers sets visits.
Proof. intros [? H]. split; [done|]. intros k s Hk _. apply H. by eexists. Qed.

Lemma members_of_filter sets g visits :
  members_of sets g visits = members_of sets g (filter (is_member sets) visits).
Proof.
  induction visits as [|k v IH]; [done|]. rewrite filter_cons. case_decide as H.
  - by rewrite !members_of_cons, IH.
  - rewrite members_of_cons. unfold member_at at 1.
    destruct (sets !! k) as [s|] eqn:E; cbn; [|exact IH].
    destruct (IsPartOfGroup spec s) eqn:Em; [|exact IH]. destruct H. by exists s.
Qed.

(** The members do not depend on the order of the visits. *)
Lemma members_of_visits sets g visits :
  covers sets visits -> members_of sets g visits ≡ₚ group_members sets g.
Proof.
  intros [Hnd Hall]. unfold group_members.
  rewrite members_of_filter, (members_of_filter sets g (sorted_keys sets)).
  apply omap_Permutation, NoDup_Permutation;
    [by apply NoDup_filter|apply NoDup_filter, sorted_keys_NoDup|].
  intros k. rewrite !list_elem_of_filter, sorted_keys_elem. unfold is_member.
  split; intros [(s & Hs & Hm) _]; (split; [by eauto|]); [by eexists|by eapply Hall].
Qed.

Lemma process_spec_totals visits sets :
  NoDup (count_metric :: sum_metrics) -> separated sets ->
  batch_ints ms sets -> covers sets visits ->
  exists sets', process_spec spec visits sets = Ok sets' /\
    batch_ints ms sets' /\
    (forall k s, sets !! k = Some s -> grp_kind s = true -> sets' !! k = Some s) /\
    (forall g n, n ∉ count_metric :: sum_metrics ->
      opt_value n (sets' !! g) = opt_value n (sets !! g)) /\
    forall g, (group_members sets g = [] -> sets' !! g = sets !! g) /\
      totals (sets !! g) (group_members sets g) (sets' !! g).
Proof.
  intros Hnd Hsep Hints Hv.
  destruct (process_spec_total visits sets Hsep Hints) as (sets' & Hp & _ & Hints').
  exists sets'. destruct (process_spec_local visits sets sets' Hsep (proj1 Hv) Hp) as [_ Hloc].
  assert (forall g, group_members sets g = [] -> sets' !! g = sets !! g) as Hnil.
  { intros g Hg. specialize (Hloc g). pose proof (members_of_visits sets g visits Hv) as Hperm.
    rewrite Hg in Hperm. apply Permutation_nil_r in Hperm. rewrite Hperm in Hloc.
    by injection Hloc as ->. }
  split_and!; [done|done| | |].
  - intros k s Hk Hkind. rewrite Hnil; [done|].
    destruct (group_members sets k) as [|x l] eqn:E; [done|].
    destruct (members_of_elem sets k (sorted_keys sets) x) as (k' & Hk' & Hm & Hg).
    { fold (group_members sets k). rewrite E. by left. }
    by rewrite (Hsep k' x k s Hk' Hm Hg Hk) in Hkind.
  - intros g n Hn. eapply add_members_other; [exact Hn|apply Hloc].
  - intros g. split; [apply Hnil|].
    apply (totals_perm _ _ _ _ (members_of_visits sets g visits Hv)).
    apply add_members_totals; [done| | |apply Hloc].
    + intros s Hs. by eapply Hints.
    + intros s (k & Hk & _ & Hg)%members_of_elem.
      split; [by eapply Hints|by eapply grp_new_creates].
Qed.
End grouping.

(** ** What one specification leaves alone *)

Section frame.
Context (spec : SumCountAggregateSpec) `{!Grouping spec} (kind : Set_ -> bool).
Context (kind_values : forall f s, kind (with_Values f s) = kind s).
Context (kind_new : forall s d, grp_new s = Some d -> kind d = false).

(** No group of a member is of [kind]. *)
Definition groups_not (sets : Sets) : Prop :=
  forall k s g gs, sets !! k = Some s -> IsPartOfGroup spec s = true ->
    grp_key s = Some g -> sets !! g = Some gs -> kind gs = false.

Lemma process_step_frame sets k sets' :
  separated spec sets -> groups_not sets -> process_step spec sets k = Ok sets' ->
  separated spec sets' /\ groups_not sets' /\
  forall j s, kind s = true -> sets' !! j = Some s <-> sets !! j = Some s.
Proof.
  intros Hsep Hnot E.
  destruct (process_step_cases _ _ _ _ Hsep E)
    as [[-> _]|(s & g & x & Hmem & Hadd & -> & Hx & Hold & _)]; [done|].
  apply bind_Some in Hmem as (s0 & Hk & Hs).
  destruct (IsPartOfGroup spec s0 && bool_decide (grp_key s0 = Some g)) eqn:Hb; [|done].
  injection Hs as ->. apply andb_prop in Hb as [Hpart Hkey%bool_decide_eq_true].
  assert (kind x = false) as Hkx.
  { unfold add_member in Hadd.
    destruct (match sets !! g with Some gs => Some gs | None => grp_new s end) as [gs|] eqn:Egs;
      [|done].
    destruct (aggregate _ _ _) as [y|] eqn:Ea; cbn in Hadd; [|done]. injection Hadd as ->.
    destruct (aggregate_labels _ _ _ _ Ea) as [f ->].
    destruct (aggregateCount_labels s gs (ResourceCountMetric spec)) as [f' ->].
    rewrite !kind_values. destruct (sets !! g) as [gs'|] eqn:Eg.
    - injection Egs as ->. exact (Hnot k s g gs Hk Hpart Hkey Eg).
    - by eapply kind_new. }
  split_and!.
  - by apply separated_insert.
  - intros k' s' g' gs' Hk' Hp' Hg' Hgs'. destruct (decide (g' = g)) as [->|Hne].
    { rewrite lookup_insert_eq in Hgs'. by injection Hgs' as <-. }
    rewrite lookup_insert_ne in Hgs' by done. destruct (decide (k' = g)) as [->|Hne'].
    { rewrite lookup_insert_eq in Hk'. injection Hk' as <-.
      apply grp_member_kind in Hp'. congruence. }
    rewrite lookup_insert_ne in Hk' by done. exact (Hnot k' s' g' gs' Hk' Hp' Hg' Hgs').
  - intros j s' Hkind. destruct (decide (j = g)) as [->|Hne].
    + rewrite lookup_insert_eq. split; [intros [= <-]; congruence|].
      intros Hj. rewrite (Hnot k s g s' Hk Hpart Hkey Hj) in Hkind. done.
    + by rewrite lookup_insert_ne.
Qed.

Lemma process_spec_frame visits sets sets' :
  separated spec sets -> groups_not sets -> process_spec spec visits sets = Ok sets' ->
  forall j s, kind s = true -> sets' !! j = Some s <-> sets !! j = Some s.
Proof.
  intros Hsep Hnot Hp.
  apply (foldM_inv _ (fun x => separated spec x /\ groups_not x /\
    forall j s, kind s = true -> x !! j = Some s <-> sets !! j = Some s)) in Hp as (_ & _ & H);
    [done| |done].
  intros x k x' _ (Hs & Hn & Hx) E.
  destruct (process_step_frame x k x' Hs Hn E) as (? & ? & H). split_and!; [done|done|].
  intros j s Hk. by rewrite H, Hx.
Qed.
End frame.

(** ** An aggregator: sums and counts of one specification, counts of another *)

Section pair.
Context (spec1 spec2 : SumCountAggregateSpec) `{G1 : !Grouping spec1, G2 : !Grouping spec2}.
Context (kind2_new1 : forall s d, grp_new (spec := spec1) s = Some d ->
           grp_kind (spec := spec2) d = false).
Context (creates : bool) (creates1 : grp_creates (spec := spec1) = creates)
        (creates2 : grp_creates (spec := spec2) = creates).
Context (spec2_counts : ResourceSumMetrics spec2 = []).
Abbreviation ms :=
  (ResourceCountMetric spec2 :: ResourceCountMetric spec1 :: ResourceSumMetrics spec1).
Context (ms_NoDup : NoDup ms).

(** The entry of a group once [M1] and [M2] have been added to [o]. *)
Record group_report (o : option Set_) (M1 M2 : list Set_) (o' : option Set_) : Prop := {
  report_same : M1 = [] -> M2 = [] -> o' = o;
  report_exists : is_Some o' <-> is_Some o \/ (creates = true /\ (M1 <> [] \/ M2 <> []));
  report_sum n : is_Some o' -> n ∈ ResourceSumMetrics spec1 ->
    opt_int n o' = wrap64 (opt_int n o + zsum (int_at n) M1);
  report_count1 : is_Some o' -> opt_int (ResourceCountMetric spec1) o' =
    wrap64 (opt_int (ResourceCountMetric spec1) o + zsum (src_count (ResourceCountMetric spec1)) M1);
  report_count2 : is_Some o' -> opt_int (ResourceCountMetric spec2) o' =
    wrap64 (opt_int (ResourceCountMetric spec2) o + zsum (src_count (ResourceCountMetric spec2)) M2);
  report_counted1 : is_Some o' -> M1 <> [] -> is_Some (opt_value (ResourceCountMetric spec1) o');
  report_uncounted1 : M1 = [] ->
    opt_value (ResourceCountMetric spec1) o' = opt_value (ResourceCountMetric spec1) o;
  report_counted2 : is_Some o' -> M2 <> [] -> is_Some (opt_value (ResourceCountMetric spec2) o');
  report_uncounted2 : M2 = [] ->
    opt_value (ResourceCountMetric spec2) o' = opt_value (ResourceCountMetric spec2) o;
}.

(** The same entry after each of the two loops. *)
Record two_steps (o o1 o' : option Set_) (M1 M2 : list Set_) : Prop := {
  steps_same1 : M1 = [] -> o1 = o;
  steps_totals1 : totals spec1 o M1 o1;
  steps_other1 n : n ∉ ResourceCountMetric spec1 :: ResourceSumMetrics spec1 -> opt_value n o1 = opt_value n o;
  steps_same2 : M2 = [] -> o' = o1;
  steps_totals2 : totals spec2 o1 M2 o';
  steps_other2 n : n ∉ ResourceCountMetric spec2 :: ResourceSumMetrics spec2 -> opt_value n o' = opt_value n o1;
}.

(** The metrics of one specification are not touched by the other. *)
Lemma metrics_apart :
  ResourceCountMetric spec1 ∉ ResourceCountMetric spec2 :: ResourceSumMetrics spec2 /\
  (forall n, n ∈ ResourceSumMetrics spec1 -> n ∉ ResourceCountMetric spec2 :: ResourceSumMetrics spec2) /\
  ResourceCountMetric spec2 ∉ ResourceCountMetric spec1 :: ResourceSumMetrics spec1.
Proof.
  rewrite spec2_counts. apply NoDup_cons in ms_NoDup as [Hni _].
  rewrite not_elem_of_cons in Hni. split_and!.
  - rewrite list_elem_of_singleton. naive_solver.
  - intros n Hn ->%list_elem_of_singleton. naive_solver.
  - rewrite not_elem_of_cons. naive_solver.
Qed.

(** An entry that is there after the second loop only was not there at all. *)
Lemma steps_late o o1 o' M1 M2 :
  two_steps o o1 o' M1 M2 -> is_Some o' -> is_Some o1 \/ (o1 = None /\ o = None /\ M1 = []).
Proof.
  intros [_ [Hx1 _ _ _] _ _ [Hx2 _ _ _] _] Hs. destruct o1 as [x|]; [by left; eexists|right].
  apply Hx2 in Hs as [[]|[Hcr _]]; [done|]. split; [done|].
  destruct o; [by destruct (proj2 Hx1); [left; eexists|]|].
  split; [done|]. destruct M1; [done|]. destruct (proj2 Hx1); [right; split; [congruence|done]|done].
Qed.

Lemma steps_report o o1 o' M1 M2 : two_steps o o1 o' M1 M2 -> group_report o M1 M2 o'.
Proof.
  intros H. pose proof (steps_late _ _ _ _ _ H) as Hlate. destruct metrics_apart as (Hn1 & Hn2 & Hn3).
  destruct H as [Hsame1 [Hx1 Hs1 Hc1 Hp1] Hoth1 Hsame2 [Hx2 _ Hc2 Hp2] Hoth2].
  split.
  - intros H1 H2. by rewrite Hsame2, Hsame1.
  - rewrite Hx2, Hx1, creates1, creates2. tauto.
  - intros n Hs Hn. rewrite (opt_int_value n o' o1) by by apply Hoth2, Hn2.
    destruct (Hlate Hs) as [?|(-> & -> & ->)]; [by apply Hs1|done].
  - intros Hs. rewrite (opt_int_value _ o' o1) by by apply Hoth2.
    destruct (Hlate Hs) as [?|(-> & -> & ->)]; [by apply Hc1|done].
  - intros Hs. rewrite Hc2 by done. by rewrite (opt_int_value _ o1 o) by by apply Hoth1.
  - intros Hs HM. rewrite Hoth2 by done.
    destruct (Hlate Hs) as [?|(_ & _ & ?)]; [by apply Hp1|done].
  - intros ->. by rewrite Hoth2, Hsame1.
  - intros Hs HM. by apply Hp2.
  - intros ->. by rewrite Hsame2, Hoth1.
Qed.

Lemma members_frame sets sets1 g visits :
  (forall j s, grp_kind (spec := spec2) s = true -> sets1 !! j = Some s <-> sets !! j = Some s) ->
  members_of spec2 sets1 g visits = members_of spec2 sets g visits.
Proof.
  intros H. induction visits as [|k v IH]; [done|]. rewrite !members_of_cons, IH.
  assert (member_at spec2 sets1 g k = member_at spec2 sets g k) as ->; [|done].
  unfold member_at.
  destruct (sets1 !! k) as [s1|] eqn:E1, (sets !! k) as [s|] eqn:E; cbn; [| | |done].
  - destruct (IsPartOfGroup spec2 s1) eqn:P1.
    + apply (fun p => proj1 (H k s1 (grp_member_kind s1 p)) E1) in P1 as E2.
      assert (s1 = s) as -> by congruence. by rewrite P1.
    + destruct (IsPartOfGroup spec2 s) eqn:P; [|done].
      apply (fun p => proj2 (H k s (grp_member_kind s p)) E) in P as E2. congruence.
  - destruct (IsPartOfGroup spec2 s1) eqn:P1; [|done].
    apply (fun p => proj1 (H k s1 (grp_member_kind s1 p)) E1) in P1 as E2. congruence.
  - destruct (IsPartOfGroup spec2 s) eqn:P; [|done].
    apply (fun p => proj2 (H k s (grp_member_kind s p)) E) in P as E2. congruence.
Qed.

(** Two loops, and what holds of every group afterwards. *)
Lemma pair_report all name v1 v2 sets :
  ms ⊆ all -> separated spec1 sets -> separated spec2 sets ->
  groups_not spec1 (grp_kind (spec := spec2)) sets -> batch_ints all sets ->
  valid_visits sets v1 -> valid_visits sets v2 ->
  exists sets1 sets', process_spec spec1 v1 sets = Ok sets1 /\ process_spec spec2 v2 sets1 = Ok sets' /\
    Process (NewSumCountAggregator name [spec1; spec2]) [v1; v2] sets = Ok sets' /\ batch_ints all sets' /\
    separated spec2 sets1 /\
    forall g, group_report (sets !! g) (group_members spec1 sets g) (group_members spec2 sets g)
      (sets' !! g).
Proof.
  intros Hall Hsep1 Hsep2 Hnot Hints Hv1 Hv2.
  assert (Hsub1 : ResourceCountMetric spec1 :: ResourceSumMetrics spec1 ⊆ all)
    by (intros n Hn; apply Hall; by right).
  assert (Hsub2 : ResourceCountMetric spec2 :: ResourceSumMetrics spec2 ⊆ all)
    by (rewrite spec2_counts; intros n ->%list_elem_of_singleton; apply Hall; by left).
  pose proof (proj2 (proj1 (NoDup_cons _ _) ms_NoDup)) as Hnd1.
  assert (Hnd2 : NoDup (ResourceCountMetric spec2 :: ResourceSumMetrics spec2))
    by (rewrite spec2_counts; apply NoDup_singleton).
  destruct (process_spec_totals spec1 all Hsub1 v1 sets Hnd1 Hsep1 Hints
    (valid_visits_covers _ _ _ Hv1)) as (sets1 & Hp1 & Hints1 & _ & Hoth1 & Htot1).
  pose proof (process_spec_frame spec1 (grp_kind (spec := spec2)) (@grp_kind_values spec2 G2)
    kind2_new1 v1 sets sets1 Hsep1 Hnot Hp1) as Hframe.
  assert (Hsep21 : separated spec2 sets1).
  { intros k s g gs Hk Hm Hg Hgs. destruct (grp_kind gs) eqn:E; [|done].
    apply Hframe in Hgs; [|done]. apply Hframe in Hk; [|by apply grp_member_kind].
    by rewrite (Hsep2 k s g gs Hk Hm Hg Hgs) in E. }
  assert (Hcov : covers spec2 sets1 v2).
  { split; [apply Hv2|]. intros k s Hk Hm. apply (proj2 Hv2).
    apply Hframe in Hk; [by eexists|by apply grp_member_kind]. }
  destruct (process_spec_totals spec2 all Hsub2 v2 sets1 Hnd2 Hsep21 Hints1 Hcov)
    as (sets' & Hp2 & Hints' & _ & Hoth2 & Htot2).
  exists sets1, sets'. split_and!; [done|done| |done|done|].
  { unfold Process; cbn [agg_specs process_specs].
    rewrite Hp1. cbn [mbind result_bind]. by rewrite Hp2. }
  intros g. destruct (Htot1 g) as [Hsame1 Ht1], (Htot2 g) as [Hsame2 Ht2].
  assert (group_members spec2 sets1 g ≡ₚ group_members spec2 sets g) as Hperm.
  { rewrite <- (members_of_visits spec2 sets1 g v2 Hcov), (members_frame sets sets1 g v2 Hframe).
    apply members_of_visits. by apply valid_visits_covers. }
  apply (steps_report _ (sets1 !! g)). split; [done|done|by intros; apply Hoth1| | |by intros; apply Hoth2].
  - intros E. apply Hsame2. rewrite E in Hperm. by apply Permutation_nil_r in Hperm.
  - by apply (totals_perm _ _ _ _ _ Hperm).
Qed.
End pair.

(** ** The members of the groups of the three aggregators *)

(** The sets of a batch that satisfy [p], in the order of their keys. *)
Definition select (sets : Sets) (p : Set_ -> bool) : list Set_ :=
  omap (fun k => s ← sets !! k; if p s then Some s else None) (sorted_keys sets).

Definition in_namespace (name : string) (s : Set_) : bool :=
  bool_decide (Labels s !! Key LabelNamespaceName = Some name).
Definition on_node (name : string) (s : Set_) : bool :=
  String.eqb (get_str (Labels s) (Key LabelNodename)) name.

Lemma select_ext sets p q : (forall s, p s = q s) -> select sets p = select sets q.
Proof.
  intros H. unfold select. induction (sorted_keys sets) as [|k l IH]; [done|].
  cbn [omap list_omap]. rewrite IH. destruct (sets !! k); cbn; [|done]. by rewrite H.
Qed.

Lemma group_members_select spec (G : Grouping spec) sets g :
  group_members spec sets g
  = select sets (fun s => IsPartOfGroup spec s && bool_decide (grp_key s = Some g)).
Proof. done. Qed.

Lemma namespace_key_spec s name :
  bool_decide (namespace_key s = Some (NamespaceKey name)) = in_namespace name s.
Proof.
  unfold namespace_key, in_namespace. apply bool_decide_ext.
  destruct (Labels s !! Key LabelNamespaceName) as [n|]; [|done]. split.
  - intros [= H]. f_equal. by apply str_app_inj_l in H.
  - by intros [= ->].
Qed.

Lemma node_key_spec s name :
  name <> "" -> bool_decide (node_key s = Some (NodeKey name)) = on_node name s.
Proof.
  intros Hne. unfold node_key, on_node.
  destruct (String.eqb_spec (get_str (Labels s) (Key LabelNodename)) "") as [->|He].
  - rewrite bool_decide_eq_false_2 by done. symmetry. by apply String.eqb_neq.
  - destruct (String.eqb_spec (get_str (Labels s) (Key LabelNodename)) name) as [->|Hn].
    + by rewrite bool_decide_eq_true_2.
    + rewrite bool_decide_eq_false_2; [done|]. intros [= H].
      by apply str_app_inj_l in H.
Qed.

(** The metrics the three aggregators write. *)
Definition aggregated_metrics (ms : list string) : list string :=
  md_Name MetricPodContainerCount :: md_Name MetricPodCount :: ms.

(** An entry under the group key of some set has the group's type. *)
Definition groups_typed (key : Set_ -> option string) (type : string) (sets : Sets) : Prop :=
  forall k s g gs, sets !! k = Some s -> key s = Some g -> sets !! g = Some gs ->
    get_str (Labels gs) (Key LabelMetricSetType) = type.

Lemma isType_other s a b :
  get_str (Labels s) (Key LabelMetricSetType) = a -> a <> b -> isType b s = false.
Proof. unfold isType. intros -> ?. by apply String.eqb_neq. Qed.

(** A group that one specification creates is no member of the other. *)
Lemma namespace_new_kind ms s d :
  grp_new (spec := pod_spec ms namespaceGroup) s = Some d ->
  grp_kind (spec := container_spec namespaceGroup) d = false.
Proof. intros H. by apply (namespace_new_spec MetricSetTypePodContainer s d). Qed.
Lemma node_new_kind ms s d :
  grp_new (spec := pod_spec ms nodeGroup) s = Some d ->
  grp_kind (spec := container_spec nodeGroup) d = false.
Proof. done. Qed.
Lemma cluster_new_kind ms s d :
  grp_new (spec := cluster_pod_spec ms) s = Some d ->
  grp_kind (spec := cluster_container_spec) d = false.
Proof. intros H. injection H as <-. done. Qed.

(** C1: the namespace aggregator.  On a batch whose metrics are integers it
    never fails, and for every namespace: an entry exists afterwards exactly
    when it existed or the namespace has a running pod or a container that is
    not terminated; each of its six sums is the old value plus the values of
    the running pods of the namespace (as a 64-bit sum), its pod count and
    container count are increased by those of its members; a namespace with
    no members is left alone.  All this whatever the order in which the two
    loops visit the batch. *)
Theorem namespace_totals (v1 v2 : list string) (sets : Sets) :
  let sums := metricsToAggregate in
  batch_ints (aggregated_metrics sums) sets ->
  groups_typed namespace_key MetricSetTypeNamespace sets ->
  valid_visits sets v1 -> valid_visits sets v2 ->
  exists sets', Process (NewNamespaceAggregator sums) [v1; v2] sets = Ok sets' /\
    forall name, group_report (pod_spec sums namespaceGroup) (container_spec namespaceGroup) true
      (sets !! NamespaceKey name)
      (select sets (fun s => isAggregatablePod s && in_namespace name s))
      (select sets (fun s => isAggregatablePodContainer s && in_namespace name s))
      (sets' !! NamespaceKey name).
Proof.
  intros sums Hints Hty Hv1 Hv2.
  destruct (pair_report (pod_spec sums namespaceGroup) (container_spec namespaceGroup)
    (namespace_new_kind sums)
    true eq_refl eq_refl eq_refl ltac:(by apply (bool_decide_unpack _))
    (aggregated_metrics sums) "namespace" v1 v2 sets)
    as (_ & sets' & _ & _ & HP & _ & _ & Hrep); [done| | | |done|done|done|].
  1-3: intros k s g gs Hk _ Hg Hgs; by apply (isType_other _ _ _ (Hty k s g gs Hk Hg Hgs)).
  exists sets'. split; [exact HP|]. intros name. specialize (Hrep (NamespaceKey name)).
  rewrite !group_members_select in Hrep.
  rewrite (select_ext sets _ (fun s => isAggregatablePod s && in_namespace name s)) in Hrep
    by (intros s; cbn; by rewrite <- namespace_key_spec).
  rewrite (select_ext sets (fun s => IsPartOfGroup (container_spec _) s && _)
    (fun s => isAggregatablePodContainer s && in_namespace name s)) in Hrep
    by (intros s; cbn; by rewrite <- namespace_key_spec).
  exact Hrep.
Qed.

(** The node aggregator.  As for namespaces, for every node that is
    named, except that a node with no entry is never given one: its pods and
    containers are counted nowhere. *)
Theorem node_totals (v1 v2 : list string) (sets : Sets) :
  let sums := metricsToAggregateForNode in
  batch_ints (aggregated_metrics sums) sets ->
  groups_typed node_key MetricSetTypeNode sets ->
  valid_visits sets v1 -> valid_visits sets v2 ->
  exists sets', Process (NewNodeAggregator sums) [v1; v2] sets = Ok sets' /\
    forall name, name <> "" ->
      group_report (pod_spec sums nodeGroup) (container_spec nodeGroup) false
      (sets !! NodeKey name)
      (select sets (fun s => isAggregatablePod s && on_node name s))
      (select sets (fun s => isAggregatablePodContainer s && on_node name s))
      (sets' !! NodeKey name).
Proof.
  intros sums Hints Hty Hv1 Hv2.
  destruct (pair_report (pod_spec sums nodeGroup) (container_spec nodeGroup)
    (node_new_kind sums)
    false eq_refl eq_refl eq_refl ltac:(by apply (bool_decide_unpack _))
    (aggregated_metrics sums) "node" v1 v2 sets)
    as (_ & sets' & _ & _ & HP & _ & _ & Hrep); [done| | | |done|done|done|].
  1-3: intros k s g gs Hk _ Hg Hgs; by apply (isType_other _ _ _ (Hty k s g gs Hk Hg Hgs)).
  exists sets'. split; [exact HP|]. intros name Hne. specialize (Hrep (NodeKey name)).
  rewrite !group_members_select in Hrep.
  rewrite (select_ext sets _ (fun s => isAggregatablePod s && on_node name s)) in Hrep
    by (intros s; cbn; by rewrite <- node_key_spec).
  rewrite (select_ext sets (fun s => IsPartOfGroup (container_spec _) s && _)
    (fun s => isAggregatablePodContainer s && on_node name s)) in Hrep
    by (intros s; cbn; by rewrite <- node_key_spec).
  exact Hrep.
Qed.

(** The cluster aggregator.  The cluster's entry is created when the
    batch has a namespace; its sums are those of the namespaces, and its pod
    and container counts are the sums of theirs, a namespace without a count
    being counted as one. *)
Theorem cluster_totals (v1 v2 : list string) (sets : Sets) :
  let sums := metricsToAggregate in
  batch_ints (aggregated_metrics sums) sets ->
  groups_typed (fun _ => Some ClusterKey) MetricSetTypeCluster sets ->
  valid_visits sets v1 -> valid_visits sets v2 ->
  exists sets', Process (NewClusterAggregator sums) [v1; v2] sets = Ok sets' /\
    let namespaces := select sets (isType MetricSetTypeNamespace) in
    group_report (cluster_pod_spec sums) cluster_container_spec true
      (sets !! ClusterKey) namespaces namespaces (sets' !! ClusterKey).
Proof.
  intros sums Hints Hty Hv1 Hv2.
  destruct (pair_report (cluster_pod_spec sums) cluster_container_spec
    (cluster_new_kind sums)
    true eq_refl eq_refl eq_refl ltac:(by apply (bool_decide_unpack _))
    (aggregated_metrics sums) "cluster" v1 v2 sets)
    as (_ & sets' & _ & _ & HP & _ & _ & Hrep); [done| | | |done|done|done|].
  1-3: intros k s g gs Hk _ Hg Hgs; by apply (isType_other _ _ _ (Hty k s g gs Hk Hg Hgs)).
  exists sets'. split; [exact HP|]. specialize (Hrep ClusterKey).
  rewrite !group_members_select in Hrep.
  rewrite (select_ext sets _ (isType MetricSetTypeNamespace)) in Hrep
    by (intros s; by rewrite andb_true_r).
  rewrite (select_ext sets (fun s => IsPartOfGroup cluster_container_spec s && _)
    (isType MetricSetTypeNamespace)) in Hrep by (intros s; by rewrite andb_true_r).
  exact Hrep.
Qed.

(** A batch with two running pods of a namespace, one of them with a
    container, for the concrete instances below. *)
Definition sample_pod (name node : string) (cpu : Z) : Set_ :=
  add_labeled (MkLabeledValue (md_Name MetricPodPhase) {["phase" := "Running"]} (intValue 2))
    (set_of {[md_Name MetricCpuRequest := intValue cpu]}
      (<[Key LabelNodename := node]> (<[Key LabelNamespaceName := "ns1"]>
        {[Key LabelMetricSetType := MetricSetTypePod]}))).
Definition sample_container : Set_ :=
  set_of ∅ (<[Key LabelNodename := "n1"]> (<[Key LabelNamespaceName := "ns1"]>
    {[Key LabelMetricSetType := MetricSetTypePodContainer]})).
Definition sample_node : Set_ :=
  set_of ∅ {[Key LabelMetricSetType := MetricSetTypeNode]}.
Definition sample_namespace : Set_ :=
  set_of {[md_Name MetricPodCount := intValue 3]} {[Key LabelMetricSetType := MetricSetTypeNamespace]}.
Definition sample_batch : Sets :=
  <[PodKey "ns1" "a" := sample_pod "a" "n1" 5]> (<[PodKey "ns1" "b" := sample_pod "b" "n1" 7]>
  (<[PodContainerKey "ns1" "a" "c" := sample_container]> {[NodeKey "n1" := sample_node]})).

(** Facts about the entries of a literal map. *)
Ltac each_entry :=
  repeat match goal with
  | H : <[?i := ?x]> ?m !! ?k = Some ?s |- _ => apply lookup_insert_Some in H as [[<- <-]|[_ H]]
  | H : {[?i := ?x]} !! ?k = Some ?s |- _ => apply lookup_singleton_Some in H as [<- <-]
  | H : ∅ !! _ = Some _ |- _ => by rewrite lookup_empty in H
  end.

Lemma sample_ints ms : batch_ints ms sample_batch.
Proof. intros k s Hk n v _ Hv. unfold sample_batch in Hk. each_entry; cbn in Hv; each_entry; done. Qed.

Lemma sample_visits : valid_visits sample_batch (sorted_keys sample_batch).
Proof. split; [apply sorted_keys_NoDup|]. intros k Hk. by apply sorted_keys_elem. Qed.

Lemma namespace_totals_witness :
  exists sets', Process (NewNamespaceAggregator metricsToAggregate)
    [sorted_keys sample_batch; sorted_keys sample_batch] sample_batch = Ok sets' /\
  is_Some (sets' !! NamespaceKey "ns1") /\
  opt_int (md_Name MetricCpuRequest) (sets' !! NamespaceKey "ns1") = 12%Z /\
  opt_int (md_Name MetricPodCount) (sets' !! NamespaceKey "ns1") = 2%Z.
Proof.
  destruct (namespace_totals (sorted_keys sample_batch) (sorted_keys sample_batch) sample_batch)
    as (sets' & HP & Hrep); [apply sample_ints| |apply sample_visits|apply sample_visits|].
  { intros k s g gs Hk Hg Hgs. unfold sample_batch in Hk.
    each_entry; cbn in Hg; try discriminate Hg; injection Hg as <-; by vm_compute in Hgs. }
  exists sets'. split; [exact HP|]. specialize (Hrep "ns1").
  assert (is_Some (sets' !! NamespaceKey "ns1")) as Hs.
  { apply (report_exists _ _ _ _ _ _ _ Hrep). right. split; [done|]. left. by vm_compute. }
  split_and!; [done| |].
  - rewrite (report_sum _ _ _ _ _ _ _ Hrep (md_Name MetricCpuRequest) Hs);
      [by vm_compute|by apply (bool_decide_unpack _)].
  - etransitivity; [exact (report_count1 _ _ _ _ _ _ _ Hrep Hs)|by vm_compute].
Defined.

Lemma node_totals_witness :
  exists sets', Process (NewNodeAggregator metricsToAggregateForNode)
    [sorted_keys sample_batch; sorted_keys sample_batch] sample_batch = Ok sets' /\
  opt_int (md_Name MetricCpuRequest) (sets' !! NodeKey "n1") = 12%Z /\
  opt_int (md_Name MetricPodContainerCount) (sets' !! NodeKey "n1") = 1%Z.
Proof.
  destruct (node_totals (sorted_keys sample_batch) (sorted_keys sample_batch) sample_batch)
    as (sets' & HP & Hrep); [apply sample_ints| |apply sample_visits|apply sample_visits|].
  { intros k s g gs Hk Hg Hgs. unfold sample_batch in Hk.
    each_entry; cbn in Hg; try discriminate Hg; injection Hg as <-; vm_compute in Hgs;
      injection Hgs as <-; done. }
  exists sets'. split; [exact HP|]. specialize (Hrep "n1" ltac:(done)).
  assert (is_Some (sets' !! NodeKey "n1")) as Hs.
  { apply (report_exists _ _ _ _ _ _ _ Hrep). left. vm_compute. by eexists. }
  split.
  - rewrite (report_sum _ _ _ _ _ _ _ Hrep (md_Name MetricCpuRequest) Hs);
      [by vm_compute|by apply (bool_decide_unpack _)].
  - etransitivity; [exact (report_count2 _ _ _ _ _ _ _ Hrep Hs)|by vm_compute].
Defined.

Lemma cluster_totals_witness :
  let sets := {[NamespaceKey "a" := sample_namespace]} : Sets in
  exists sets', Process (NewClusterAggregator metricsToAggregate)
    [sorted_keys sets; sorted_keys sets] sets = Ok sets' /\
  opt_int (md_Name MetricPodCount) (sets' !! ClusterKey) = 3%Z.
Proof.
  intros sets.
  destruct (cluster_totals (sorted_keys sets) (sorted_keys sets) sets) as (sets' & HP & Hrep).
  - intros k s Hk n v _ Hv. unfold sets in Hk. each_entry. cbn in Hv. by each_entry.
  - intros k s g gs _ [= <-] Hgs. by vm_compute in Hgs.
  - split; [apply sorted_keys_NoDup|]. intros k Hk. by apply sorted_keys_elem.
  - split; [apply sorted_keys_NoDup|]. intros k Hk. by apply sorted_keys_elem.
  - exists sets'. split; [exact HP|].
    etransitivity; [apply (report_count1 _ _ _ _ _ _ _ Hrep)|by vm_compute].
    apply (report_exists _ _ _ _ _ _ _ Hrep). right. split; [done|]. left. by vm_compute.
Defined.
