(* ===== verification/PodAggregator.v ===== *)
(** The pod aggregator: plugins/processors/pod_aggregator.go.

    The pods found in the batch are updated in place, the missing ones are
    collected in [newPods] and added after the loop.  [requireAggregate] is
    the set of its keys that are [true].  The visiting order of the batch is
    the argument [visits], that of the values of the container under a key is
    the argument [ord]. *)

From S2P Require Import Prelude GoFloat Metrics MetricTable Aggregators.

Definition LabelsToPopulate : list LabelDescriptor :=
  [LabelPodId; LabelPodName; LabelNamespaceName; LabelPodNamespaceUID; LabelHostname; LabelHostID].

(** The cumulative and delta metrics of [StandardMetrics]. *)
Definition skippedMetrics : list string :=
  map md_Name (filter (fun m => md_Type m = Cumulative \/ md_Type m = Delta) StandardMetrics).
#[global] Arguments skippedMetrics : simpl never.

Definition podMetricSet (labels : gmap string string) : Set_ :=
  set_of ∅
    (foldl (fun newLabels l =>
              match labels !! Key l with
              | Some val => <[Key l := val]> newLabels
              | None => newLabels
              end)
       {[Key LabelMetricSetType := MetricSetTypePod]} LabelsToPopulate).

(** One metric of a container: the pod and [requireAggregate] after it. *)
Definition value_step (podKey : string) (st : Set_ * gset string) (mv : string * Value)
    : result (Set_ * gset string) :=
  let '(pod, requireAggregate) := st in
  let '(metricName, metricValue) := mv in
  if decide (metricName ∈ skippedMetrics) then Ok st
  else
    match Values pod !! metricName with
    | None => Ok (set_value metricName metricValue pod,
                  {[(podKey +:+ metricName)%string]} ∪ requireAggregate)
    | Some aggregatedValue =>
        if decide ((podKey +:+ metricName)%string ∈ requireAggregate) then
          if decide (ValueType aggregatedValue = ValueType metricValue) then
            match ValueType aggregatedValue with
            | ValueInt64 => Ok (set_value metricName
                (MkValue (i64_add (IntValue aggregatedValue) (IntValue metricValue))
                   (FloatValue aggregatedValue) ValueInt64) pod, requireAggregate)
            | ValueFloat => Ok (set_value metricName
                (MkValue (IntValue aggregatedValue)
                   (f64_add (FloatValue aggregatedValue) (FloatValue metricValue)) ValueFloat) pod,
                requireAggregate)
            | ValueOther _ => Err ("PodAggregator: type not supported in " +:+ metricName)%string
            end
          else Ok st
        else Ok (set_value metricName aggregatedValue pod, requireAggregate)
    end.

Record pod_state := MkPodState {
  pa_sets : Sets;
  pa_newPods : Sets;
  pa_requireAggregate : gset string;
}.

(** The pod a container belongs to, when it is a container with a name and a
    namespace. *)
Definition container_pod (s : Set_) : option string :=
  if bool_decide (Labels s !! Key LabelMetricSetType = Some MetricSetTypePodContainer) then
    match Labels s !! Key LabelPodName, Labels s !! Key LabelNamespaceName with
    | Some podName, Some ns => Some (PodKey ns podName)
    | _, _ => None
    end
  else None.

Definition container_step (ord : string -> gmap string Value -> list (string * Value))
    (st : pod_state) (key : string) : result pod_state :=
  match pa_sets st !! key with
  | None => Ok st
  | Some metricSet =>
      match container_pod metricSet with
      | None => Ok st
      | Some podKey =>
          let values := ord key (Values metricSet) in
          match pa_sets st !! podKey with
          | Some pod =>
              foldM (value_step podKey) (pod, pa_requireAggregate st) values ≫= fun '(pod', req) =>
              Ok (MkPodState (<[podKey := pod']> (pa_sets st)) (pa_newPods st) req)
          | None =>
              let pod := default (podMetricSet (Labels metricSet)) (pa_newPods st !! podKey) in
              foldM (value_step podKey) (pod, pa_requireAggregate st) values ≫= fun '(pod', req) =>
              Ok (MkPodState (pa_sets st) (<[podKey := pod']> (pa_newPods st)) req)
          end
      end
  end.

Definition PodAggregator_Process (ord : string -> gmap string Value -> list (string * Value))
    (visits : list string) (sets : Sets) : result Sets :=
  foldM (container_step ord) (MkPodState sets ∅ ∅) visits ≫= fun st =>
  Ok (copy_into (pa_sets st) (pa_newPods st)).

(** ** One metric of one pod

    A cell is the value a pod has for a metric and whether it is an
    aggregate; a container moves the cell by its own value. *)

Definition cell : Type := option Value * bool.

Definition cell_step (m : string) (c : cell) (ov : option Value) : cell :=
  if decide (m ∈ skippedMetrics) then c
  else match ov, c with
  | None, _ => c
  | Some v, (None, _) => (Some v, true)
  | Some v, (Some a, true) =>
      (Some (MkValue (i64_add (IntValue a) (IntValue v)) (FloatValue a) ValueInt64), true)
  | Some _, (Some a, false) => c
  end.

Definition cell_at (podKey : string) (values : option (gmap string Value)) (req : gset string)
    (m : string) : cell :=
  (vs ← values; vs !! m, bool_decide ((podKey +:+ m)%string ∈ req)).

Definition all_ints (vs : list (string * Value)) : Prop :=
  forall n v, (n, v) ∈ vs -> ValueType v = ValueInt64.

(** The aggregated values are integers. *)
Definition agg_ints (names : list string) (podKey : string) (pod : Set_) (req : gset string) : Prop :=
  forall n a, n ∈ names -> (podKey +:+ n)%string ∈ req -> Values pod !! n = Some a -> ValueType a = ValueInt64.

Definition grows (podKey : string) (vs : list (string * Value)) (req req' : gset string) : Prop :=
  forall x, x ∈ req' <-> x ∈ req \/ (x ∈ req' /\ exists n, n ∈ vs.*1 /\ x = (podKey +:+ n)%string).

Lemma value_step_cell names pk pod req n v :
  n ∈ names -> ValueType v = ValueInt64 -> agg_ints names pk pod req ->
  exists pod' req', value_step pk (pod, req) (n, v) = Ok (pod', req') /\ Labels pod' = Labels pod /\
    agg_ints names pk pod' req' /\ grows pk [(n, v)] req req' /\
    cell_at pk (Some (Values pod')) req' n = cell_step n (cell_at pk (Some (Values pod)) req n) (Some v) /\
    forall m, m <> n -> cell_at pk (Some (Values pod')) req' m = cell_at pk (Some (Values pod)) req m.
Proof.
  intros Hnames Hv Hag. unfold value_step, cell_step, cell_at; cbn.
  case_decide as Hskip.
  { exists pod, req. split_and!; [done|done|done|intros x; naive_solver|done|done]. }
  destruct (Values pod !! n) as [a|] eqn:Ea.
  2:{ eexists _, _; split; [done|]. split_and!; [done|..].
      - intros n' a'. cbn. destruct (decide (n' = n)) as [->|Hne].
        + rewrite lookup_insert_eq. by intros _ _ [= <-].
        + rewrite lookup_insert_ne by done. intros Hn' [Hx%elem_of_singleton|Hx]%elem_of_union.
          * by apply str_app_inj_l in Hx.
          * by apply Hag.
      - intros x. set_solver.
      - cbn. rewrite lookup_insert_eq. f_equal. apply bool_decide_eq_true_2. set_solver.
      - intros m Hm. cbn. rewrite lookup_insert_ne by done. f_equal. apply bool_decide_ext.
        rewrite elem_of_union, elem_of_singleton. split; [|by right].
        intros [Hx|Hx]; [by apply str_app_inj_l in Hx|done]. }
  case_decide as Hreq.
  - pose proof (Hag n a Hnames Hreq Ea) as Ha. rewrite decide_True by congruence. rewrite Ha.
    eexists _, _; split; [done|]. split_and!; [done|..].
    + intros n' a'. cbn. destruct (decide (n' = n)) as [->|Hne].
      * rewrite lookup_insert_eq. by intros _ _ [= <-].
      * rewrite lookup_insert_ne by done. by apply Hag.
    + intros x. naive_solver.
    + cbn. rewrite lookup_insert_eq. by rewrite bool_decide_eq_true_2.
    + intros m Hm. cbn. by rewrite lookup_insert_ne.
  - eexists _, _; split; [done|]. split_and!; [done|..].
    + intros n' a'. cbn. destruct (decide (n' = n)) as [->|Hne]; [done|].
      rewrite lookup_insert_ne by done. by apply Hag.
    + intros x. naive_solver.
    + cbn. rewrite lookup_insert_eq. by rewrite bool_decide_eq_false_2.
    + intros m Hm. cbn. by rewrite lookup_insert_ne.
Qed.

Lemma cell_step_None m c : cell_step m c None = c.
Proof. unfold cell_step. by case_decide. Qed.

(** The loop over the values of one container. *)
Lemma value_loop_cell names pk l pod req :
  NoDup (l.*1) -> l.*1 ⊆ names -> all_ints l -> agg_ints names pk pod req ->
  exists pod' req', foldM (value_step pk) (pod, req) l = Ok (pod', req') /\ Labels pod' = Labels pod /\
    agg_ints names pk pod' req' /\ grows pk l req req' /\
    forall m, cell_at pk (Some (Values pod')) req' m =
      cell_step m (cell_at pk (Some (Values pod)) req m) ((list_to_map l : gmap string Value) !! m).
Proof.
  revert pod req; induction l as [|[n v] l IH]; intros pod req Hnd Hsub Hints Hag.
  { exists pod, req. split_and!; [done|done|done|intros x; naive_solver|].
    intros m. rewrite list_to_map_nil, lookup_empty. by rewrite cell_step_None. }
  apply NoDup_cons in Hnd as [Hn Hnd]. cbn [fst] in Hn.
  destruct (value_step_cell names pk pod req n v) as (p1 & r1 & E1 & Hl1 & Hag1 & Hg1 & Hc1 & Ho1);
    [apply Hsub; by left|apply (Hints n v); by left|done|].
  destruct (IH p1 r1) as (p2 & r2 & E2 & Hl2 & Hag2 & Hg2 & Hc2);
    [done|by intros x Hx; apply Hsub; right| |done|].
  { intros n' v' Hin. apply (Hints n' v'). by right. }
  exists p2, r2. cbn [foldM]. rewrite E1. cbn [mbind result_bind]. split_and!; [done|congruence|done| |].
  - intros x. split; [|intros [H|[H _]]; [apply Hg2; left; apply Hg1; by left|done]].
    intros Hx. destruct (proj1 (Hg2 x) Hx) as [H1|(_ & n' & Hn' & ->)].
    + destruct (proj1 (Hg1 x) H1) as [?|(_ & n' & Hn' & ->)]; [by left|right].
      split; [done|]. exists n'. split; [|done]. cbn in *. set_solver.
    + right. split; [done|]. exists n'. split; [|done]. cbn. by right.
  - intros m. rewrite Hc2, list_to_map_cons.
    destruct (decide (m = n)) as [->|Hm].
    + rewrite lookup_insert_eq. rewrite (not_elem_of_list_to_map_1 l n Hn).
      by rewrite cell_step_None, Hc1.
    + rewrite lookup_insert_ne by done. by rewrite Ho1.
Qed.

(** ** The loop over the batch *)

Lemma str_app_cases (a b m n : string) :
  (a +:+ m = b +:+ n)%string ->
  exists p, (a = b +:+ p /\ n = p +:+ m)%string \/ (b = a +:+ p /\ m = p +:+ n)%string.
Proof.
  revert b; induction a as [|x a IH]; intros b E.
  - exists b. by right.
  - destruct b as [|y b]; [exists (String x a); by left|].
    change (String x (a +:+ m) = String y (b +:+ n)) in E. injection E as -> E.
    destruct (IH b E) as (p & [[-> ->]|[-> ->]]); exists p; [by left|by right].
Qed.

(** No metric name is a proper suffix of another. *)
Definition suffix_free (names : list string) : Prop :=
  forall n m p, n ∈ names -> m ∈ names -> m = (p +:+ n)%string -> p = "".

Lemma suffix_free_key names pk pk' n m :
  suffix_free names -> n ∈ names -> m ∈ names ->
  (pk +:+ m = pk' +:+ n)%string -> pk = pk' /\ m = n.
Proof.
  intros Hs Hn Hm E.
  destruct (str_app_cases _ _ _ _ E) as (p & [[-> ->]|[-> ->]]).
  - rewrite (Hs m (p +:+ m)%string p) by done. by rewrite str_app_nil_r.
  - rewrite (Hs n (p +:+ n)%string p) by done. by rewrite str_app_nil_r.
Qed.

Definition value_of (m : string) (o : option Set_) : option Value := p ← o; Values p !! m.

Section loop.
Context (ord : string -> gmap string Value -> list (string * Value)).
Context (Hord : forall k m, iterates (ord k m) m).
Context (sets0 : Sets) (names : list string) (Hsuffix : suffix_free names).
Context (Hnames : forall k s n v, sets0 !! k = Some s -> is_Some (container_pod s) ->
           Values s !! n = Some v -> n ∈ names /\ ValueType v = ValueInt64 /\ in_i64 (IntValue v)).
Context (Hpods : forall k s pk p, sets0 !! k = Some s -> container_pod s = Some pk ->
           sets0 !! pk = Some p -> container_pod p = None).

Definition pod_of (st : pod_state) (pk : string) : option Set_ :=
  match pa_sets st !! pk with Some p => Some p | None => pa_newPods st !! pk end.
Definition cell_of (st : pod_state) (pk m : string) : cell :=
  cell_at pk (Values <$> pod_of st pk) (pa_requireAggregate st) m.

(** The container of pod [pk] under [key]. *)
Definition container_at (pk key : string) : option Set_ :=
  s ← sets0 !! key; if bool_decide (container_pod s = Some pk) then Some s else None.

Record pod_inv (st : pod_state) : Prop := {
  inv_containers k s : is_Some (container_pod s) -> pa_sets st !! k = Some s <-> sets0 !! k = Some s;
  inv_dom k : is_Some (pa_sets st !! k) <-> is_Some (sets0 !! k);
  inv_new k : is_Some (pa_newPods st !! k) -> sets0 !! k = None;
  inv_ints pk p : pod_of st pk = Some p -> agg_ints names pk p (pa_requireAggregate st);
}.

(** What a step on a container of [pk0] does to the pods. *)
Lemma pod_update (st : pod_state) pk0 key (s p : Set_) (st' : pod_state) (p' : Set_) req' :
  pod_inv st -> sets0 !! key = Some s -> container_pod s = Some pk0 ->
  (forall k, pod_of st' k = if decide (k = pk0) then Some p' else pod_of st k) ->
  pa_requireAggregate st' = req' ->
  agg_ints names pk0 p' req' ->
  grows pk0 (ord key (Values s)) (pa_requireAggregate st) req' ->
  (forall m, cell_at pk0 (Some (Values p')) req' m =
     cell_step m (cell_at pk0 (Some (Values p)) (pa_requireAggregate st) m) (Values s !! m)) ->
  (forall m, cell_of st pk0 m = cell_at pk0 (Some (Values p)) (pa_requireAggregate st) m) ->
  (forall pk q, pod_of st' pk = Some q -> agg_ints names pk q req') /\
  forall pk m, m ∈ names -> cell_of st' pk m =
    if decide (pk = pk0) then cell_step m (cell_of st pk m) (Values s !! m) else cell_of st pk m.
Proof.
  intros Hinv Hs Hpk0 Hpo Hreq Hag Hg Hc Hcell.
  assert (Hsub : forall n, n ∈ (ord key (Values s)).*1 -> n ∈ names).
  { intros n ([n' v] & -> & Hin)%list_elem_of_fmap.
    apply (iterates_elem _ _ _ _ (Hord key (Values s))) in Hin.
    by eapply Hnames; [exact Hs|eexists|exact Hin]. }
  assert (Hother : forall pk m, pk <> pk0 -> m ∈ names ->
    (pk +:+ m)%string ∈ req' <-> (pk +:+ m)%string ∈ pa_requireAggregate st).
  { intros pk m Hne Hm. rewrite (Hg (pk +:+ m)%string). split; [|by left].
    intros [H|(_ & n & Hn & E)]; [done|].
    by apply (suffix_free_key names) in E as [? _]; [|done|apply Hsub|]. }
  split.
  - intros pk q. rewrite Hpo. case_decide as Hpk; [intros [= <-]; by subst|].
    intros Hq n a Hn. rewrite Hother by done. by apply (inv_ints st Hinv pk q Hq).
  - intros pk m Hm. unfold cell_of. rewrite Hpo, Hreq. case_decide as Hpk.
    + subst pk. change (Values <$> Some p') with (Some (Values p')). rewrite Hc. f_equal.
      symmetry. apply Hcell.
    + unfold cell_at. f_equal. apply bool_decide_ext. by apply Hother.
Qed.

(** The loop over the values of the container under [key]. *)
Lemma container_values key (s p : Set_) pk0 req :
  sets0 !! key = Some s -> container_pod s = Some pk0 -> agg_ints names pk0 p req ->
  exists p' req', foldM (value_step pk0) (p, req) (ord key (Values s)) = Ok (p', req') /\
    Labels p' = Labels p /\ agg_ints names pk0 p' req' /\ grows pk0 (ord key (Values s)) req req' /\
    forall m, cell_at pk0 (Some (Values p')) req' m =
      cell_step m (cell_at pk0 (Some (Values p)) req m) (Values s !! m).
Proof.
  intros Hs Hpk Hp.
  assert (Hin : forall n v, (n, v) ∈ ord key (Values s) ->
            n ∈ names /\ ValueType v = ValueInt64 /\ in_i64 (IntValue v)).
  { intros n v H%(iterates_elem _ _ _ _ (Hord key (Values s))).
    by eapply Hnames; [exact Hs|eexists|exact H]. }
  destruct (value_loop_cell names pk0 (ord key (Values s)) p req) as (p' & req' & ? & ? & ? & ? & Hc);
    [by eapply iterates_NoDup| |by intros n v (_ & ? & _)%Hin|done|].
  { intros n ([n' v] & -> & H)%list_elem_of_fmap. by apply Hin in H as [? _]. }
  exists p', req'. split_and!; [done|done|done|done|].
  intros m. rewrite Hc. by rewrite (iterates_to_map _ _ (Hord key (Values s))).
Qed.

(** The set the step starts from: the pod's own, the one made for it by an
    earlier container, or an empty one. *)
Definition pod_start (st : pod_state) (pk : string) (s : Set_) : Set_ :=
  match pa_sets st !! pk with
  | Some pod => pod
  | None => default (podMetricSet (Labels s)) (pa_newPods st !! pk)
  end.

Lemma pod_start_cell st pk s :
  pod_inv st -> agg_ints names pk (pod_start st pk s) (pa_requireAggregate st) /\
  forall m, cell_of st pk m = cell_at pk (Some (Values (pod_start st pk s))) (pa_requireAggregate st) m.
Proof.
  intros Hinv. pose proof (inv_ints st Hinv pk) as Hi. unfold cell_of, pod_of, pod_start in *.
  destruct (pa_sets st !! pk) as [pod|]; [by split; [apply Hi|]|].
  destruct (pa_newPods st !! pk) as [pod|]; cbn [default]; [by split; [apply Hi|]|].
  split; [intros n a _ _; cbn; by rewrite lookup_empty|].
  intros m. unfold cell_at. by f_equal.
Qed.

(** What a step that visits [key] does to the pods. *)
Definition visited (st : pod_state) (key : string) (st' : pod_state) : Prop :=
  forall pk,
    (is_Some (pod_of st' pk) <-> is_Some (pod_of st pk) \/ is_Some (container_at pk key)) /\
    forall m, m ∈ names -> cell_of st' pk m =
      match container_at pk key with
      | Some s => cell_step m (cell_of st pk m) (Values s !! m)
      | None => cell_of st pk m
      end.

Lemma visited_skip st key : (forall pk, container_at pk key = None) -> visited st key st.
Proof. intros H pk. rewrite H. split; [|done]. split; [by left|intros [?|[]]; done]. Qed.

Lemma container_at_eq pk key s pk0 :
  sets0 !! key = Some s -> container_pod s = Some pk0 ->
  container_at pk key = if decide (pk = pk0) then Some s else None.
Proof. intros Hs Hpk. unfold container_at. rewrite Hs. cbn. rewrite Hpk. case_bool_decide; case_decide; congruence. Qed.

Lemma container_at_skip st key :
  pod_inv st -> (forall s, pa_sets st !! key = Some s -> container_pod s = None) ->
  forall pk, container_at pk key = None.
Proof.
  intros Hinv Hno pk. unfold container_at. destruct (sets0 !! key) as [s|] eqn:Es; [cbn|done].
  case_bool_decide as Hpk; [|done]. rewrite (Hno s) in Hpk; [done|].
  apply (inv_containers st Hinv); [by eexists|done].
Qed.

(** The state in which pod [pk0] has been replaced by [p']. *)
Definition put_pod (st : pod_state) (pk0 : string) (p' : Set_) (req' : gset string) : pod_state :=
  match pa_sets st !! pk0 with
  | Some _ => MkPodState (<[pk0 := p']> (pa_sets st)) (pa_newPods st) req'
  | None => MkPodState (pa_sets st) (<[pk0 := p']> (pa_newPods st)) req'
  end.

Lemma put_pod_of st pk0 p' req' k :
  pod_of (put_pod st pk0 p' req') k = if decide (k = pk0) then Some p' else pod_of st k.
Proof.
  unfold pod_of, put_pod. destruct (pa_sets st !! pk0) eqn:E; cbn; case_decide; subst.
  - by rewrite lookup_insert_eq.
  - by rewrite lookup_insert_ne.
  - by rewrite E, lookup_insert_eq.
  - by rewrite lookup_insert_ne.
Qed.

Lemma put_pod_inv st pk0 p' req' :
  pod_inv st -> (forall pod, pa_sets st !! pk0 = Some pod -> container_pod p' = container_pod pod) ->
  (forall p, sets0 !! pk0 = Some p -> container_pod p = None) ->
  (forall pk q, pod_of (put_pod st pk0 p' req') pk = Some q -> agg_ints names pk q req') ->
  pod_inv (put_pod st pk0 p' req').
Proof.
  intros Hinv Hp' Hpod Hints. unfold put_pod in *. destruct (pa_sets st !! pk0) as [pod|] eqn:E; split; cbn.
  - intros k s [x Hs]. destruct (decide (k = pk0)) as [->|Hne].
    + rewrite lookup_insert_eq. split; [intros [= <-]|intros H; apply Hpod in H; congruence].
      rewrite (Hp' pod eq_refl) in Hs. apply (inv_containers st Hinv) in E as E0; [|by eexists].
      apply Hpod in E0. congruence.
    + rewrite lookup_insert_ne by done. apply (inv_containers st Hinv). by eexists.
  - intros k. rewrite <- (inv_dom st Hinv). destruct (decide (k = pk0)) as [->|Hne].
    + rewrite lookup_insert_eq, E. split; by eexists.
    + by rewrite lookup_insert_ne.
  - apply (inv_new st Hinv).
  - exact Hints.
  - apply (inv_containers st Hinv).
  - apply (inv_dom st Hinv).
  - intros k. destruct (decide (k = pk0)) as [->|Hne].
    + intros _. apply eq_None_not_Some. rewrite <- (inv_dom st Hinv), E. apply is_Some_None.
    + rewrite lookup_insert_ne by done. apply (inv_new st Hinv).
  - exact Hints.
Qed.

Lemma container_step_eq st key s pk0 :
  pa_sets st !! key = Some s -> container_pod s = Some pk0 ->
  container_step ord st key =
    foldM (value_step pk0) (pod_start st pk0 s, pa_requireAggregate st) (ord key (Values s)) ≫=
      fun '(p', req') => Ok (put_pod st pk0 p' req').
Proof.
  intros Hs Hpk. unfold container_step, put_pod, pod_start. rewrite Hs, Hpk.
  by destruct (pa_sets st !! pk0).
Qed.

Lemma container_step_cell st key :
  pod_inv st -> exists st', container_step ord st key = Ok st' /\ pod_inv st' /\ visited st key st'.
Proof.
  intros Hinv.
  destruct (pa_sets st !! key) as [s|] eqn:Hk; [destruct (container_pod s) as [pk0|] eqn:Hpk0|].
  2-3: exists st; split_and!; [unfold container_step; rewrite Hk; by rewrite ?Hpk0|done|];
    apply visited_skip, (container_at_skip st); [done|intros; congruence].
  apply (inv_containers st Hinv) in Hk as Hk0; [|by eexists].
  rewrite (container_step_eq st key s pk0) by done.
  destruct (pod_start_cell st pk0 s Hinv) as [Hp Hcell].
  destruct (container_values key s _ pk0 _ Hk0 Hpk0 Hp) as (p' & req' & -> & Hlab & Hag & Hg & Hc).
  destruct (pod_update st pk0 key s (pod_start st pk0 s) (put_pod st pk0 p' req') p' req' Hinv Hk0 Hpk0) as [Ha Hcells];
    [intros k; apply put_pod_of|unfold put_pod; by destruct (pa_sets st !! pk0)|done..|].
  eexists; split; [reflexivity|split].
  - apply put_pod_inv; [done| |exact (fun q => Hpods key s pk0 q Hk0 Hpk0)|exact Ha].
    intros pod Epod. unfold container_pod. rewrite Hlab. unfold pod_start. by rewrite Epod.
  - intros pk. rewrite (container_at_eq pk key s pk0), put_pod_of by done. specialize (Hcells pk).
    case_decide; (split; [|exact Hcells]); [split; [by right; eexists|by eexists]|].
    split; [by left|intros [?|[]]; done].
Qed.

Definition containers_of (pk : string) (visits : list string) : list Set_ :=
  omap (container_at pk) visits.

Lemma loop_cells visits st :
  pod_inv st -> exists st', foldM (container_step ord) st visits = Ok st' /\ pod_inv st' /\
    forall pk,
      (is_Some (pod_of st' pk) <-> is_Some (pod_of st pk) \/ containers_of pk visits <> []) /\
      forall m, m ∈ names -> cell_of st' pk m =
        foldl (fun c (s : Set_) => cell_step m c (Values s !! m)) (cell_of st pk m)
          (containers_of pk visits).
Proof.
  revert st; induction visits as [|k visits IH]; intros st Hinv.
  { exists st. split_and!; [done|done|]. intros pk. split; [|done]. split; [by left|intros [?|?]; done]. }
  destruct (container_step_cell st k Hinv) as (st1 & E1 & Hinv1 & H1).
  destruct (IH st1 Hinv1) as (st2 & E2 & Hinv2 & H2).
  exists st2. cbn [foldM]. rewrite E1. cbn [mbind result_bind]. split_and!; [done|done|].
  intros pk. destruct (H1 pk) as [Hx1 Hc1], (H2 pk) as [Hx2 Hc2].
  unfold containers_of in *. cbn [omap list_omap].
  rewrite Hx2, Hx1. split.
  - destruct (container_at pk k) as [s|]; [|unfold is_Some; naive_solver].
    split; [by right|]. by left; right; eexists.
  - intros m Hm. rewrite Hc2, Hc1 by done. by destruct (container_at pk k).
Qed.
(** The state before the loop, and what the batch becomes after it. *)
Definition pod_init : pod_state := MkPodState sets0 ∅ ∅.

Lemma pod_init_inv : pod_inv pod_init.
Proof.
  split; cbn; [done|done| |].
  - intros k [? H]. by rewrite lookup_empty in H.
  - intros pk p _ n a _ H. by apply not_elem_of_empty in H.
Qed.

Lemma pod_init_of pk : pod_of pod_init pk = sets0 !! pk.
Proof. unfold pod_of. cbn. rewrite lookup_empty. by destruct (sets0 !! pk). Qed.

Lemma cell_value st pk m : (cell_of st pk m).1 = value_of m (pod_of st pk).
Proof. unfold cell_of, cell_at. by destruct (pod_of st pk). Qed.

Lemma pod_init_cell pk m : cell_of pod_init pk m = (value_of m (sets0 !! pk), false).
Proof.
  rewrite <- pod_init_of, <- cell_value. by unfold cell_of, cell_at.
Qed.

Lemma copied_pod st pk : pod_inv st -> copy_into (pa_sets st) (pa_newPods st) !! pk = pod_of st pk.
Proof.
  intros Hinv. unfold copy_into, pod_of. rewrite lookup_union.
  destruct (pa_newPods st !! pk) as [p|] eqn:En; [|by destruct (pa_sets st !! pk)].
  destruct (pa_sets st !! pk) as [q|] eqn:Eq; [|done]. exfalso.
  assert (is_Some (sets0 !! pk)) as [? Hs] by (apply (inv_dom st Hinv); by eexists).
  rewrite (inv_new st Hinv pk) in Hs by (by eexists). done.
Qed.

End loop.

(** ** The closed form of a cell *)

Definition has_metric (m : string) (M : list Set_) : Prop :=
  exists s, s ∈ M /\ is_Some (Values s !! m).

Definition ints_at (m : string) (s : Set_) : Prop :=
  forall v, Values s !! m = Some v -> ValueType v = ValueInt64 /\ in_i64 (IntValue v).

Abbreviation cells m := (foldl (fun c (s : Set_) => cell_step m c (Values s !! m))).

Lemma cells_skipped m c M : m ∈ skippedMetrics -> cells m c M = c.
Proof.
  intros Hm. revert c; induction M as [|s M IH]; intros c; cbn; [done|].
  rewrite IH. unfold cell_step. by rewrite decide_True.
Qed.

Lemma cells_own m a M : cells m (Some a, false) M = (Some a, false).
Proof.
  induction M as [|s M IH]; cbn; [done|].
  assert (cell_step m (Some a, false) (Values s !! m) = (Some a, false)) as ->; [|done].
  unfold cell_step. case_decide; [done|]. by destruct (Values s !! m).
Qed.

Lemma cells_sum m a M :
  m ∉ skippedMetrics -> ValueType a = ValueInt64 -> in_i64 (IntValue a) ->
  exists v, cells m (Some a, true) M = (Some v, true) /\ ValueType v = ValueInt64 /\
    IntValue v = wrap64 (IntValue a + zsum (int_at m) M).
Proof.
  intros Hm. revert a; induction M as [|s M IH]; intros a Ha Hr; cbn [foldl].
  { exists a. split_and!; [done|done|]. by rewrite Z.add_0_r, wrap64_id. }
  unfold cell_step at 2. rewrite decide_False by done. rewrite zsum_cons.
  unfold int_at at 1. destruct (Values s !! m) as [v|].
  - destruct (IH (MkValue (i64_add (IntValue a) (IntValue v)) (FloatValue a) ValueInt64))
      as (w & E & Hw & Hsum); [done|apply wrap64_range|].
    exists w. split_and!; [done|done|]. rewrite Hsum. cbn. unfold i64_add.
    autorewrite with go_norm. f_equal. lia.
  - destruct (IH a) as (w & E & Hw & Hsum); [done|done|]. exists w. by rewrite Z.add_0_l.
Qed.

Lemma cells_new m M :
  m ∉ skippedMetrics -> (forall s, s ∈ M -> ints_at m s) -> has_metric m M ->
  exists v, (cells m (None, false) M).1 = Some v /\ ValueType v = ValueInt64 /\
    IntValue v = wrap64 (zsum (int_at m) M).
Proof.
  intros Hm. induction M as [|s M IH]; intros HM [x [Hx Hsome]]; [by apply not_elem_of_nil in Hx|].
  cbn [foldl]. unfold cell_step at 2. rewrite decide_False by done. rewrite zsum_cons.
  unfold int_at at 1. destruct (Values s !! m) as [v|] eqn:Ev.
  - destruct (HM s (list_elem_of_here _ _) v Ev) as [Hv Hr].
    destruct (cells_sum m v M Hm Hv Hr) as (w & -> & ? & ?). by exists w.
  - rewrite Z.add_0_l. apply IH; [intros; apply HM; by right|].
    exists x. split; [|done]. apply elem_of_cons in Hx as [->|Hx]; [|done].
    rewrite Ev in Hsome. by destruct Hsome.
Qed.

Lemma cells_none m b M :
  (forall s, s ∈ M -> Values s !! m = None) -> cells m (None, b) M = (None, b).
Proof.
  induction M as [|s M IH]; intros HM; cbn [foldl]; [done|].
  rewrite (HM s (list_elem_of_here _ _)), cell_step_None. apply IH. intros; apply HM; by right.
Qed.

(** ** Properties *)

Definition containers_in (sets : Sets) (pk : string) : list Set_ :=
  select sets (fun s => bool_decide (container_pod s = Some pk)).

(** What the loop makes of the metrics of a pod, in terms of cells. *)
Lemma pod_cells (ord : string -> gmap string Value -> list (string * Value))
    (visits : list string) (sets : Sets) (names : list string) :
  (forall k m, iterates (ord k m) m) -> valid_visits sets visits -> suffix_free names ->
  (forall k s n v, sets !! k = Some s -> is_Some (container_pod s) -> Values s !! n = Some v ->
     n ∈ names /\ ValueType v = ValueInt64 /\ in_i64 (IntValue v)) ->
  (forall k s pk p, sets !! k = Some s -> container_pod s = Some pk -> sets !! pk = Some p ->
     container_pod p = None) ->
  exists sets', PodAggregator_Process ord visits sets = Ok sets' /\
    forall pk, exists M, M ≡ₚ containers_in sets pk /\
      (is_Some (sets' !! pk) <-> is_Some (sets !! pk) \/ M <> []) /\
      forall m, m ∈ names -> value_of m (sets' !! pk) = (cells m (value_of m (sets !! pk), false) M).1.
Proof.
  intros Hord Hv Hsuf Hnames Hpods.
  destruct (loop_cells ord Hord sets names Hsuf Hnames Hpods visits _ (pod_init_inv sets names))
    as (st & E & Hinv & Hall).
  unfold PodAggregator_Process. fold (pod_init sets). rewrite E. cbn [mbind result_bind].
  eexists; split; [done|]. intros pk. exists (containers_of sets pk visits).
  rewrite (copied_pod sets names) by done. destruct (Hall pk) as [Hx Hc]. split_and!.
  - apply (omap_visits sets); [apply Hv|apply Hv|]. intros k Hk. unfold container_at. by rewrite Hk.
  - by rewrite pod_init_of in Hx.
  - intros m Hm. specialize (Hc m Hm). rewrite pod_init_cell in Hc.
    apply (f_equal fst) in Hc. by rewrite cell_value in Hc.
Qed.

(** The closed form, for containers in any order. *)
Lemma cells_closed m before M M' :
  M' ≡ₚ M -> (forall s, s ∈ M -> ints_at m s) ->
  let after := (cells m (before, false) M').1 in
  (m ∈ skippedMetrics -> after = before) /\
  (forall v, before = Some v -> after = Some v) /\
  (before = None -> ~ has_metric m M -> after = None) /\
  (before = None -> m ∉ skippedMetrics -> has_metric m M ->
     exists v, after = Some v /\ ValueType v = ValueInt64 /\ IntValue v = wrap64 (zsum (int_at m) M)).
Proof.
  intros Hperm Hints after. unfold after. split_and!.
  - intros Hsk. by rewrite cells_skipped.
  - intros v ->. by rewrite cells_own.
  - intros -> Hno. rewrite cells_none; [done|]. intros s Hs.
    destruct (Values s !! m) eqn:Ev; [|done]. destruct Hno. exists s. by rewrite <- Hperm, Ev.
  - intros -> Hsk (s & Hs & Hv). destruct (cells_new m M' Hsk) as (v & ? & ? & Hz).
    + intros s' Hs'. apply Hints. by rewrite <-Hperm.
    + exists s. by rewrite Hperm.
    + exists v. by rewrite <- (zsum_perm _ _ _ Hperm).
Qed.

(** The containers of a pod report integers. *)
Lemma containers_ints m sets pk :
  (forall k s n v, sets !! k = Some s -> is_Some (container_pod s) -> Values s !! n = Some v ->
     ValueType v = ValueInt64 /\ in_i64 (IntValue v)) ->
  forall s, s ∈ containers_in sets pk -> ints_at m s.
Proof.
  intros H s (k & _ & Hk)%list_elem_of_omap v Hv. destruct (sets !! k) as [s'|] eqn:Es; cbn in Hk; [|done].
  case_bool_decide; [|done]. injection Hk as ->. by apply (H k s m v Es ltac:(by eexists)).
Qed.


(** A pod with a value of its own and a pod that is missing from the batch. *)
Definition sample_pods : Sets :=
  let cont pod cpu := set_of {["cpu/request" := intValue cpu]}
    (<[Key LabelPodName := pod]> (<[Key LabelNamespaceName := "ns"]>
      {[Key LabelMetricSetType := MetricSetTypePodContainer]})) in
  <[PodContainerKey "ns" "a" "c1" := cont "a" 2%Z]> (<[PodContainerKey "ns" "a" "c2" := cont "a" 3%Z]>
    ∅).

