(* ===== verification/Distribution.v ===== *)
(** Histograms: internal/wf/distribution.go and the two processors that work on
    them, distribution_rate_calculator.go and
    cumulative_distribution_converter.go.

    The tags of a distribution are a Go map pointer.  The arithmetic and the
    processors never write through it, so the record is parametric in the type
    [T] of the tags; Wf.v instantiates it with references.  The hash function
    [blake2b] belongs to golang.org/x/crypto and is a parameter.  A slice index
    out of range is [None]. *)

From S2P Require Import Prelude GoFloat.

Record Centroid := MkCentroid { c_Value : f64; c_Count : f64 }.

#[export] Instance Centroid_eq_dec : EqDecision Centroid.
Proof. solve_decision. Defined.

Record Distribution (T : Type) := MkDistribution {
  Cumulative_ : bool;
  d_name : string;
  d_tags : T;
  d_Source : string;
  Centroids : list Centroid;
  d_Timestamp : Z;
}.
Arguments MkDistribution {T} _ _ _ _ _ _.
Arguments Cumulative_ {T} _.
Arguments d_name {T} _.
Arguments d_tags {T} _.
Arguments d_Source {T} _.
Arguments Centroids {T} _.
Arguments d_Timestamp {T} _.

(** ** Arithmetic on centroids *)

(** [sort.Slice] with the less function of [newDistribution]. *)
Definition centroid_le (a b : Centroid) : Prop := f64_ltb (c_Value b) (c_Value a) = false.
#[export] Instance centroid_le_dec : RelDecision centroid_le.
Proof. intros a b. unfold centroid_le. apply _. Defined.
Definition sort_centroids (l : list Centroid) : list Centroid := merge_sort centroid_le l.

Definition smallestCountAboveZero (centroids : list Centroid) : f64 :=
  foldl (fun minCount c =>
           if f64_ltb f64_zero (c_Count c) && f64_ltb (c_Count c) minCount
           then c_Count c else minCount) f64_max_value centroids.

(** [deriveCentroids]: the difference of each count with the one before it. *)
Fixpoint derive_from (prev : option Centroid) (centroids : list Centroid) : list Centroid :=
  match centroids with
  | [] => []
  | c :: cs =>
      let deltaCount := match prev with
                        | Some p => f64_sub (c_Count c) (c_Count p)
                        | None => c_Count c
                        end in
      MkCentroid (c_Value c) deltaCount :: derive_from (Some c) cs
  end.
Definition deriveCentroids (centroids : list Centroid) : list Centroid := derive_from None centroids.

(** [m[k] += v] on a [map[float64]float64]: keys are compared with [==], so a
    NaN key always makes a new entry. *)
Fixpoint map_add (k v : f64) (m : list (f64 * f64)) : list (f64 * f64) :=
  match m with
  | [] => [(k, f64_add f64_zero v)]
  | (k', v') :: m' =>
      if f64_eqb k' k then (k', f64_add v' v) :: m' else (k', v') :: map_add k v m'
  end.

Definition f64_two : f64 := f64_of_Z 2.
Definition f64_four : f64 := f64_of_Z 4.

(** One round of the loop of [smoothCentroids]; [prev] is the value of the
    centroid before this one. *)
Definition smooth_step (amplification : f64) (prev : option f64) (c : Centroid)
    (counts : list (f64 * f64)) : option (list (f64 * f64)) :=
  let currentBucketBound := c_Value c in
  let actualBucketCount := f64_mul (c_Count c) amplification in
  if f64_leb currentBucketBound f64_zero || f64_eqb actualBucketCount f64_zero then Some counts
  else
    let actualBucketCount := f64_max f64_one actualBucketCount in
    bound ← (if f64_eqb currentBucketBound f64_inf then prev else Some currentBucketBound);
    let previousBucketBound := default f64_zero prev in
    let lowerCount := f64_trunc (f64_div actualBucketCount f64_four) in
    let counts := map_add previousBucketBound lowerCount counts in
    let middleCount := f64_trunc (f64_div actualBucketCount f64_two) in
    let counts := map_add (f64_div (f64_add bound previousBucketBound) f64_two) middleCount counts in
    let upperCount := f64_trunc (f64_sub (f64_sub actualBucketCount lowerCount) middleCount) in
    Some (map_add bound upperCount counts).

Fixpoint smooth_loop (amplification : f64) (prev : option f64) (l : list Centroid)
    (counts : list (f64 * f64)) : option (list (f64 * f64)) :=
  match l with
  | [] => Some counts
  | c :: l' =>
      counts ← smooth_step amplification prev c counts;
      smooth_loop amplification (Some (c_Value c)) l' counts
  end.

Definition centroidMapToSlice (counts : list (f64 * f64)) : list Centroid :=
  map (fun '(value, count) => MkCentroid value count) counts.

Definition amplification_of (l : list Centroid) : f64 :=
  f64_max f64_one (f64_div f64_one (smallestCountAboveZero l)).

Definition smoothCentroids (derived : list Centroid) : option (list Centroid) :=
  match derived with
  | [c] => if f64_eqb (c_Value c) f64_inf then Some []
           else centroidMapToSlice <$> smooth_loop (amplification_of derived) None derived []
  | _ => centroidMapToSlice <$> smooth_loop (amplification_of derived) None derived []
  end.

(** [sendableCentroids]: the value and the integer count of each centroid. *)
Definition sendableCentroids (centroids : list Centroid) : list (f64 * Z) :=
  omap (fun c => if f64_eqb (c_Count c) f64_zero then None
                 else Some (c_Value c, f64_to_i64 (c_Count c))) centroids.

(** The loop of [CentroidRate] after the length check. *)
Fixpoint rate_loop (duration : Z) (curr prev : list Centroid) : option (list Centroid) :=
  match curr, prev with
  | [], _ => Some []
  | c :: cs, p :: ps =>
      if negb (f64_eqb (c_Value c) (c_Value p)) || f64_ltb (c_Count c) (c_Count p)
         || f64_leb (duration_seconds duration) f64_zero
      then None
      else
        rest ← rate_loop duration cs ps;
        Some (MkCentroid (c_Value c)
                (f64_div (f64_sub (c_Count c) (c_Count p)) (duration_minutes duration)) :: rest)
  | _ :: _, [] => None
  end.

Definition CentroidRate (curr prev : list Centroid) (duration : Z) : option (list Centroid) :=
  if negb (length curr =? length prev)%nat then None else rate_loop duration curr prev.

(** ** Distributions *)

Section distribution.
Context {T : Type}.
Implicit Types d : Distribution T.

Definition newDistribution (cumulative : bool) (name source : string) (tags : T)
    (centroids : list Centroid) (timestamp : Z) : Distribution T :=
  MkDistribution cumulative name tags source (sort_centroids centroids) timestamp.
Definition NewCumulativeDistribution (name source : string) (tags : T) := newDistribution true name source tags.
Definition NewFrequencyDistribution (name source : string) (tags : T) := newDistribution false name source tags.

Definition Distribution_Points d : Z := 7.

Definition ToFrequency d : option (Distribution T) :=
  if negb (Cumulative_ d) then Some d
  else
    centroids ← smoothCentroids (deriveCentroids (Centroids d));
    Some (NewFrequencyDistribution (d_name d) (d_Source d) (d_tags d) centroids (d_Timestamp d)).

(** [Send]: what is handed to the sender, nothing when no centroid counts. *)
Definition Distribution_Send d : result (option (string * list (f64 * Z) * Z * string * T)) :=
  if Cumulative_ d then Err "cannot send prometheus style distribution to wavefront"
  else
    match sendableCentroids (Centroids d) with
    | [] => Ok None
    | centroids => Ok (Some (d_name d, centroids, unix (d_Timestamp d), d_Source d, d_tags d))
    end.
End distribution.

(** ** Keys and rates *)

Section keys.
Context (blake2b : string -> string).
Abbreviation Dist := (Distribution (gmap string string)).
Implicit Types d : Dist.

Definition key_text d : string :=
  ((if Cumulative_ d then "true " else "false ") +:+ d_name d +:+ " source=" +:+ d_Source d +:+
   foldr (fun name acc => " " +:+ name +:+ "=" +:+ get_str (d_tags d) name +:+ acc) ""
     (sorted_keys (d_tags d)))%string.

Definition Distribution_Key d : string := blake2b (key_text d).

Definition Distribution_Rate d (prev : option Dist) : option Dist :=
  prev ← prev;
  if negb (String.eqb (Distribution_Key prev) (Distribution_Key d)) then None
  else
    centroidRate ← CentroidRate (Centroids d) (Centroids prev)
                     (time_sub (d_Timestamp d) (d_Timestamp prev));
    Some (newDistribution (Cumulative_ d) (d_name d) (d_Source d) (d_tags d) centroidRate
            (d_Timestamp d)).

Definition Distribution_Clone d : Dist :=
  newDistribution (Cumulative_ d) (d_name d) (d_Source d) (d_tags d) (Centroids d) (d_Timestamp d).

(** ** The processors *)

(** A metric of a batch: a distribution or anything else. *)
Context {P : Type}.
Inductive bmetric := BDist (d : Dist) | BOther (p : P).

Fixpoint filterMapInPlace {S} (f : S -> bmetric -> S * option bmetric) (s : S) (es : list bmetric)
    : S * list bmetric :=
  match es with
  | [] => (s, [])
  | e :: es' =>
      let '(s', newE) := f s e in
      let '(s'', newEs) := filterMapInPlace f s' es' in
      (s'', match newE with Some x => x :: newEs | None => newEs end)
  end.

Record rc_state := MkRcState {
  prevDistributions : gmap string Dist;
  seen : gset string;
  duplicates : list string;  (** names given to the duplicate counter *)
}.

Definition rate_distribution (st : rc_state) (m : bmetric) : rc_state * option bmetric :=
  match m with
  | BOther p => (st, Some (BOther p))
  | BDist d =>
      let k := Distribution_Key d in
      if decide (k ∈ seen st) then
        (MkRcState (prevDistributions st) (seen st) (duplicates st ++ [d_name d]), None)
      else
        let rate := Distribution_Rate d (prevDistributions st !! k) in
        (MkRcState (<[k := Distribution_Clone d]> (prevDistributions st)) ({[k]} ∪ seen st)
           (duplicates st),
         BDist <$> rate)
  end.

Definition DistributionRateCalculator_Process (prev : gmap string Dist) (ms : list bmetric)
    : gmap string Dist * list bmetric :=
  let '(st, out) := filterMapInPlace rate_distribution (MkRcState prev ∅ []) ms in
  (prevDistributions st, out).

Fixpoint mapInPlace (transform : bmetric -> option bmetric) (es : list bmetric) : option (list bmetric) :=
  match es with
  | [] => Some []
  | e :: es' => e' ← transform e; es'' ← mapInPlace transform es'; Some (e' :: es'')
  end.

Definition CumulativeDistributionConverter_Process (ms : list bmetric) : option (list bmetric) :=
  mapInPlace (fun m => match m with BDist d => BDist <$> ToFrequency d | BOther _ => Some m end) ms.
End keys.
Arguments BDist {P} _.
Arguments BOther {P} _.
Arguments bmetric P : clear implicits.

(** ** Lemmas *)

Definition centroid_pair_ok (duration : Z) (c p : Centroid) : Prop :=
  f64_eqb (c_Value c) (c_Value p) = true /\ f64_ltb (c_Count c) (c_Count p) = false /\
  f64_leb (duration_seconds duration) f64_zero = false.

Definition centroid_rate (duration : Z) (c p : Centroid) : Centroid :=
  MkCentroid (c_Value c) (f64_div (f64_sub (c_Count c) (c_Count p)) (duration_minutes duration)).

Lemma rate_loop_spec duration curr prev rs :
  length curr = length prev ->
  rate_loop duration curr prev = Some rs <->
  Forall2 (centroid_pair_ok duration) curr prev /\ rs = zip_with (centroid_rate duration) curr prev.
Proof.
  revert prev rs; induction curr as [|c cs IH]; intros [|p ps] rs Hl; cbn in *; try done.
  - split; [by intros [= <-]|by intros [_ ->]].
  - injection Hl as Hl. specialize (IH ps).
    destruct (f64_eqb _ _) eqn:E1, (f64_ltb _ _) eqn:E2, (f64_leb _ _) eqn:E3; cbn.
    all: try (split; [done|intros [H _]; apply Forall2_cons in H as [(? & ? & ?) _]; congruence]).
    split.
    + intros (rest & H & [= <-])%bind_Some. apply IH in H as [H ->]; [|done].
      split; [constructor; [by split_and!|done]|done].
    + intros [H ->]. apply Forall2_cons in H as [_ H].
      rewrite (proj2 (IH (zip_with (centroid_rate duration) cs ps) Hl)); [done|by split].
Qed.

(** A count is a valid nonnegative finite float. *)
Definition count_ok (c : Centroid) : Prop :=
  f64_valid (c_Count c) = true /\ f64_nonneg (c_Count c) = true /\ f64_finite (c_Count c) = true.

Lemma rates_nonneg duration curr prev :
  Forall2 (centroid_pair_ok duration) curr prev -> Forall count_ok curr -> Forall count_ok prev ->
  f64_pos_finite (duration_minutes duration) = true ->
  Forall (fun c => f64_nonneg (c_Count c) = true) (zip_with (centroid_rate duration) curr prev).
Proof.
  intros H Hc Hp Hm. induction H as [|x y xs ys (_ & Hlt & _) _ IH]; [constructor|].
  apply Forall_cons in Hc as [(? & ? & ?) Hc], Hp as [(? & ? & ?) Hp].
  constructor; [|by apply IH]. apply f64_div_nonneg; [|done]. by apply f64_sub_nonneg.
Qed.

Lemma sort_centroids_elem c l : c ∈ sort_centroids l <-> c ∈ l.
Proof. unfold sort_centroids. by rewrite merge_sort_Permutation. Qed.

Section proofs.
Context (blake2b : string -> string) {P : Type}.
Abbreviation Dist := (Distribution (gmap string string)).
Abbreviation Key := (Distribution_Key blake2b).
Implicit Types (d : Dist) (ms : list (bmetric P)).

(** The keys of the distributions of a batch, and the first with a key. *)
Definition dist_keys ms : list string :=
  omap (fun m => match m with BDist d => Some (Key d) | BOther _ => None end) ms.
Fixpoint first_of (k : string) ms : option Dist :=
  match ms with
  | [] => None
  | BDist d :: ms' => if String.eqb (Key d) k then Some d else first_of k ms'
  | BOther _ :: ms' => first_of k ms'
  end.

(** What a metric contributes to the output, given the ones before it. *)
Definition contribution (prev : gmap string Dist) (before : list (bmetric P)) (m : bmetric P)
    : list (bmetric P) :=
  match m with
  | BOther p => [m]
  | BDist d =>
      if decide (Key d ∈ dist_keys before) then []
      else match Distribution_Rate blake2b d (prev !! Key d) with
           | Some r => [BDist r]
           | None => []
           end
  end.
Fixpoint contributions (prev : gmap string Dist) (before ms : list (bmetric P)) : list (bmetric P) :=
  match ms with
  | [] => []
  | m :: ms' => contribution prev before m ++ contributions prev (before ++ [m]) ms'
  end.

Lemma dist_keys_app ms1 ms2 : dist_keys (ms1 ++ ms2) = dist_keys ms1 ++ dist_keys ms2.
Proof. apply omap_app. Qed.

Lemma dist_keys_snoc before m k :
  k ∈ dist_keys (before ++ [m]) <->
  k ∈ dist_keys before \/ match m with BDist d => k = Key d | BOther _ => False end.
Proof.
  rewrite dist_keys_app, elem_of_app. destruct m as [d|p]; cbn.
  - by rewrite list_elem_of_singleton.
  - split; (intros [?|H]; [by left|]); [by apply not_elem_of_nil in H|done].
Qed.

Lemma rate_loop_state prev before ms st st' out :
  (forall k, k ∈ seen st <-> k ∈ dist_keys before) ->
  (forall k, k ∉ seen st -> prevDistributions st !! k = prev !! k) ->
  filterMapInPlace (rate_distribution blake2b) st ms = (st', out) ->
  out = contributions prev before ms /\
  forall k, prevDistributions st' !! k =
    if decide (k ∈ seen st) then prevDistributions st !! k
    else match first_of k ms with Some d => Some (Distribution_Clone d) | None => prev !! k end.
Proof.
  revert before st out; induction ms as [|m ms IH]; intros before st out Hseen Hprev; cbn.
  { intros [= <- <-]. split; [done|]. intros k. case_decide; [done|by apply Hprev]. }
  destruct m as [d|p]; cbn.
  - destruct (decide (Key d ∈ seen st)) as [Hin|Hnin].
    + destruct (filterMapInPlace _ _ ms) as [s'' es] eqn:E. intros [= <- <-].
      rewrite decide_True by (by apply Hseen).
      apply (IH (before ++ [BDist d])) in E as [-> Hst]; cbn [seen prevDistributions] in *.
      * split; [done|]. intros k. rewrite Hst. case_decide as Hk; [done|].
        destruct (String.eqb_spec (Key d) k) as [<-|]; [done|done].
      * intros k. rewrite dist_keys_snoc, <- Hseen.
        split; [by left|]. by intros [?| ->].
      * done.
    + destruct (filterMapInPlace _ _ ms) as [s'' es] eqn:E. intros [= <- <-].
      rewrite decide_False by (by rewrite <- Hseen).
      apply (IH (before ++ [BDist d])) in E as [-> Hst]; cbn [seen prevDistributions] in *.
      * rewrite Hprev by done. split; [by destruct (Distribution_Rate _ _ _)|].
        intros k. rewrite Hst.
        destruct (String.eqb_spec (Key d) k) as [<-|Hne].
        -- rewrite decide_True by set_solver. rewrite lookup_insert_eq. by rewrite decide_False.
        -- destruct (decide (k ∈ seen st)) as [Hk|Hk].
           ++ rewrite decide_True by set_solver. by rewrite lookup_insert_ne.
           ++ by rewrite decide_False by set_solver.
      * intros k. rewrite dist_keys_snoc, <- Hseen. set_solver.
      * intros k Hk. rewrite lookup_insert_ne by set_solver. apply Hprev. set_solver.
  - destruct (filterMapInPlace _ _ ms) as [s'' es] eqn:E. intros [= <- <-].
    apply (IH (before ++ [BOther p])) in E as [-> Hst]; [done| |done].
    intros k. rewrite dist_keys_snoc, <- Hseen. tauto.
Qed.
End proofs.

Lemma smooth_step_ok amp prev c counts :
  (f64_eqb (c_Value c) f64_inf = true -> f64_leb (c_Value c) f64_zero = false ->
   f64_eqb (f64_mul (c_Count c) amp) f64_zero = false -> is_Some prev) <->
  is_Some (smooth_step amp prev c counts).
Proof.
  unfold smooth_step. destruct (f64_leb (c_Value c) f64_zero); cbn; [split; [by eexists|done]|].
  destruct (f64_eqb (f64_mul _ _) f64_zero); cbn; [split; [by eexists|done]|].
  destruct (f64_eqb (c_Value c) f64_inf); cbn; [|split; [by eexists|done]].
  destruct prev as [p|]; cbn.
  - split; [intros _; by eexists|intros _ _ _ _; by eexists].
  - split; [intros H; by destruct (H eq_refl eq_refl eq_refl)|by intros [? ?]].
Qed.

Lemma smooth_loop_some amp p l counts : is_Some (smooth_loop amp (Some p) l counts).
Proof.
  revert p counts; induction l as [|c l IH]; intros p counts; cbn; [by eexists|].
  destruct (proj1 (smooth_step_ok amp (Some p) c counts)) as [x ->]; [by eexists|]. cbn. apply IH.
Qed.

(** ** Properties *)

(** When a histogram has a rate and what it is.  A rate exists exactly
    when the previous histogram has the same key, the same number of buckets
    and equal bounds, no count went down and time has advanced (the last three
    are vacuous for a histogram without buckets); it keeps the identity of the
    histogram and divides the increments by the elapsed minutes.  Counts that
    are nonnegative finite floats give nonnegative rates. *)
Theorem Distribution_Rate_spec (blake2b : string -> string)
    (d prev r : Distribution (gmap string string)) :
  let elapsed := time_sub (d_Timestamp d) (d_Timestamp prev) in
  (Distribution_Rate blake2b d (Some prev) = Some r <->
    Distribution_Key blake2b prev = Distribution_Key blake2b d /\
    Forall2 (centroid_pair_ok elapsed) (Centroids d) (Centroids prev) /\
    r = newDistribution (Cumulative_ d) (d_name d) (d_Source d) (d_tags d)
          (zip_with (centroid_rate elapsed) (Centroids d) (Centroids prev)) (d_Timestamp d)) /\
  (Distribution_Rate blake2b d (Some prev) = Some r ->
   Forall count_ok (Centroids d) -> Forall count_ok (Centroids prev) ->
   f64_pos_finite (duration_minutes elapsed) = true ->
   Forall (fun c => f64_nonneg (c_Count c) = true) (Centroids r)).
Proof.
  intros elapsed.
  assert (Hiff : Distribution_Rate blake2b d (Some prev) = Some r <->
    Distribution_Key blake2b prev = Distribution_Key blake2b d /\
    Forall2 (centroid_pair_ok elapsed) (Centroids d) (Centroids prev) /\
    r = newDistribution (Cumulative_ d) (d_name d) (d_Source d) (d_tags d)
          (zip_with (centroid_rate elapsed) (Centroids d) (Centroids prev)) (d_Timestamp d)).
  { unfold Distribution_Rate. cbn -[CentroidRate]. fold elapsed.
    destruct (String.eqb_spec (Distribution_Key blake2b prev) (Distribution_Key blake2b d))
      as [Hk|Hk]; cbn -[CentroidRate]; [|by split; [|intros [? _]]].
    unfold CentroidRate. destruct (Nat.eqb_spec (length (Centroids d)) (length (Centroids prev)))
      as [Hl|Hl]; cbn.
    - split.
      + intros (rs & H & [= <-])%bind_Some. apply rate_loop_spec in H as [? ->]; done.
      + intros (_ & H & ->). apply bind_Some. eexists; split; [|reflexivity].
        by apply rate_loop_spec.
    - split; [done|]. intros (_ & H & _). by apply Forall2_length in H. }
  split; [exact Hiff|]. intros (_ & Hpairs & ->)%Hiff Hd Hp Hmin. cbn [Centroids newDistribution].
  apply Forall_forall. intros c Hc. apply (proj1 (sort_centroids_elem _ _)) in Hc.
  revert c Hc. apply Forall_forall. by apply rates_nonneg.
Qed.

Definition sample_dist (count : Z) (t : Z) : Distribution (gmap string string) :=
  newDistribution true "lat" "node1" {["le" := "x"]}
    [MkCentroid f64_inf (f64_of_Z (count + 1)); MkCentroid f64_one (f64_of_Z count)] t.

Lemma Distribution_Rate_spec_witness :
  exists r, Distribution_Rate id (sample_dist 7 (2 * minute)) (Some (sample_dist 3 0)) = Some r /\
    Forall (fun c => f64_nonneg (c_Count c) = true) (Centroids r).
Proof.
  eexists; split; [vm_compute; reflexivity|].
  eapply (proj2 (Distribution_Rate_spec id (sample_dist 7 (2 * minute)) (sample_dist 3 0) _)).
  - vm_compute; reflexivity.
  - by vm_compute; repeat constructor.
  - by vm_compute; repeat constructor.
  - by vm_compute.
Defined.

(** C28: the histogram rate processor.  Its output is, metric by metric, what
    the stateless description [contributions] gives: other metrics pass
    through in order, the first histogram with a key is replaced by its rate
    against the histogram kept from the previous batch or dropped when it has
    none, later ones with the key are dropped as duplicates.  Afterwards it
    keeps, for every key of the batch, a copy of the first histogram with the
    key, and what it had for every other key. *)
Theorem DistributionRateCalculator_spec (blake2b : string -> string) {P}
    (prev : gmap string (Distribution (gmap string string))) (ms : list (bmetric P)) :
  let '(prev', out) := DistributionRateCalculator_Process blake2b prev ms in
  out = contributions blake2b prev [] ms /\
  forall k, prev' !! k =
    match first_of blake2b k ms with Some d => Some (Distribution_Clone d) | None => prev !! k end.
Proof.
  unfold DistributionRateCalculator_Process.
  destruct (filterMapInPlace _ _ ms) as [st out] eqn:E.
  apply (rate_loop_state blake2b prev []) in E as [-> H]; [|set_solver|done].
  split; [done|]. intros k. by rewrite H.
Qed.

(** Converting to frequencies never indexes out of range for the sorted
    buckets of a histogram, except in one case: several buckets of which the
    first one already has the bound +Inf (so that all have) and a nonzero
    count.  There the code reads the element before the first and panics. *)
Theorem smoothCentroids_panics (l : list Centroid) :
  smoothCentroids l = None <->
  exists c c' rest, l = c :: c' :: rest /\ f64_eqb (c_Value c) f64_inf = true /\
    f64_eqb (f64_mul (c_Count c) (amplification_of l)) f64_zero = false.
Proof.
  assert (Hinf : forall x, f64_eqb x f64_inf = true -> x = f64_inf).
  { intros x. by destruct x as [[]|[]| |[]]. }
  unfold smoothCentroids. destruct l as [|c [|c' rest]].
  - split; [done|]. by intros (? & ? & ? & ? & _).
  - split; [|by intros (? & ? & ? & ? & _)].
    destruct (f64_eqb (c_Value c) f64_inf) eqn:E; [done|].
    cbn [smooth_loop]. destruct (proj1 (smooth_step_ok (amplification_of [c]) None c [])) as [x ->];
      [by rewrite E|done].
  - set (amp := amplification_of (c :: c' :: rest)).
    change (smooth_loop amp None (c :: c' :: rest) [])
      with (counts ← smooth_step amp None c []; smooth_loop amp (Some (c_Value c)) (c' :: rest) counts).
    pose proof (smooth_step_ok amp None c []) as Hs.
    destruct (smooth_step amp None c []) as [counts|] eqn:E.
    + cbn [mbind option_bind].
      destruct (smooth_loop_some amp (c_Value c) (c' :: rest) counts) as [x ->]. split; [done|].
      intros (? & ? & ? & [= <- <- <-] & Hv & Hm). fold amp in Hm.
      destruct (proj2 Hs ltac:(by eexists) Hv) as [? ?]; [|done|done].
      by rewrite (Hinf _ Hv).
    + split; [|done]. intros _. exists c, c', rest. split; [done|]. fold amp.
      destruct (f64_eqb (c_Value c) f64_inf) eqn:Ev, (f64_eqb (f64_mul (c_Count c) amp) f64_zero) eqn:Em;
        try done; destruct (proj1 Hs) as [? ?]; done.
Qed.
