(* ===== verification/Wf.v ===== *)
(** Points, the metric interface and filtering: internal/wf/point.go,
    metric.go, filter.go and the tag operations of distribution.go.

    A tag map is a Go reference and the collector does share tag maps between
    metrics, so the maps live in a [heap] and a metric holds an optional
    location ([None] is the nil map).  Operations that write tags return the
    new heap. *)

From S2P Require Import Prelude GoFloat Filters Distribution.

Abbreviation loc := positive (only parsing).
Abbreviation tagmap := (gmap string string).
Abbreviation heap := (gmap positive tagmap).

Record Point := MkPoint {
  p_Metric : string;
  p_Value : f64;
  p_Timestamp : Z;
  p_Source : string;
  p_tags : option positive;
  p_labelPairs : list (string * string);
}.

(** The two implementations of the [Metric] interface. *)
Inductive wfmetric := MPoint (p : Point) | MDist (d : Distribution (option positive)).

Definition NewPoint (metric : string) (value : f64) (timestamp : Z) (source : string)
    (tags : option positive) : Point := MkPoint metric value timestamp source tags [].

Definition with_tags (t : option positive) (m : wfmetric) : wfmetric :=
  match m with
  | MPoint p => MPoint (MkPoint (p_Metric p) (p_Value p) (p_Timestamp p) (p_Source p) t (p_labelPairs p))
  | MDist d => MDist (MkDistribution (Cumulative_ d) (d_name d) t (d_Source d) (Centroids d) (d_Timestamp d))
  end.

Definition tags_ref (m : wfmetric) : option positive :=
  match m with MPoint p => p_tags p | MDist d => d_tags d end.

(** The map behind a reference; a nil map reads as empty. *)
Definition deref (h : heap) (t : option positive) : tagmap :=
  match t with Some l => default ∅ (h !! l) | None => ∅ end.

Definition Metric_Points (m : wfmetric) : Z := match m with MPoint _ => 1 | MDist d => Distribution_Points d end.
Definition Metric_Name (m : wfmetric) : string := match m with MPoint p => p_Metric p | MDist d => d_name d end.

Definition SetSource (source : string) (m : wfmetric) : wfmetric :=
  match m with
  | MPoint p => MPoint (MkPoint (p_Metric p) (p_Value p) (p_Timestamp p) source (p_tags p) (p_labelPairs p))
  | MDist d => MDist (MkDistribution (Cumulative_ d) (d_name d) (d_tags d) source (Centroids d) (d_Timestamp d))
  end.
Definition SetLabelPairs (pairs : list (string * string)) (p : Point) : Point :=
  MkPoint (p_Metric p) (p_Value p) (p_Timestamp p) (p_Source p) (p_tags p) pairs.

(** [Tags]: a point's are its label pairs overlaid by its tag map. *)
Definition pairs_map (pairs : list (string * string)) : tagmap :=
  foldl (fun m '(k, v) => <[k := v]> m) ∅ pairs.
Definition Metric_Tags (h : heap) (m : wfmetric) : tagmap :=
  match m with
  | MPoint p => copy_into (pairs_map (p_labelPairs p)) (deref h (p_tags p))
  | MDist d => deref h (d_tags d)
  end.

(** A metric whose nil tag map is replaced by a new map, before a write. *)
Definition ensure_tags (h : heap) (m : wfmetric) : heap * wfmetric * positive :=
  match tags_ref m with
  | Some l => (h, m, l)
  | None => let l := fresh (dom h) in (<[l := ∅]> h, with_tags (Some l) m, l)
  end.

Definition OverrideTag (h : heap) (m : wfmetric) (name value : string) : heap * wfmetric :=
  let '(h, m, l) := ensure_tags h m in
  (<[l := <[name := value]> (deref h (Some l))]> h, m).

Definition AddTag (h : heap) (m : wfmetric) (name value : string) : heap * wfmetric :=
  let '(h, m, l) := ensure_tags h m in
  match deref h (Some l) !! name with
  | Some _ => (h, m)
  | None => (<[l := <[name := value]> (deref h (Some l))]> h, m)
  end.

(** [AddTags]; [order] is the visiting order of the map that is added. *)
Definition AddTags (h : heap) (m : wfmetric) (order : list (string * string)) : heap * wfmetric :=
  foldl (fun '(h, m) '(name, value) => AddTag h m name value) (h, m) order.

Definition filter_names (pred : string -> bool) (t : tagmap) : tagmap :=
  filter (fun '(name, _) => pred name = true) t.

Definition FilterTags (pred : string -> bool) (h : heap) (m : wfmetric) : heap * wfmetric :=
  let h' := match tags_ref m with
            | Some l => match h !! l with Some t => <[l := filter_names pred t]> h | None => h end
            | None => h
            end in
  (h', match m with
       | MPoint p => MPoint (SetLabelPairs (List.filter (fun '(n, _) => pred n) (p_labelPairs p)) p)
       | MDist d => MDist d
       end).

(** What [Send] hands to the sender. *)
Inductive sent :=
  | SendMetric (name : string) (value : f64) (ts : Z) (source : string) (tags : tagmap)
  | SendDistribution (name : string) (centroids : list (f64 * Z)) (ts : Z) (source : string) (tags : tagmap).

Definition Send (h : heap) (m : wfmetric) : result (option sent) :=
  match m with
  | MPoint p => Ok (Some (SendMetric (p_Metric p) (p_Value p) (p_Timestamp p) (p_Source p) (Metric_Tags h m)))
  | MDist d =>
      match Distribution_Send d with
      | Err e => Err e
      | Ok None => Ok None
      | Ok (Some (n, cs, ts, src, t)) => Ok (Some (SendDistribution n cs ts src (deref h t)))
      end
  end.

(** ** Filtering (filter.go), for any implementation of the filter interface *)

Section filtering.
Context {F : Type} `{!MetricFilter F}.

(** [Filter]: the heap, the metric unless it is dropped, and the increment of
    the counter of filtered points. *)
Definition Filter (f : option F) (h : heap) (point : option wfmetric) : heap * option wfmetric * Z :=
  match f, point with
  | Some f, Some m =>
      if negb (match_metric f (Metric_Name m) (Metric_Tags h m)) then (h, None, 1%Z)
      else let '(h', m') := FilterTags (match_tag f) h m in (h', Some m', 0%Z)
  | _, _ => (h, point, 0%Z)
  end.

Definition FilterAppend (f : option F) (h : heap) (points : list wfmetric) (point : option wfmetric)
    : heap * list wfmetric * Z :=
  let '(h', m, n) := Filter f h point in
  (h', match m with Some m => points ++ [m] | None => points end, n).
End filtering.

(** ** A metric as a reader of its interface sees it *)

Inductive payload :=
  | PValue (value : f64) (ts : Z)
  | PCentroids (centroids : list Centroid) (ts : Z).
Record described := MkDescribed {
  dp_name : string; dp_value : payload; dp_source : string; dp_tags : tagmap }.
Definition describe (h : heap) (m : wfmetric) : described :=
  match m with
  | MPoint p => MkDescribed (p_Metric p) (PValue (p_Value p) (p_Timestamp p)) (p_Source p) (Metric_Tags h m)
  | MDist d => MkDescribed (d_name d) (PCentroids (Centroids d) (d_Timestamp d)) (d_Source d) (Metric_Tags h m)
  end.

(** What a filter makes of it. *)
Definition filter_described {F} `{!MetricFilter F} (f : option F) (d : described) : list described :=
  match f with
  | None => [d]
  | Some f =>
      if match_metric f (dp_name d) (dp_tags d) then
        [MkDescribed (dp_name d) (dp_value d) (dp_source d) (filter_names (match_tag f) (dp_tags d))]
      else []
  end.

(** ** Lemmas *)

Lemma pairs_map_lookup pairs k :
  pairs_map pairs !! k = snd <$> last (List.filter (fun '(n, _) => String.eqb n k) pairs).
Proof.
  unfold pairs_map. induction pairs as [|[n v] pairs IH] using rev_ind; [done|].
  rewrite foldl_app, List.filter_app. cbn. destruct (String.eqb_spec n k) as [->|Hne].
  - by rewrite lookup_insert_eq, last_snoc.
  - by rewrite lookup_insert_ne, app_nil_r.
Qed.

Lemma filter_names_lookup pred t k : filter_names pred t !! k = if pred k then t !! k else None.
Proof.
  unfold filter_names. destruct (t !! k) as [v|] eqn:E.
  - destruct (pred k) eqn:Ep; [by apply map_lookup_filter_Some|].
    apply map_lookup_filter_None. right. intros x _. by rewrite Ep.
  - destruct (pred k); apply map_lookup_filter_None; by left.
Qed.

Lemma pairs_map_filter pred pairs k :
  pairs_map (List.filter (fun '(n, _) => pred n) pairs) !! k = if pred k then pairs_map pairs !! k else None.
Proof.
  rewrite !pairs_map_lookup.
  assert (List.filter (fun '(n, _) => String.eqb n k) (List.filter (fun '(n, _) => pred n) pairs)
    = if pred k then List.filter (fun '(n, _) => String.eqb n k) pairs else []) as ->;
    [|by destruct (pred k)].
  induction pairs as [|[n v] pairs IH]; cbn; [by destruct (pred k)|].
  destruct (String.eqb_spec n k) as [->|Hne].
  - destruct (pred k) eqn:E; cbn; [|exact IH]. by rewrite String.eqb_refl, IH.
  - destruct (pred n); cbn; [|exact IH]. by apply String.eqb_neq in Hne as ->.
Qed.

Lemma copy_into_lookup {V} (dst src : gmap string V) k :
  copy_into dst src !! k = match src !! k with Some v => Some v | None => dst !! k end.
Proof. unfold copy_into. rewrite lookup_union. by destruct (src !! k), (dst !! k). Qed.

(** The tags of [m'] once the map behind [m] has been filtered. *)
Lemma FilterTags_tags pred h m k :
  Metric_Tags (FilterTags pred h m).1 (FilterTags pred h m).2 !! k =
  if pred k then Metric_Tags h m !! k else None.
Proof.
  assert (Hd : forall t, deref (match t with
              | Some l => match h !! l with Some x => <[l := filter_names pred x]> h | None => h end
              | None => h end) t !! k = if pred k then deref h t !! k else None).
  { intros [l|]; cbn; [|by destruct (pred k)]. destruct (h !! l) as [x|] eqn:E.
    - rewrite lookup_insert_eq. apply filter_names_lookup.
    - rewrite E. cbn. by destruct (pred k). }
  destruct m as [p|d]; cbn; [|apply Hd].
  rewrite !copy_into_lookup, Hd, pairs_map_filter. by destruct (pred k).
Qed.

Lemma FilterTags_heap pred h m l :
  tags_ref m <> Some l -> (FilterTags pred h m).1 !! l = h !! l.
Proof.
  unfold FilterTags. cbn. destruct (tags_ref m) as [l'|]; [|done]. intros Hne.
  destruct (h !! l') as [t|]; [|done]. rewrite lookup_insert_ne; [done|congruence].
Qed.

Lemma FilterTags_shared pred h m l t :
  tags_ref m = Some l -> h !! l = Some t -> (FilterTags pred h m).1 !! l = Some (filter_names pred t).
Proof. intros H1 H2. unfold FilterTags. cbn. by rewrite H1, H2, lookup_insert_eq. Qed.

Lemma describe_same h h' m :
  deref h (tags_ref m) = deref h' (tags_ref m) -> describe h m = describe h' m.
Proof. destruct m as [p|d]; cbn; intros E; by rewrite E. Qed.

(** [FilterAppend] on descriptions: at most one metric is appended, which is
    the filtered one, and no map but that of the metric changes. *)
Lemma FilterAppend_spec {F} `{!MetricFilter F} (f : option F) h pts m :
  exists h' new, FilterAppend f h pts (Some m) = (h', pts ++ new, (1 - Z.of_nat (length new))%Z) /\
    describe h' <$> new = filter_described f (describe h m) /\
    Forall (fun m' => tags_ref m' = tags_ref m) new /\
    (forall l, tags_ref m <> Some l -> h' !! l = h !! l) /\
    (forall l, is_Some (h' !! l) <-> is_Some (h !! l)).
Proof.
  unfold FilterAppend, Filter. destruct f as [f|].
  2:{ exists h, [m]. split_and!; try done. by repeat constructor. }
  destruct (match_metric f (Metric_Name m) (Metric_Tags h m)) eqn:E; cbn [negb].
  2:{ exists h, []. rewrite app_nil_r. split_and!; try done.
      cbn. destruct m; cbn in *; by rewrite E. }
  pose proof (FilterTags_heap (match_tag f) h m) as Hh. pose proof (FilterTags_tags (match_tag f) h m) as Ht.
  assert (Hdom : forall l, is_Some ((FilterTags (match_tag f) h m).1 !! l) <-> is_Some (h !! l)).
  { intros l. unfold FilterTags. cbn. destruct (tags_ref m) as [l'|]; [|done].
    destruct (h !! l') as [t|] eqn:El; [|done]. destruct (decide (l = l')) as [->|Hne].
    - rewrite lookup_insert_eq, El. by split; eauto.
    - by rewrite lookup_insert_ne. }
  assert (Hm : forall h0, describe h0 (FilterTags (match_tag f) h m).2 =
    MkDescribed (dp_name (describe h m)) (dp_value (describe h m)) (dp_source (describe h m))
      (Metric_Tags h0 (FilterTags (match_tag f) h m).2)) by (by destruct m).
  assert (Hr : tags_ref (FilterTags (match_tag f) h m).2 = tags_ref m) by (by destruct m).
  destruct (FilterTags (match_tag f) h m) as [h' m']. cbn [fst snd] in *. exists h', [m'].
  split_and!; [done| |by constructor|done|done].
  cbn. rewrite Hm. unfold filter_described.
  assert (dp_name (describe h m) = Metric_Name m /\ dp_tags (describe h m) = Metric_Tags h m) as [-> ->] by (by destruct m).
  rewrite E. do 2 f_equal. apply map_eq. intros k. by rewrite Ht, filter_names_lookup.
Qed.

(** Adding a tag to a metric with a map. *)
Lemma AddTag_eq h m l name value :
  tags_ref m = Some l ->
  AddTag h m name value = (match deref h (Some l) !! name with
                           | Some _ => h
                           | None => <[l := <[name := value]> (deref h (Some l))]> h end, m).
Proof.
  intros Hl. unfold AddTag, ensure_tags. rewrite Hl. by destruct (deref h (Some l) !! name).
Qed.

Lemma AddTags_loop h m l order :
  tags_ref m = Some l -> NoDup (order.*1) ->
  exists h', AddTags h m order = (h', m) /\
    (forall k, deref h' (Some l) !! k =
       match deref h (Some l) !! k with Some v => Some v | None => (list_to_map order : tagmap) !! k end) /\
    forall l', l' <> l -> h' !! l' = h !! l'.
Proof.
  intros Hl. unfold AddTags. revert h; induction order as [|[n v] order IH]; intros h Hnd; cbn [foldl].
  { exists h. split_and!; [done| |done]. intros k. by destruct (deref h (Some l) !! k). }
  apply NoDup_cons in Hnd as [Hn Hnd]. cbn in Hn. rewrite (AddTag_eq h m l n v Hl).
  destruct (IH (match deref h (Some l) !! n with Some _ => h
    | None => <[l := <[n := v]> (deref h (Some l))]> h end) Hnd) as (h' & -> & Hk & Ho).
  exists h'. split_and!; [done| |].
  - intros k. rewrite Hk, list_to_map_cons. destruct (deref h (Some l) !! n) as [w|] eqn:En.
    + destruct (decide (k = n)) as [->|Hne]; [by rewrite En|]. by rewrite lookup_insert_ne.
    + cbn [deref]. rewrite lookup_insert_eq. cbn. destruct (decide (k = n)) as [->|Hne].
      * rewrite !lookup_insert_eq. cbn in En. by rewrite En.
      * rewrite !lookup_insert_ne by done. done.
  - intros l' Hne. rewrite Ho by done. destruct (deref h (Some l) !! n); [done|]. by rewrite lookup_insert_ne.
Qed.

(** ** Properties *)

(** Filtering a metric, for every implementation of the filter interface.
    Without a filter nothing happens.  With one, the metric is dropped and
    counted exactly when [match_metric] rejects its name and current tags;
    otherwise it keeps name, value, time and source, its tags are exactly those
    whose name passes [match_tag], and so are the tags of every other metric
    that shares its tag map, while metrics with another map keep theirs. *)
Theorem Filter_spec {F : Type} `{!MetricFilter F} (f : F) (h : heap) (m : wfmetric) :
  (match_metric f (Metric_Name m) (Metric_Tags h m) = false -> Filter (Some f) h (Some m) = (h, None, 1%Z)) /\
  (match_metric f (Metric_Name m) (Metric_Tags h m) = true ->
   exists h' m', Filter (Some f) h (Some m) = (h', Some m', 0%Z) /\
     Metric_Name m' = Metric_Name m /\ tags_ref m' = tags_ref m /\
     (forall k, Metric_Tags h' m' !! k = if match_tag f k then Metric_Tags h m !! k else None) /\
     (forall m2 l, tags_ref m = Some l -> tags_ref m2 = Some l -> is_Some (h !! l) ->
        forall k, deref h' (tags_ref m2) !! k = if match_tag f k then deref h (tags_ref m2) !! k else None) /\
     (forall m2, tags_ref m2 <> tags_ref m -> Metric_Tags h' m2 = Metric_Tags h m2)).
Proof.
  unfold Filter. split; intros ->; cbn [negb]; [done|].
  destruct (FilterTags (match_tag f) h m) as [h' m'] eqn:E. exists h', m'.
  assert (h' = (FilterTags (match_tag f) h m).1 /\ m' = (FilterTags (match_tag f) h m).2) as [-> ->]
    by by rewrite E.
  split_and!; [done|by destruct m|by destruct m|intros k; apply FilterTags_tags| |].
  - intros m2 l Hm H2 [t Ht] k. rewrite H2. unfold deref.
    rewrite (FilterTags_shared _ _ _ _ _ Hm Ht), Ht. cbn. apply filter_names_lookup.
  - intros m2 Hne. unfold Metric_Tags, deref.
    destruct m2 as [p|d]; cbn in Hne; [destruct (p_tags p) as [l|]|destruct (d_tags d) as [l|]]; try done;
      rewrite FilterTags_heap; congruence || done.
Qed.

Record tag_keeper := MkKeeper { kept : list string }.
#[export] Instance tag_keeper_filter : MetricFilter tag_keeper := {|
  match_metric f name tags := true;
  match_tag f name := bool_decide (name ∈ kept f);
|}.

Lemma Filter_spec_witness :
  let h := {[1%positive := <["a" := "1"]> {["b" := "2"]}]} : heap in
  let m := MPoint (NewPoint "x" f64_zero 0 "s" (Some 1%positive)) in
  exists h' m', Filter (Some (MkKeeper ["a"])) h (Some m) = (h', Some m', 0%Z) /\
    Metric_Tags h' m' !! "b" = None.
Proof.
  intros h m. destruct (Filter_spec (MkKeeper ["a"]) h m) as [_ H].
  destruct (H eq_refl) as (h' & m' & E & _ & _ & Ht & _). exists h', m'. split; [exact E|].
  by rewrite Ht.
Defined.

(** Adding tags never overwrites a tag that is there, whatever the order
    in which the added map is visited, and touches no other tag map. *)
Theorem AddTags_spec (h : heap) (m : wfmetric) (l : positive) (order : list (string * string)) (tags : tagmap) :
  tags_ref m = Some l -> iterates order tags ->
  exists h', AddTags h m order = (h', m) /\
    deref h' (Some l) = deref h (Some l) ∪ tags /\ forall l', l' <> l -> h' !! l' = h !! l'.
Proof.
  intros Hl Hord. destruct (AddTags_loop h m l order Hl) as (h' & E & Hk & Ho).
  { by eapply iterates_NoDup. }
  exists h'. split_and!; [done| |done]. apply map_eq. intros k. rewrite Hk, lookup_union.
  rewrite (iterates_to_map _ _ Hord). by destruct (deref h (Some l) !! k), (tags !! k).
Qed.

Lemma AddTags_spec_witness :
  let h := {[1%positive := {["b" := "2"]}]} : heap in
  let m := MPoint (NewPoint "x" f64_zero 0 "s" (Some 1%positive)) in
  exists h', AddTags h m (map_to_list (<["a" := "1"]> {["b" := "9"]})) = (h', m) /\
    deref h' (Some 1%positive) = <["a" := "1"]> {["b" := "2"]}.
Proof.
  intros h m. destruct (AddTags_spec h m 1 (map_to_list (<["a" := "1"]> {["b" := "9"]}))
    (<["a" := "1"]> {["b" := "9"]})) as (h' & E & Hd & _); [done|apply iterates_canonical|].
  exists h'. split; [exact E|]. rewrite Hd. by apply (bool_decide_unpack _).
Defined.
