(* ===== verification/DistributionTags.v ===== *)
(** The tag methods of a distribution: internal/wf/distribution.go.

    Wf.v has the methods of the [Metric] interface for both of its
    implementations at once.  These are those of a distribution as its file
    has them, nil receiver included, and the lemma that they are the methods
    of the interface. *)

From S2P Require Import Prelude GoFloat Filters Distribution Wf.

Section methods.
Abbreviation Dist := (Distribution (option positive)).

Definition dist_with_tags (t : option positive) (d : Dist) : Dist :=
  MkDistribution (Cumulative_ d) (d_name d) t (d_Source d) (Centroids d) (d_Timestamp d).

(** [d.tags[name]] of a map that may be nil. *)
Definition tag_at (h : heap) (d : Dist) (name : string) : option string := deref h (d_tags d) !! name.

(** A write to the tags, after a nil map has been replaced. *)
Definition write_tag (h : heap) (d : Dist) (name value : string) : heap * Dist :=
  match d_tags d with
  | Some l => (<[l := <[name := value]> (deref h (Some l))]> h, d)
  | None => let l := fresh (dom h) in (<[l := {[name := value]}]> h, dist_with_tags (Some l) d)
  end.

(** The methods do nothing on a nil distribution. *)
Definition Distribution_OverrideTag (h : heap) (d : option Dist) (name value : string) : heap * option Dist :=
  match d with
  | None => (h, None)
  | Some d => let '(h, d) := write_tag h d name value in (h, Some d)
  end.

Definition Distribution_addTag (h : heap) (d : option Dist) (name value : string) : heap * option Dist :=
  match d with
  | None => (h, None)
  | Some d =>
      match tag_at h d name with
      | Some _ => (h, Some d)
      | None => let '(h, d) := write_tag h d name value in (h, Some d)
      end
  end.

(** [order] is the order in which the map is visited, [None] a nil map. *)
Definition Distribution_AddTags (h : heap) (d : option Dist) (order : option (list (string * string))) : heap * option Dist :=
  match order with
  | None => (h, d)
  | Some order => foldl (fun '(h, d) '(name, value) => Distribution_addTag h d name value) (h, d) order
  end.

Definition Distribution_SetSource (source : string) (d : Dist) : Dist :=
  MkDistribution (Cumulative_ d) (d_name d) (d_tags d) source (Centroids d) (d_Timestamp d).
Definition Distribution_Name (d : Dist) : string := d_name d.
Definition Distribution_Tags (h : heap) (d : Dist) : tagmap := deref h (d_tags d).

(** The names that [pred] rejects are deleted, one after the other. *)
Definition delete_rejected (pred : string -> bool) (t : tagmap) (names : list string) : tagmap :=
  foldl (fun t name => if pred name then t else delete name t) t names.
Definition Distribution_FilterTags (pred : string -> bool) (names : list string) (h : heap) (d : Dist) : heap :=
  match d_tags d with
  | Some l => match h !! l with Some t => <[l := delete_rejected pred t names]> h | None => h end
  | None => h
  end.

(** ** They are the methods of the interface *)

Lemma write_tag_ensure h d name value :
  let '(h1, m, l) := ensure_tags h (MDist d) in
  (<[l := <[name := value]> (deref h1 (Some l))]> h1, m) = ((write_tag h d name value).1, MDist (write_tag h d name value).2).
Proof.
  unfold ensure_tags, write_tag. cbn [tags_ref]. destruct (d_tags d) as [l|]; [done|].
  cbn. by rewrite lookup_insert_eq, insert_insert_eq.
Qed.

Lemma OverrideTag_interface h d name value :
  OverrideTag h (MDist d) name value =
  ((write_tag h d name value).1, MDist (write_tag h d name value).2) /\
  Distribution_OverrideTag h (Some d) name value = ((write_tag h d name value).1, Some (write_tag h d name value).2).
Proof.
  split; [|unfold Distribution_OverrideTag; by destruct (write_tag h d name value)].
  pose proof (write_tag_ensure h d name value) as H. unfold OverrideTag.
  by destruct (ensure_tags h (MDist d)) as [[h1 m] l].
Qed.

(** Except that [AddTag] of the interface gives a nil map a location even
    when it finds the tag, which it cannot in a nil map. *)
Lemma addTag_interface h d name value :
  AddTag h (MDist d) name value =
  (fun r => (r.1, match r.2 with Some d => MDist d | None => MDist d end)) (Distribution_addTag h (Some d) name value).
Proof.
  pose proof (write_tag_ensure h d name value) as H. unfold AddTag, Distribution_addTag, tag_at.
  destruct (d_tags d) as [l|] eqn:Et.
  - unfold ensure_tags, write_tag in *. cbn [tags_ref] in *. rewrite Et in *. by destruct (deref h (Some l) !! name).
  - cbn [deref]. rewrite lookup_empty. unfold ensure_tags, write_tag in *. cbn [tags_ref] in *. rewrite Et in *. cbn in *.
    rewrite lookup_insert_eq in *. cbn in *. rewrite lookup_empty. by rewrite insert_insert_eq in *.
Qed.

Lemma delete_rejected_lookup pred names t k :
  delete_rejected pred t names !! k = if bool_decide (k ∈ names) && negb (pred k) then None else t !! k.
Proof.
  revert t; induction names as [|n names IH]; intros t; [done|]. unfold delete_rejected in *. cbn [foldl]. rewrite IH.
  destruct (pred k) eqn:Ek; cbn [negb]; rewrite ?andb_false_r, ?andb_true_r.
  - destruct (pred n) eqn:En; [done|]. rewrite lookup_delete_ne; [done|]. intros ->. congruence.
  - destruct (decide (k ∈ names)) as [Hin|Hin].
    + rewrite !bool_decide_eq_true_2; [done|by right|done].
    + rewrite (bool_decide_eq_false_2 (k ∈ names)) by done. destruct (decide (k = n)) as [->|Hne].
      * rewrite bool_decide_eq_true_2 by by left. rewrite Ek. apply lookup_delete_eq.
      * rewrite bool_decide_eq_false_2; [|by rewrite elem_of_cons; intros []].
        destruct (pred n); [done|]. by rewrite lookup_delete_ne.
Qed.

(** In whatever order the names are visited, those that [pred] accepts stay. *)
Lemma FilterTags_interface pred names h d :
  (forall l t, d_tags d = Some l -> h !! l = Some t -> forall k, is_Some (t !! k) -> k ∈ names) ->
  (FilterTags pred h (MDist d)).1 = Distribution_FilterTags pred names h d.
Proof.
  intros Hn. unfold FilterTags, Distribution_FilterTags. cbn [fst tags_ref]. destruct (d_tags d) as [l|] eqn:El; [|done].
  destruct (h !! l) as [t|] eqn:Eh; [|done]. f_equal. apply map_eq. intros k.
  rewrite delete_rejected_lookup. unfold filter_names. specialize (Hn l t eq_refl Eh k).
  destruct (t !! k) as [v|] eqn:Ev.
  - rewrite (bool_decide_eq_true_2 (k ∈ names)) by (apply Hn; by eexists). cbn. destruct (pred k) eqn:Ek; cbn.
    + apply map_lookup_filter_Some. by split.
    + apply map_lookup_filter_None. right. intros v' _. congruence.
  - destruct (_ && _); apply map_lookup_filter_None; by left.
Qed.
End methods.
