(* ===== verification/Sink.v ===== *)
(** The Wavefront sink: plugins/sinks/wavefront/utils.go and the exporting part
    of wavefront.go.

    The Wavefront client is a parameter: whether it accepts what it is sent.
    The two regular expressions are written as the predicates they denote.
    Visiting orders of tag maps are arguments.  The heartbeat goroutine, error
    logging and client construction are left out. *)

From S2P Require Import Prelude GoFloat Filters Metrics Distribution Wf.

(** ** utils.go *)

Definition maxWavefrontTags : nat := 19.
Definition minDedupeTagValueLen : nat := 5.
Definition excludeTagList : list string := ["namespace_id"; "host_id"; "pod_id"; "hostname"].

(** [sub] occurs in [s] before any newline. *)
Fixpoint contains_in_line (sub s : string) : bool :=
  has_prefix sub s ||
  match s with
  | EmptyString => false
  | String c s' => negb (Ascii.eqb c "010"%char) && contains_in_line sub s'
  end.

(** [^label.*sub]. *)
Definition label_then (sub s : string) : bool :=
  has_prefix "label" s && contains_in_line sub (str_drop 5 s).

(** [^label.*beta|alpha*]: the alternative binds weakest and the star applies
    to the last letter, so any name containing "alph" matches. *)
Definition alphaBetaRegex (s : string) : bool := label_then "beta" s || contains "alph" s.
(** [^label.*gke|azure*]. *)
Definition iaasNameRegex (s : string) : bool := label_then "gke" s || contains "azur" s.

Definition isAnEmptyTag (value : string) : bool :=
  String.eqb value "" || String.eqb value "/" || String.eqb value "-".
Definition excludeTag (name : string) : bool := existsb (fun e => String.eqb e name) excludeTagList.

Definition removeEmptyTags (tags : tagmap) : tagmap :=
  filter (fun '(_, value) => isAnEmptyTag value = false) tags.
Definition excludeTags (tags : tagmap) : tagmap :=
  filter (fun '(name, _) => excludeTag name = false) tags.

Definition isWinningName (name prevWinner : string) : bool :=
  if alphaBetaRegex name then false
  else if alphaBetaRegex prevWinner then true
  else (String.length name <? String.length prevWinner)%nat
       || ((String.length name =? String.length prevWinner)%nat && String.ltb name prevWinner).

(** One entry of the loop of [dedupeTagValues]: the tags and [invertedTags]. *)
Definition dedupe_step (st : tagmap * gmap string string) (nv : string * string)
    : tagmap * gmap string string :=
  let '(tags, inverted) := st in
  let '(name, value) := nv in
  if (String.length value <? minDedupeTagValueLen)%nat then st
  else
    let prev := get_str inverted value in
    if String.eqb prev "" then (tags, <[value := name]> inverted)
    else if isWinningName name prev then (delete prev tags, <[value := name]> inverted)
    else (delete name tags, inverted).

Definition dedupeTagValues (order : list (string * string)) (tags : tagmap) : tagmap :=
  (foldl dedupe_step (tags, ∅) order).1.

(** The loop of [removeTagsLabelsMatching] over the sorted names. *)
Fixpoint remove_matching (matches : string -> bool) (numberToRemove : Z) (names : list string)
    (count : Z) (tags : tagmap) : tagmap :=
  match names with
  | [] => tags
  | name :: names' =>
      if matches name then
        let tags := delete name tags in
        let count := (count + 1)%Z in
        if (numberToRemove <=? count)%Z then tags
        else remove_matching matches numberToRemove names' count tags
      else remove_matching matches numberToRemove names' count tags
  end.
Definition removeTagsLabelsMatching (tags : tagmap) (matches : string -> bool) (numberToRemove : Z) : tagmap :=
  remove_matching matches numberToRemove (sorted_keys tags) 0 tags.

(** [cleanTags]; [order] is the visiting order of [dedupeTagValues]. *)
Definition cleanTags (order : tagmap -> list (string * string)) (tags : tagmap) (maxCapacity : nat) : tagmap :=
  let tags := excludeTags (removeEmptyTags tags) in
  let tags := if (maxCapacity <? size tags)%nat then dedupeTagValues (order tags) tags else tags in
  if (maxCapacity <? size tags)%nat then
    let tags := removeTagsLabelsMatching tags alphaBetaRegex (Z.of_nat (size tags) - Z.of_nat maxCapacity) in
    removeTagsLabelsMatching tags iaasNameRegex (Z.of_nat (size tags) - Z.of_nat maxCapacity)
  else tags.

(** ** wavefront.go *)

Section sink.
Context {F : Type} `{!MetricFilter F}.
Context (order : tagmap -> list (string * string)).

Record wavefrontSink := MkSink {
  ClusterName : string;
  sk_Prefix : string;
  globalTags : list (string * string);  (** in the order they are visited *)
  sk_filters : option F;
}.

Definition sink_name (sink : wavefrontSink) (name : string) : string :=
  let name := replace_char "+" "-" name in
  if String.eqb (sk_Prefix sink) "" then name else (sk_Prefix sink +:+ "." +:+ name)%string.

(** [SendMetric] and [SendDistribution]: what reaches the client. *)
Definition sink_send (sink : wavefrontSink) (s : sent) : sent :=
  match s with
  | SendMetric name value ts source tags =>
      SendMetric (sink_name sink name) value ts source (cleanTags order tags maxWavefrontTags)
  | SendDistribution name centroids ts source tags =>
      SendDistribution (sink_name sink name) centroids ts source (cleanTags order tags maxWavefrontTags)
  end.

Record export_state := MkExport {
  ex_heap : heap;
  ex_sent : list sent;
  sentPoints : Z;
  errPoints : Z;
  filteredPoints : Z;
}.

(** One metric of [Export].  The cleaning of a distribution's tags writes to
    its map: [Tags] of a distribution is the map itself. *)
Definition export_metric (accepts : sent -> bool) (sink : wavefrontSink) (st : export_state)
    (point : option wfmetric) : export_state :=
  match point with
  | None => st
  | Some m =>
      let '(h, m) := OverrideTag (ex_heap st) m "cluster" (ClusterName sink) in
      let '(h, m) := AddTags h m (globalTags sink) in
      let '(h, m, n) := Filter (sk_filters sink) h (Some m) in
      match m with
      | None => MkExport h (ex_sent st) (sentPoints st) (errPoints st) (filteredPoints st + n)
      | Some m =>
          match Send h m with
          | Err _ => MkExport h (ex_sent st) (sentPoints st) (errPoints st + 1) (filteredPoints st + n)
          | Ok None => MkExport h (ex_sent st) (sentPoints st + 1) (errPoints st) (filteredPoints st + n)
          | Ok (Some s) =>
              let s' := sink_send sink s in
              let h := match s', tags_ref m with
                       | SendDistribution _ _ _ _ tags, Some l => <[l := tags]> h
                       | _, _ => h end in
              if accepts s' then
                MkExport h (ex_sent st ++ [s']) (sentPoints st + 1) (errPoints st) (filteredPoints st + n)
              else MkExport h (ex_sent st) (sentPoints st) (errPoints st + 1) (filteredPoints st + n)
          end
      end
  end.

Definition Export (accepts : sent -> bool) (sink : wavefrontSink) (h : heap) (ms : list (option wfmetric))
    : export_state :=
  foldl (export_metric accepts sink) (MkExport h [] 0 0 0) ms.
End sink.

(** ** Lemmas *)

Lemma filter_lookup_iff (P : string * string -> Prop) `{!forall x, Decision (P x)} (t : tagmap) k v :
  filter P t !! k = Some v <-> t !! k = Some v /\ P (k, v).
Proof. apply map_lookup_filter_Some. Qed.

Lemma cleaned_lookup tags k v :
  excludeTags (removeEmptyTags tags) !! k = Some v <->
  tags !! k = Some v /\ isAnEmptyTag v = false /\ excludeTag k = false.
Proof.
  unfold excludeTags, removeEmptyTags. rewrite !filter_lookup_iff. tauto.
Qed.

(** *** Removal of matching names *)

Lemma remove_matching_sub matches n names c tags k v :
  remove_matching matches n names c tags !! k = Some v -> tags !! k = Some v.
Proof.
  revert c tags; induction names as [|x names IH]; intros c tags; cbn; [done|].
  destruct (matches x); [|apply IH].
  destruct (n <=? c + 1)%Z; [|intros H; apply IH in H; revert H];
    (rewrite lookup_delete_Some; tauto).
Qed.

Lemma remove_matching_kept matches n names c tags k :
  matches k = false -> remove_matching matches n names c tags !! k = tags !! k.
Proof.
  intros Hk. revert c tags; induction names as [|x names IH]; intros c tags; cbn; [done|].
  destruct (matches x) eqn:E; [|apply IH].
  assert (x <> k) by (by intros ->; congruence).
  destruct (n <=? c + 1)%Z; [|rewrite IH]; by rewrite lookup_delete_ne.
Qed.

(** Either the wanted number of names was removed or no match is left. *)
Lemma remove_matching_enough matches n names c tags :
  NoDup names -> (forall k, k ∈ names -> is_Some (tags !! k)) -> (c < n)%Z ->
  (Z.of_nat (size (remove_matching matches n names c tags)) <= Z.of_nat (size tags) - (n - c))%Z \/
  forall k, k ∈ names -> matches k = true -> remove_matching matches n names c tags !! k = None.
Proof.
  revert c tags; induction names as [|x names IH]; intros c tags Hnd Hin Hc; cbn.
  { right. intros k Hk. by apply not_elem_of_nil in Hk. }
  apply NoDup_cons in Hnd as [Hx Hnd]. destruct (matches x) eqn:E.
  - destruct (Hin x) as [v Hv]; [by left|].
    assert (Hsz : size tags = S (size (delete x tags))).
    { rewrite <- (insert_delete_id tags x v Hv) at 1. apply map_size_insert_None, lookup_delete_eq. }
    destruct (Z.leb_spec n (c + 1)).
    + left. lia.
    + destruct (IH (c + 1)%Z (delete x tags) Hnd) as [H'|H'].
      * intros k Hk. rewrite lookup_delete_ne; [apply Hin; by right|by intros ->].
      * lia.
      * left. lia.
      * right. intros k [->|Hk]%elem_of_cons Hm; [|by apply H'].
        destruct (remove_matching matches n names (c + 1) (delete x tags) !! x) as [w|] eqn:Er; [|done].
        apply remove_matching_sub in Er. by rewrite lookup_delete_eq in Er.
  - destruct (IH c tags Hnd) as [H'|H']; [intros; apply Hin; by right|done|by left|right].
    intros k [->|Hk]%elem_of_cons Hm; [congruence|by apply H'].
Qed.

Lemma removeTags_sub tags matches n k v :
  removeTagsLabelsMatching tags matches n !! k = Some v -> tags !! k = Some v.
Proof. apply remove_matching_sub. Qed.

Lemma removeTags_enough tags matches (cap : nat) :
  cap < size tags ->
  let tags' := removeTagsLabelsMatching tags matches (Z.of_nat (size tags) - Z.of_nat cap) in
  size tags' <= cap \/ forall k, is_Some (tags' !! k) -> matches k = false.
Proof.
  intros Hcap tags'.
  destruct (remove_matching_enough matches (Z.of_nat (size tags) - Z.of_nat cap) (sorted_keys tags) 0 tags)
    as [H|H]; [apply sorted_keys_NoDup|intros k; by rewrite sorted_keys_elem|lia| |].
  - left. unfold tags', removeTagsLabelsMatching. lia.
  - right. intros k [v Hv]. destruct (matches k) eqn:E; [|done].
    rewrite H in Hv; [done| |done]. apply sorted_keys_elem.
    apply remove_matching_sub in Hv. by eexists.
Qed.

Lemma removeTags_size tags matches n : size (removeTagsLabelsMatching tags matches n) <= size tags.
Proof.
  apply map_subseteq_size, map_subseteq_spec. intros k v. apply removeTags_sub.
Qed.

(** *** Deduplication *)

Definition long (v : string) : bool := negb (String.length v <? minDedupeTagValueLen)%nat.

(** The winner among the names of a value, in visiting order. *)
Definition win (a b : string) : string := if isWinningName b a then b else a.
Definition winner (names : list string) : option string :=
  match names with [] => None | n :: ns => Some (foldl win n ns) end.
Definition names_of (v : string) (l : list (string * string)) : list string :=
  map fst (List.filter (fun '(_, w) => String.eqb w v) l).

Lemma names_of_snoc v l n w :
  names_of v (l ++ [(n, w)]) = names_of v l ++ (if String.eqb w v then [n] else []).
Proof. unfold names_of. rewrite List.filter_app, map_app. cbn. by destruct (String.eqb w v). Qed.

Lemma names_of_elem v l n : n ∈ names_of v l <-> (n, v) ∈ l.
Proof.
  unfold names_of. rewrite !list_elem_of_In, in_map_iff. split.
  - intros ([n' w] & <- & [H E]%filter_In). by apply String.eqb_eq in E as ->.
  - intros H. exists (n, v). split; [done|]. apply filter_In. by rewrite String.eqb_refl.
Qed.

Lemma winner_snoc ns n :
  winner (ns ++ [n]) = Some (match winner ns with Some w => win w n | None => n end).
Proof. destruct ns as [|a ns]; cbn; [done|]. by rewrite foldl_app. Qed.

Lemma winner_elem ns w : winner ns = Some w -> w ∈ ns.
Proof.
  revert w; induction ns as [|n ns IH] using rev_ind; intros w; [done|].
  rewrite winner_snoc. intros [= <-]. destruct (winner ns) as [w|] eqn:E.
  - unfold win. destruct (isWinningName n w); [apply elem_of_app; right; by left|].
    apply elem_of_app. left. by apply IH.
  - apply elem_of_app. right. by left.
Qed.

(** What the loop has done after the entries [done]. *)
Record deduped (tags0 : tagmap) (l : list (string * string)) (tags : tagmap) (inv : gmap string string)
    : Prop := {
  dd_inv v : inv !! v = if long v then winner (names_of v l) else None;
  dd_tags n : tags !! n =
    match tags0 !! n with
    | Some v => if long v && bool_decide ((n, v) ∈ l) && negb (bool_decide (winner (names_of v l) = Some n))
                then None else Some v
    | None => None
    end;
}.

Lemma mem_snoc_other (l : list (string * string)) m w n v :
  w <> v -> bool_decide ((m, w) ∈ l ++ [(n, v)]) = bool_decide ((m, w) ∈ l).
Proof.
  intros Hvw. apply bool_decide_ext. rewrite elem_of_app, list_elem_of_singleton. split; [|by left].
  intros [?|Hx]; [done|]. injection Hx as -> ->. done.
Qed.

(** The tags whose value is not the one of the entry are not concerned. *)
Lemma deduped_other l n v m w :
  w <> v ->
  (long w && bool_decide ((m, w) ∈ l ++ [(n, v)])
     && negb (bool_decide (winner (names_of w (l ++ [(n, v)])) = Some m))) =
  (long w && bool_decide ((m, w) ∈ l) && negb (bool_decide (winner (names_of w l) = Some m))).
Proof.
  intros Hvw. rewrite mem_snoc_other, names_of_snoc by done.
  rewrite (proj2 (String.eqb_neq v w)) by congruence. by rewrite app_nil_r.
Qed.

Lemma mem_snoc (l : list (string * string)) m n v :
  bool_decide ((m, v) ∈ l ++ [(n, v)]) = bool_decide ((m, v) ∈ l) || bool_decide (m = n).
Proof.
  rewrite <- bool_decide_or. apply bool_decide_ext.
  rewrite elem_of_app, list_elem_of_singleton. naive_solver.
Qed.

(** A step whose value has the winner [x] afterwards: the tags of the other
    values stay, of this one the visited names but [x] are gone. *)
Lemma deduped_snoc tags0 l n v x tags inv tags' :
  deduped tags0 l tags inv -> long v = true ->
  winner (names_of v (l ++ [(n, v)])) = Some x ->
  (forall m, tags' !! m = if decide (tags0 !! m = Some v)
     then if (bool_decide ((m, v) ∈ l) || bool_decide (m = n)) && negb (bool_decide (x = m)) then None else Some v
     else tags !! m) ->
  deduped tags0 (l ++ [(n, v)]) tags' (<[v := x]> inv).
Proof.
  intros [Hinv Htags] Hlong Hx Ht. split.
  - intros w. destruct (decide (v = w)) as [<-|Hvw]; [by rewrite lookup_insert_eq, Hlong, Hx|].
    rewrite lookup_insert_ne, Hinv, names_of_snoc by done.
    rewrite (proj2 (String.eqb_neq v w)) by done. by rewrite app_nil_r.
  - intros m. rewrite Ht. destruct (decide (tags0 !! m = Some v)) as [Em|Em].
    + rewrite Em, Hlong, mem_snoc, Hx. cbn [andb].
      rewrite (bool_decide_ext (x = m) (Some x = Some m)); [done|naive_solver].
    + rewrite Htags. destruct (tags0 !! m) as [w|]; [|done]. rewrite deduped_other; [done|congruence].
Qed.

(** A value too short to be deduplicated. *)
Lemma deduped_short tags0 l n v tags inv :
  deduped tags0 l tags inv -> long v = false -> deduped tags0 (l ++ [(n, v)]) tags inv.
Proof.
  intros [Hinv Htags] Hlong. split.
  - intros w. rewrite Hinv, names_of_snoc. destruct (String.eqb_spec v w) as [<-|]; [by rewrite Hlong|].
    by rewrite app_nil_r.
  - intros m. rewrite Htags. destruct (tags0 !! m) as [w|] eqn:Em; [|done].
    destruct (decide (w = v)) as [->|Hvw]; [by rewrite Hlong|by rewrite deduped_other].
Qed.

Lemma dedupe_step_ok tags0 l n v tags inv :
  tags0 !! n = Some v -> n <> "" -> (n, v) ∉ l -> (forall n' v', (n', v') ∈ l -> tags0 !! n' = Some v' /\ n' <> "") ->
  deduped tags0 l tags inv ->
  let '(tags', inv') := dedupe_step (tags, inv) (n, v) in deduped tags0 (l ++ [(n, v)]) tags' inv'.
Proof.
  intros Hn Hne Hnl Hl Hd. pose proof Hd as [Hinv Htags]. unfold dedupe_step.
  replace (String.length v <? minDedupeTagValueLen)%nat with (negb (long v))
    by (unfold long; by rewrite negb_involutive).
  destruct (long v) eqn:Elong; cbn [negb]; [|by apply deduped_short].
  assert (Hold : forall m, tags0 !! m = Some v -> tags !! m =
    if bool_decide ((m, v) ∈ l) && negb (bool_decide (winner (names_of v l) = Some m)) then None else Some v).
  { intros m Hm. by rewrite Htags, Hm, Elong. }
  pose proof (deduped_snoc tags0 l n v) as Hs.
  rewrite names_of_snoc, String.eqb_refl, winner_snoc in Hs.
  assert (get_str inv v = match winner (names_of v l) with Some w => w | None => "" end) as ->.
  { unfold get_str. rewrite Hinv, Elong. by destruct (winner (names_of v l)). }
  destruct (winner (names_of v l)) as [w|] eqn:Ew.
  2:{ cbn [String.eqb]. apply (Hs n tags inv); [done..|]. intros m. case_decide as Em; [|done].
      rewrite Hold by done. rewrite (bool_decide_eq_false_2 ((m, v) ∈ l)).
      2:{ intros Hm%names_of_elem. destruct (names_of v l); [by apply not_elem_of_nil in Hm|done]. }
      cbn. by repeat case_bool_decide. }
  assert (Hwl : (w, v) ∈ l) by (by apply names_of_elem, winner_elem).
  destruct (Hl w v Hwl) as [Hw Hwne]. assert (w <> n) by (by intros ->).
  rewrite (proj2 (String.eqb_neq w "")) by done. unfold win in Hs. destruct (isWinningName n w).
  - apply (Hs n tags inv); [done..|]. intros m. rewrite lookup_delete.
    case_decide as Em; case_decide; simplify_eq; [|rewrite Hold by done|done];
      repeat case_bool_decide; naive_solver.
  - replace inv with (<[v := w]> inv) by (apply insert_id; by rewrite Hinv, Elong).
    apply (Hs w tags inv); [done..|]. intros m. rewrite lookup_delete.
    case_decide as Em; case_decide; simplify_eq; [|rewrite Hold by done|done];
      repeat case_bool_decide; naive_solver.
Qed.

Lemma dedupe_loop tags0 l2 l1 tags inv :
  NoDup (l1 ++ l2) -> (forall n v, (n, v) ∈ l1 ++ l2 -> tags0 !! n = Some v /\ n <> "") ->
  deduped tags0 l1 tags inv ->
  deduped tags0 (l1 ++ l2) (foldl dedupe_step (tags, inv) l2).1 (foldl dedupe_step (tags, inv) l2).2.
Proof.
  revert l1 tags inv; induction l2 as [|[n v] l2 IH]; intros l1 tags inv Hnd Hl Hd; cbn [foldl].
  { by rewrite app_nil_r. }
  destruct (Hl n v) as [Hn Hne]; [apply elem_of_app; right; by left|].
  pose proof (dedupe_step_ok tags0 l1 n v tags inv Hn Hne) as Hs.
  destruct (dedupe_step (tags, inv) (n, v)) as [tags1 inv1].
  rewrite (cons_middle (n, v) l1 l2), app_assoc in *. apply IH; [done|done|].
  apply Hs; [|by intros n' v' H'; apply Hl; rewrite elem_of_app; left; rewrite elem_of_app; left|done].
  apply NoDup_app in Hnd as (Hnd & _ & _). apply NoDup_app in Hnd as (_ & Hnd & _).
  intros Hin. apply (Hnd _ Hin). by left.
Qed.

Lemma dedupe_all tags0 order :
  iterates order tags0 -> tags0 !! "" = None ->
  exists inv, deduped tags0 order (dedupeTagValues order tags0) inv.
Proof.
  intros Hord He. eexists. apply (dedupe_loop tags0 order [] tags0 ∅).
  - cbn. eapply NoDup_fmap_1. by eapply iterates_NoDup.
  - cbn. intros n v Hin. apply (iterates_elem _ _ _ _ Hord) in Hin. split; [done|]. intros ->. congruence.
  - split.
    + intros v. rewrite lookup_empty. by destruct (long v).
    + intros n. destruct (tags0 !! n) as [v|]; [|done].
      rewrite bool_decide_eq_false_2 by apply not_elem_of_nil. by rewrite andb_false_r.
Qed.

(** The winner is no alpha or beta name if it can, and then a shortest one. *)
Lemma winner_best ns w n :
  winner ns = Some w -> n ∈ ns -> alphaBetaRegex n = false ->
  alphaBetaRegex w = false /\ (String.length w <= String.length n)%nat.
Proof.
  revert w n; induction ns as [|m ns IH] using rev_ind; intros w n; [done|].
  rewrite winner_snoc. intros [= <-] Hn Ha.
  destruct (winner ns) as [w|] eqn:Ew.
  2:{ destruct ns as [|? ?]; [|done]. apply list_elem_of_singleton in Hn as ->. done. }
  unfold win, isWinningName.
  apply elem_of_app in Hn as [Hn|Hn%list_elem_of_singleton].
  - destruct (IH w n eq_refl Hn Ha) as [Hw Hlen]. rewrite Hw.
    destruct (alphaBetaRegex m) eqn:Em; [done|].
    destruct (Nat.ltb_spec (String.length m) (String.length w)); cbn; [split; [done|lia]|].
    destruct (Nat.eqb_spec (String.length m) (String.length w)); cbn; [|done].
    destruct (String.ltb m w); [split; [done|lia]|done].
  - subst m. rewrite Ha. destruct (alphaBetaRegex w) eqn:Hw; [done|].
    destruct (Nat.ltb_spec (String.length n) (String.length w)); cbn; [done|].
    destruct (Nat.eqb_spec (String.length n) (String.length w)); cbn; [|split; [done|lia]].
    destruct (String.ltb n w); [done|split; [done|lia]].
Qed.

Lemma dedupe_spec tags order :
  iterates order tags -> tags !! "" = None ->
  (forall n v, dedupeTagValues order tags !! n = Some v -> tags !! n = Some v) /\
  (forall n v, tags !! n = Some v -> long v = false -> dedupeTagValues order tags !! n = Some v) /\
  (forall n v, tags !! n = Some v -> long v = true ->
     exists w, (forall m, dedupeTagValues order tags !! m = Some v <-> m = w) /\
       (alphaBetaRegex n = false ->
          alphaBetaRegex w = false /\ (String.length w <= String.length n)%nat)).
Proof.
  intros Hord He. destruct (dedupe_all tags order Hord He) as [inv [_ Htags]].
  assert (Hmem : forall n v, tags !! n = Some v -> bool_decide ((n, v) ∈ order) = true).
  { intros n v H. apply bool_decide_eq_true_2. by apply (iterates_elem _ _ _ _ Hord). }
  split_and!.
  - intros n v. rewrite Htags. destruct (tags !! n) as [x|]; [|done]. by case_match.
  - intros n v Hn Hl. by rewrite Htags, Hn, Hl.
  - intros n v Hn Hl.
    assert (n ∈ names_of v order) as Hin by (apply names_of_elem; by apply (iterates_elem _ _ _ _ Hord)).
    destruct (winner (names_of v order)) as [w|] eqn:Ew.
    2:{ destruct (names_of v order); [by apply not_elem_of_nil in Hin|done]. }
    exists w. split; [|by apply (winner_best _ _ _ Ew)].
    assert (Hw : tags !! w = Some v)
      by (apply (iterates_elem _ _ _ _ Hord); by apply names_of_elem, winner_elem).
    intros m. rewrite Htags. destruct (tags !! m) as [x|] eqn:Em.
    + destruct (decide (x = v)) as [->|Hx].
      * rewrite Hl, (Hmem m v Em), Ew. cbn. destruct (decide (m = w)) as [->|Hmw].
        -- by rewrite bool_decide_eq_true_2.
        -- rewrite bool_decide_eq_false_2 by congruence. done.
      * split; [destruct (_ && _ && _); congruence|]. intros ->. congruence.
    + split; [done|]. intros ->. congruence.
Qed.

(** ** Properties *)

(** C6: what [cleanTags] leaves.  For every visiting order: only tags that
    were there, with their values, and none that is empty or excluded; if the
    rest fits the limit nothing more is removed; and if the result is still
    over the limit then no rule could have removed more: no name matches the
    alpha/beta or the provider expression and no two names share a value of
    five characters or more. *)
Theorem cleanTags_spec (order : tagmap -> list (string * string)) (tags : tagmap) (maxCapacity : nat) :
  (forall t, iterates (order t) t) -> tags !! "" = None ->
  let kept := excludeTags (removeEmptyTags tags) in
  let tags' := cleanTags order tags maxCapacity in
  (forall k v, tags' !! k = Some v -> tags !! k = Some v /\ isAnEmptyTag v = false /\ excludeTag k = false) /\
  (size kept <= maxCapacity -> tags' = kept) /\
  (size tags' <= maxCapacity \/
   (forall k, is_Some (tags' !! k) -> alphaBetaRegex k = false /\ iaasNameRegex k = false) /\
   (forall k1 k2 v, tags' !! k1 = Some v -> tags' !! k2 = Some v -> 5 <= String.length v -> k1 = k2)).
Proof.
  intros Hord He kept tags'. unfold tags', cleanTags. fold kept.
  assert (Hkept : forall k v, kept !! k = Some v ->
    tags !! k = Some v /\ isAnEmptyTag v = false /\ excludeTag k = false)
    by (intros k v; apply cleaned_lookup).
  assert (Hke : kept !! "" = None).
  { destruct (kept !! "") eqn:E; [|done]. apply Hkept in E as [? _]. congruence. }
  destruct (Nat.ltb_spec maxCapacity (size kept)) as [Hbig|Hfit].
  2:{ rewrite (proj2 (Nat.ltb_ge _ _)) by done. split_and!; [done|done|by left]. }
  destruct (dedupe_spec kept (order kept) (Hord kept) Hke) as (Hsub & _ & Huniq).
  set (t1 := dedupeTagValues (order kept) kept) in *.
  assert (Hdistinct : forall t : tagmap, (forall k v, t !! k = Some v -> t1 !! k = Some v) ->
    forall k1 k2 v, t !! k1 = Some v -> t !! k2 = Some v -> 5 <= String.length v -> k1 = k2).
  { intros t Ht k1 k2 v H1%Ht H2%Ht Hlen. destruct (Huniq k1 v (Hsub _ _ H1)) as (w & Hw & _).
    - unfold long. rewrite (proj2 (Nat.ltb_ge _ _)); [done|]. exact Hlen.
    - apply Hw in H1 as ->. by apply Hw in H2 as ->. }
  destruct (Nat.ltb_spec maxCapacity (size t1)) as [Hbig1|Hfit1].
  2:{ split_and!; [intros k v H; by apply Hkept, Hsub|lia|by left]. }
  set (t2 := removeTagsLabelsMatching t1 alphaBetaRegex _).
  set (t3 := removeTagsLabelsMatching t2 iaasNameRegex _).
  assert (H32 : forall k v, t3 !! k = Some v -> t2 !! k = Some v) by (intros k v; apply removeTags_sub).
  assert (H21 : forall k v, t2 !! k = Some v -> t1 !! k = Some v) by (intros k v; apply removeTags_sub).
  split_and!; [intros k v H; by apply Hkept, Hsub, H21, H32|lia|].
  destruct (decide (size t2 <= maxCapacity)) as [Hs2|Hs2].
  { left. pose proof (removeTags_size t2 iaasNameRegex (Z.of_nat (size t2) - Z.of_nat maxCapacity)).
    unfold t3. lia. }
  destruct (removeTags_enough t1 alphaBetaRegex maxCapacity Hbig1) as [H2|Hal]; [by destruct Hs2|].
  destruct (removeTags_enough t2 iaasNameRegex maxCapacity) as [H3|Hia]; [lia|by left|right].
  split; [|apply Hdistinct; auto].
  intros k [v Hv]. split; [apply Hal; exists v; by apply H32|apply Hia; by exists v].
Qed.

Definition sample_tags : tagmap := {["cluster" := "k8s"]}.
Lemma cleanTags_spec_witness : cleanTags map_to_list sample_tags maxWavefrontTags = sample_tags.
Proof.
  destruct (cleanTags_spec map_to_list sample_tags maxWavefrontTags) as (_ & H & _);
    [intros t; apply iterates_canonical|by vm_compute|].
  assert (Hs : size (excludeTags (removeEmptyTags sample_tags)) <= maxWavefrontTags)
    by (apply Nat.leb_le; by vm_compute).
  etransitivity; [exact (H Hs)|by vm_compute].
Defined.

(** Removing duplicate values.  For every visiting order: tags with short
    values stay; of the tags that share a value of five characters or more
    exactly one stays, and if one of them has a name that is neither alpha nor
    beta then the survivor has such a name, no longer than any other. *)
Theorem dedupeTagValues_spec (order : list (string * string)) (tags : tagmap) :
  iterates order tags -> tags !! "" = None ->
  let tags' := dedupeTagValues order tags in
  (forall n v, tags !! n = Some v -> String.length v < 5 -> tags' !! n = Some v) /\
  (forall n v, tags !! n = Some v -> 5 <= String.length v ->
     exists w, (forall m, tags' !! m = Some v <-> m = w) /\
       (alphaBetaRegex n = false -> alphaBetaRegex w = false /\ String.length w <= String.length n)).
Proof.
  intros Hord He tags'. destruct (dedupe_spec tags order Hord He) as (_ & Hshort & Hlong). split.
  - intros n v Hn Hl. apply Hshort; [done|]. unfold long, minDedupeTagValueLen.
    by rewrite (proj2 (Nat.ltb_lt _ _)).
  - intros n v Hn Hl. apply Hlong; [done|]. unfold long, minDedupeTagValueLen.
    by rewrite (proj2 (Nat.ltb_ge _ _)).
Qed.

Lemma dedupeTagValues_spec_witness :
  let tags := <["node" := "worker-1"]> {["nodename" := "worker-1"]} : tagmap in
  exists w, (forall m, dedupeTagValues (map_to_list tags) tags !! m = Some "worker-1" <-> m = w) /\
    String.length w <= 4.
Proof.
  intros tags. destruct (dedupeTagValues_spec (map_to_list tags) tags) as [_ H];
    [apply iterates_canonical|by vm_compute|].
  destruct (H "node" "worker-1") as (w & Hw & Hl); [by vm_compute|vm_compute; lia|].
  exists w. split; [exact Hw|]. by apply Hl; vm_compute.
Defined.

(** One tag too many is removed.  With twenty tags of which one has an
    alpha name and one a provider name, removing the alpha tag already meets
    the limit of nineteen, but the second pass is then called with zero tags
    to remove and removes one all the same. *)
Theorem cleanTags_over_removal :
  let names := map (fun c => String c "tag") (String.list_ascii_of_string "abcdefghijklmnopqr") in
  let tags := list_to_map ((fun n => (n, String.substring 0 1 n)) <$> names ++ ["alpha"; "azure"]) : tagmap in
  size tags = 20 /\ size (cleanTags map_to_list tags maxWavefrontTags) = 18 /\
  cleanTags map_to_list tags maxWavefrontTags !! "azure" = None.
Proof. split_and!; by vm_compute. Qed.

Lemma export_metric_counts {F : Type} `{!MetricFilter F} order accepts (sink : wavefrontSink) st m :
  let st' := export_metric order accepts sink st (Some m) in
  (sentPoints st' + errPoints st' + filteredPoints st'
   = sentPoints st + errPoints st + filteredPoints st + 1)%Z /\
  (Z.of_nat (length (ex_sent st')) - sentPoints st' <= Z.of_nat (length (ex_sent st)) - sentPoints st)%Z /\
  (Forall (fun s => accepts s = true) (ex_sent st) -> Forall (fun s => accepts s = true) (ex_sent st')).
Proof.
  unfold export_metric. destruct (OverrideTag _ _ _ _) as [h1 m1]. destruct (AddTags h1 m1 _) as [h2 m2].
  destruct (Filter (sk_filters sink) h2 (Some m2)) as [[h3 [m3|]] n] eqn:Ef.
  - assert (n = 0%Z) as ->.
    { unfold Filter in Ef. destruct (sk_filters sink); [|by injection Ef].
      destruct (negb _); [done|]. destruct (FilterTags _ _ _). by injection Ef. }
    destruct (Send h3 m3) as [[s|]|e]; cbn; [|split_and!; lia || done|split_and!; lia || done].
    destruct (accepts (sink_send order sink s)) eqn:Ea; cbn; (split_and!; [lia|rewrite ?length_app; cbn; lia|]);
      intros H; [|done]. apply Forall_app. by split; [|constructor].
  - assert (n = 1%Z) as ->.
    { unfold Filter in Ef. destruct (sk_filters sink); [|done].
      destruct (negb _); [by injection Ef|]. destruct (FilterTags _ _ _). done. }
    cbn. split_and!; lia || done.
Qed.

(** C34: accounting of an export.  Every metric of the batch that is not nil
    is counted exactly once, as sent, as failed or as filtered; what was handed
    to the client and accepted is at most the number counted as sent (a
    histogram without counts is counted but not handed over). *)
Theorem Export_accounting {F : Type} `{!MetricFilter F} (order : tagmap -> list (string * string))
    (accepts : sent -> bool) (sink : wavefrontSink) (h : heap) (ms : list (option wfmetric)) :
  let st := Export order accepts sink h ms in
  (sentPoints st + errPoints st + filteredPoints st = Z.of_nat (length (omap id ms)))%Z /\
  (Z.of_nat (length (ex_sent st)) <= sentPoints st)%Z /\
  Forall (fun s => accepts s = true) (ex_sent st).
Proof.
  unfold Export.
  assert (H : forall st0, (Z.of_nat (length (ex_sent st0)) <= sentPoints st0)%Z ->
    Forall (fun s => accepts s = true) (ex_sent st0) ->
    let st := foldl (export_metric order accepts sink) st0 ms in
    (sentPoints st + errPoints st + filteredPoints st =
       sentPoints st0 + errPoints st0 + filteredPoints st0 + Z.of_nat (length (omap id ms)))%Z /\
    (Z.of_nat (length (ex_sent st)) <= sentPoints st)%Z /\
    Forall (fun s => accepts s = true) (ex_sent st)).
  { induction ms as [|[m|] ms IH]; intros st0 H1 H2; cbn [foldl]; [split_and!; cbn; lia || done| |by apply IH].
    destruct (export_metric_counts order accepts sink st0 m) as (Hc & Hl & Ha).
    destruct (IH (export_metric order accepts sink st0 (Some m))) as (Hc' & Hl' & Ha'); [lia|auto|].
    split_and!; [|done|done]. rewrite Hc', Hc. cbn. lia. }
  destruct (H (MkExport h [] 0 0 0)) as (Hc & Hl & Ha); [done|constructor|]. split_and!; [|done|done].
  rewrite Hc. cbn. lia.
Qed.
