(* ===== verification/RateCalculator.v ===== *)
(** The rate calculator: plugins/processors/rate_calculator.go.

    [previousMetricSets] keeps pointers to the sets of the last batch.  The
    rate calculator is the first processor of the pipeline and reads only the
    cumulative metrics of its table from the kept sets; the model keeps the
    sets as they are when it returns.  An integer division by zero is [None].
    The visiting orders of the rate table and of the batch are arguments. *)

From S2P Require Import Prelude GoFloat Metrics MetricTable Aggregators.

Record RateCalculator := MkRateCalculator {
  previousMetricSets : Sets;
  cachePruneInterval : Z;
  lastPruneTime : Z;
}.

Definition NewRateCalculator (now : Z) : RateCalculator :=
  MkRateCalculator ∅ (5 * minute) now.

(** [newMs.ScrapeTime.UnixNano() - oldMs.ScrapeTime.UnixNano()]. *)
Definition nanos_between (newMs oldMs : Set_) : Z :=
  i64_sub (unix_nano (ScrapeTime newMs)) (unix_nano (ScrapeTime oldMs)).

Definition f64_1e9 : f64 := f64_of_Z 1000000000.

(** [1e9 * float64(new-old) / float64(nanos)]. *)
Definition float_rate (newVal oldVal : Z) (nanos : Z) : f64 :=
  f64_div (f64_mul f64_1e9 (f64_of_Z (i64_sub newVal oldVal))) (f64_of_Z nanos).

(** [1000 * (new - old) / nanos] on [int64]s. *)
Definition cpu_rate (newVal oldVal : Z) (nanos : Z) : option Z :=
  i64_div (i64_mul 1000 (i64_sub newVal oldVal)) nanos.

Definition is_disk_io (metricName : string) : bool :=
  String.eqb metricName (md_Name MetricDiskIORead) || String.eqb metricName (md_Name MetricDiskIOWrite).

(** The rate of one labelled value, when the old set has a value of the same
    name and resource id. *)
Definition disk_rate (metricName : string) (target : MetricDescriptor) (oldMs : Set_) (nanos : Z)
    (itemNew : LabeledValue (gmap string string)) : option (LabeledValue (gmap string string)) :=
  if String.eqb (lv_Name itemNew) metricName then
    match list_find (fun itemOld => lv_Name itemOld = metricName /\
        get_str (lv_Labels itemOld) (Key LabelResourceID) =
        get_str (lv_Labels itemNew) (Key LabelResourceID)) (LabeledValues oldMs) with
    | Some (_, itemOld) =>
        if decide (md_ValueType target = ValueFloat) then
          Some (MkLabeledValue (md_Name target) (lv_Labels itemNew)
            (floatValue (float_rate (IntValue (lv_Value itemNew)) (IntValue (lv_Value itemOld)) nanos)))
        else None
    | None => None
    end
  else None.

(** One entry of the rate table. *)
Definition rate_metric (oldMs : Set_) (newMs : Set_) (entry : string * MetricDescriptor) : option Set_ :=
  let '(metricName, target) := entry in
  let nanos := nanos_between newMs oldMs in
  if is_disk_io metricName then
    Some (with_LabeledValues
      (fun l => l ++ omap (disk_rate metricName target oldMs nanos) (LabeledValues newMs)) newMs)
  else
    match Values newMs !! metricName, Values oldMs !! metricName with
    | Some metricValNew, Some metricValOld =>
        if String.eqb metricName (md_Name MetricCpuUsage) then
          newVal ← cpu_rate (IntValue metricValNew) (IntValue metricValOld) nanos;
          Some (set_value (md_Name target) (intValue newVal) newMs)
        else if decide (md_ValueType target = ValueFloat) then
          Some (set_value (md_Name target)
            (floatValue (float_rate (IntValue metricValNew) (IntValue metricValOld) nanos)) newMs)
        else Some newMs
    | _, _ => Some newMs
    end.

Fixpoint rate_metrics (oldMs : Set_) (order : list (string * MetricDescriptor)) (newMs : Set_)
    : option Set_ :=
  match order with
  | [] => Some newMs
  | e :: order' => newMs' ← rate_metric oldMs newMs e; rate_metrics oldMs order' newMs'
  end.

(** What happens to the set under one key and to the kept set. *)
Definition rate_key (order : list (string * MetricDescriptor)) (old : option Set_) (newMs : Set_)
    : option (Set_ * option Set_) :=
  match old with
  | None => Some (newMs, Some newMs)
  | Some oldMs =>
      if negb (time_after (ScrapeTime newMs) (ScrapeTime oldMs)) then Some (newMs, Some oldMs)
      else if negb (Z.eqb (CollectionStartTime newMs) (CollectionStartTime oldMs)) then
        Some (newMs, Some newMs)
      else newMs' ← rate_metrics oldMs order newMs; Some (newMs', Some newMs')
  end.

Definition rate_step (order : string -> list (string * MetricDescriptor)) (st : Sets * Sets)
    (key : string) : option (Sets * Sets) :=
  let '(sets, prev) := st in
  match sets !! key with
  | None => Some st
  | Some newMs =>
      '(newMs', old') ← rate_key (order key) (prev !! key) newMs;
      Some (<[key := newMs']> sets, partial_alter (fun _ => old') key prev)
  end.

Fixpoint rate_loop (order : string -> list (string * MetricDescriptor)) (visits : list string)
    (st : Sets * Sets) : option (Sets * Sets) :=
  match visits with
  | [] => Some st
  | key :: visits' => st' ← rate_step order st key; rate_loop order visits' st'
  end.

(** [Process] at time [now]. *)
Definition RateCalculator_Process (order : string -> list (string * MetricDescriptor))
    (visits : list string) (now : Z) (rc : RateCalculator) (sets : Sets)
    : option (RateCalculator * Sets) :=
  '(sets', prev) ← rate_loop order visits (sets, previousMetricSets rc);
  if time_before (lastPruneTime rc) (now - cachePruneInterval rc) then
    Some (MkRateCalculator (filter (fun '(k, _) => is_Some (sets' !! k)) prev)
            (cachePruneInterval rc) now, sets')
  else Some (MkRateCalculator prev (cachePruneInterval rc) (lastPruneTime rc), sets').

(** ** The rates of one set in closed form *)

(** The rate of a metric outside the disk metrics. *)
Definition rate_value (newMs oldMs : Set_) (metricName : string) (target : MetricDescriptor)
    : option Value :=
  match Values newMs !! metricName, Values oldMs !! metricName with
  | Some n, Some o =>
      let nanos := nanos_between newMs oldMs in
      if String.eqb metricName (md_Name MetricCpuUsage)
      then intValue <$> cpu_rate (IntValue n) (IntValue o) nanos
      else if decide (md_ValueType target = ValueFloat)
      then Some (floatValue (float_rate (IntValue n) (IntValue o) nanos)) else None
  | _, _ => None
  end.

Definition disk_rates (newMs oldMs : Set_) (entry : string * MetricDescriptor)
    : list (LabeledValue (gmap string string)) :=
  if is_disk_io entry.1 then
    omap (disk_rate entry.1 entry.2 oldMs (nanos_between newMs oldMs)) (LabeledValues newMs)
  else [].

(** No target of the table is one of its sources, and targets differ. *)
Definition table_ok (l : list (string * MetricDescriptor)) : Prop :=
  NoDup (map (fun e => md_Name e.2) l) /\
  forall e e', e ∈ l -> e' ∈ l -> e.1 <> md_Name e'.2.

Lemma table_ok_perm l l' : l ≡ₚ l' -> table_ok l -> table_ok l'.
Proof.
  intros Hp [H1 H2]. split.
  - by rewrite <- (Permutation_map _ Hp).
  - intros e e' He He'. apply H2; by rewrite Hp.
Qed.

(** [newMs] after the entries [l] when [m0] is what it was before. *)
Record rated (m0 oldMs : Set_) (l : list (string * MetricDescriptor)) (ms : Set_) : Prop := {
  rated_target n t : (n, t) ∈ l -> is_disk_io n = false ->
    Values ms !! md_Name t = match rate_value m0 oldMs n t with
                             | Some v => Some v | None => Values m0 !! md_Name t end;
  rated_other n : (forall e, e ∈ l -> is_disk_io e.1 = false -> md_Name e.2 <> n) ->
    Values ms !! n = Values m0 !! n;
  rated_labeled : LabeledValues ms = LabeledValues m0 ++ concat (map (disk_rates m0 oldMs) l);
  rated_times : ScrapeTime ms = ScrapeTime m0 /\ CollectionStartTime ms = CollectionStartTime m0 /\
    EntityCreateTime ms = EntityCreateTime m0 /\ Labels ms = Labels m0;
}.

Lemma disk_rate_name n t old nanos i r : disk_rate n t old nanos i = Some r -> lv_Name r = md_Name t.
Proof. unfold disk_rate. intros H. repeat case_match; simplify_eq; done. Qed.

Lemma disk_rate_other n t old nanos i : lv_Name i <> n -> disk_rate n t old nanos i = None.
Proof. intros H. unfold disk_rate. by apply String.eqb_neq in H as ->. Qed.

(** The items appended by earlier entries have no rate of their own. *)
Lemma omap_disk_appended m0 oldMs l n t nanos :
  (forall e, e ∈ l -> md_Name e.2 <> n) ->
  omap (disk_rate n t oldMs nanos) (concat (map (disk_rates m0 oldMs) l)) = [].
Proof.
  induction l as [|e l IH]; intros H; [done|]. cbn. rewrite omap_app, IH.
  2:{ intros; apply H; by right. }
  rewrite app_nil_r. unfold disk_rates. destruct (is_disk_io e.1); [|done].
  assert (md_Name e.2 <> n) as Hne by (apply H; by left).
  induction (LabeledValues m0) as [|i items IHi]; [done|]. cbn.
  destruct (disk_rate e.1 e.2 oldMs _ i) as [r|] eqn:E; [|exact IHi].
  cbn. rewrite disk_rate_other; [exact IHi|]. by rewrite (disk_rate_name _ _ _ _ _ _ E).
Qed.

Lemma disk_rates_eq m0 oldMs n t :
  disk_rates m0 oldMs (n, t) =
    if is_disk_io n then omap (disk_rate n t oldMs (nanos_between m0 oldMs)) (LabeledValues m0) else [].
Proof. done. Qed.

(** The entry after [l] has no target of [l] as its source or its target. *)
Lemma table_fresh l n t e :
  table_ok (l ++ [(n, t)]) -> e ∈ l -> md_Name e.2 <> n /\ md_Name e.2 <> md_Name t.
Proof.
  intros [Hnd Hsrc] He. split; intros Heq.
  - apply (Hsrc (n, t) e); [apply elem_of_app; right; by left|apply elem_of_app; by left|by rewrite Heq].
  - rewrite map_app in Hnd. apply NoDup_app in Hnd as (_ & Hnd & _).
    apply (Hnd (md_Name e.2)); [exact (list_elem_of_fmap_2 (fun e => md_Name e.2) l e He)|]. rewrite Heq. by left.
Qed.

Lemma rated_snoc_disk m0 oldMs l n t ms :
  table_ok (l ++ [(n, t)]) -> is_disk_io n = true -> rated m0 oldMs l ms ->
  rated m0 oldMs (l ++ [(n, t)])
    (with_LabeledValues
      (fun lvs => lvs ++ omap (disk_rate n t oldMs (nanos_between m0 oldMs)) (LabeledValues ms)) ms).
Proof.
  intros Hok Hd [Ht Ho Hl Htimes]. split; cbn; [| | |done].
  - intros n' t' [Hin|[= -> ->]%list_elem_of_singleton]%elem_of_app Hd'; [by apply Ht|congruence].
  - intros n' H. apply Ho. intros e He. apply H, elem_of_app. by left.
  - rewrite Hl, omap_app, (omap_disk_appended m0 oldMs l n t).
    2:{ intros e He. by apply (table_fresh l n t e Hok He). }
    rewrite map_app, concat_app. cbn [map concat]. rewrite disk_rates_eq, Hd.
    by rewrite !app_nil_r, app_assoc.
Qed.

Lemma rated_snoc m0 oldMs l n t ms :
  table_ok (l ++ [(n, t)]) -> is_disk_io n = false -> rated m0 oldMs l ms ->
  rated m0 oldMs (l ++ [(n, t)])
    (match rate_value m0 oldMs n t with Some v => set_value (md_Name t) v ms | None => ms end).
Proof.
  intros Hok Hd [Ht Ho Hl Htimes].
  assert (Hlab : LabeledValues ms = LabeledValues m0 ++ concat (map (disk_rates m0 oldMs) (l ++ [(n, t)]))).
  { rewrite Hl, map_app, concat_app. cbn [map concat]. rewrite disk_rates_eq, Hd.
    by rewrite !app_nil_r. }
  assert (Hother : forall n', (forall e, e ∈ l ++ [(n, t)] -> is_disk_io e.1 = false -> md_Name e.2 <> n') ->
    Values ms !! n' = Values m0 !! n').
  { intros n' H. apply Ho. intros e He. apply H, elem_of_app. by left. }
  destruct (rate_value m0 oldMs n t) as [v|] eqn:Hv; split; try done; cbn.
  - intros n' t' [Hin|[= -> ->]%list_elem_of_singleton]%elem_of_app Hd'; [|by rewrite lookup_insert_eq, Hv].
    rewrite lookup_insert_ne; [by apply Ht|]. by destruct (table_fresh l n t (n', t') Hok Hin).
  - intros n' H. rewrite lookup_insert_ne; [by apply Hother|].
    apply (H (n, t)); [apply elem_of_app; right; by left|done].
  - intros n' t' [Hin|[= -> ->]%list_elem_of_singleton]%elem_of_app Hd'; [by apply Ht|].
    rewrite Hv. apply Ho. intros e He _. by apply (table_fresh l n t e).
Qed.

Lemma rate_metric_rated m0 oldMs l e ms :
  table_ok (l ++ [e]) -> nanos_between m0 oldMs <> 0%Z -> rated m0 oldMs l ms ->
  exists ms', rate_metric oldMs ms e = Some ms' /\ rated m0 oldMs (l ++ [e]) ms'.
Proof.
  intros Hok Hdt Hr. destruct e as [n t]. pose proof Hr as [_ Ho _ Htimes].
  assert (Hnanos : nanos_between ms oldMs = nanos_between m0 oldMs)
    by (unfold nanos_between; by rewrite (proj1 Htimes)).
  unfold rate_metric. rewrite Hnanos. destruct (is_disk_io n) eqn:Ed.
  { eexists; split; [done|]. by apply rated_snoc_disk. }
  rewrite (Ho n) by (intros e He _; by apply (table_fresh l n t e)).
  pose proof (rated_snoc m0 oldMs l n t ms Hok Ed Hr) as Hs. unfold rate_value in Hs.
  destruct (Values m0 !! n) as [vn|], (Values oldMs !! n) as [vo|]; try by (eexists; split).
  destruct (String.eqb n (md_Name MetricCpuUsage)); [|case_decide; by eexists].
  unfold cpu_rate, i64_div in *. apply Z.eqb_neq in Hdt as Hz. rewrite Hz in *. by eexists.
Qed.

Lemma rate_metrics_rated m0 oldMs l1 l2 ms :
  table_ok (l1 ++ l2) -> nanos_between m0 oldMs <> 0%Z -> rated m0 oldMs l1 ms ->
  exists ms', rate_metrics oldMs l2 ms = Some ms' /\ rated m0 oldMs (l1 ++ l2) ms'.
Proof.
  revert l1 ms; induction l2 as [|e l2 IH]; intros l1 ms Hok Hdt Hr; cbn.
  { exists ms. by rewrite app_nil_r. }
  rewrite (cons_middle e l1 l2), app_assoc in Hok.
  destruct (rate_metric_rated m0 oldMs l1 e ms) as (ms1 & -> & Hr1); [|done|done|].
  { destruct Hok as [H1 H2]. split.
    - rewrite map_app in H1. by apply NoDup_app in H1 as (? & _).
    - intros a b Ha Hb. apply H2; apply elem_of_app; by left. }
  cbn. destruct (IH (l1 ++ [e]) ms1 Hok Hdt Hr1) as (ms2 & E2 & Hr2).
  exists ms2. split; [done|]. by rewrite <- app_assoc in Hr2.
Qed.

Lemma rated_nil m0 oldMs : rated m0 oldMs [] m0.
Proof.
  split; [|done|by rewrite app_nil_r|done]. intros n t Hin. by apply not_elem_of_nil in Hin.
Qed.

Lemma rate_order_perm order : iterates order RateMetricsMapping -> order ≡ₚ rate_entries.
Proof.
  intros Hp. rewrite Hp. apply map_to_list_to_map. by apply (bool_decide_unpack _).
Qed.

Lemma rate_entries_ok order : iterates order RateMetricsMapping -> table_ok order.
Proof.
  intros Hp. apply (table_ok_perm rate_entries); [symmetry; by apply rate_order_perm|].
  split; [by apply (bool_decide_unpack _)|].
  assert (forallb (fun e => forallb (fun e' => negb (String.eqb e.1 (md_Name e'.2))) rate_entries)
              rate_entries = true) as H by by vm_compute.
    intros e e' He He'. rewrite forallb_forall in H. specialize (H e (proj1 (list_elem_of_In _ _) He)).
    rewrite forallb_forall in H. specialize (H e' (proj1 (list_elem_of_In _ _) He')).
    by apply negb_true_iff, String.eqb_neq in H.
Qed.

(** Two distinct instants in the range of [UnixNano] differ as [int64]s. *)
Lemma nanos_nonzero newMs oldMs :
  in_i64 (ScrapeTime newMs) -> in_i64 (ScrapeTime oldMs) ->
  time_after (ScrapeTime newMs) (ScrapeTime oldMs) = true -> nanos_between newMs oldMs <> 0%Z.
Proof.
  unfold nanos_between, i64_sub, unix_nano, time_after. intros Hn Ho Ha%Z.ltb_lt.
  rewrite (wrap64_id (ScrapeTime newMs)), (wrap64_id (ScrapeTime oldMs)) by done.
  unfold wrap64, in_i64, two63, two64 in *. intros H.
  assert (((ScrapeTime newMs - ScrapeTime oldMs + 9223372036854775808) mod 18446744073709551616
    = 9223372036854775808)%Z) as E by lia.
  pose proof (Z_div_mod_eq_full (ScrapeTime newMs - ScrapeTime oldMs + 9223372036854775808)
    18446744073709551616) as Hd. rewrite E in Hd.
  lia.
Qed.

Lemma nanos_exact newMs oldMs :
  in_i64 (ScrapeTime newMs) -> in_i64 (ScrapeTime oldMs) ->
  in_i64 (ScrapeTime newMs - ScrapeTime oldMs) ->
  nanos_between newMs oldMs = (ScrapeTime newMs - ScrapeTime oldMs)%Z.
Proof.
  intros. unfold nanos_between, i64_sub, unix_nano.
  rewrite (wrap64_id (ScrapeTime newMs)), (wrap64_id (ScrapeTime oldMs)) by done. by apply wrap64_id.
Qed.

(** ** Properties *)

(** C5: the rates of one resource.  When the new set was scraped strictly
    after the kept one and belongs to the same run, then whatever the order in
    which the rate table is visited the calculator returns (it cannot divide
    by zero) and adds exactly: for every cumulative metric that both sets have,
    its rate under the rate's name; for every disk counter of the new set with
    a counterpart for the same resource in the old one, a labelled rate.
    Every other value, the old labelled values and the labels are unchanged.
    The cpu rate of a counter that did not go down is exactly
    [1000 * increase / nanoseconds] rounded down, as long as the product fits. *)
Theorem rates_of_set (order : list (string * MetricDescriptor)) (newMs oldMs : Set_) :
  iterates order RateMetricsMapping ->
  in_i64 (ScrapeTime newMs) -> in_i64 (ScrapeTime oldMs) ->
  (ScrapeTime oldMs < ScrapeTime newMs)%Z ->
  CollectionStartTime newMs = CollectionStartTime oldMs ->
  exists ms, rate_key order (Some oldMs) newMs = Some (ms, Some ms) /\
    (forall n t, (n, t) ∈ rate_entries -> is_disk_io n = false ->
       Values ms !! md_Name t = match rate_value newMs oldMs n t with
                                | Some v => Some v | None => Values newMs !! md_Name t end) /\
    (forall n, (forall e, e ∈ rate_entries -> md_Name e.2 <> n) -> Values ms !! n = Values newMs !! n) /\
    LabeledValues ms ≡ₚ LabeledValues newMs ++ concat (map (disk_rates newMs oldMs) rate_entries) /\
    Labels ms = Labels newMs /\ ScrapeTime ms = ScrapeTime newMs /\
    (forall vn vo, Values newMs !! md_Name MetricCpuUsage = Some vn ->
       Values oldMs !! md_Name MetricCpuUsage = Some vo ->
       (0 <= IntValue vo <= IntValue vn)%Z -> (1000 * (IntValue vn - IntValue vo) < two63)%Z ->
       in_i64 (ScrapeTime newMs - ScrapeTime oldMs) ->
       Values ms !! md_Name MetricCpuUsageRate = Some (intValue
         (1000 * (IntValue vn - IntValue vo) / (ScrapeTime newMs - ScrapeTime oldMs))%Z)).
Proof.
  intros Hord Hn Ho Hlt Hstart.
  assert (Hafter : time_after (ScrapeTime newMs) (ScrapeTime oldMs) = true) by by apply Z.ltb_lt.
  pose proof (rate_order_perm order Hord) as Hperm.
  destruct (rate_metrics_rated newMs oldMs [] order newMs) as (ms & E & [Ht Hoth Hlab Htimes]);
    [by apply rate_entries_ok|by apply nanos_nonzero|apply rated_nil|].
  cbn [app] in *. exists ms. unfold rate_key. rewrite Hafter, Hstart, Z.eqb_refl. cbn [negb].
  rewrite E. assert (Htarget : forall n t, (n, t) ∈ rate_entries -> is_disk_io n = false ->
       Values ms !! md_Name t = match rate_value newMs oldMs n t with
                                | Some v => Some v | None => Values newMs !! md_Name t end).
  { intros n t Hin. apply Ht. by rewrite Hperm. }
  split_and!; [done|exact Htarget| | |apply Htimes|apply Htimes|].
  - intros n H. apply Hoth. intros e He _. apply H. by rewrite <- Hperm.
  - rewrite Hlab. f_equiv. rewrite <- !flat_map_concat_map. by apply Permutation_flat_map.
  - intros vn vo Evn Evo Hv Hbig Hr.
    rewrite (Htarget (md_Name MetricCpuUsage) MetricCpuUsageRate) by (done || by left).
    unfold rate_value. rewrite Evn, Evo. rewrite nanos_exact by done.
    change (String.eqb (md_Name MetricCpuUsage) (md_Name MetricCpuUsage)) with true. cbn iota.
    unfold cpu_rate, i64_div, i64_mul, i64_sub.
    rewrite (proj2 (Z.eqb_neq _ 0)) by lia. cbn [fmap option_fmap option_map].
    unfold two63 in *. rewrite (wrap64_id (IntValue vn - IntValue vo)) by (unfold in_i64, two63; lia).
    rewrite (wrap64_id (1000 * _)) by (unfold in_i64, two63; lia).
    rewrite Z.quot_div_nonneg by lia. f_equal. f_equal. apply wrap64_id.
    pose proof (Z.div_pos (1000 * (IntValue vn - IntValue vo)) (ScrapeTime newMs - ScrapeTime oldMs)).
    pose proof (Z.div_le_upper_bound (1000 * (IntValue vn - IntValue vo))
      (ScrapeTime newMs - ScrapeTime oldMs) (1000 * (IntValue vn - IntValue vo))).
    unfold in_i64, two63. nia.
Qed.

Definition sample_set (t cpu : Z) : Set_ :=
  MkSet 0 0 t {[md_Name MetricCpuUsage := intValue cpu]} ∅ [].

Lemma rates_of_set_witness :
  exists ms, rate_key (map_to_list RateMetricsMapping) (Some (sample_set 0 0)) (sample_set second 500000000)
      = Some (ms, Some ms) /\
    Values ms !! md_Name MetricCpuUsageRate = Some (intValue 500).
Proof.
  destruct (rates_of_set (map_to_list RateMetricsMapping) (sample_set second 500000000) (sample_set 0 0))
    as (ms & E & _ & _ & _ & _ & _ & Hcpu);
    [apply iterates_canonical|by apply (bool_decide_unpack _)|by apply (bool_decide_unpack _)|done|done|].
  exists ms. split; [exact E|].
  exact (Hcpu (intValue 500000000) (intValue 0) eq_refl eq_refl ltac:(cbn; lia) ltac:(cbn; unfold two63; lia)
    ltac:(unfold in_i64, two63, second; cbn; lia)).
Defined.

(** ** The whole batch *)

Lemma rate_key_total order old newMs :
  iterates order RateMetricsMapping -> in_i64 (ScrapeTime newMs) ->
  (forall o, old = Some o -> in_i64 (ScrapeTime o)) ->
  exists r, rate_key order old newMs = Some r.
Proof.
  intros Hord Hn Hold. unfold rate_key. destruct old as [oldMs|]; [|by eexists].
  destruct (time_after _ _) eqn:Ea; cbn; [|by eexists].
  destruct (Z.eqb _ _); cbn; [|by eexists].
  destruct (rate_metrics_rated newMs oldMs [] order newMs) as (ms & -> & _);
    [by apply rate_entries_ok|apply nanos_nonzero; [done|by apply Hold|done]|apply rated_nil|].
  cbn. by eexists.
Qed.

(** Every visited key is treated on its own. *)
Lemma rate_loop_keys order visits sets prev :
  NoDup visits ->
  (forall k s, k ∈ visits -> sets !! k = Some s -> exists r, rate_key (order k) (prev !! k) s = Some r) ->
  exists sets' prev', rate_loop order visits (sets, prev) = Some (sets', prev') /\
    (forall k s, k ∈ visits -> sets !! k = Some s ->
       exists s' o, rate_key (order k) (prev !! k) s = Some (s', o) /\
         sets' !! k = Some s' /\ prev' !! k = o) /\
    (forall k, k ∉ visits \/ sets !! k = None -> sets' !! k = sets !! k /\ prev' !! k = prev !! k).
Proof.
  revert sets prev; induction visits as [|k0 visits IH]; intros sets prev Hnd Hok; cbn [rate_loop].
  { exists sets, prev. split_and!; [done| |done]. intros k s Hk. by apply not_elem_of_nil in Hk. }
  apply NoDup_cons in Hnd as [Hk0 Hnd]. unfold rate_step.
  destruct (sets !! k0) as [s0|] eqn:E0.
  - destruct (Hok k0 s0 (list_elem_of_here _ _) E0) as [[s0' o0] Er]. rewrite Er. cbn [mbind option_bind].
    destruct (IH (<[k0 := s0']> sets) (partial_alter (fun _ => o0) k0 prev))
      as (sets' & prev' & E & Hin & Hout); [done| |].
    { intros k s Hk. assert (k <> k0) by (by intros ->).
      rewrite lookup_insert_ne, lookup_partial_alter_ne by done. apply Hok. by right. }
    exists sets', prev'. split_and!; [done| |].
    + intros k s [->|Hk]%elem_of_cons Hs.
      * exists s0', o0. rewrite E0 in Hs. injection Hs as <-.
        destruct (Hout k0) as [-> ->]; [by left|].
        by rewrite lookup_insert_eq, lookup_partial_alter_eq.
      * assert (k <> k0) by (by intros ->).
        destruct (Hin k s Hk) as (s' & o & Hx); [by rewrite lookup_insert_ne|].
        rewrite lookup_partial_alter_ne in Hx by done. eauto.
    + intros k Hk. assert (k <> k0) as Hne.
      { intros ->. destruct Hk as [Hk|Hk]; [apply Hk; by left|congruence]. }
      destruct (Hout k) as [-> ->]; [|by rewrite lookup_insert_ne, lookup_partial_alter_ne].
      destruct Hk as [Hk|Hk]; [left; by apply not_elem_of_cons in Hk as [_ ?]|right].
      by rewrite lookup_insert_ne.
  - destruct (IH sets prev) as (sets' & prev' & E & Hin & Hout); [done| |].
    { intros k s Hk. apply Hok. by right. }
    exists sets', prev'. cbn. split_and!; [done| |].
    + intros k s [->|Hk]%elem_of_cons Hs; [congruence|by apply Hin].
    + intros k [Hk|Hk]; apply Hout; [left; by apply not_elem_of_cons in Hk as [_ ?]|by right].
Qed.


