(* ===== verification/Util.v ===== *)
(** Kubernetes helpers: internal/util/util.go, label_copier.go and
    string_interner.go, with the fields of the Kubernetes objects that the
    collector reads.  The process environment is a map from names to values
    (an unset variable reads as the empty string), [net.ParseIP] is a
    parameter.  The lister constructors of util.go start Kubernetes reflectors
    and are left out. *)

From S2P Require Import Prelude GoFloat Metrics.

(** ** Kubernetes objects *)

(** What the source reads of a [resource.Quantity]. *)
Record Quantity := MkQuantity { q_Value : Z; q_MilliValue : Z }.
Definition quantity_zero : Quantity := MkQuantity 0 0.

Record NodeCondition := MkCondition { nc_Type : string; nc_Status : string }.
Record NodeAddress := MkAddress { na_Type : string; na_Address : string }.
Record Node := MkNode {
  node_Name : string;
  node_Labels : gmap string string;
  node_Conditions : list NodeCondition;
  node_Addresses : list NodeAddress;
  node_Capacity : gmap string Quantity;
  node_Allocatable : gmap string Quantity;
}.

Record Terminated := MkTerminated { t_Reason : string; t_ExitCode : Z; t_FinishedAt : Z }.
(** [Running] is set or not, [Waiting] has a reason. *)
Record ContainerState := MkState {
  st_Running : bool;
  st_Waiting : option string;
  st_Terminated : option Terminated;
}.

Record Container := MkContainer {
  c_Name : string;
  c_Image : string;
  c_Requests : gmap string Quantity;
  c_Limits : gmap string Quantity;
}.
Record ContainerStatus := MkStatus {
  cs_Name : string;
  cs_RestartCount : Z;
  cs_State : ContainerState;
  cs_LastTerminationState : ContainerState;
}.
Record Pod := MkPod {
  pod_Namespace : string;
  pod_Name : string;
  pod_UID : string;
  pod_Labels : gmap string string;
  pod_Phase : string;
  pod_StartTime : option Z;
  pod_Containers : list Container;
  pod_ContainerStatuses : list ContainerStatus;
}.

(** ** Environment *)

Abbreviation env := (gmap string string).

Definition NodeNameEnvVar : string := "POD_NODE_NAME".
Definition NamespaceNameEnvVar : string := "POD_NAMESPACE_NAME".
Definition InstallationMethodEnvVar : string := "INSTALLATION_METHOD".
Definition KubernetesVersionEnvVar : string := "KUBERNETES_VERSION".
Definition KubernetesProviderEnvVar : string := "KUBERNETES_PROVIDER".

Definition GetNodeName (e : env) : string := get_str e NodeNameEnvVar.
Definition GetNamespaceName (e : env) : string := get_str e NamespaceNameEnvVar.
Definition GetInstallationMethod (e : env) : string :=
  let m := get_str e InstallationMethodEnvVar in
  if String.eqb m "" then "unknown" else m.
Definition GetKubernetesProvider (e : env) : string := get_str e KubernetesProviderEnvVar.
Definition SetKubernetesVersion (version : string) (e : env) : env :=
  <[KubernetesVersionEnvVar := version]> e.
Definition GetKubernetesVersion (e : env) : string := get_str e KubernetesVersionEnvVar.
Definition SetKubernetesProvider (providerID : string) (e : env) : env :=
  let provider := hd "" (split_on ":" providerID) in
  <[KubernetesProviderEnvVar := if String.eqb provider "" then "unknown" else provider]> e.

Definition AddK8sTags (e : env) (tags : gmap string string) : gmap string string :=
  let tags := if String.eqb (get_str tags "k8s_version") "" && negb (String.eqb (GetKubernetesVersion e) "")
              then <["k8s_version" := GetKubernetesVersion e]> tags else tags in
  if String.eqb (get_str tags "k8s_provider") "" && negb (String.eqb (GetKubernetesProvider e) "")
  then <["k8s_provider" := GetKubernetesProvider e]> tags else tags.

(** ** Field selectors *)

(** The selectors [GetFieldSelector] builds. *)
Inductive Selector := Everything | OneTerm (field value : string).

Definition GetFieldSelector (ownNodeOnly : bool) (e : env) (resourceType : string) : Selector :=
  let nodeName := GetNodeName e in
  if ownNodeOnly && negb (String.eqb nodeName "") then
    if String.eqb resourceType "pods" then OneTerm "spec.nodeName" nodeName
    else if String.eqb resourceType "nodes" then OneTerm "metadata.name" nodeName
    else Everything
  else Everything.

(** ** Nodes *)

Section nodes.
Context {IP : Type} (ParseIP : string -> option IP).

(** One address of the loop: the hostname and the address so far. *)
Definition address_step (st : string * string) (addr : NodeAddress) : string * string :=
  let '(hostname, ip) := st in
  let hostname := if String.eqb (na_Type addr) "Hostname" && negb (String.eqb (na_Address addr) "")
                  then na_Address addr else hostname in
  let ip := if String.eqb (na_Type addr) "InternalIP" && negb (String.eqb (na_Address addr) "")
            then match ParseIP (na_Address addr) with Some _ => na_Address addr | None => ip end
            else ip in
  let ip := if String.eqb (na_Type addr) "ExternalIP" && negb (String.eqb (na_Address addr) "")
               && String.eqb ip ""
            then na_Address addr else ip in
  (hostname, ip).

Definition GetNodeHostnameAndIP (node : Node) : result (string * IP) :=
  if existsb (fun c => String.eqb (nc_Type c) "Ready" && negb (String.eqb (nc_Status c) "True"))
       (node_Conditions node)
  then Err ("node " +:+ node_Name node +:+ " is not ready")%string
  else
    let '(hostname, ip) := foldl address_step (node_Name node, "") (node_Addresses node) in
    match ParseIP ip with
    | Some parsedIP => Ok (hostname, parsedIP)
    | None => Err ("node " +:+ node_Name node +:+ " has no valid hostname and/or IP address: "
                   +:+ hostname +:+ " " +:+ ip)%string
    end.
End nodes.

Definition GetNodeRole (node : Node) : string :=
  match node_Labels node !! "node-role.kubernetes.io/control-plane" with
  | Some _ => "control-plane"
  | None =>
      match node_Labels node !! "node-role.kubernetes.io/master" with
      | Some _ => "control-plane"
      | None => "worker"
      end
  end.

(** ** Container states and pod phases *)

Record ContainerStateInfo := MkStateInfo {
  csi_Value : Z;
  csi_State : string;
  csi_Reason : string;
  csi_ExitCode : Z;
}.

Definition IsKnownState (csi : ContainerStateInfo) : bool := (0 <? csi_Value csi)%Z.

(** Decimal digits, [fmt.Sprint] of an integer. *)
Fixpoint pos_digits (fuel : nat) (n : Z) (acc : string) : string :=
  match fuel with
  | O => acc
  | S fuel' =>
      let acc := String (ascii_of_N (Z.to_N (48 + n mod 10))) acc in
      if (n <? 10)%Z then acc else pos_digits fuel' (n / 10) acc
  end.
Definition sprint_int (z : Z) : string :=
  if (z <? 0)%Z then String "-" (pos_digits 20 (- z) "") else pos_digits 20 z "".

Definition AddMetricTags (csi : ContainerStateInfo) (tags : gmap string string) : gmap string string :=
  if IsKnownState csi then
    let tags := <["status" := csi_State csi]> tags in
    if negb (String.eqb (csi_Reason csi) "") then
      <["exit_code" := sprint_int (csi_ExitCode csi)]> (<["reason" := csi_Reason csi]> tags)
    else tags
  else tags.

Definition NewContainerStateInfo (state : ContainerState) : ContainerStateInfo :=
  if st_Running state then MkStateInfo 1 "running" "" 0
  else match st_Waiting state with
       | Some reason => MkStateInfo 2 "waiting" reason 0
       | None =>
           match st_Terminated state with
           | Some t => MkStateInfo 3 "terminated" (t_Reason t) (t_ExitCode t)
           | None => MkStateInfo 0 "unknown" "" 0
           end
       end.

Definition ConvertPodPhase (phase : string) : Z :=
  if String.eqb phase "Pending" then 1
  else if String.eqb phase "Running" then 2
  else if String.eqb phase "Succeeded" then 3
  else if String.eqb phase "Failed" then 4
  else 5.

(** ** Label copier *)

Record LabelCopier := MkCopier {
  labelSeparator : string;
  storedLabels : gmap string string;
  ignoredLabels : gmap string string;
}.

Definition makeStoredLabels (labels : list string) : gmap string string :=
  foldl (fun m s =>
           match split_first "=" s with
           | (a, None) => <[a := a]> m
           | (a, Some b) => <[b := a]> m
           end) ∅ labels.
Definition makeIgnoredLabels (labels : list string) : gmap string string :=
  foldl (fun m s => <[s := ""]> m) ∅ labels.
Definition NewLabelCopier (separator : string) (stored ignored : list string) : LabelCopier :=
  MkCopier separator (makeStoredLabels stored) (makeIgnoredLabels ignored).

Definition copy_step (copier : LabelCopier) (st : gmap string string * list string)
    (kv : string * string) : gmap string string * list string :=
  let '(out, labels) := st in
  let '(key, value) := kv in
  (match storedLabels copier !! key with Some mappedKey => <[mappedKey := value]> out | None => out end,
   match ignoredLabels copier !! key with
   | Some _ => labels
   | None => labels ++ [(key +:+ ":" +:+ value)%string]
   end).

(** [Copy]; [order] is the visiting order of [in]. *)
Definition Copy (copier : LabelCopier) (order : list (string * string)) (out : gmap string string)
    : gmap string string :=
  let '(out, labels) := foldl (copy_step copier) (out, []) order in
  <[Key LabelLabels := join (labelSeparator copier) (sort_strings labels)]> out.

(** ** String interner

    The strings are heap cells: an interner maps a string to the address of
    its canonical copy, and [Intern] either reuses the address or publishes
    the address [fresh] of its own copy. *)
Definition StringInterner := gmap string positive.
Definition NewStringInterner : StringInterner := ∅.
Definition Intern (interner : StringInterner) (s : string) (fresh : positive)
    : StringInterner * positive :=
  match interner !! s with
  | Some interned => (interner, interned)
  | None => (<[s := fresh]> interner, fresh)
  end.

(** ** Lemmas *)

Section node_proofs.
Context {IP : Type} (ParseIP : string -> option IP).

Definition is_hostname (a : NodeAddress) : bool :=
  String.eqb (na_Type a) "Hostname" && negb (String.eqb (na_Address a) "").
Definition is_internal (a : NodeAddress) : bool :=
  String.eqb (na_Type a) "InternalIP" && negb (String.eqb (na_Address a) "")
  && match ParseIP (na_Address a) with Some _ => true | None => false end.
Definition is_external (a : NodeAddress) : bool :=
  String.eqb (na_Type a) "ExternalIP" && negb (String.eqb (na_Address a) "").

Definition chosen_hostname (name : string) (l : list NodeAddress) : string :=
  match last (List.filter is_hostname l) with Some a => na_Address a | None => name end.
Definition chosen_ip (l : list NodeAddress) : string :=
  match last (List.filter is_internal l) with
  | Some a => na_Address a
  | None => match head (List.filter is_external l) with Some a => na_Address a | None => "" end
  end.

Lemma chosen_ip_nonempty l :
  String.eqb (chosen_ip l) "" = match last (List.filter is_internal l), head (List.filter is_external l) with
                                | None, None => true | _, _ => false end.
Proof.
  unfold chosen_ip. destruct (last (List.filter is_internal l)) as [a|] eqn:E.
  - apply last_Some_elem_of, list_elem_of_In, filter_In in E as [_ E].
    unfold is_internal in E. apply andb_prop in E as [[_ E]%andb_prop _]. by apply negb_true_iff in E.
  - destruct (head (List.filter is_external l)) as [a|] eqn:E'; [|done].
    apply head_Some_elem_of, list_elem_of_In, filter_In in E' as [_ E'].
    unfold is_external in E'. apply andb_prop in E' as [_ E']. by apply negb_true_iff in E'.
Qed.

Lemma address_loop name l :
  foldl (address_step ParseIP) (name, "") l = (chosen_hostname name l, chosen_ip l).
Proof.
  induction l as [|a l IH] using rev_ind; [done|].
  rewrite foldl_app, IH. cbn [foldl]. unfold address_step. f_equal.
  - fold (is_hostname a). unfold chosen_hostname. rewrite List.filter_app. cbn.
    destruct (is_hostname a); [by rewrite last_snoc|by rewrite app_nil_r].
  - fold (is_external a). pose proof (chosen_ip_nonempty l) as Hne.
    assert (chosen_ip (l ++ [a]) =
      if is_internal a then na_Address a
      else if is_external a && String.eqb (chosen_ip l) "" then na_Address a else chosen_ip l) as ->.
    { rewrite Hne. unfold chosen_ip. rewrite !List.filter_app. cbn.
      destruct (is_internal a); [by rewrite last_snoc|]. rewrite app_nil_r.
      destruct (last (List.filter is_internal l)); [by rewrite andb_false_r|].
      destruct (is_external a); cbn; [|by rewrite app_nil_r].
      by destruct (List.filter is_external l). }
    unfold is_internal, is_external.
    destruct (String.eqb_spec (na_Type a) "InternalIP") as [->|Hi]; cbn.
    + destruct (String.eqb (na_Address a) ""); cbn; [done|]. by destruct (ParseIP (na_Address a)).
    + done.
Qed.
End node_proofs.

(** The labels [Copy] joins. *)
Definition copied_labels (copier : LabelCopier) (order : list (string * string)) : list string :=
  omap (fun '(k, v) => match ignoredLabels copier !! k with
                       | Some _ => None | None => Some (k +:+ ":" +:+ v)%string end) order.

Lemma copy_loop copier order out labels :
  foldl (copy_step copier) (out, labels) order =
  (foldl (fun out '(k, v) => match storedLabels copier !! k with
                             | Some mk => <[mk := v]> out | None => out end) out order,
   labels ++ copied_labels copier order).
Proof.
  revert out labels; induction order as [|[k v] order IH]; intros out labels; cbn.
  - by rewrite app_nil_r.
  - rewrite IH. f_equal. destruct (ignoredLabels copier !! k); [done|]. by rewrite <- app_assoc.
Qed.

(** ** Properties *)

(** The host name and address of a node.  A node with a Ready condition
    that is not True is an error.  Otherwise the host name is the last
    non-empty Hostname address, or the node's name; the address is the last
    internal address that parses, or failing that the first non-empty external
    one, and the call fails exactly when that does not parse. *)
Theorem GetNodeHostnameAndIP_spec {IP : Type} (ParseIP : string -> option IP) (node : Node) :
  let notReady c := String.eqb (nc_Type c) "Ready" && negb (String.eqb (nc_Status c) "True") in
  let hostname := chosen_hostname (node_Name node) (node_Addresses node) in
  (existsb notReady (node_Conditions node) = true -> is_ok (GetNodeHostnameAndIP ParseIP node) = false) /\
  (existsb notReady (node_Conditions node) = false -> forall r,
     GetNodeHostnameAndIP ParseIP node = Ok r <->
     exists ip, ParseIP (chosen_ip ParseIP (node_Addresses node)) = Some ip /\ r = (hostname, ip)).
Proof.
  intros notReady hostname. unfold GetNodeHostnameAndIP. fold notReady. split.
  - by intros ->.
  - intros ->  r. rewrite address_loop. destruct (ParseIP (chosen_ip _ _)) as [ip|].
    + split; [intros [= <-]; by eexists|]. by intros (ip' & [= <-] & ->).
    + split; [done|]. by intros (? & ? & _).
Qed.

(** Copying labels does not depend on the order in which the map of
    labels is visited, as long as no two source labels are stored under the
    same name: the "labels" entry is the sorted list of all [key:value] pairs
    that are not ignored. *)
Theorem Copy_order_irrelevant (copier : LabelCopier) (labels out : gmap string string)
    (order1 order2 : list (string * string)) :
  iterates order1 labels -> iterates order2 labels ->
  (forall k1 k2 d, storedLabels copier !! k1 = Some d -> storedLabels copier !! k2 = Some d -> k1 = k2) ->
  Copy copier order1 out = Copy copier order2 out /\
  Copy copier order1 out !! Key LabelLabels =
    Some (join (labelSeparator copier) (sort_strings (copied_labels copier order1))).
Proof.
  intros H1 H2 Hinj. unfold Copy. rewrite !copy_loop. cbn [app]. split; [|by rewrite lookup_insert_eq].
  assert (Hp : order1 ≡ₚ order2) by (unfold iterates in *; by rewrite H1, H2).
  f_equal.
  - f_equal. apply sort_strings_proper. unfold copied_labels. by rewrite Hp.
  - apply foldl_comm_perm; [|done]. intros o [k1 v1] [k2 v2] Hk1 Hk2.
    destruct (storedLabels copier !! k1) as [d1|] eqn:E1, (storedLabels copier !! k2) as [d2|] eqn:E2; try done.
    destruct (decide (d1 = d2)) as [->|Hne]; [|by apply insert_insert_ne].
    assert (k1 = k2) as -> by (by eapply Hinj).
    apply (iterates_elem _ _ _ _ H1) in Hk1, Hk2. assert (v1 = v2) as -> by congruence. done.
Qed.

Lemma Copy_order_irrelevant_witness :
  let labels := <["app" := "x"]> {["tier" := "web"]} in
  Copy (NewLabelCopier "," [] []) (map_to_list labels) ∅ !! "labels" = Some "app:x,tier:web".
Proof.
  intros labels.
  etransitivity; [apply (Copy_order_irrelevant (NewLabelCopier "," [] []) labels ∅
    (map_to_list labels) (map_to_list labels));
    [apply iterates_canonical|apply iterates_canonical|]|].
  - intros k1 k2 d H. cbn in H. by rewrite lookup_empty in H.
  - by vm_compute.
Defined.
