(* ===== verification/GoFmt.v ===== *)
(** Formatting of floats as fmt's %v does it (strconv's shortest %g), which
    names the buckets and quantiles of Prometheus metrics.

    A finite float [m * 2^e] is written with the fewest decimal digits that
    lie in its rounding interval; of the decimals of that length the nearest
    one is taken.  All of it is exact integer arithmetic: the value and the
    two ends of the interval are scaled to a common unit. *)

From S2P Require Import Prelude GoFloat Util.

(** The value, the lower and the upper end of the rounding interval, in units
    of [2^(e-2)]. *)
Definition interval (m e : Z) : Z * Z * Z :=
  let v := (4 * m)%Z in
  let lo := if ((m =? 4503599627370496) && (-1074 <? e))%Z then (v - 1)%Z else (v - 2)%Z in
  (v, lo, v + 2)%Z.

(** [num / den] of a number of units of [2^(e-2)], with [10^(-k)] factored out:
    the pair of integers [a, b] such that it equals [a / b * 10^k]. *)
Definition scale (units e k : Z) : Z * Z :=
  let num := if (0 <=? e - 2)%Z then Z.shiftl units (e - 2) else units in
  let den := if (0 <=? e - 2)%Z then 1%Z else Z.shiftl 1 (2 - e) in
  if (0 <=? k)%Z then (num, den * 10 ^ k)%Z else (num * 10 ^ (- k), den)%Z.

(** The decimal [d * 10^k] is in the interval; its ends belong to it when the
    mantissa is even. *)
Definition in_interval (m e d k : Z) : bool :=
  let '(_, lo, hi) := interval m e in
  let '(ln, ld) := scale lo e k in
  let '(hn, hd) := scale hi e k in
  if Z.even m then ((ln <=? d * ld) && (d * hd <=? hn))%Z else ((ln <? d * ld) && (d * hd <? hn))%Z.

(** The exponent [k] at which the value has [n] digits: [10^(n-1) <= v/10^k < 10^n];
    found by counting up from an estimate below it. *)
Fixpoint find_exp (fuel : nat) (v e n k : Z) : Z :=
  match fuel with
  | O => k
  | S fuel => let '(a, b) := scale v e k in
              if (a <? 10 ^ n * b)%Z then k else find_exp fuel v e n (k + 1)
  end.

(** The shortest digits [d * 10^k], trying [n] digits and then more. *)
Fixpoint shortest (fuel : nat) (m e n : Z) : Z * Z :=
  let '(v, _, _) := interval m e in
  let k := find_exp 5 v e n ((Z.log2 v + e - 2) * 30103 / 100000 - n - 1) in
  let '(a, b) := scale v e k in
  let d := (a / b)%Z in
  match fuel with
  | O => (d, k)
  | S fuel =>
      let down := in_interval m e d k in
      let up := in_interval m e (d + 1) k in
      if down && up then (if (2 * (a - d * b) <=? b)%Z then d else d + 1, k)%Z
      else if down then (d, k)
      else if up then (d + 1, k)%Z
      else shortest fuel m e (n + 1)
  end.

Fixpoint zeros (n : nat) : string := match n with O => "" | S n => String "0" (zeros n) end.

(** [digs] and the position [dp] of the decimal point, trailing zeros cut. *)
Fixpoint cut_zeros (fuel : nat) (d k : Z) : Z * Z :=
  match fuel with
  | O => (d, k)
  | S fuel => if ((d mod 10 =? 0) && negb (d =? 0))%Z then cut_zeros fuel (d / 10) (k + 1) else (d, k)
  end.

Definition exponent (x : Z) : string :=
  let a := sprint_int (Z.abs x) in
  ((if (x <? 0)%Z then "e-" else "e+") +:+ (if (Z.abs x <? 10)%Z then "0" +:+ a else a))%string.

(** Digits with the decimal point at position [dp]. *)
Definition fixed (digs : string) (dp : Z) : string :=
  let nd := Z.of_nat (String.length digs) in
  if (dp <=? 0)%Z then ("0." +:+ zeros (Z.to_nat (- dp)) +:+ digs)%string
  else if (nd <=? dp)%Z then (digs +:+ zeros (Z.to_nat (dp - nd)))%string
  else (String.substring 0 (Z.to_nat dp) digs +:+ "." +:+ str_drop (Z.to_nat dp) digs)%string.

Definition fmt_g (d k : Z) : string :=
  let '(d, k) := cut_zeros 20 d k in
  let digs := sprint_int d in
  let nd := Z.of_nat (String.length digs) in
  let dp := (nd + k)%Z in
  let x := (dp - 1)%Z in
  if ((x <? -4) || (6 <=? x))%Z then
    ((if (nd =? 1)%Z then digs else String.substring 0 1 digs +:+ "." +:+ str_drop 1 digs) +:+ exponent x)%string
  else fixed digs dp.

Definition sprint_float (x : f64) : string :=
  match x with
  | SpecFloat.S754_nan => "NaN"
  | SpecFloat.S754_infinity s => if s then "-Inf" else "+Inf"
  | SpecFloat.S754_zero s => if s then "-0" else "0"
  | SpecFloat.S754_finite s m e =>
      let '(d, k) := shortest 17 (Z.pos m) e 1 in
      ((if s then "-" else "") +:+ fmt_g d k)%string
  end.

(** [strconv.FormatFloat(x, 'f', -1, 64)]: the same digits, never an exponent. *)
Definition fmt_f (d k : Z) : string :=
  let '(d, k) := cut_zeros 20 d k in
  let digs := sprint_int d in fixed digs (Z.of_nat (String.length digs) + k).

Definition FormatFloat (x : f64) : string :=
  match x with
  | SpecFloat.S754_nan => "NaN"
  | SpecFloat.S754_infinity s => if s then "-Inf" else "+Inf"
  | SpecFloat.S754_zero s => if s then "-0" else "0"
  | SpecFloat.S754_finite s m e =>
      let '(d, k) := shortest 17 (Z.pos m) e 1 in ((if s then "-" else "") +:+ fmt_f d k)%string
  end.

(** ** Examples *)

Example sprint_float_buckets :
  sprint_float <$> [f64_of_Z 1; f64_of_Z 10; f64_of_Z 100000; f64_of_Z 1000000; f64_of_Z 1234567;
                    f64_div (f64_of_Z 1) (f64_of_Z 10); f64_div (f64_of_Z 5) (f64_of_Z 1000);
                    f64_div (f64_of_Z 1) (f64_of_Z 3); f64_div (f64_of_Z 1) (f64_of_Z 100000);
                    f64_inf; f64_of_Z (-25)]
  = ["1"; "10"; "100000"; "1e+06"; "1.234567e+06"; "0.1"; "0.005"; "0.3333333333333333"; "1e-05"; "+Inf"; "-25"].
Proof. by vm_compute. Qed.

Example sprint_float_extremes :
  sprint_float f64_max_value = "1.7976931348623157e+308" /\
  sprint_float (SpecFloat.S754_finite false 1 (-1074)) = "5e-324" /\
  sprint_float (f64_of_Z (2 ^ 80)) = "1.2089258196146292e+24".
Proof. split_and!; by vm_compute. Qed.

Example FormatFloat_examples :
  FormatFloat <$> [f64_of_Z 1000000; f64_of_Z 1234567; f64_div (f64_of_Z 1) (f64_of_Z 10); f64_of_Z (2 ^ 70);
                   f64_div (f64_of_Z (-1)) (f64_of_Z 100000); f64_of_Z 0; f64_div (f64_of_Z (-5)) (f64_of_Z 2)]
  = ["1000000"; "1234567"; "0.1"; "1180591620717411300000"; "-0.00001"; "0"; "-2.5"].
Proof. by vm_compute. Qed.
