(* ===== verification/Converter.v ===== *)
(** The last processor: plugins/sources/summary/wavefront_converter.go and
    converter_utils.go, which turn metric sets into points.

    All the values of a set share one tag map, and a labelled value's point
    uses the label map of the set itself (two labelled values may share it),
    so the converter works on the heap of Wf.v: the sets here have references
    as labels ([MSet (option positive)]). *)

From S2P Require Import Prelude GoFloat Filters Metrics Distribution Wf Util.

Abbreviation HSet := (MSet (option positive)).

Definition sysSubContainerName : string := "system.slice/".

Section converter.
Context {F : Type} `{!MetricFilter F}.

Record pointConverter := MkConverter {
  cv_cluster : string;
  cv_prefix : string;
  cv_filters : option F;
}.

Definition cleanMetricName (c : pointConverter) (metricType metricName : string) : string :=
  (cv_prefix c +:+ metricType +:+ "." +:+ replace_char "/" "." metricName)%string.

(** [addLabelTags]: the labels of a set as tags; the "labels" entry is split. *)
Definition label_tag (tags : tagmap) (label : string) : tagmap :=
  match split_first ":" label with
  | (k, Some v) => <[("label." +:+ k)%string := v]> tags
  | (_, None) => tags
  end.
Definition addLabelTags (labels : gmap string string) (tags : tagmap) : tagmap :=
  foldl (fun tags labelName =>
           let labelValue := get_str labels labelName in
           if String.eqb labelName "labels" then foldl label_tag tags (split_on "," labelValue)
           else <[labelName := labelValue]> tags)
    tags (sorted_keys labels).

Definition point_value (v : Value) : option f64 :=
  match ValueType v with
  | ValueInt64 => Some (f64_of_Z (IntValue v))
  | ValueFloat => Some (FloatValue v)
  | ValueOther _ => None
  end.

Record conv_state := MkConv {
  cs_heap : heap;
  cs_points : list wfmetric;
  cs_filtered : Z;
  cs_collected : Z;
}.

(** [FilterAppend] and the two counters. *)
Definition append_point (c : pointConverter) (st : conv_state) (p : Point) : conv_state :=
  let '(h, points, n) := FilterAppend (cv_filters c) (cs_heap st) (cs_points st) (Some (MPoint p)) in
  MkConv h points (cs_filtered st + n) (cs_collected st + 1).

(** The source of the point of a value. *)
Definition value_source (c : pointConverter) (nodeName metricType hostname : string) (tags : tagmap) : string :=
  if String.eqb nodeName "" then
    if String.eqb metricType "cluster" then cv_cluster c
    else if String.eqb metricType "ns" then (get_str tags "namespace_name" +:+ "-ns")%string
    else hostname
  else nodeName.

(** One value of a set; [tags] is the location of the tag map of the set. *)
Definition convert_value (c : pointConverter) (nodeName : string) (ts : Z) (metricType hostname : string)
    (tags : positive) (st : conv_state) (nv : string * Value) : conv_state :=
  let '(metricName, metricValue) := nv in
  match point_value metricValue with
  | None => st
  | Some value =>
      let source := value_source c nodeName metricType hostname (deref (cs_heap st) (Some tags)) in
      append_point c st (NewPoint (cleanMetricName c metricType metricName) value (unix ts) source (Some tags))
  end.

(** One labelled value: its label map receives the tags of the set. *)
Definition convert_labeled (c : pointConverter) (nodeName : string) (ts : Z) (metricType hostname : string)
    (tags : positive) (st : conv_state) (lv : LabeledValue (option positive)) : conv_state :=
  match point_value (lv_Value lv) with
  | None => st
  | Some value =>
      let source := if String.eqb nodeName "" then hostname else nodeName in
      let h := cs_heap st in
      let labels := match lv_Labels lv with Some l => l | None => fresh (dom h) end in
      let h := <[labels := copy_into (deref h (lv_Labels lv)) (deref h (Some tags))]> h in
      append_point c (MkConv h (cs_points st) (cs_filtered st) (cs_collected st))
        (NewPoint (cleanMetricName c metricType (lv_Name lv)) value (unix ts) source (Some labels))
  end.

(** The values of a set in the order of [sortedMetricValueKeys]. *)
Definition sorted_values (m : gmap string Value) : list (string * Value) :=
  omap (fun k => (fun v => (k, v)) <$> m !! k) (sorted_keys m).

Definition convert_set (c : pointConverter) (nodeName : string) (ts : Z) (st : conv_state) (ms : HSet)
    : conv_state :=
  let tagmap0 := addLabelTags (Labels ms) ∅ in
  let hostname := get_str tagmap0 "hostname" in
  let metricType := get_str tagmap0 "type" in
  if contains sysSubContainerName (get_str tagmap0 "container_name") then st
  else
    let tags := fresh (dom (cs_heap st)) in
    let st := MkConv (<[tags := tagmap0]> (cs_heap st)) (cs_points st) (cs_filtered st) (cs_collected st) in
    let st := foldl (convert_value c nodeName ts metricType hostname tags) st (sorted_values (Values ms)) in
    foldl (convert_labeled c nodeName ts metricType hostname tags) st (LabeledValues ms).

Definition pointConverter_Process (c : pointConverter) (e : env) (ts : Z) (h : heap)
    (sets : gmap string HSet) (points : list wfmetric) : conv_state :=
  foldl (fun st key => match sets !! key with
                       | Some ms => convert_set c (GetNodeName e) ts st ms
                       | None => st end)
    (MkConv h points 0 0) (sorted_keys sets).
End converter.
Arguments pointConverter F : clear implicits.

(** ** What a set should become *)

Section no_filter.
Context {F : Type} `{!MetricFilter F} (c : pointConverter F) (Hnone : cv_filters c = None).
Context (nodeName : string) (ts : Z) (metricType hostname : string).

Definition expected_values (T : tagmap) (vs : list (string * Value)) : list described :=
  omap (fun '(n, v) => (fun x => MkDescribed (cleanMetricName c metricType n) (PValue x (unix ts))
          (value_source c nodeName metricType hostname T) T) <$> point_value v) vs.
Definition expected_labeled (h0 : heap) (T : tagmap) (lvs : list (LabeledValue (option positive)))
    : list described :=
  omap (fun lv => (fun x => MkDescribed (cleanMetricName c metricType (lv_Name lv)) (PValue x (unix ts))
          (if String.eqb nodeName "" then hostname else nodeName)
          (copy_into (deref h0 (lv_Labels lv)) T)) <$> point_value (lv_Value lv)) lvs.

Lemma append_point_none st p :
  append_point c st p = MkConv (cs_heap st) (cs_points st ++ [MPoint p]) (cs_filtered st) (cs_collected st + 1).
Proof. unfold append_point, FilterAppend, Filter. rewrite Hnone. by rewrite Z.add_0_r. Qed.

Lemma describe_new h n v t src l :
  describe h (MPoint (NewPoint n v t src (Some l))) = MkDescribed n (PValue v t) src (default ∅ (h !! l)).
Proof.
  unfold describe. cbn. f_equal. apply map_eq. intros k. rewrite copy_into_lookup.
  destruct (default ∅ (h !! l) !! k); [done|]. apply lookup_empty.
Qed.

Lemma convert_values_spec tags T vs st :
  cs_heap st !! tags = Some T ->
  let st' := foldl (convert_value c nodeName ts metricType hostname tags) st vs in
  cs_heap st' = cs_heap st /\ exists ps, cs_points st' = cs_points st ++ ps /\
    map (describe (cs_heap st)) ps = expected_values T vs /\
    Forall (fun p => tags_ref p = Some tags) ps.
Proof.
  revert st; induction vs as [|[n v] vs IH]; intros st HT; cbn [foldl].
  { split; [done|]. exists []. by rewrite app_nil_r. }
  unfold convert_value at 2 4. unfold expected_values. cbn [omap list_omap].
  destruct (point_value v) as [x|]; [|by apply IH].
  rewrite append_point_none. cbn.
  match goal with |- context [foldl _ ?s vs] => destruct (IH s) as (Hh & ps & Hps & Hd & Hf) end; [done|].
  rewrite Hh, Hps. split; [done|]. cbn. eexists. rewrite <- app_assoc. split; [reflexivity|].
  cbn [map app]. rewrite describe_new, HT. cbn. split; [|by constructor].
  cbn [cs_heap] in Hd. by rewrite Hd.
Qed.

(** The heap while the labelled values are converted: label maps are either
    untouched or have received the tags. *)
Definition overlaid (h0 : heap) (tags : positive) (T : tagmap) (h : heap) : Prop :=
  h !! tags = Some T /\ dom h0 ⊆ dom h /\
  forall l t, h0 !! l = Some t -> l <> tags -> h !! l = Some t \/ h !! l = Some (copy_into t T).

Lemma copy_into_idemp (a b : tagmap) : copy_into (copy_into a b) b = copy_into a b.
Proof. apply map_eq. intros k. rewrite !copy_into_lookup. by destruct (b !! k). Qed.

(** The map a labelled value's point refers to. *)
Definition label_cell (h : heap) (lv : LabeledValue (option positive)) : positive :=
  match lv_Labels lv with Some l => l | None => fresh (dom h) end.

(** A cell that no later labelled value changes: it is a new one or has
    received the tags already. *)
Definition settled (h0 h : heap) (tags : positive) (T : tagmap) (l : positive) (x : tagmap) : Prop :=
  h !! l = Some x /\ forall t, h0 !! l = Some t -> l <> tags /\ x = copy_into t T.

(** Writing the labels of one value. *)
Lemma label_cell_spec h0 tags T h lv :
  overlaid h0 tags T h ->
  (forall l, lv_Labels lv = Some l -> l <> tags /\ is_Some (h0 !! l)) ->
  let l := label_cell h lv in
  let new := copy_into (deref h0 (lv_Labels lv)) T in
  copy_into (deref h (lv_Labels lv)) (deref h (Some tags)) = new /\
  overlaid h0 tags T (<[l := new]> h) /\ settled h0 (<[l := new]> h) tags T l new /\
  forall l' x, settled h0 h tags T l' x -> settled h0 (<[l := new]> h) tags T l' x.
Proof.
  intros (Htags & Hdom & Hov) Hl l new.
  assert (Hnew : copy_into (deref h (lv_Labels lv)) (deref h (Some tags)) = new).
  { unfold new. cbn [deref]. rewrite Htags. cbn [default].
    destruct (lv_Labels lv) as [l0|]; [|done]. destruct (Hl l0 eq_refl) as [Hne [t Ht]].
    cbn. rewrite Ht. cbn. destruct (Hov l0 t Ht Hne) as [-> | ->]; [done|apply copy_into_idemp]. }
  assert (Hne : l <> tags).
  { unfold l, label_cell. destruct (lv_Labels lv) as [l0|]; [by apply Hl|].
    intros Heq. apply (is_fresh (dom h)). rewrite Heq. apply elem_of_dom. by eexists. }
  assert (Hold : forall t, h0 !! l = Some t -> new = copy_into t T).
  { intros t Ht. unfold new, l, label_cell in *. destruct (lv_Labels lv) as [l0|]; [cbn; by rewrite Ht|].
    exfalso. apply (is_fresh (dom h)), Hdom, elem_of_dom. by eexists. }
  split_and!; [done| | |].
  - split_and!; [by rewrite lookup_insert_ne|rewrite dom_insert; set_solver|].
    intros l' t Ht Hne'. destruct (decide (l' = l)) as [->|Hnl].
    + rewrite lookup_insert_eq. right. by rewrite (Hold t Ht).
    + rewrite lookup_insert_ne by done. by apply Hov.
  - split; [apply lookup_insert_eq|]. intros t Ht. by split; [|apply Hold].
  - intros l' x [Hx Hs]. split; [|done]. destruct (decide (l' = l)) as [->|Hnl]; [|by rewrite lookup_insert_ne].
    rewrite lookup_insert_eq. f_equal. destruct (h0 !! l) as [t|] eqn:Et.
    + rewrite (Hold t eq_refl). symmetry. by apply Hs.
    + exfalso. unfold l, label_cell in *. destruct (lv_Labels lv) as [l0|].
      * destruct (Hl l0 eq_refl) as [_ [? ?]]. congruence.
      * apply (is_fresh (dom h)), elem_of_dom. by eexists.
Qed.

Lemma convert_labeled_spec h0 tags T lvs st :
  overlaid h0 tags T (cs_heap st) ->
  (forall lv l, lv ∈ lvs -> lv_Labels lv = Some l -> l <> tags /\ is_Some (h0 !! l)) ->
  let st' := foldl (convert_labeled c nodeName ts metricType hostname tags) st lvs in
  overlaid h0 tags T (cs_heap st') /\
  (forall l x, settled h0 (cs_heap st) tags T l x -> cs_heap st' !! l = Some x) /\
  exists ps, cs_points st' = cs_points st ++ ps /\
    map (describe (cs_heap st')) ps = expected_labeled h0 T lvs.
Proof.
  revert st; induction lvs as [|lv lvs IH]; intros st Ho Hl; cbn [foldl].
  { split_and!; [done|by intros l x []|]. exists []. by rewrite app_nil_r. }
  assert (Hl' : forall lv' l, lv' ∈ lvs -> lv_Labels lv' = Some l -> l <> tags /\ is_Some (h0 !! l))
    by (intros; eapply Hl; [by right|done]).
  unfold convert_labeled at 2 4 6 8. unfold expected_labeled. cbn [omap list_omap].
  destruct (point_value (lv_Value lv)) as [x|]; [|by apply IH].
  rewrite append_point_none. cbn [cs_heap cs_points cs_filtered cs_collected].
  destruct (label_cell_spec h0 tags T (cs_heap st) lv Ho) as (-> & Ho1 & Hs1 & Hkeep);
    [intros l; apply Hl; by left|]. fold (label_cell (cs_heap st) lv).
  match goal with |- context [foldl _ ?s lvs] => destruct (IH s Ho1 Hl') as (Ho' & Hk & ps & Hps & Hd) end.
  split_and!; [done|intros l y Hy; by apply Hk, Hkeep|].
  cbn [cs_points] in Hps. eexists. rewrite Hps, <- app_assoc. split; [reflexivity|]. cbn [map app fmap option_fmap option_map].
  rewrite describe_new, (Hk _ _ Hs1). cbn. by rewrite Hd.
Qed.
End no_filter.

Lemma describe_shared h h' m l :
  tags_ref m = Some l -> h !! l = h' !! l -> describe h m = describe h' m.
Proof. intros Hl H. apply describe_same. rewrite Hl. cbn. by rewrite H. Qed.

Lemma expected_labeled_ext {F} (c : pointConverter F) nodeName ts metricType hostname h h' T lvs :
  (forall lv, lv ∈ lvs -> deref h (lv_Labels lv) = deref h' (lv_Labels lv)) ->
  expected_labeled c nodeName ts metricType hostname h T lvs
  = expected_labeled c nodeName ts metricType hostname h' T lvs.
Proof.
  unfold expected_labeled. induction lvs as [|lv lvs IH]; intros H; [done|]. cbn [omap list_omap].
  rewrite (H lv) by (by left). rewrite IH; [done|]. intros; apply H; by right.
Qed.

(** ** Properties *)

(** C18: the points of a set, without filters.  A system sub-container
    produces nothing.  Otherwise every value with an integer or float type, in
    the order of the names, and then every labelled value in order, produces
    one point: the name prefixed with the type and with dots for slashes, the
    value, the time in seconds, the source (the node when it is known, else the
    cluster name, the namespace or the host for values and the host for
    labelled values) and the tags of the set, for a labelled value laid over
    its own labels.  This holds of the tags the points have once the whole set
    is converted, although they share maps. *)
Theorem convert_set_spec {F : Type} `{!MetricFilter F} (c : pointConverter F) (nodeName : string) (ts : Z)
    (st : conv_state) (ms : HSet) :
  cv_filters c = None ->
  (forall lv l, lv ∈ LabeledValues ms -> lv_Labels lv = Some l -> is_Some (cs_heap st !! l)) ->
  let T := addLabelTags (Labels ms) ∅ in
  let hostname := get_str T "hostname" in
  let metricType := get_str T "type" in
  let st' := convert_set c nodeName ts st ms in
  if contains sysSubContainerName (get_str T "container_name") then st' = st
  else exists ps, cs_points st' = cs_points st ++ ps /\
    map (describe (cs_heap st')) ps =
      expected_values c nodeName ts metricType hostname T (sorted_values (Values ms)) ++
      expected_labeled c nodeName ts metricType hostname (cs_heap st) T (LabeledValues ms).
Proof.
  intros Hnone Hlab T hostname metricType st'. unfold st', convert_set. fold T.
  destruct (contains sysSubContainerName (get_str T "container_name")); [done|].
  fold hostname metricType. set (tags := fresh (dom (cs_heap st))).
  assert (Hfresh : forall l, is_Some (cs_heap st !! l) -> l <> tags).
  { intros l Hl ->. apply (is_fresh (dom (cs_heap st))). by apply elem_of_dom. }
  set (st0 := MkConv (<[tags := T]> (cs_heap st)) _ _ _).
  destruct (convert_values_spec c Hnone nodeName ts metricType hostname tags T
    (sorted_values (Values ms)) st0) as (Hh & ps1 & Hp1 & Hd1 & Hf1); [apply lookup_insert_eq|].
  set (st1 := foldl _ st0 _) in *.
  destruct (convert_labeled_spec c Hnone nodeName ts metricType hostname (cs_heap st0) tags T
    (LabeledValues ms) st1) as (Hov & _ & ps2 & Hp2 & Hd2).
  { rewrite Hh. split_and!; [apply lookup_insert_eq|done|]. intros l t Ht _. by left. }
  { intros lv l Hin El. pose proof (Hlab lv l Hin El) as Hs. pose proof (Hfresh l Hs). split; [done|].
    unfold st0; cbn [cs_heap]. by rewrite lookup_insert_ne. }
  exists (ps1 ++ ps2). rewrite Hp2, Hp1. split; [unfold st0; cbn; by rewrite app_assoc|].
  rewrite map_app. f_equal.
  - rewrite <- Hd1. apply map_ext_in. intros m Hm%list_elem_of_In.
    rewrite Forall_forall in Hf1. apply (describe_shared _ _ _ tags); [by apply Hf1|].
    rewrite (proj1 Hov). unfold st0; cbn. by rewrite lookup_insert_eq.
  - rewrite Hd2. apply expected_labeled_ext. intros lv Hin. destruct (lv_Labels lv) as [l|] eqn:El; [|done].
    cbn. rewrite lookup_insert_ne; [done|]. intros Heq. by apply (Hfresh l (Hlab lv l Hin El)).
Qed.

Definition no_filter : option tag_keeper := None.
Definition sample_hset : HSet :=
  MkSet 0 0 0 {["cpu/usage" := intValue 3]} (<["type" := "node"]> {["hostname" := "h1"]})
    [MkLabeledValue "fs/usage" (Some 1%positive) (intValue 4)].

Lemma convert_set_spec_witness :
  let c := MkConverter "k8s" "kubernetes." no_filter in
  let st := MkConv {[1%positive := {["resource_id" := "/"]}]} [] 0 0 in
  exists ps, cs_points (convert_set c "" 0 st sample_hset) = ps /\
    map (fun d => (dp_name d, dp_source d)) (map (describe (cs_heap (convert_set c "" 0 st sample_hset))) ps)
    = [("kubernetes.node.cpu.usage", "h1"); ("kubernetes.node.fs.usage", "h1")].
Proof.
  intros c st.
  assert (Hlab : forall lv l, lv ∈ LabeledValues sample_hset -> lv_Labels lv = Some l -> is_Some (cs_heap st !! l)).
  { intros lv l ->%list_elem_of_singleton [= <-]. vm_compute. by eexists. }
  pose proof (convert_set_spec c "" 0 st sample_hset eq_refl Hlab) as H. cbv zeta in H.
  replace (contains sysSubContainerName (get_str (addLabelTags (Labels sample_hset) ∅) "container_name"))
    with false in H by by vm_compute.
  destruct H as (ps & Hp & Hd). exists ps. split; [exact Hp|]. rewrite Hd. by vm_compute.
Defined.

(** A filter that excludes the namespace name loses the source of
    namespace metrics.  The tag map is shared by all values of a set and the
    filter removes the tag from it after the first value, so of two metrics of
    the namespace "web" the first is reported from "web-ns" and the second
    from "-ns". *)
Theorem namespace_source_lost :
  let c := MkConverter "k8s" "kubernetes." (Some (MkKeeper ["type"])) in
  let ms := MkSet 0 0 0 (<["cpu/limit" := intValue 1]> {["cpu/request" := intValue 2]})
    (<["type" := "ns"]> {["namespace_name" := "web"]}) [] : HSet in
  let st := pointConverter_Process c ∅ 0 ∅ {["namespace:web" := ms]} [] in
  map (fun d => (dp_name d, dp_source d)) (map (describe (cs_heap st)) (cs_points st))
  = [("kubernetes.ns.cpu.limit", "web-ns"); ("kubernetes.ns.cpu.request", "-ns")].
Proof. by vm_compute. Qed.
