(* ===== verification/Enrichers.v ===== *)
(** The enriching processors: pod_based_enricher.go,
    namespace_based_enricher.go and node_autoscaling_enricher.go of
    plugins/processors.

    The pod lister, the namespace store and the node lister are arguments
    (Kubernetes caches); the visiting orders of maps are arguments too.
    [metrics.ResourceRequestMetrics] is a global that the pod enricher extends
    and is threaded as [e_table]. *)

From S2P Require Import Prelude GoFloat Filters Metrics MetricTable Aggregators Util.

Definition ResourceCPU : string := "cpu".
Definition ResourceMemory : string := "memory".
Definition ResourceEphemeralStorage : string := "ephemeral-storage".

Definition addLabeledIntMetric (ms : Set_) (metric : MetricDescriptor) (labels : gmap string string)
    (value : Z) : Set_ :=
  add_labeled (MkLabeledValue (md_Name metric) labels (intValue value)) ms.

(** ** Requests and limits *)

(** One request: the table and the set after it. *)
Definition request_step (st : gmap string MetricDescriptor * Set_) (kv : string * Quantity)
    : gmap string MetricDescriptor * Set_ :=
  let '(table, metricSet) := st in
  let '(key, val) := kv in
  let '(table, metric) :=
    match table !! key with
    | Some metric => (table, metric)
    | None =>
        let metric := MkDescriptor (key +:+ "/request")%string
          (key +:+ " resource request. This metric is Kubernetes specific.")%string
          Gauge ValueInt64 Count [] in
        (<[key := metric]> table, metric)
    end in
  (table, set_value (md_Name metric)
     (intValue (if String.eqb key ResourceCPU then q_MilliValue val else q_Value val)) metricSet).

Definition zero_unless_requested (requests : gmap string Quantity) (key : string)
    (metric : MetricDescriptor) (metricSet : Set_) : Set_ :=
  match requests !! key with
  | Some _ => metricSet
  | None => set_value (md_Name metric) (intValue 0) metricSet
  end.

Definition set_limit (metric : MetricDescriptor) (v : option Z) (metricSet : Set_) : Set_ :=
  set_value (md_Name metric) (intValue (default 0%Z v)) metricSet.

(** [order] is the visiting order of the requests. *)
Definition updateContainerResourcesAndLimits (table : gmap string MetricDescriptor)
    (order : list (string * Quantity)) (metricSet : Set_) (container : Container)
    : gmap string MetricDescriptor * Set_ :=
  let requests := c_Requests container in
  let '(table, ms) := foldl request_step (table, metricSet) order in
  let ms := zero_unless_requested requests ResourceCPU MetricCpuRequest ms in
  let ms := zero_unless_requested requests ResourceMemory MetricMemoryRequest ms in
  let ms := zero_unless_requested requests ResourceEphemeralStorage MetricEphemeralStorageRequest ms in
  let limits := c_Limits container in
  let ms := set_limit MetricCpuLimit (q_MilliValue <$> limits !! ResourceCPU) ms in
  let ms := set_limit MetricMemoryLimit (q_Value <$> limits !! ResourceMemory) ms in
  let ms := set_limit MetricEphemeralStorageLimit (q_Value <$> limits !! ResourceEphemeralStorage) ms in
  (table, ms).

(** ** The pod enricher *)

Definition start_time_zero (t : option Z) : bool :=
  match t with Some t => time_is_zero t | None => true end.

Definition set_create_time (pod : Pod) (ms : Set_) : Set_ :=
  match pod_StartTime pod with
  | Some t => if time_is_zero t then ms else with_EntityCreateTime t ms
  | None => ms
  end.

Section pod_enricher.
Context (getPod : string -> string -> option Pod) (copier : LabelCopier) (collectionInterval : Z).
Context (labels_order : gmap string string -> list (string * string)).
Context (requests_order : gmap string Quantity -> list (string * Quantity)).
Context (timestamp : Z).

Definition copy_labels (labels : gmap string string) (ms : Set_) : Set_ :=
  with_Labels (Copy copier (labels_order labels)) ms.

Definition findContainerState (status : ContainerStatus) : ContainerStateInfo :=
  match st_Terminated (cs_LastTerminationState status) with
  | None => NewContainerStateInfo (cs_State status)
  | Some t =>
      if time_after (timestamp - collectionInterval) (t_FinishedAt t)
      then NewContainerStateInfo (cs_State status)
      else NewContainerStateInfo (cs_LastTerminationState status)
  end.

Definition addContainerStatus (containerMs : Set_) (status : ContainerStatus) : Set_ :=
  let info := findContainerState status in
  addLabeledIntMetric containerMs MetricContainerStatus (AddMetricTags info ∅) (csi_Value info).

Definition updateContainerStatus (metricSets : Sets) (pod : Pod) (statuses : list ContainerStatus) : Sets :=
  foldl (fun metricSets status =>
    let containerKey := PodContainerKey (pod_Namespace pod) (pod_Name pod) (cs_Name status) in
    match metricSets !! containerKey with
    | Some containerMs => <[containerKey := addContainerStatus containerMs status]> metricSets
    | None => metricSets
    end) metricSets statuses.

Record enrich_state := MkEnrich {
  e_sets : Sets;
  e_new : Sets;
  e_table : gmap string MetricDescriptor;
}.

Definition containerStub (podMs : Set_) (pod : Pod) (container : Container) : Set_ :=
  MkSet time_zero (CollectionStartTime podMs) time_zero ∅
    (<[Key LabelHostID := get_str (Labels podMs) (Key LabelHostID)]>
    (<[Key LabelHostname := get_str (Labels podMs) (Key LabelHostname)]>
    (<[Key LabelNodename := get_str (Labels podMs) (Key LabelNodename)]>
    (<[Key LabelPodId := pod_UID pod]>
    (<[Key LabelContainerBaseImage := c_Image container]>
    (<[Key LabelContainerName := c_Name container]>
    (<[Key LabelPodName := pod_Name pod]>
    (<[Key LabelNamespaceName := pod_Namespace pod]>
    {[Key LabelMetricSetType := MetricSetTypePodContainer]})))))))) [].

(** One container of the loop of [addPodInfo]. *)
Definition stub_step (podMs : Set_) (pod : Pod) (st : enrich_state) (container : Container) : enrich_state :=
  let containerKey := PodContainerKey (pod_Namespace pod) (pod_Name pod) (c_Name container) in
  match e_sets st !! containerKey with
  | Some _ => st
  | None =>
      match e_new st !! containerKey with
      | Some _ => st
      | None =>
          let containerMs := copy_labels (pod_Labels pod) (containerStub podMs pod container) in
          let '(table, containerMs) := updateContainerResourcesAndLimits (e_table st)
            (requests_order (c_Requests container)) containerMs container in
          MkEnrich (e_sets st) (<[containerKey := containerMs]> (e_new st)) table
      end
  end.

(** [addPodInfo]: the pod's set after it, and the rest of the state. *)
Definition addPodInfo (podMs : Set_) (pod : Pod) (st : enrich_state) : Set_ * enrich_state :=
  if negb (String.eqb (pod_Phase pod) "Running") then (podMs, st)
  else
    let podMs := set_label (Key LabelPodId) (pod_UID pod) podMs in
    let podMs := set_create_time pod podMs in
    let podMs := copy_labels (pod_Labels pod) podMs in
    let podMs := addLabeledIntMetric podMs MetricPodPhase {["phase" := pod_Phase pod]}
                   (ConvertPodPhase (pod_Phase pod)) in
    let st := foldl (stub_step podMs pod) st (pod_Containers pod) in
    (podMs, MkEnrich (e_sets st) (updateContainerStatus (e_new st) pod (pod_ContainerStatuses pod))
              (e_table st)).

Definition podStub (namespace podName : string) (containerMs : Set_) : Set_ :=
  set_of ∅
    (<[Key LabelHostID := get_str (Labels containerMs) (Key LabelHostID)]>
    (<[Key LabelHostname := get_str (Labels containerMs) (Key LabelHostname)]>
    (<[Key LabelNodename := get_str (Labels containerMs) (Key LabelNodename)]>
    (<[Key LabelPodName := podName]>
    (<[Key LabelNamespaceName := namespace]>
    {[Key LabelMetricSetType := MetricSetTypePod]}))))).

(** The first container of the pod's specification, or status, with the key. *)
Definition spec_container (key : string) (pod : Pod) : option Container :=
  snd <$> list_find (fun c => key = PodContainerKey (pod_Namespace pod) (pod_Name pod) (c_Name c))
    (pod_Containers pod).
Definition container_status (key : string) (pod : Pod) : option ContainerStatus :=
  snd <$> list_find (fun c => key = PodContainerKey (pod_Namespace pod) (pod_Name pod) (cs_Name c))
    (pod_ContainerStatuses pod).

Definition addContainerInfo (key : string) (containerMs : Set_) (pod : Pod) (st : enrich_state)
    : Set_ * enrich_state :=
  let '(table, containerMs) :=
    match spec_container key pod with
    | Some container =>
        let '(table, ms) := updateContainerResourcesAndLimits (e_table st)
          (requests_order (c_Requests container)) containerMs container in
        (table, match Labels ms !! Key LabelContainerBaseImage with
                | Some _ => ms
                | None => set_label (Key LabelContainerBaseImage) (c_Image container) ms
                end)
    | None => (e_table st, containerMs)
    end in
  let containerMs :=
    match container_status key pod with
    | Some status =>
        let ms := set_value (md_Name MetricRestartCount) (intValue (cs_RestartCount status)) containerMs in
        addContainerStatus (set_create_time pod ms) status
    | None => containerMs
    end in
  let containerMs := set_label (Key LabelPodId) (pod_UID pod) containerMs in
  let containerMs := copy_labels (pod_Labels pod) containerMs in
  let st := MkEnrich (e_sets st) (e_new st) table in
  let namespace := get_str (Labels containerMs) (Key LabelNamespaceName) in
  let podName := get_str (Labels containerMs) (Key LabelPodName) in
  let podKey := PodKey namespace podName in
  match e_sets st !! podKey with
  | Some _ => (containerMs, st)
  | None =>
      match e_new st !! podKey with
      | Some _ => (containerMs, st)
      | None =>
          let podMs := set_create_time pod (podStub namespace podName containerMs) in
          let '(podMs, st) := addPodInfo podMs pod
            (MkEnrich (e_sets st) (<[podKey := podMs]> (e_new st)) (e_table st)) in
          (containerMs, MkEnrich (e_sets st) (<[podKey := podMs]> (e_new st)) (e_table st))
      end
  end.

(** The pod of a pod or container set. *)
Definition pod_of_set (v : Set_) : option Pod :=
  getPod (get_str (Labels v) (Key LabelNamespaceName)) (get_str (Labels v) (Key LabelPodName)).

Definition enrich_step (st : enrich_state) (k : string) : enrich_state :=
  match e_sets st !! k with
  | None => st
  | Some v =>
      if isType MetricSetTypePod v then
        match pod_of_set v with
        | None => MkEnrich (delete k (e_sets st)) (e_new st) (e_table st)
        | Some pod =>
            let '(v', st) := addPodInfo v pod st in
            MkEnrich (<[k := v']> (e_sets st)) (e_new st) (e_table st)
        end
      else if isType MetricSetTypePodContainer v then
        match pod_of_set v with
        | None => MkEnrich (delete k (e_sets st)) (e_new st) (e_table st)
        | Some pod =>
            let '(v', st) := addContainerInfo k v pod st in
            MkEnrich (<[k := v']> (e_sets st)) (e_new st) (e_table st)
        end
      else st
  end.

Definition PodBasedEnricher_Process (visits : list string) (table : gmap string MetricDescriptor)
    (sets : Sets) : Sets * gmap string MetricDescriptor :=
  let st := foldl enrich_step (MkEnrich sets ∅ table) visits in
  (copy_into (e_sets st) (e_new st), e_table st).
End pod_enricher.

(** ** The namespace enricher *)

(** The store: the UID of a namespace object, [None] when there is none or the
    lookup fails. *)
Definition addNamespaceInfo (store : string -> option string) (metricSet : Set_) : Set_ :=
  match Labels metricSet !! Key LabelMetricSetType with
  | None => metricSet
  | Some metricSetType =>
      if negb (String.eqb metricSetType MetricSetTypePodContainer)
         && negb (String.eqb metricSetType MetricSetTypePod)
         && negb (String.eqb metricSetType MetricSetTypeNamespace)
      then metricSet
      else
        match Labels metricSet !! Key LabelNamespaceName with
        | None => metricSet
        | Some namespaceName =>
            match store namespaceName with
            | Some uid => set_label (Key LabelPodNamespaceUID) uid metricSet
            | None => metricSet
            end
        end
  end.

Definition NamespaceBasedEnricher_Process (store : string -> option string) (sets : Sets) : Sets :=
  addNamespaceInfo store <$> sets.

(** ** The node autoscaling enricher *)

Definition getInt (metricSet : Set_) (metric : MetricDescriptor) : Z :=
  match Values metricSet !! md_Name metric with Some value => IntValue value | None => 0 end.
Definition setFloat (metric : MetricDescriptor) (value : f64) (metricSet : Set_) : Set_ :=
  set_value (md_Name metric) (floatValue value) metricSet.

Definition ratio (a b : Z) : f64 := f64_div (f64_of_Z a) (f64_of_Z b).

Definition node_step (copier : LabelCopier) (labels_order : gmap string string -> list (string * string))
    (sets : Sets) (node : Node) : Sets :=
  match sets !! NodeKey (node_Name node) with
  | None => sets
  | Some ms0 =>
      let ms := with_Labels (Copy copier (labels_order (node_Labels node))) ms0 in
      let ms := set_label (Key LabelNodeRole) (GetNodeRole node) ms in
      let capacity r := default quantity_zero (node_Capacity node !! r) in
      let allocatable r := default quantity_zero (node_Allocatable node !! r) in
      let cpuRequested := getInt ms MetricCpuRequest in
      let cpuUsed := getInt ms MetricCpuUsageRate in
      let memRequested := getInt ms MetricMemoryRequest in
      let memWorkingSet := getInt ms MetricMemoryWorkingSet in
      let epheRequested := getInt ms MetricEphemeralStorageRequest in
      let epheUsed := getInt ms MetricEphemeralStorageUsage in
      let allocCpu := q_MilliValue (allocatable ResourceCPU) in
      let ms := if negb (Z.eqb allocCpu 0) then
                  setFloat MetricNodeCpuReservation (ratio cpuRequested allocCpu)
                    (setFloat MetricNodeCpuUtilization (ratio cpuUsed allocCpu) ms)
                else ms in
      let ms := setFloat MetricNodeCpuCapacity (f64_of_Z (q_MilliValue (capacity ResourceCPU))) ms in
      let ms := setFloat MetricNodeCpuAllocatable (f64_of_Z allocCpu) ms in
      let allocMem := q_Value (allocatable ResourceMemory) in
      let ms := if negb (Z.eqb allocMem 0) then
                  setFloat MetricNodeMemoryReservation (ratio memRequested allocMem)
                    (setFloat MetricNodeMemoryUtilization (ratio memWorkingSet allocMem) ms)
                else ms in
      let ms := setFloat MetricNodeMemoryCapacity (f64_of_Z (q_Value (capacity ResourceMemory))) ms in
      let ms := setFloat MetricNodeMemoryAllocatable (f64_of_Z allocMem) ms in
      let ms :=
        match node_Capacity node !! ResourceEphemeralStorage,
              node_Allocatable node !! ResourceEphemeralStorage with
        | Some capacityEphemeralStorage, Some allocatableEphemeralStorage =>
            let alloc := q_Value allocatableEphemeralStorage in
            let ms := setFloat MetricNodeEphemeralStorageCapacity
                        (f64_of_Z (q_Value capacityEphemeralStorage)) ms in
            let ms := setFloat MetricNodeEphemeralStorageAllocatable (f64_of_Z alloc) ms in
            if negb (Z.eqb alloc 0) then
              setFloat MetricNodeEphemeralStorageReservation (ratio epheRequested alloc)
                (setFloat MetricNodeEphemeralStorageUtilization (ratio epheUsed alloc) ms)
            else ms
        | _, _ => ms
        end in
      <[NodeKey (node_Name node) := ms]> sets
  end.

(** [nodes] is what the node lister lists, [None] for its error. *)
Definition NodeAutoscalingEnricher_Process (copier : LabelCopier)
    (labels_order : gmap string string -> list (string * string)) (nodes : option (list Node))
    (sets : Sets) : result Sets :=
  match nodes with
  | None => Err "node lister"
  | Some nodes => Ok (foldl (node_step copier labels_order) sets nodes)
  end.

(** ** Requests and limits: lemmas *)

(** The name under which a request is reported. *)
Definition request_name (key : string) : string :=
  if String.eqb key ResourceEphemeralStorage then md_Name MetricEphemeralStorageRequest
  else (key +:+ "/request")%string.

(** The table of request metrics names every resource it knows. *)
Definition table_inv (table : gmap string MetricDescriptor) : Prop :=
  is_Some (table !! ResourceEphemeralStorage) /\
  forall k m, table !! k = Some m -> md_Name m = request_name k.

Definition request_value (key : string) (q : Quantity) : Value :=
  intValue (if String.eqb key ResourceCPU then q_MilliValue q else q_Value q).

Lemma table_inv_initial : table_inv ResourceRequestMetrics.
Proof.
  split; [by eexists|]. intros k m H. unfold ResourceRequestMetrics in H. cbn in H.
  each_entry; by vm_compute.
Qed.

Lemma request_step_eq table ms k q :
  table_inv table ->
  exists table', table_inv table' /\
    request_step (table, ms) (k, q) = (table', set_value (request_name k) (request_value k q) ms).
Proof.
  intros [He Hn]. unfold request_step, request_value. destruct (table !! k) as [m|] eqn:E.
  - exists table. split; [done|]. by rewrite (Hn k m E).
  - eexists; split; [|].
    2:{ f_equal. f_equal. cbn. unfold request_name. destruct (String.eqb_spec k ResourceEphemeralStorage);
        [|done]. subst. rewrite E in He. by destruct He. }
    split.
    + destruct (decide (k = ResourceEphemeralStorage)) as [->|Hne];
        [by rewrite lookup_insert_eq|by rewrite lookup_insert_ne].
    + intros k' m'. destruct (decide (k = k')) as [<-|Hne].
      * rewrite lookup_insert_eq. intros [= <-]. cbn. unfold request_name.
        destruct (String.eqb_spec k ResourceEphemeralStorage); [|done].
        subst. rewrite E in He. by destruct He.
      * rewrite lookup_insert_ne by done. apply Hn.
Qed.

Lemma request_name_inj k1 k2 :
  k1 <> "ephemeral_storage" -> k2 <> "ephemeral_storage" -> request_name k1 = request_name k2 -> k1 = k2.
Proof.
  assert (Hcancel : forall a b c : string, (a +:+ c = b +:+ c)%string -> a = b).
  { intros a b c H. revert b H. induction a as [|x a IH]; intros [|y b] H; try done.
    - exfalso. apply (f_equal String.length) in H. rewrite !str_length_app in H. cbn in H. lia.
    - exfalso. apply (f_equal String.length) in H. rewrite !str_length_app in H. cbn in H. lia.
    - change (String x (a +:+ c) = String y (b +:+ c)) in H. injection H as -> H. f_equal. by apply IH. }
  unfold request_name. intros H1 H2.
  destruct (String.eqb_spec k1 ResourceEphemeralStorage) as [->|N1],
    (String.eqb_spec k2 ResourceEphemeralStorage) as [->|N2]; [done| | |by apply Hcancel].
  - intros H. change ("ephemeral_storage" +:+ "/request" = k2 +:+ "/request")%string in H.
    by apply Hcancel in H as <-.
  - intros H. change (k1 +:+ "/request" = "ephemeral_storage" +:+ "/request")%string in H.
    by apply Hcancel in H as ->.
Qed.

Lemma request_loop order table ms :
  table_inv table -> NoDup (order.*1) -> "ephemeral_storage" ∉ order.*1 ->
  exists table' ms', foldl request_step (table, ms) order = (table', ms') /\ table_inv table' /\
    (forall k q, (k, q) ∈ order -> Values ms' !! request_name k = Some (request_value k q)) /\
    (forall n, (forall k, k ∈ order.*1 -> request_name k <> n) -> Values ms' !! n = Values ms !! n) /\
    Labels ms' = Labels ms /\ LabeledValues ms' = LabeledValues ms.
Proof.
  revert table ms; induction order as [|[k q] order IH]; intros table ms Hinv Hnd Hes.
  { exists table, ms. split_and!; try done. intros k q H. by apply not_elem_of_nil in H. }
  apply NoDup_cons in Hnd as [Hk Hnd]. apply not_elem_of_cons in Hes as [Hke Hes]. cbn in Hk, Hke.
  destruct (request_step_eq table ms k q Hinv) as (t1 & Hinv1 & E1). cbn [foldl]. rewrite E1.
  destruct (IH t1 (set_value (request_name k) (request_value k q) ms) Hinv1 Hnd Hes)
    as (t2 & ms2 & E2 & Hinv2 & Hin & Hout & Hl & Hlv).
  exists t2, ms2. rewrite E2. split_and!; [done|done| | |done|done].
  - intros k' q' Hx. apply elem_of_cons in Hx as [Hx|Hx]; [injection Hx as -> ->|by apply Hin].
    rewrite Hout; [cbn; by rewrite lookup_insert_eq|]. intros k' Hk' Heq. apply Hk.
    apply request_name_inj in Heq as <-; [done| |done]. by intros ->.
  - intros n Hn. rewrite Hout; [cbn; rewrite lookup_insert_ne; [done|]|].
    + apply Hn. by left.
    + intros k' Hk'. apply Hn. by right.
Qed.

Lemma request_name_suffix k : has_suffix "/request" (request_name k) = true.
Proof.
  unfold request_name. destruct (String.eqb k ResourceEphemeralStorage); [done|]. apply has_suffix_app.
Qed.

Lemma request_name_ne k n : has_suffix "/request" n = false -> request_name k <> n.
Proof. intros H <-. by rewrite request_name_suffix in H. Qed.

Lemma zero_unless_other requests key metric ms n :
  md_Name metric <> n -> Values (zero_unless_requested requests key metric ms) !! n = Values ms !! n.
Proof.
  intros Hn. unfold zero_unless_requested. destruct (requests !! key); cbn; [done|]. by rewrite lookup_insert_ne.
Qed.

(** A value written for a requested resource survives the defaults. *)
Lemma zero_unless_requested_name requests key metric ms k v :
  md_Name metric = request_name key -> key <> "ephemeral_storage" -> k <> "ephemeral_storage" ->
  is_Some (requests !! k) -> Values ms !! request_name k = v ->
  Values (zero_unless_requested requests key metric ms) !! request_name k = v.
Proof.
  intros Hm Hkey Hk Hreq Hv. unfold zero_unless_requested.
  destruct (requests !! key) as [q|] eqn:E; [done|]. cbn. rewrite lookup_insert_ne; [done|].
  rewrite Hm. intros Heq. apply request_name_inj in Heq as <-; [|done|done].
  rewrite E in Hreq. by destruct Hreq.
Qed.

Lemma zero_unless_default requests key metric ms :
  requests !! key = None ->
  Values (zero_unless_requested requests key metric ms) !! md_Name metric = Some (intValue 0).
Proof. intros H. unfold zero_unless_requested. rewrite H. cbn. by rewrite lookup_insert_eq. Qed.

Lemma set_limit_other metric v ms n :
  md_Name metric <> n -> Values (set_limit metric v ms) !! n = Values ms !! n.
Proof. intros H. unfold set_limit. cbn. by rewrite lookup_insert_ne. Qed.

Lemma set_limit_same metric v ms :
  Values (set_limit metric v ms) !! md_Name metric = Some (intValue (default 0%Z v)).
Proof. unfold set_limit. cbn. by rewrite lookup_insert_eq. Qed.

Lemma zero_unless_labels requests key metric ms :
  Labels (zero_unless_requested requests key metric ms) = Labels ms /\
  LabeledValues (zero_unless_requested requests key metric ms) = LabeledValues ms.
Proof. unfold zero_unless_requested. by destruct (requests !! key). Qed.

(** ** Container status: lemmas *)

Lemma AddMetricTags_state info tags : AddMetricTags info tags !! "state" = tags !! "state".
Proof.
  unfold AddMetricTags. destruct (IsKnownState info); [|done].
  destruct (negb _); by rewrite ?lookup_insert_ne.
Qed.

Lemma find_labeled_snoc {L} name (l : list (LabeledValue L)) lv :
  find_labeled name l = None ->
  find_labeled name (l ++ [lv]) = if String.eqb (lv_Name lv) name then Some lv else None.
Proof.
  induction l as [|x l IH]; cbn; [done|]. destruct (String.eqb (lv_Name x) name); [done|apply IH].
Qed.

(** ** Properties *)

(** C33: requests and limits of a container.  Whatever the order in which the
    requests are visited: every requested resource is reported under its name
    (cpu in milli-units, the rest in units), an unrequested cpu, memory or
    ephemeral storage is reported as zero, the three limits are reported, zero
    when there is none, no other value changes, and the global table keeps
    naming each resource it knows.  A resource called [ephemeral_storage] is
    excluded: its metric would collide with the one of ephemeral-storage. *)
Theorem updateContainerResourcesAndLimits_spec (table : gmap string MetricDescriptor)
    (order : list (string * Quantity)) (ms : Set_) (container : Container) :
  table_inv table -> iterates order (c_Requests container) ->
  c_Requests container !! "ephemeral_storage" = None ->
  exists table' ms', updateContainerResourcesAndLimits table order ms container = (table', ms') /\
    table_inv table' /\
    (forall k q, c_Requests container !! k = Some q ->
       Values ms' !! request_name k = Some (request_value k q)) /\
    (forall k, k ∈ [ResourceCPU; ResourceMemory; ResourceEphemeralStorage] ->
       c_Requests container !! k = None -> Values ms' !! request_name k = Some (intValue 0)) /\
    Values ms' !! md_Name MetricCpuLimit =
      Some (intValue (default 0%Z (q_MilliValue <$> c_Limits container !! ResourceCPU))) /\
    Values ms' !! md_Name MetricMemoryLimit =
      Some (intValue (default 0%Z (q_Value <$> c_Limits container !! ResourceMemory))) /\
    Values ms' !! md_Name MetricEphemeralStorageLimit =
      Some (intValue (default 0%Z (q_Value <$> c_Limits container !! ResourceEphemeralStorage))) /\
    (forall n, has_suffix "/request" n = false ->
       n ∉ map md_Name [MetricCpuLimit; MetricMemoryLimit; MetricEphemeralStorageLimit] ->
       Values ms' !! n = Values ms !! n) /\
    Labels ms' = Labels ms /\ LabeledValues ms' = LabeledValues ms.
Proof.
  intros Hinv Hord Hes.
  destruct (request_loop order table ms Hinv) as (t & m & E & Hinv' & Hin & Hout & Hl & Hlv).
  { by eapply iterates_NoDup. }
  { intros ([k q] & Hk & Hx)%list_elem_of_fmap. cbn in Hk. subst k.
    apply (iterates_elem _ _ _ _ Hord) in Hx. congruence. }
  unfold updateContainerResourcesAndLimits. rewrite E.
  set (m1 := zero_unless_requested _ _ _ m). set (m2 := zero_unless_requested _ _ _ m1).
  set (m3 := zero_unless_requested _ _ _ m2).
  eexists _, _; split; [done|].
  assert (Hlim : forall n, n ∉ map md_Name [MetricCpuLimit; MetricMemoryLimit; MetricEphemeralStorageLimit] ->
    forall a b c, Values (set_limit MetricEphemeralStorageLimit a (set_limit MetricMemoryLimit b
      (set_limit MetricCpuLimit c m3))) !! n = Values m3 !! n).
  { intros n Hn a b c. cbn [map] in Hn. rewrite !not_elem_of_cons in Hn.
    rewrite !set_limit_other; naive_solver. }
  assert (Hreqlim : forall k, request_name k ∉
    map md_Name [MetricCpuLimit; MetricMemoryLimit; MetricEphemeralStorageLimit]).
  { intros k Hk. cbn [map] in Hk. rewrite !elem_of_cons in Hk.
    destruct Hk as [Hk|[Hk|[Hk|Hk]]]; [| | |by apply not_elem_of_nil in Hk];
      by apply request_name_ne in Hk; [|vm_compute]. }
  split_and!; [done| | | | | | | |].
  - intros k q Hk. rewrite Hlim by apply Hreqlim.
    assert (k <> "ephemeral_storage") by (intros ->; congruence).
    assert (is_Some (c_Requests container !! k)) by by eexists.
    repeat (apply zero_unless_requested_name; [done|done|done|done|]).
    apply Hin. by apply (iterates_elem _ _ _ _ Hord).
  - intros k Hk Hnone. rewrite Hlim by apply Hreqlim.
    rewrite !elem_of_cons in Hk. destruct Hk as [->|[->|[->|Hk]]]; [| | |by apply not_elem_of_nil in Hk].
    + unfold m3, m2. rewrite !zero_unless_other by done. by apply zero_unless_default.
    + unfold m3. rewrite !zero_unless_other by done. by apply zero_unless_default.
    + by apply zero_unless_default.
  - rewrite !set_limit_other by done. apply set_limit_same.
  - rewrite !set_limit_other by done. apply set_limit_same.
  - apply set_limit_same.
  - intros n Hn Hnl. rewrite Hlim by done. unfold m3, m2, m1.
    rewrite !zero_unless_other by (by intros <-; vm_compute in Hn).
    apply Hout. intros k _. by apply request_name_ne.
  - cbn. unfold m3, m2, m1. by rewrite !(proj1 (zero_unless_labels _ _ _ _)).
  - cbn. unfold m3, m2, m1. by rewrite !(proj2 (zero_unless_labels _ _ _ _)).
Qed.

Lemma updateContainerResourcesAndLimits_spec_witness :
  let c := MkContainer "c" "img" {["cpu" := MkQuantity 1 250]} {["memory" := MkQuantity 64 64000]} in
  exists table' ms',
    updateContainerResourcesAndLimits ResourceRequestMetrics (map_to_list (c_Requests c)) (set_of ∅ ∅) c
      = (table', ms') /\
    Values ms' !! md_Name MetricCpuRequest = Some (intValue 250) /\
    Values ms' !! md_Name MetricMemoryLimit = Some (intValue 64).
Proof.
  intros c. destruct (updateContainerResourcesAndLimits_spec ResourceRequestMetrics
    (map_to_list (c_Requests c)) (set_of ∅ ∅) c) as (t & m & E & _ & Hreq & _ & _ & Hmem & _);
    [apply table_inv_initial|apply iterates_canonical|by vm_compute|].
  exists t, m. split_and!; [exact E| |exact Hmem]. exact (Hreq "cpu" (MkQuantity 1 250) eq_refl).
Defined.

(** A terminated container is still counted.  The enricher records the
    state of a container under the tag "status" while the aggregators look for
    "state": whatever the state, and in particular for a terminated container,
    a container set whose status the enricher has added passes the test
    [podContainerTakesUpResources] that is meant to exclude terminated ones. *)
Theorem terminated_container_counted (interval timestamp : Z) (containerMs : Set_)
    (status : ContainerStatus) :
  Labels containerMs !! "state" = None ->
  Values containerMs !! md_Name MetricContainerStatus = None ->
  find_labeled (md_Name MetricContainerStatus) (LabeledValues containerMs) = None ->
  podContainerTakesUpResources (addContainerStatus interval timestamp containerMs status) = true.
Proof.
  intros Hl Hv Hf. unfold podContainerTakesUpResources, FindLabels, addContainerStatus.
  unfold addLabeledIntMetric, add_labeled. cbn [Values Labels LabeledValues with_LabeledValues].
  rewrite Hv, find_labeled_snoc by done. cbn [lv_Name]. rewrite String.eqb_refl. cbn [lv_Labels].
  unfold copyLabels, copy_into, get_str.
  rewrite lookup_union, Hl, lookup_union, AddMetricTags_state, !lookup_empty. done.
Qed.

Lemma terminated_container_counted_witness :
  let dead := MkState false None (Some (MkTerminated "OOMKilled" 137 0)) in
  podContainerTakesUpResources (addContainerStatus minute (10 * minute) (set_of ∅ ∅)
    (MkStatus "c" 1 dead (MkState false None None))) = true.
Proof. by apply terminated_container_counted. Defined.

(** ** The keys of the batch after the pod enricher *)

Section pod_enricher_proofs.
Context (getPod : string -> string -> option Pod) (copier : LabelCopier) (interval : Z).
Context (labels_order : gmap string string -> list (string * string)).
Context (requests_order : gmap string Quantity -> list (string * Quantity)).
Context (timestamp : Z).
Abbreviation step := (enrich_step getPod copier interval labels_order requests_order timestamp).
Abbreviation add_pod := (addPodInfo copier interval labels_order requests_order timestamp).
Abbreviation add_container := (addContainerInfo copier interval labels_order requests_order timestamp).

(** The lister returns the pod it is asked for, and names have no slash. *)
Definition lister_ok : Prop :=
  forall ns n p, getPod ns n = Some p ->
    pod_Namespace p = ns /\ pod_Name p = n /\ str_free "/" ns = true /\ str_free "/" n = true /\
    forall c, c ∈ pod_Containers p -> str_free "/" (c_Name c) = true.

Definition set_namespace (s : Set_) : string := get_str (Labels s) (Key LabelNamespaceName).
Definition set_pod (s : Set_) : string := get_str (Labels s) (Key LabelPodName).

(** Pod and container sets are stored under their own keys. *)
Definition batch_keys_ok (sets : Sets) : Prop :=
  forall k s, sets !! k = Some s ->
    (isType MetricSetTypePod s = true -> key_wf (KPod (set_namespace s) (set_pod s)) = true /\
       k = PodKey (set_namespace s) (set_pod s)) /\
    (isType MetricSetTypePodContainer s = true -> exists c,
       key_wf (KPodContainer (set_namespace s) (set_pod s) c) = true /\
       k = PodContainerKey (set_namespace s) (set_pod s) c).

Context (Hlister : lister_ok) (Hstored : storedLabels copier = ∅).

Definition container_key (p : Pod) (c : Container) : string :=
  PodContainerKey (pod_Namespace p) (pod_Name p) (c_Name c).

(** A key the enricher may add: one of a pod the lister knows. *)
Definition known_key (k : string) : Prop :=
  exists ns n p, getPod ns n = Some p /\
    (k = PodKey ns n \/ exists c, str_free "/" c = true /\ k = PodContainerKey ns n c).

Lemma updateContainerStatus_dom sets pod statuses k :
  is_Some (updateContainerStatus interval timestamp sets pod statuses !! k) <-> is_Some (sets !! k).
Proof.
  unfold updateContainerStatus. revert sets; induction statuses as [|s statuses IH]; intros sets; cbn; [done|].
  rewrite IH. destruct (sets !! _) as [ms|] eqn:E; [|done].
  rewrite lookup_insert_is_Some. split; [intros [<-|[_ ?]]; [by eexists|done]|].
  intros H. destruct (decide (PodContainerKey (pod_Namespace pod) (pod_Name pod) (cs_Name s) = k)); [by left|by right].
Qed.

Lemma stub_loop podMs pod cs st :
  let st' := foldl (stub_step copier labels_order requests_order podMs pod) st cs in
  e_sets st' = e_sets st /\
  forall k, is_Some (e_new st' !! k) <->
    is_Some (e_new st !! k) \/ (e_sets st !! k = None /\ exists c, c ∈ cs /\ k = container_key pod c).
Proof.
  revert st; induction cs as [|c cs IH]; intros st; cbn.
  { split; [done|]. intros k. split; [by left|]. intros [?|(_ & c & H & _)]; [done|by apply not_elem_of_nil in H]. }
  destruct (IH (stub_step copier labels_order requests_order podMs pod st c)) as [He Hn]. clear IH.
  assert (Hst : e_sets (stub_step copier labels_order requests_order podMs pod st c) = e_sets st /\
    forall k, is_Some (e_new (stub_step copier labels_order requests_order podMs pod st c) !! k) <->
      is_Some (e_new st !! k) \/ (e_sets st !! k = None /\ k = container_key pod c)).
  { unfold stub_step. fold (container_key pod c). destruct (e_sets st !! container_key pod c) eqn:E1.
    { split; [done|]. intros k. split; [by left|]. intros [?|[? ->]]; [done|congruence]. }
    destruct (e_new st !! container_key pod c) eqn:E2.
    { split; [done|]. intros k. split; [by left|]. intros [?|[? ->]]; [done|by eexists]. }
    destruct (updateContainerResourcesAndLimits _ _ _ _) as [t m]. cbn. split; [done|].
    intros k. rewrite lookup_insert_is_Some'. split; [|intros [?|[_ ->]]; [by right|by left]].
    intros [<-|?]; [by right|by left]. }
  destruct Hst as [He1 Hn1]. rewrite He, He1. split; [done|]. intros k. rewrite Hn, Hn1, He1.
  setoid_rewrite elem_of_cons. naive_solver.
Qed.

Lemma addPodInfo_keys podMs pod st :
  let '(_, st') := add_pod podMs pod st in
  e_sets st' = e_sets st /\
  forall k, is_Some (e_new st' !! k) <->
    is_Some (e_new st !! k) \/ (pod_Phase pod = "Running" /\ e_sets st !! k = None /\
      exists c, c ∈ pod_Containers pod /\ k = container_key pod c).
Proof.
  unfold addPodInfo. destruct (String.eqb_spec (pod_Phase pod) "Running") as [Hr|Hr]; cbn [negb].
  - match goal with |- context [stub_step _ _ _ ?ms _] => destruct (stub_loop ms pod (pod_Containers pod) st) as [He Hn] end.
    split; [exact He|]. intros k. cbn [e_new]. rewrite updateContainerStatus_dom, Hn. naive_solver.
  - split; [done|]. intros k. naive_solver.
Qed.

(** Copying labels without stored labels only writes the "labels" entry. *)
Lemma copy_labels_other labels ms n :
  n <> Key LabelLabels -> Labels (copy_labels copier labels_order labels ms) !! n = Labels ms !! n.
Proof.
  intros Hn. unfold copy_labels, Copy. cbn [Labels with_Labels]. rewrite copy_loop, lookup_insert_ne by done.
  rewrite Hstored. generalize (labels_order labels) as l. generalize (Labels ms) as o.
  intros o l; revert o; induction l as [|[k v] l IH]; intros o; cbn; [done|]. by rewrite lookup_empty, IH.
Qed.

Lemma requests_labels l table ms : Labels (foldl request_step (table, ms) l).2 = Labels ms.
Proof. revert table ms; induction l as [|[a q] l IH]; intros table ms; cbn; [done|]. by case_match; rewrite IH. Qed.

Lemma resources_labels table order ms c :
  Labels (updateContainerResourcesAndLimits table order ms c).2 = Labels ms.
Proof.
  unfold updateContainerResourcesAndLimits. pose proof (requests_labels order table ms) as H.
  destruct (foldl _ _ _) as [t m]. cbn. by rewrite !(proj1 (zero_unless_labels _ _ _ _)).
Qed.

Lemma addContainerInfo_keys k v pod st :
  getPod (set_namespace v) (set_pod v) = Some pod ->
  let '(_, st') := add_container k v pod st in
  e_sets st' = e_sets st /\
  (forall j, is_Some (e_new st !! j) -> is_Some (e_new st' !! j)) /\
  (forall j, is_Some (e_new st' !! j) -> is_Some (e_new st !! j) \/ (e_sets st !! j = None /\ known_key j)).
Proof.
  intros Hpod. destruct (Hlister _ _ _ Hpod) as (Hns & Hn & Hfree1 & Hfree2 & Hcont).
  unfold addContainerInfo.
  set (upd := match spec_container k pod with Some _ => _ | None => _ end).
  assert (Hlab : Labels upd.2 !! Key LabelNamespaceName = Labels v !! Key LabelNamespaceName /\
    Labels upd.2 !! Key LabelPodName = Labels v !! Key LabelPodName).
  { unfold upd. destruct (spec_container k pod) as [c|]; [|done].
    destruct (updateContainerResourcesAndLimits _ _ _ _) as [t m] eqn:E. cbn [snd].
    pose proof (resources_labels (e_table st) (requests_order (c_Requests c)) v c) as Hm.
    rewrite E in Hm. cbn [snd] in Hm. rewrite <- Hm. destruct (Labels m !! Key LabelContainerBaseImage); [done|].
    cbn. by rewrite !lookup_insert_ne. }
  destruct upd as [table ms1]. cbn [snd] in Hlab.
  set (ms2 := match container_status k pod with Some _ => _ | None => ms1 end).
  assert (Hms2 : Labels ms2 = Labels ms1).
  { unfold ms2. destruct (container_status k pod); [|done]. cbn. unfold set_create_time.
    destruct (pod_StartTime pod); [|done]. by destruct (time_is_zero _). }
  set (ms3 := copy_labels _ _ _ _).
  assert (Hns3 : get_str (Labels ms3) (Key LabelNamespaceName) = set_namespace v /\
    get_str (Labels ms3) (Key LabelPodName) = set_pod v).
  { unfold ms3, get_str. rewrite !copy_labels_other by done. cbn. rewrite Hms2, !lookup_insert_ne by done.
    destruct Hlab as [H1 H2]. unfold set_namespace, set_pod, get_str. cbn in H1, H2. by rewrite H1, H2. }
  destruct Hns3 as [-> ->]. cbn [e_sets e_new e_table].
  assert (Hknown : known_key (PodKey (set_namespace v) (set_pod v))).
  { exists (set_namespace v), (set_pod v), pod. split; [done|by left]. }
  destruct (e_sets st !! PodKey (set_namespace v) (set_pod v)) eqn:E1; [by split_and!; auto|].
  destruct (e_new st !! PodKey (set_namespace v) (set_pod v)) eqn:E2; [by split_and!; auto|].
  match goal with |- context [add_pod ?a ?b ?c] => pose proof (addPodInfo_keys a b c) as Hkeys; destruct (add_pod a b c) as [pm st'] end.
  cbn [e_sets e_new] in *. destruct Hkeys as [He Hk]. split_and!.
  - exact He.
  - intros j Hj. rewrite lookup_insert_is_Some'. right. apply Hk. left. rewrite lookup_insert_is_Some'. by right.
  - intros j. rewrite lookup_insert_is_Some'. intros [<-|Hj]; [by right|].
    apply Hk in Hj as [Hj|(_ & Hnone & c & Hc & ->)].
    + apply lookup_insert_is_Some' in Hj as [<-|Hj]; [by right|by left].
    + right. split; [done|]. exists (set_namespace v), (set_pod v), pod. split; [done|right].
      exists (c_Name c). split; [by apply Hcont|]. unfold container_key. by rewrite Hns, Hn.
Qed.

(** What a visit of [k] does to the keys. *)
Record enrich_keys (k : string) (st st' : enrich_state) : Prop := {
  ek_other j : j <> k -> e_sets st' !! j = e_sets st !! j;
  ek_self v : e_sets st !! k = Some v ->
    if isType MetricSetTypePod v || isType MetricSetTypePodContainer v then
      is_Some (e_sets st' !! k) <-> is_Some (pod_of_set getPod v)
    else e_sets st' !! k = Some v;
  ek_none : e_sets st !! k = None -> e_sets st' !! k = None;
  ek_grows j : is_Some (e_new st !! j) -> is_Some (e_new st' !! j);
  ek_new j : is_Some (e_new st' !! j) ->
    is_Some (e_new st !! j) \/ (e_sets st !! j = None /\ known_key j);
  ek_stubs v p c : e_sets st !! k = Some v -> isType MetricSetTypePod v = true ->
    pod_of_set getPod v = Some p -> pod_Phase p = "Running" -> c ∈ pod_Containers p ->
    is_Some (e_sets st !! container_key p c) \/ is_Some (e_new st' !! container_key p c);
}.

Lemma enrich_keys_known k v v' p st st' :
  e_sets st !! k = Some v -> isType MetricSetTypePod v || isType MetricSetTypePodContainer v = true ->
  pod_of_set getPod v = Some p -> e_sets st' = e_sets st ->
  (forall j, is_Some (e_new st !! j) -> is_Some (e_new st' !! j)) ->
  (forall j, is_Some (e_new st' !! j) -> is_Some (e_new st !! j) \/ (e_sets st !! j = None /\ known_key j)) ->
  (forall c, isType MetricSetTypePod v = true -> pod_Phase p = "Running" -> c ∈ pod_Containers p ->
     is_Some (e_sets st !! container_key p c) \/ is_Some (e_new st' !! container_key p c)) ->
  enrich_keys k st (MkEnrich (<[k := v']> (e_sets st')) (e_new st') (e_table st')).
Proof.
  intros Hk Hty Hp He Hg Hn Hs. split; cbn [e_sets e_new]; rewrite ?He; [| | |done|done|].
  - intros j Hj. by rewrite lookup_insert_ne.
  - intros v0 Hv0. assert (v0 = v) as -> by congruence. rewrite Hty, lookup_insert_eq, Hp. split; by eexists.
  - congruence.
  - intros v0 p0 c Hv0. assert (v0 = v) as -> by congruence. rewrite Hp. intros Ht [= <-]. by apply Hs.
Qed.

Lemma enrich_keys_unknown k v st :
  e_sets st !! k = Some v -> isType MetricSetTypePod v || isType MetricSetTypePodContainer v = true ->
  pod_of_set getPod v = None ->
  enrich_keys k st (MkEnrich (delete k (e_sets st)) (e_new st) (e_table st)).
Proof.
  intros Hk Hty Hp. split; cbn [e_sets e_new].
  - intros j Hj. by rewrite lookup_delete_ne.
  - intros v0 Hv0. assert (v0 = v) as -> by congruence. rewrite Hty, lookup_delete_eq, Hp.
    split; by intros [].
  - congruence.
  - done.
  - by left.
  - intros v0 p0 c Hv0. assert (v0 = v) as -> by congruence. by rewrite Hp.
Qed.

Lemma enrich_step_keys k st : enrich_keys k st (step st k).
Proof.
  unfold enrich_step. destruct (e_sets st !! k) as [v|] eqn:Ev; [|by split; auto; congruence].
  destruct (isType MetricSetTypePod v) eqn:Tp; [|destruct (isType MetricSetTypePodContainer v) eqn:Tc].
  - destruct (pod_of_set getPod v) as [p|] eqn:Ep; [|apply (enrich_keys_unknown _ v); by rewrite ?Tp].
    pose proof (addPodInfo_keys v p st) as Hkeys. destruct (add_pod v p st) as [v' st'].
    destruct Hkeys as [He Hk]. destruct (Hlister _ _ _ Ep) as (Hns & Hn & _ & _ & Hc).
    apply (enrich_keys_known k v v' p); [done|by rewrite Tp|done|done| | |].
    + intros j Hj. apply Hk. by left.
    + intros j Hj. apply Hk in Hj as [Hj|(_ & Hnone & c & Hcin & ->)]; [by left|right]. split; [done|].
      exists (set_namespace v), (set_pod v), p. split; [done|right]. exists (c_Name c).
      split; [by apply Hc|]. unfold container_key. by rewrite Hns, Hn.
    + intros c _ Hr Hcin. destruct (e_sets st !! container_key p c) eqn:E; [left; by eexists|right].
      apply Hk. right. split_and!; [done|done|by exists c].
  - destruct (pod_of_set getPod v) as [p|] eqn:Ep; [|apply (enrich_keys_unknown _ v); by rewrite ?Tc, ?orb_true_r].
    pose proof (addContainerInfo_keys k v p st Ep) as Hkeys. destruct (add_container k v p st) as [v' st'].
    destruct Hkeys as (He & Hg & Hn).
    apply (enrich_keys_known k v v' p); [done|by rewrite Tc, orb_true_r|done|done|done|done|congruence].
  - split; [done| |done|done|by left|].
    + intros v0 Hv0. assert (v0 = v) as -> by congruence. by rewrite Tp, Tc.
    + intros v0 p c Hv0. assert (v0 = v) as -> by congruence. congruence.
Qed.

(** The keys after all visits. *)
Record enriched (visits : list string) (st st' : enrich_state) : Prop := {
  en_other j : j ∉ visits -> e_sets st' !! j = e_sets st !! j;
  en_visited k v : k ∈ visits -> e_sets st !! k = Some v ->
    if isType MetricSetTypePod v || isType MetricSetTypePodContainer v then
      is_Some (e_sets st' !! k) <-> is_Some (pod_of_set getPod v)
    else e_sets st' !! k = Some v;
  en_none j : e_sets st !! j = None -> e_sets st' !! j = None;
  en_disjoint j : is_Some (e_new st' !! j) -> e_sets st' !! j = None;
  en_known j : is_Some (e_new st' !! j) -> known_key j;
  en_grows j : is_Some (e_new st !! j) -> is_Some (e_new st' !! j);
  en_stubs k v p c : k ∈ visits -> e_sets st !! k = Some v -> isType MetricSetTypePod v = true ->
    pod_of_set getPod v = Some p -> pod_Phase p = "Running" -> c ∈ pod_Containers p ->
    is_Some (e_sets st !! container_key p c) \/ is_Some (e_new st' !! container_key p c);
}.

Lemma enrich_loop visits st :
  NoDup visits -> (forall j, is_Some (e_new st !! j) -> e_sets st !! j = None /\ known_key j) ->
  enriched visits st (foldl step st visits).
Proof.
  revert st; induction visits as [|k visits IH]; intros st Hnd Hnew; cbn [foldl].
  { split; try done; [|intros j Hj; by apply Hnew|intros j Hj; by apply Hnew|].
    - intros k v Hk. by apply not_elem_of_nil in Hk.
    - intros k v p c Hk. by apply not_elem_of_nil in Hk. }
  apply NoDup_cons in Hnd as [Hk Hnd].
  destruct (enrich_step_keys k st) as [Ho Hself Hnone Hg Hn Hs].
  assert (Hsub : forall j, e_sets st !! j = None -> e_sets (step st k) !! j = None).
  { intros j Hj. destruct (decide (j = k)) as [->|Hne]; [by apply Hnone|by rewrite Ho]. }
  destruct (IH (step st k) Hnd) as [Ho2 Hv2 Hn2 Hd2 Hk2 Hg2 Hs2].
  { intros j [Hj|[Hj ?]]%Hn; [|by split; [apply Hsub|]]. destruct (Hnew j Hj). by split; [apply Hsub|]. }
  split; [| | |done|done|auto|].
  - intros j [Hj1 Hj2]%not_elem_of_cons. by rewrite Ho2, Ho.
  - intros j v [->|Hj]%elem_of_cons Hjv; [rewrite Ho2 by done; by apply Hself|].
    apply Hv2; [done|]. rewrite Ho; [done|]. by intros ->.
  - auto.
  - intros j v p c [->|Hj]%elem_of_cons Hjv Ht Hp Hr Hc.
    + destruct (Hs v p c Hjv Ht Hp Hr Hc) as [?|?]; [by left|right; by apply Hg2].
    + destruct (Hs2 j v p c Hj) as [[x Hx]|?]; try done; [rewrite Ho; [done|by intros ->]| |by right].
      left. destruct (e_sets st !! container_key p c) eqn:E; [by eexists|]. apply Hsub in E. congruence.
Qed.

Lemma known_key_pod k ns n c :
  known_key k -> key_wf (KPodContainer ns n c) = true ->
  k = PodKey ns n \/ k = PodContainerKey ns n c -> is_Some (getPod ns n).
Proof.
  intros (ns' & n' & p & Hp & Hk) Hwf Hk'. destruct (Hlister _ _ _ Hp) as (_ & _ & F1 & F2 & _).
  cbn in Hwf. apply andb_prop in Hwf as [[W1 W2]%andb_prop W3].
  assert (exists a b, key_wf a = true /\ key_wf b = true /\ key_of a = key_of b /\
    (a = KPod ns' n' \/ exists c, a = KPodContainer ns' n' c) /\
    (b = KPod ns n \/ exists c, b = KPodContainer ns n c)) as (a & b & Wa & Wb & E & Ha & Hb).
  { destruct Hk as [Hk|(c' & Hc' & Hk)], Hk' as [Hk'|Hk'].
    - exists (KPod ns' n'), (KPod ns n). cbn. rewrite F1, F2, W1, W2, <- Hk, <- Hk'. by split_and!; auto.
    - exists (KPod ns' n'), (KPodContainer ns n c). cbn. rewrite F1, F2, W1, W2, W3, <- Hk, <- Hk'.
      by split_and!; eauto.
    - exists (KPodContainer ns' n' c'), (KPod ns n). cbn. rewrite F1, F2, Hc', W1, W2, <- Hk, <- Hk'.
      by split_and!; eauto.
    - exists (KPodContainer ns' n' c'), (KPodContainer ns n c). cbn.
      rewrite F1, F2, Hc', W1, W2, W3, <- Hk, <- Hk'. by split_and!; eauto. }
  apply key_of_inj in E as <-; [|done|done].
  destruct Ha as [->|[? ->]], Hb as [Hb|[? Hb]]; simplify_eq; by eexists.
Qed.

(** A key of the batch that the enricher may add belongs to a known pod. *)
Lemma known_own sets k s :
  batch_keys_ok sets -> sets !! k = Some s ->
  isType MetricSetTypePod s || isType MetricSetTypePodContainer s = true -> known_key k ->
  is_Some (pod_of_set getPod s).
Proof.
  intros Hkeys Hk Hty Hkk. unfold pod_of_set. fold (set_namespace s) (set_pod s).
  destruct (Hkeys k s Hk) as [Hp Hc]. apply orb_prop in Hty as [Ht|Ht].
  - destruct (Hp Ht) as [Hwf ->]. apply (known_key_pod _ _ _ "x" Hkk); [|by left].
    cbn [key_wf] in *. by rewrite Hwf.
  - destruct (Hc Ht) as (c & Hwf & ->). apply (known_key_pod _ _ _ c Hkk); [done|by right].
Qed.

Lemma container_known s p c : pod_of_set getPod s = Some p -> c ∈ pod_Containers p -> known_key (container_key p c).
Proof.
  intros Hp Hc. destruct (Hlister _ _ _ Hp) as (Hns & Hn & _ & _ & Hfree).
  unfold known_key, container_key. rewrite Hns, Hn. eexists _, _, p. split; [exact Hp|].
  right. exists (c_Name c). by split; [apply Hfree|].
Qed.
End pod_enricher_proofs.


Definition sample_pod_obj : Pod :=
  MkPod "ns" "a" "uid" ∅ "Running" (Some 5%Z) [MkContainer "c" "img" ∅ ∅] [].
Definition sample_lister (ns n : string) : option Pod :=
  if String.eqb ns "ns" && String.eqb n "a" then Some sample_pod_obj else None.
Definition sample_pod_set (pod : string) : Set_ :=
  set_of ∅ (<[Key LabelPodName := pod]> (<[Key LabelNamespaceName := "ns"]>
    {[Key LabelMetricSetType := MetricSetTypePod]})).

