(* ===== verification/MetricReader.v ===== *)
(** Reading a Prometheus page metric by metric:
    plugins/sources/prometheus/lookahead_reader.go, metric_reader.go and the
    reading loop of [parseMetrics] in prometheus.go.

    Bytes are the characters of a string.  [bufio.Scanner] over lines is
    modelled with its limit of 64 KiB per line, at which it stops. *)

From S2P Require Import Prelude.

(** ** bufio.Scanner with ScanLines *)

Definition newline : Ascii.ascii := "010"%char.
Definition carriage_return : Ascii.ascii := "013"%char.
Definition MaxScanTokenSize : Z := 65536.

Definition dropCR (s : string) : string :=
  if has_suffix (String carriage_return "") s then String.substring 0 (String.length s - 1) s else s.

Record scanner := MkScanner { sc_rest : string; sc_bytes : string }.

(** The next line and what follows it. *)
Definition scan_line (s : string) : option (string * string) :=
  match s with
  | EmptyString => None
  | _ =>
      let '(raw, rest) := split_first newline s in
      if (MaxScanTokenSize <=? Z.of_nat (String.length raw))%Z then None
      else Some (dropCR raw, default "" rest)
  end.

Definition Scan (sc : scanner) : bool * scanner :=
  match scan_line (sc_rest sc) with
  | Some (token, rest) => (true, MkScanner rest token)
  | None => (false, sc)
  end.

(** ** LookaheadReader *)

Record LookaheadReader := MkLookahead { la_scanner : scanner; la_done : bool; lineCount : Z }.

Definition advanceLine (r : LookaheadReader) : LookaheadReader :=
  let '(ok, sc) := Scan (la_scanner r) in
  MkLookahead sc (negb ok) (lineCount r + 1).
Definition NewLookaheadReader (reader : string) : LookaheadReader :=
  advanceLine (MkLookahead (MkScanner reader "") false 0).
Definition Peek (r : LookaheadReader) : string := sc_bytes (la_scanner r).
Definition LookaheadReader_Read (r : LookaheadReader) : string * LookaheadReader :=
  if la_done r then ("", r) else (Peek r, advanceLine r).

(** ** MetricReader *)

(** The length in bytes of the white space rune at the head of the string, 0
    when there is none: the ASCII ones, U+0085, U+00A0, U+1680, U+2000 to
    U+200A, U+2028, U+2029, U+202F, U+205F and U+3000 in UTF-8. *)
Definition space_rune (s : string) : nat :=
  let byte n := N_of_ascii (default "000"%char (String.get n s)) in
  let a := byte 0 in let b := byte 1 in let c := byte 2 in
  (if existsb (N.eqb a) [9; 10; 11; 12; 13; 32] then 1%nat
   else if (a =? 194) && ((b =? 133) || (b =? 160)) then 2%nat
   else if (a =? 225) && (b =? 154) && (c =? 128) then 3%nat
   else if (a =? 226) && (b =? 128) &&
           (((128 <=? c) && (c <=? 138)) || (c =? 168) || (c =? 169) || (c =? 175)) then 3%nat
   else if (a =? 226) && (b =? 129) && (c =? 159) then 3%nat
   else if (a =? 227) && (b =? 128) && (c =? 128) then 3%nat
   else 0%nat)%N.

(** [bytes.TrimSpace] leaves nothing; one rune is taken off at each step. *)
Fixpoint all_space (fuel : nat) (s : string) : bool :=
  match s, fuel with
  | EmptyString, _ => true
  | _, O => false
  | _, S fuel => match space_rune s with O => false | n => all_space fuel (str_drop n s) end
  end.
Definition trims_to_empty (s : string) : bool := all_space (String.length s) s.

Definition is_comment (line : string) : bool := trims_to_empty line || has_prefix "#" line.
Definition commentNext (r : LookaheadReader) : bool := is_comment (Peek r).

(** The two loops have one shape: lines are copied to the buffer until the
    input ends or the next line fails the test.  The fuel is what is left to
    read. *)
Fixpoint copy_while (test : LookaheadReader -> bool) (fuel : nat) (r : LookaheadReader) (buffer : string)
    : string * LookaheadReader :=
  match fuel with
  | O => (buffer, r)
  | S fuel =>
      if la_done r then (buffer, r)
      else if negb (test r) then (buffer, r)
      else let '(line, r) := LookaheadReader_Read r in
           copy_while test fuel r (buffer +:+ line +:+ String newline "")%string
  end.

Definition fuel_of (r : LookaheadReader) : nat := S (String.length (sc_rest (la_scanner r))).

Definition readComments (r : LookaheadReader) (buffer : string) : string * LookaheadReader :=
  copy_while commentNext (fuel_of r) r buffer.
Definition readMetrics (r : LookaheadReader) (buffer : string) : string * LookaheadReader :=
  copy_while (fun r => negb (has_prefix "#" (Peek r))) (fuel_of r) r buffer.

Definition MetricReader_Read (r : LookaheadReader) : string * LookaheadReader :=
  let '(buffer, r) := readComments r "" in readMetrics r buffer.

(** The chunks the loop of [parseMetrics] hands to the text parser. *)
Fixpoint read_chunks (fuel : nat) (r : LookaheadReader) : list string :=
  match fuel with
  | O => []
  | S fuel =>
      if la_done r then []
      else let '(chunk, r) := MetricReader_Read r in chunk :: read_chunks fuel r
  end.
Definition chunks (body : string) : list string :=
  let r := NewLookaheadReader body in read_chunks (fuel_of r) r.

(** ** Lines *)

Fixpoint scan_lines (fuel : nat) (s : string) : list string :=
  match fuel with
  | O => []
  | S fuel => match scan_line s with Some (t, rest) => t :: scan_lines fuel rest | None => [] end
  end.
(** The lines the scanner yields. *)
Definition lines (s : string) : list string := scan_lines (String.length s) s.
Fixpoint unlines (ls : list string) : string :=
  match ls with [] => "" | l :: ls' => (l +:+ String newline (unlines ls'))%string end.

(** A line the scanner gives back as it is. *)
Definition plain_line (l : string) : bool :=
  str_free newline l && negb (has_suffix (String carriage_return "") l) &&
  (Z.of_nat (String.length l) <? MaxScanTokenSize)%Z.

(** A block: comments and blank lines, then lines that are not comments. *)
Definition is_block (g : list string) : Prop :=
  g <> [] /\ exists cs ms, g = cs ++ ms /\ Forall (fun l => is_comment l = true) cs /\
    Forall (fun l => has_prefix "#" l = false) ms.
Definition starts_with_comment (g : list string) : Prop :=
  exists l g', g = l :: g' /\ has_prefix "#" l = true.

(** ** Lemmas *)

Lemma split_first_length c s :
  let '(a, r) := split_first c s in
  String.length s = match r with Some b => S (String.length a + String.length b) | None => String.length a end.
Proof.
  induction s as [|x s IH]; cbn; [done|]. destruct (Ascii.eqb x c); cbn; [done|].
  destruct (split_first c s) as [a [b|]]; cbn in *; lia.
Qed.

Lemma scan_line_shorter s t rest : scan_line s = Some (t, rest) -> String.length rest < String.length s.
Proof.
  unfold scan_line. destruct s as [|x s]; [done|]. pose proof (split_first_length newline (String x s)) as H.
  destruct (split_first newline (String x s)) as [a [b|]]; destruct (_ <=? _)%Z; try done;
    intros [= <- <-]; cbn [default String.length] in *; unfold default, id; cbn; lia.
Qed.

Lemma scan_lines_enough fuel s : String.length s <= fuel -> scan_lines fuel s = lines s.
Proof.
  revert s; induction fuel as [fuel IH] using lt_wf_ind; intros s Hs. unfold lines.
  destruct (String.length s) as [|n] eqn:En.
  { destruct s; [|done]. by destruct fuel. }
  destruct fuel as [|fuel]; [lia|]. cbn. destruct (scan_line s) as [[t rest]|] eqn:E; [|done].
  apply scan_line_shorter in E. f_equal. rewrite IH by lia. destruct (decide (n = fuel)) as [->|Hn]; [|by rewrite IH by lia].
  by rewrite IH by lia.
Qed.

Lemma lines_eq s : lines s = match scan_line s with Some (t, rest) => t :: lines rest | None => [] end.
Proof.
  unfold lines at 1. destruct s as [|x s]; [done|]. cbn [String.length scan_lines].
  destruct (scan_line (String x s)) as [[t rest]|] eqn:E; [|done].
  f_equal. apply scan_lines_enough. apply scan_line_shorter in E. cbn in E. lia.
Qed.

Lemma lines_length s : length (lines s) <= String.length s.
Proof.
  unfold lines. generalize (String.length s) as n. intros n. revert s. induction n as [|n IH]; intros s; cbn; [lia|].
  destruct (scan_line s) as [[t rest]|]; cbn; [|lia]. specialize (IH rest). lia.
Qed.

(** What a reader still has to give. *)
Definition remaining (r : LookaheadReader) : list string :=
  if la_done r then [] else Peek r :: lines (sc_rest (la_scanner r)).

Lemma advanceLine_remaining r : remaining (advanceLine r) = lines (sc_rest (la_scanner r)).
Proof.
  unfold advanceLine, Scan, remaining, Peek. rewrite (lines_eq (sc_rest (la_scanner r))).
  by destruct (scan_line (sc_rest (la_scanner r))) as [[t rest]|]; cbn.
Qed.

Lemma Read_remaining r l ls :
  remaining r = l :: ls ->
  la_done r = false /\ Peek r = l /\ LookaheadReader_Read r = (l, advanceLine r) /\ remaining (advanceLine r) = ls.
Proof.
  rewrite advanceLine_remaining. unfold remaining, LookaheadReader_Read.
  destruct (la_done r); [done|]. by intros [= <- <-].
Qed.
Lemma remaining_nil r : remaining r = [] -> la_done r = true.
Proof. unfold remaining. by destruct (la_done r). Qed.
Lemma fuel_enough r : length (remaining r) <= fuel_of r.
Proof.
  unfold remaining, fuel_of. destruct (la_done r); cbn; [lia|]. pose proof (lines_length (sc_rest (la_scanner r))). lia.
Qed.

Fixpoint span_lines (p : string -> bool) (ls : list string) : list string * list string :=
  match ls with
  | [] => ([], [])
  | l :: ls' => if p l then let '(a, b) := span_lines p ls' in (l :: a, b) else ([], ls)
  end.

Lemma span_lines_spec p ls :
  let '(a, b) := span_lines p ls in
  ls = a ++ b /\ Forall (fun l => p l = true) a /\ (b = [] \/ exists l b', b = l :: b' /\ p l = false).
Proof.
  induction ls as [|l ls IH]; cbn; [by eauto|]. destruct (p l) eqn:E; [|by eauto 10].
  destruct (span_lines p ls) as [a b]. destruct IH as (-> & H1 & H2). split_and!; auto.
Qed.

Lemma unlines_app a b : unlines (a ++ b) = (unlines a +:+ unlines b)%string.
Proof. induction a as [|l a IH]; cbn; [done|]. by rewrite IH, str_app_assoc. Qed.

Lemma copy_while_spec (p : string -> bool) fuel r buffer :
  length (remaining r) <= fuel ->
  let '(a, b) := span_lines p (remaining r) in
  exists r', copy_while (fun r => p (Peek r)) fuel r buffer = ((buffer +:+ unlines a)%string, r') /\
    remaining r' = b.
Proof.
  revert r buffer; induction fuel as [|fuel IH]; intros r buffer Hf.
  { destruct (remaining r) eqn:E; cbn in Hf |- *; [|lia]. exists r. by rewrite str_app_nil_r. }
  destruct (remaining r) as [|l ls] eqn:E; cbn.
  { exists r. by rewrite (remaining_nil r E), str_app_nil_r. }
  destruct (Read_remaining r l ls E) as (-> & -> & -> & Hr).
  destruct (p l); cbn [negb]; [|by exists r; rewrite str_app_nil_r].
  specialize (IH (advanceLine r) (buffer +:+ l +:+ String newline "")%string).
  rewrite Hr in IH. cbn in Hf. specialize (IH ltac:(lia)). destruct (span_lines p ls) as [a b].
  destruct IH as (r' & -> & Hb). exists r'. split; [|done]. f_equal. cbn. by rewrite !str_app_assoc.
Qed.

(** One chunk: comments and blank lines, then everything up to the next
    comment. *)
Lemma MetricReader_Read_spec r :
  remaining r <> [] ->
  exists g r', MetricReader_Read r = (unlines g, r') /\ remaining r = g ++ remaining r' /\ is_block g /\
    (remaining r' = [] \/ starts_with_comment (remaining r')).
Proof.
  intros Hne. unfold MetricReader_Read, readComments, readMetrics.
  pose proof (copy_while_spec is_comment (fuel_of r) r "" (fuel_enough r)) as Hc.
  pose proof (span_lines_spec is_comment (remaining r)) as Hs.
  destruct (span_lines is_comment (remaining r)) as [cs ls]. destruct Hc as (r1 & Hc & Hr1). destruct Hs as (Hls & Hcs & Hb).
  unfold commentNext. rewrite Hc. change ("" +:+ unlines cs)%string with (unlines cs).
  pose proof (copy_while_spec (fun l => negb (has_prefix "#" l)) (fuel_of r1) r1 (unlines cs) (fuel_enough r1)) as Hm.
  pose proof (span_lines_spec (fun l => negb (has_prefix "#" l)) (remaining r1)) as Hs'. rewrite Hr1 in *.
  destruct (span_lines (fun l => negb (has_prefix "#" l)) ls) as [ms ls'] eqn:Em.
  destruct Hm as (r2 & -> & Hr2). destruct Hs' as (-> & Hms & Hb').
  exists (cs ++ ms), r2. split; [by rewrite unlines_app|]. rewrite Hr2. split; [by rewrite Hls, app_assoc|]. split.
  - split.
    + intros [-> ->]%app_nil. cbn [app] in *. destruct Hb' as [->|(l & b' & -> & Hl)]; [by rewrite Hls in Hne; cbn in Hne|].
      destruct Hb as [[=]|(l1 & b1 & [= <- <-] & Hl1)]. apply negb_false_iff in Hl.
      unfold is_comment in Hl1. rewrite Hl, orb_true_r in Hl1. done.
    + exists cs, ms. split_and!; [done|done|]. eapply Forall_impl; [exact Hms|]. cbn. intros x. by apply negb_true_iff.
  - destruct Hb' as [->|(l & b' & -> & Hl)]; [by left|]. right. exists l, b'. by apply negb_false_iff in Hl.
Qed.

Lemma read_chunks_spec fuel r :
  length (remaining r) <= fuel ->
  exists groups, read_chunks fuel r = unlines <$> groups /\ mjoin groups = remaining r /\
    Forall is_block groups /\ Forall starts_with_comment (tail groups) /\
    (starts_with_comment (remaining r) -> Forall starts_with_comment groups).
Proof.
  revert r; induction fuel as [|fuel IH]; intros r Hf.
  { exists []. destruct (remaining r); [by cbn; auto|cbn in Hf; lia]. }
  destruct (decide (remaining r = [])) as [E|Hne].
  { exists []. cbn. rewrite (remaining_nil r E), E. cbn. auto. }
  destruct (MetricReader_Read_spec r Hne) as (g & r' & Hg & Hr & Hblk & Hnext). cbn [read_chunks].
  assert (la_done r = false) as ->. { unfold remaining in Hne. by destruct (la_done r). }
  rewrite Hg. assert (Hg0 : 0 < length g). { destruct Hblk as [Hg0 _]. destruct g; [done|cbn; lia]. }
  destruct (IH r') as (gs & -> & Hj & Hbs & Ht & Hall). { rewrite Hr, length_app in Hf. lia. }
  exists (g :: gs). change (mjoin (g :: gs)) with (g ++ mjoin gs). rewrite Hj, Hr. split_and!; try done.
  - by constructor.
  - destruct Hnext as [Hn|Hn]; [|by apply Hall]. rewrite Hn in Hj. destruct gs as [|g' gs]; [constructor|].
    apply app_nil in Hj as [-> _]. inversion Hbs as [|? ? [? _]]. done.
  - intros Hs. constructor.
    + destruct Hs as (l & g' & Hl & Hp). destruct g as [|x g]; [cbn in Hg0; lia|].
      injection Hl as -> _. by exists l, g.
    + destruct Hnext as [Hn|Hn]; [|by apply Hall]. rewrite Hn in Hj. destruct gs as [|g' gs]; [constructor|].
      apply app_nil in Hj as [-> _]. inversion Hbs as [|? ? [? _]]. done.
Qed.

Lemma lines_unlines ls : Forall (fun l => plain_line l = true) ls -> lines (unlines ls) = ls.
Proof.
  induction 1 as [|l ls Hl _ IH]; [done|]. unfold plain_line in Hl.
  apply andb_true_iff in Hl as [Hl Hlen]. apply andb_true_iff in Hl as [Hfree Hcr].
  rewrite lines_eq. cbn [unlines]. unfold scan_line.
  rewrite split_first_free by done. rewrite (proj2 (Z.leb_gt _ _)) by (by apply Z.ltb_lt).
  unfold dropCR. apply negb_true_iff in Hcr. rewrite Hcr.
  assert (exists c s, (l +:+ String newline (unlines ls))%string = String c s) as (c & s & ->).
  { destruct l; cbn; eauto. }
  cbv iota. change (default "" (Some (unlines ls))) with (unlines ls). by rewrite IH.
Qed.

Lemma concat_unlines gs : String.concat "" (unlines <$> gs) = unlines (mjoin gs).
Proof.
  induction gs as [|g gs IH]; [done|]. change (mjoin (g :: gs)) with (g ++ mjoin gs). rewrite unlines_app, <-IH.
  destruct gs as [|g' gs]; cbn; [by rewrite str_app_nil_r|done].
Qed.

(** ** Property *)

(** A page is cut into blocks without losing anything.  The chunks handed
    to the text parser are the lines of the page, in order and each once, cut
    into non-empty blocks of comments and blank lines followed by sample
    lines; every block after the first starts with a comment, so no block of
    samples is cut; and a page of lines without carriage returns that are not
    too long is the concatenation of its chunks. *)
Theorem chunks_spec (body : string) :
  (exists groups, chunks body = unlines <$> groups /\ mjoin groups = lines body /\
     Forall is_block groups /\ Forall starts_with_comment (tail groups)) /\
  (forall ls, Forall (fun l => plain_line l = true) ls -> body = unlines ls ->
     String.concat "" (chunks body) = body).
Proof.
  assert (H : exists groups, chunks body = unlines <$> groups /\ mjoin groups = lines body /\
     Forall is_block groups /\ Forall starts_with_comment (tail groups)).
  { unfold chunks. destruct (read_chunks_spec (fuel_of (NewLookaheadReader body)) (NewLookaheadReader body)
      (fuel_enough _)) as (gs & Hg & Hj & Hb & Ht & _).
    exists gs. split_and!; [done| |done|done]. rewrite Hj. unfold NewLookaheadReader. by rewrite advanceLine_remaining. }
  split; [done|]. intros ls Hls ->. destruct H as (gs & -> & Hj & _).
  by rewrite concat_unlines, Hj, lines_unlines.
Qed.

(** ** The loops end *)

Lemma done_shorter r r' g : la_done r = false -> remaining r = g ++ remaining r' -> g <> [] ->
  length (remaining r') < length (remaining r).
Proof. intros _ -> Hg. rewrite length_app. destruct g; [done|cbn; lia]. Qed.

Lemma not_done r : la_done r = false -> remaining r <> [].
Proof. unfold remaining. by intros ->. Qed.

Lemma read_chunks_more fuel fuel' r :
  length (remaining r) <= fuel -> length (remaining r) <= fuel' -> read_chunks fuel r = read_chunks fuel' r.
Proof.
  revert fuel' r; induction fuel as [|fuel IH]; intros fuel' r H H'.
  - assert (la_done r = true) as E by (apply remaining_nil; by destruct (remaining r); [|cbn in H; lia]).
    destruct fuel'; [done|]. cbn. by rewrite E.
  - cbn. destruct (la_done r) eqn:E; [by destruct fuel'; cbn; rewrite ?E|].
    pose proof (not_done r E) as Hne. destruct fuel' as [|fuel']; [by destruct (remaining r); [|cbn in H'; lia]|].
    cbn. rewrite E. destruct (MetricReader_Read_spec r Hne) as (g & r' & -> & Hr & [Hg _] & _).
    pose proof (done_shorter r r' g E Hr Hg). f_equal. apply IH; lia.
Qed.

(** C31: reading a page terminates.  Every call of [Read] before the end brings
    the reader closer to it, for the lines and for the chunks alike, so the
    loops of readComments, readMetrics and parseMetrics end on every input;
    and the fuel of the model is never what ends them. *)
Theorem reading_terminates :
  well_founded (fun r' r => la_done r = false /\ r' = (LookaheadReader_Read r).2) /\
  well_founded (fun r' r => la_done r = false /\ r' = (MetricReader_Read r).2) /\
  forall body fuel, fuel_of (NewLookaheadReader body) <= fuel ->
    read_chunks fuel (NewLookaheadReader body) = chunks body.
Proof.
  split_and!.
  - apply (well_founded_lt_compat _ (fun r => length (remaining r))). intros r' r [Hd ->].
    destruct (remaining r) as [|l ls] eqn:E; [by destruct (not_done r Hd)|].
    destruct (Read_remaining r l ls E) as (_ & _ & -> & Hr). cbn. rewrite Hr. lia.
  - apply (well_founded_lt_compat _ (fun r => length (remaining r))). intros r' r [Hd ->].
    destruct (MetricReader_Read_spec r (not_done r Hd)) as (g & r' & -> & Hr & [Hg _] & _).
    by apply (done_shorter r r' g).
  - intros body fuel Hf. apply read_chunks_more; [|apply fuel_enough].
    pose proof (fuel_enough (NewLookaheadReader body)). lia.
Qed.
