(* ===== verification/Prometheus.v ===== *)
(** The Prometheus source: plugins/sources/prometheus/point_builder.go,
    prometheus.go and lookup_instances.go.

    The text parser (expfmt), the HTTP client and the endpoints client are
    parameters.  The protobuf structures are records of what the getters
    return; the sub-messages are optional because the code follows their
    pointers without a test, and following a nil one is the error
    [nil_dereference].  Interned strings are shared immutable pointers and are
    modelled by their values. *)

From S2P Require Import Prelude GoFloat Filters Distribution Wf Util GoFmt MetricReader.

(** ** The client model *)

Inductive MetricType := COUNTER | GAUGE | SUMMARY | UNTYPED | HISTOGRAM | GAUGE_HISTOGRAM.
Record Quantile := MkQuantile { q_Quantile : f64; q_Value : f64 }.
Record Bucket := MkBucket { CumulativeCount : Z; UpperBound : f64 }.
Record Summary := MkSummary { s_SampleCount : Z; s_SampleSum : f64; s_Quantile : list Quantile }.
Record Histogram := MkHistogram { h_SampleCount : Z; h_SampleSum : f64; h_Bucket : list Bucket }.
Record PromMetric := MkPromMetric {
  m_Label : list (string * string);
  m_Gauge : option f64;
  m_Counter : option f64;
  m_Untyped : option f64;
  m_Summary : option Summary;
  m_Histogram : option Histogram;
}.
Record MetricFamily := MkFamily { mf_Type : MetricType; mf_Metric : list PromMetric }.

Definition nil_dereference : string := "invalid memory address or nil pointer dereference".

(** ** point_builder.go *)

Section builder.
Context {F : Type} `{!MetricFilter F}.
(** The order in which a tag map is visited when its label pairs are made. *)
Context (order : tagmap -> list (string * string)).

Record pointBuilder := MkBuilder {
  pb_filters : option F;
  pb_source : string;
  pb_prefix : string;
  pb_omitBucketSuffix : bool;
  pb_tags : tagmap;
  pb_histogramConversion : bool;  (** experimental.IsEnabled(HistogramConversion) *)
}.

(** The tag maps on the heap, the points so far and the filtered counter. *)
Record build_state := MkBuild { b_heap : heap; b_points : list wfmetric; b_filtered : Z }.

Definition append_metric (b : pointBuilder) (st : build_state) (m : wfmetric) : build_state :=
  let '(h, points, n) := FilterAppend (pb_filters b) (b_heap st) (b_points st) (Some m) in
  MkBuild h points (b_filtered st + n).

Definition metric_name (b : pointBuilder) (name : string) : string :=
  (pb_prefix b +:+ replace_char "_" "." name)%string.

Definition deduplicate (tags : tagmap) : list (string * string) := order tags.

Definition build_point (b : pointBuilder) (name : string) (value : f64) (ts : Z) (tags : tagmap) : wfmetric :=
  MPoint (SetLabelPairs (deduplicate tags) (NewPoint (metric_name b name) value ts (pb_source b) None)).

Definition nonempty (s : string) : bool := negb (String.eqb s "").

Definition buildTags (b : pointBuilder) (m : PromMetric) : tagmap :=
  foldl (fun tags '(n, v) => if nonempty n && nonempty v then <[n := v]> tags else tags)
    (filter (fun '(_, v) => nonempty v = true) (pb_tags b)) (m_Label m).

Definition buildPoints (b : pointBuilder) (name : string) (m : PromMetric) (now : Z) (st : build_state)
    : build_state :=
  let value suffix v :=
    if f64_is_nan v then st
    else append_metric b st (build_point b (name +:+ suffix)%string v now (buildTags b m)) in
  match m_Gauge m, m_Counter m, m_Untyped m with
  | Some v, _, _ => value ".gauge" v
  | None, Some v, _ => value ".counter" v
  | None, None, Some v => value ".value" v
  | None, None, None => st
  end.

Definition buildSummaryPoints (b : pointBuilder) (name : string) (m : PromMetric) (now : Z) (tags : tagmap)
    (st : build_state) : result build_state :=
  match m_Summary m with
  | None => Err nil_dereference
  | Some s =>
      let st := foldl (fun st q =>
          if f64_is_nan (q_Value q) then st
          else append_metric b st
                 (build_point b name (q_Value q) now (<["quantile" := sprint_float (q_Quantile q)]> tags)))
        st (s_Quantile s) in
      let st := append_metric b st (build_point b (name +:+ ".count")%string (f64_of_Z (s_SampleCount s)) now tags) in
      Ok (append_metric b st (build_point b (name +:+ ".sum")%string (s_SampleSum s) now tags))
  end.

(** The tag map of the histogram is a new one. *)
Definition buildWFHistogram (b : pointBuilder) (name : string) (m : PromMetric) (now : Z) (tags : positive)
    : result wfmetric :=
  match m_Histogram m with
  | None => Err nil_dereference
  | Some hist =>
      let centroids := (fun bk => MkCentroid (UpperBound bk) (f64_of_Z (CumulativeCount bk))) <$> h_Bucket hist in
      Ok (MDist (NewCumulativeDistribution (metric_name b name) (pb_source b) (Some tags) centroids
                   (now * second)))
  end.

Definition histogramName (b : pointBuilder) (name : string) : string :=
  if pb_omitBucketSuffix b then name else (name +:+ ".bucket")%string.

Definition buildHistogramPoints (b : pointBuilder) (name : string) (m : PromMetric) (now : Z) (tags : tagmap)
    (st : build_state) : result build_state :=
  match m_Histogram m with
  | None => Err nil_dereference
  | Some hist =>
      let st := foldl (fun st bk =>
          append_metric b st
            (build_point b (histogramName b name) (f64_of_Z (CumulativeCount bk)) now
               (<["le" := sprint_float (UpperBound bk)]> tags)))
        st (h_Bucket hist) in
      let st := append_metric b st (build_point b (name +:+ ".count")%string (f64_of_Z (h_SampleCount hist)) now tags) in
      Ok (append_metric b st (build_point b (name +:+ ".sum")%string (h_SampleSum hist) now tags))
  end.

(** One metric of a family. *)
Definition build_metric (b : pointBuilder) (now : Z) (name : string) (type : MetricType) (st : build_state)
    (m : PromMetric) : result build_state :=
  match type with
  | SUMMARY => buildSummaryPoints b name m now (buildTags b m) st
  | HISTOGRAM =>
      st ← (if pb_histogramConversion b then
              let l := fresh (dom (b_heap st)) in
              let st := MkBuild (<[l := buildTags b m]> (b_heap st)) (b_points st) (b_filtered st) in
              point ← buildWFHistogram b name m now l;
              Ok (append_metric b st point)
            else Ok st);
      buildHistogramPoints b name m now (buildTags b m) st
  | _ => Ok (buildPoints b name m now st)
  end.

(** [build]; the families in the order they are visited. *)
Definition build (b : pointBuilder) (now : Z) (families : list (string * MetricFamily)) (st : build_state)
    : result build_state :=
  foldM (fun st '(name, mf) => foldM (build_metric b now name (mf_Type mf)) st (mf_Metric mf)) st families.

(** ** prometheus.go: [parseMetrics] and [Scrape] *)

(** The text parser: the families it returns, in the order they are visited
    (also when it returns an error, which is logged), and the error. *)
Context (TextToMetricFamilies : string -> list (string * MetricFamily) * option string).

(** [parseMetrics]; [clock i] is the time at which chunk [i] is converted.  The
    error it declares is shadowed in the loop and never returned. *)
Definition parseMetrics (b : pointBuilder) (clock : nat -> Z) (body : string) (st : build_state)
    : result build_state :=
  foldM (fun st '(now, chunk) => build b now (TextToMetricFamilies chunk).1 st) st
    (imap (fun i chunk => (clock i, chunk)) (chunks body)).

(** What the HTTP client gives: an error, or a status and the body that can be
    read. *)
Inductive response := GetError (e : string) | Response (StatusCode : Z) (Status : string) (body : string).

Record scrape_counters := MkScrape { collectErrors : Z; sc_eps : Z; collectedPoints : Z; sc_pps : Z }.

Definition batch_points (ms : list wfmetric) : Z := zsum Metric_Points ms.

(** [Scrape]: the counters, the heap, and the metrics or the error.  A panic
    of the point builder ends the program: [None]. *)
Definition Scrape (b : pointBuilder) (metricsURL : string) (clock : nat -> Z) (resp : response)
    (c : scrape_counters) (h : heap) : option (scrape_counters * heap * result (list wfmetric)) :=
  let failed := MkScrape (collectErrors c + 1) (sc_eps c + 1) (collectedPoints c) (sc_pps c) in
  match resp with
  | GetError e => Some (failed, h, Err e)
  | Response code status body =>
      if negb (code =? 200)%Z then
        Some (failed, h, Err ("error retrieving prometheus metrics from " +:+ metricsURL +:+
                              " (http status " +:+ status +:+ ")")%string)
      else
        match parseMetrics b clock body (MkBuild h [] 0) with
        | Err _ => None
        | Ok st =>
            let n := batch_points (b_points st) in
            Some (MkScrape (collectErrors c) (sc_eps c) (collectedPoints c + n) (sc_pps c + n),
                  b_heap st, Ok (b_points st))
        end
  end.
End builder.
Arguments pointBuilder F : clear implicits.

(** [extractTags], the tags of the source's own counters. *)
Definition extractTags (tags : tagmap) (discovered metricsURL : string) : tagmap :=
  let kept := filter (fun '(k, _) => k ∈ ["pod"; "service"; "apiserver"; "namespace"; "node"]) tags in
  let kept := if negb (String.eqb discovered "") then <["discovered" := discovered]> kept
              else <["url" := metricsURL]> (<["discovered" := "static"]> kept) in
  <["type" := "prometheus"]> kept.

(** ** lookup_instances.go *)

Record EndpointPort := MkEndpointPort { ep_Name : string; ep_Port : Z }.
Record EndpointSubset := MkSubset { Addresses : list string; Ports : list EndpointPort }.
Record Instance_ := MkInstance { i_Host : string; i_Tags : option tagmap }.

Fixpoint choose_port (httpPort : Z) (ports : list EndpointPort) : Z :=
  match ports with
  | [] => httpPort
  | port :: ports' =>
      let httpPort := if String.eqb (ep_Name port) "http" then ep_Port port else httpPort in
      if String.eqb (ep_Name port) "https" then ep_Port port else choose_port httpPort ports'
  end.
Definition choosePort (ports : list EndpointPort) : Z := choose_port (-1) ports.

Definition instancesFromSubset (subset : EndpointSubset) : result (list Instance_) :=
  let port := choosePort (Ports subset) in
  if (port =? -1)%Z then Err "could not find either HTTP or HTTPS port"
  else Ok ((fun ip => let host := (ip +:+ ":" +:+ sprint_int port)%string in
                      MkInstance host (Some {["instance" := host]})) <$> Addresses subset).

Definition host_le (a b : Instance_) : Prop := String.le (i_Host a) (i_Host b).
#[export] Instance host_le_dec a b : Decision (host_le a b).
Proof. unfold host_le. apply _. Defined.

(** The loop of [removeDuplicateInstances]; [unique] is kept reversed. *)
Definition unique_step (unique : list Instance_) (i : Instance_) : list Instance_ :=
  match unique with
  | [] => [i]
  | u :: _ => if String.eqb (i_Host u) (i_Host i) then unique else i :: unique
  end.
Definition removeDuplicateInstances (instances : list Instance_) : list Instance_ :=
  reverse (foldl unique_step [] (merge_sort host_le instances)).

Definition instancesFromEndpoints (subsets : list EndpointSubset) : result (list Instance_) :=
  instances ← foldM (fun acc s => toAdd ← instancesFromSubset s; Ok (acc ++ toAdd)) [] subsets;
  Ok (removeDuplicateInstances instances).

Definition InstanceFromHost (instance : string) : result (list Instance_) := Ok [MkInstance instance None].

(** ** The provider *)

Section provider.
Context {S : Type}.
Context (lookupInstances : string -> result (list Instance_)).
(** [buildSource] on the URL with the host replaced and the instance's tags. *)
Context (buildSource : string -> option tagmap -> result S).

Definition GetMetricsSources (useLeaderElection leading : bool) (host : string) : list S :=
  if useLeaderElection && negb leading then []
  else match lookupInstances host with
       | Err _ => []
       | Ok instances =>
           omap (fun i => match buildSource (i_Host i) (i_Tags i) with Ok s => Some s | Err _ => None end) instances
       end.
End provider.

(** The tags of a source: the configured ones overlaid by the instance's. *)
Definition source_tags (cfg : tagmap) (instance : option tagmap) : tagmap :=
  copy_into (copy_into ∅ cfg) (default ∅ instance).
Definition uses_leader_election (UseLeaderElection : bool) (discovered : string) : bool :=
  UseLeaderElection || String.eqb discovered "".
Definition provider_name (name url : string) : string :=
  ("prometheus_metrics_provider: " +:+ (if nonempty name then name else url))%string.

(** ** What a metric should become *)

Section expected.
Context {F : Type} (b : pointBuilder F) (now : Z).

Definition expected_point (name : string) (value : f64) (tags : tagmap) : described :=
  MkDescribed (metric_name b name) (PValue value now) (pb_source b) tags.

(** The kind of a plain metric: the suffix of its name and its value. *)
Definition plain_value (m : PromMetric) : option (string * f64) :=
  match m_Gauge m with
  | Some v => Some (".gauge", v)
  | None => match m_Counter m with
            | Some v => Some (".counter", v)
            | None => (fun v => (".value", v)) <$> m_Untyped m
            end
  end.

Definition expected_totals (name : string) (count : Z) (sum : f64) (tags : tagmap) : list described :=
  [expected_point (name +:+ ".count") (f64_of_Z count) tags; expected_point (name +:+ ".sum") sum tags].

Definition expected_metric (name : string) (type : MetricType) (m : PromMetric) : list described :=
  let tags := buildTags b m in
  match type with
  | SUMMARY =>
      match m_Summary m with
      | None => []
      | Some s =>
          (q ← s_Quantile s;
           if f64_is_nan (q_Value q) then []
           else [expected_point name (q_Value q) (<["quantile" := sprint_float (q_Quantile q)]> tags)])
          ++ expected_totals name (s_SampleCount s) (s_SampleSum s) tags
      end
  | HISTOGRAM =>
      match m_Histogram m with
      | None => []
      | Some hist =>
          (if pb_histogramConversion b then
             [MkDescribed (metric_name b name)
                (PCentroids (sort_centroids ((fun bk => MkCentroid (UpperBound bk) (f64_of_Z (CumulativeCount bk)))
                               <$> h_Bucket hist)) (now * second)) (pb_source b) tags]
           else [])
          ++ (bk ← h_Bucket hist;
              [expected_point (histogramName b name) (f64_of_Z (CumulativeCount bk))
                 (<["le" := sprint_float (UpperBound bk)]> tags)])
          ++ expected_totals name (h_SampleCount hist) (h_SampleSum hist) tags
      end
  | _ => match plain_value m with
         | Some (suffix, v) => if f64_is_nan v then [] else [expected_point (name +:+ suffix) v tags]
         | None => []
         end
  end.

Definition expected_families (families : list (string * MetricFamily)) : list described :=
  '(name, mf) ← families; m ← mf_Metric mf; expected_metric name (mf_Type mf) m.
End expected.

(** The sub-messages the code follows without a test are there. *)
Definition metric_ok (type : MetricType) (m : PromMetric) : bool :=
  match type with
  | SUMMARY => bool_decide (is_Some (m_Summary m))
  | HISTOGRAM => bool_decide (is_Some (m_Histogram m))
  | _ => true
  end.
Definition families_ok (families : list (string * MetricFamily)) : bool :=
  forallb (fun '(_, mf) => forallb (metric_ok (mf_Type mf)) (mf_Metric mf)) families.

(** ** Lemmas on the builder *)

Lemma pairs_map_iterates (l : list (string * string)) (t : tagmap) : iterates l t -> pairs_map l = t.
Proof.
  intros Hl. apply map_eq. intros k. rewrite <-(iterates_to_map _ _ Hl). pose proof (iterates_NoDup _ _ Hl) as Hnd.
  clear Hl. unfold pairs_map. induction l as [|[n v] l IH] using rev_ind; [done|].
  rewrite foldl_app. cbn. rewrite fmap_app in Hnd. apply NoDup_app in Hnd as (Hnd & Hd & _).
  rewrite list_to_map_app, lookup_union. cbn. rewrite insert_empty. destruct (decide (k = n)) as [->|Hne].
  - rewrite lookup_insert_eq, lookup_singleton_eq.
    rewrite (not_elem_of_list_to_map_1 l n); [done|]. intros Hn. apply (Hd n Hn). by left.
  - rewrite lookup_insert_ne, lookup_singleton_ne by done. rewrite IH by done. by destruct (list_to_map l !! k).
Qed.

Section build_proofs.
Context {F : Type} `{!MetricFilter F}.
Context (order : tagmap -> list (string * string)) (Horder : forall t, iterates (order t) t).
Context (b : pointBuilder F) (now : Z).

Definition owned (h : heap) (m : wfmetric) : Prop :=
  match tags_ref m with Some l => is_Some (h !! l) | None => True end.

(** The state grew by the filtered descriptions of [ds]. *)
Record grown (st st' : build_state) (ds : list described) : Prop := {
  grown_owned : Forall (owned (b_heap st')) (b_points st');
  grown_points : describe (b_heap st') <$> b_points st'
    = (describe (b_heap st) <$> b_points st) ++ (ds ≫= filter_described (pb_filters b));
  grown_filtered : b_filtered st' = (b_filtered st + Z.of_nat (length ds)
    - Z.of_nat (length (ds ≫= filter_described (pb_filters b))))%Z;
}.

Lemma grown_refl st : Forall (owned (b_heap st)) (b_points st) -> grown st st [].
Proof. intros H. split; [done|by rewrite app_nil_r|cbn; lia]. Qed.

Lemma grown_trans st1 st2 st3 ds1 ds2 :
  grown st1 st2 ds1 -> grown st2 st3 ds2 -> grown st1 st3 (ds1 ++ ds2).
Proof.
  intros [_ P1 F1] [O2 P2 F2]. split; [done| |].
  - by rewrite P2, P1, bind_app, app_assoc.
  - rewrite F2, F1, bind_app, !length_app. lia.
Qed.

Lemma describe_points h h' pts :
  Forall (owned h) pts -> (forall m l, m ∈ pts -> tags_ref m = Some l -> h' !! l = h !! l) ->
  describe h' <$> pts = describe h <$> pts.
Proof.
  intros Ho Hh. apply list_fmap_ext. intros i m Hm%list_elem_of_lookup_2. apply describe_same.
  destruct (tags_ref m) as [l|] eqn:E; [|done]. cbn. by rewrite (Hh m l Hm E).
Qed.

(** Appending a metric whose tag map no earlier metric uses. *)
Lemma append_metric_grown st m :
  Forall (owned (b_heap st)) (b_points st) -> owned (b_heap st) m ->
  (forall m' l, m' ∈ b_points st -> tags_ref m = Some l -> tags_ref m' <> Some l) ->
  grown st (append_metric b st m) [describe (b_heap st) m].
Proof.
  intros Ho Hm Hsep. unfold append_metric.
  destruct (FilterAppend_spec (pb_filters b) (b_heap st) (b_points st) m) as (h' & new & -> & Hd & Ht & Hh & Hdom).
  assert (Hold : describe h' <$> b_points st = describe (b_heap st) <$> b_points st).
  { apply describe_points; [done|]. intros m' l Hm' Hl. apply Hh. intros E. by apply (Hsep m' l). }
  assert (Hown : forall x, owned (b_heap st) x -> owned h' x).
  { intros x. unfold owned. destruct (tags_ref x); [apply Hdom|done]. }
  split; cbn.
  - apply Forall_app. split; [by eapply Forall_impl|].
    eapply Forall_impl; [exact Ht|]. intros x Hx. apply Hown. unfold owned. by rewrite Hx.
  - by rewrite fmap_app, Hold, Hd, app_nil_r.
  - rewrite app_nil_r. apply (f_equal length) in Hd. rewrite length_fmap in Hd. rewrite <-Hd. lia.
Qed.

Lemma build_point_grown st name value tags :
  Forall (owned (b_heap st)) (b_points st) ->
  grown st (append_metric b st (build_point order b name value now tags)) [expected_point b now name value tags].
Proof.
  intros Ho. assert (describe (b_heap st) (build_point order b name value now tags)
    = expected_point b now name value tags) as <-; [|by apply append_metric_grown].
  unfold describe, expected_point. cbn. unfold deduplicate. rewrite (pairs_map_iterates _ tags) by done.
  f_equal. apply (left_id_L ∅ (∪)).
Qed.

(** A loop that appends points. *)
Lemma grown_loop {A} (step : build_state -> A -> build_state) (ds : A -> list described) l st :
  (forall st a, Forall (owned (b_heap st)) (b_points st) -> grown st (step st a) (ds a)) ->
  Forall (owned (b_heap st)) (b_points st) -> grown st (foldl step st l) (l ≫= ds).
Proof.
  intros Hstep. revert st; induction l as [|a l IH]; intros st Ho; [by apply grown_refl|]. cbn.
  pose proof (Hstep st a Ho) as H1. eapply grown_trans; [exact H1|]. apply IH, (grown_owned _ _ _ H1).
Qed.

Lemma totals_grown st name count sum tags :
  Forall (owned (b_heap st)) (b_points st) ->
  grown st (append_metric b (append_metric b st
      (build_point order b (name +:+ ".count") (f64_of_Z count) now tags))
      (build_point order b (name +:+ ".sum") sum now tags))
    (expected_totals b now name count sum tags).
Proof.
  intros Ho. unfold expected_totals. change [?a; ?b] with ([a] ++ [b]).
  eapply grown_trans; apply build_point_grown; [done|]. by eapply grown_owned, build_point_grown.
Qed.

Lemma grown_then st st1 st2 ds1 ds2 :
  grown st st1 ds1 -> (Forall (owned (b_heap st1)) (b_points st1) -> grown st1 st2 ds2) ->
  grown st st2 (ds1 ++ ds2).
Proof. intros H1 H2. eapply grown_trans; [exact H1|]. apply H2, (grown_owned _ _ _ H1). Qed.

(** Appending a histogram with a new tag map. *)
Lemma dist_grown st name tags cs :
  Forall (owned (b_heap st)) (b_points st) ->
  let l := fresh (dom (b_heap st)) in
  grown st (append_metric b (MkBuild (<[l := tags]> (b_heap st)) (b_points st) (b_filtered st))
      (MDist (NewCumulativeDistribution name (pb_source b) (Some l) cs (now * second))))
    [MkDescribed name (PCentroids (sort_centroids cs) (now * second)) (pb_source b) tags].
Proof.
  intros Ho l. set (st1 := MkBuild (<[l := tags]> (b_heap st)) (b_points st) (b_filtered st)).
  assert (Hl : b_heap st !! l = None) by (apply not_elem_of_dom, is_fresh).
  assert (Hne : forall m' l', m' ∈ b_points st -> tags_ref m' = Some l' -> l' <> l).
  { intros m' l' Hm' E ->. rewrite Forall_forall in Ho. specialize (Ho m' Hm'). unfold owned in Ho.
    rewrite E, Hl in Ho. by destruct Ho. }
  assert (Ho1 : Forall (owned (b_heap st1)) (b_points st1)).
  { eapply Forall_impl; [exact Ho|]. intros x. unfold owned. destruct (tags_ref x) as [l'|]; [|done]. cbn.
    intros [t Ht]. destruct (decide (l' = l)) as [->|?]; [by rewrite lookup_insert_eq; eauto|].
    by rewrite lookup_insert_ne; eauto. }
  assert (Hold : grown st st1 []).
  { split; [done| |cbn; lia]. cbn. rewrite app_nil_r. apply describe_points; [done|].
    intros m' l' Hm' E. rewrite lookup_insert_ne; [done|]. intros <-. by apply (Hne m' l). }
  change [?d] with ([] ++ [d]). eapply grown_trans; [exact Hold|].
  assert (describe (b_heap st1) (MDist (NewCumulativeDistribution name (pb_source b) (Some l) cs (now * second)))
    = MkDescribed name (PCentroids (sort_centroids cs) (now * second)) (pb_source b) tags) as <-.
  { cbn. by rewrite lookup_insert_eq. }
  apply append_metric_grown; [done| |].
  - unfold owned. cbn. rewrite lookup_insert_eq. eauto.
  - intros m' l' Hm' [= <-] E. by apply (Hne m' l).
Qed.

Lemma build_metric_grown st name type m :
  Forall (owned (b_heap st)) (b_points st) ->
  if metric_ok type m then
    exists st', build_metric order b now name type st m = Ok st' /\ grown st st' (expected_metric b now name type m)
  else build_metric order b now name type st m = Err nil_dereference.
Proof.
  intros Ho.
  assert (Hplain : grown st (buildPoints order b name m now st)
    (match plain_value m with
     | Some (suffix, v) => if f64_is_nan v then [] else [expected_point b now (name +:+ suffix) v (buildTags b m)]
     | None => [] end)).
  { unfold buildPoints, plain_value. destruct (m_Gauge m), (m_Counter m), (m_Untyped m); cbn;
      try destruct (f64_is_nan _); by (apply grown_refl || apply build_point_grown). }
  unfold metric_ok, build_metric, expected_metric. destruct type; try (by eauto).
  - unfold buildSummaryPoints. destruct (m_Summary m) as [s|]; cbn; [|done]. eexists. split; [done|].
    eapply grown_then; [|intros; by apply totals_grown]. apply grown_loop; [|done]. intros st' q Ho'.
    destruct (f64_is_nan (q_Value q)); by (apply grown_refl || apply build_point_grown).
  - unfold buildHistogramPoints, buildWFHistogram. destruct (m_Histogram m) as [hist|]; cbn.
    2:{ by destruct (pb_histogramConversion b). }
    assert (Hconv : exists st1, (if pb_histogramConversion b then
        Ok (append_metric b (MkBuild (<[fresh (dom (b_heap st)) := buildTags b m]> (b_heap st)) (b_points st)
              (b_filtered st))
             (MDist (NewCumulativeDistribution (metric_name b name) (pb_source b) (Some (fresh (dom (b_heap st))))
               ((fun bk => MkCentroid (UpperBound bk) (f64_of_Z (CumulativeCount bk))) <$> h_Bucket hist) (now * second))))
        else Ok st) = Ok st1 /\ grown st st1 (if pb_histogramConversion b then
             [MkDescribed (metric_name b name)
                (PCentroids (sort_centroids ((fun bk => MkCentroid (UpperBound bk) (f64_of_Z (CumulativeCount bk)))
                               <$> h_Bucket hist)) (now * second)) (pb_source b) (buildTags b m)]
           else [])).
    { destruct (pb_histogramConversion b); [|by eexists; split; [|apply grown_refl]].
      eexists. split; [done|]. by apply dist_grown. }
    destruct Hconv as (st1 & Hst1 & Hg1). cbn in Hst1. rewrite Hst1. cbn. eexists. split; [done|].
    eapply grown_trans; [exact Hg1|]. apply grown_owned in Hg1.
    eapply grown_then; [|intros; by apply totals_grown]. apply grown_loop; [|done]. intros st' bk Ho'.
    by apply build_point_grown.
Qed.

(** A fallible loop that appends points and fails on the first item that is
    not well formed. *)
Lemma grown_foldM {A} (step : build_state -> A -> result build_state) (ok : A -> bool)
    (ds : A -> list described) l st :
  (forall st a, Forall (owned (b_heap st)) (b_points st) ->
     if ok a then exists st', step st a = Ok st' /\ grown st st' (ds a) else step st a = Err nil_dereference) ->
  Forall (owned (b_heap st)) (b_points st) ->
  if forallb ok l then exists st', foldM step st l = Ok st' /\ grown st st' (l ≫= ds)
  else foldM step st l = Err nil_dereference.
Proof.
  intros Hstep. revert st; induction l as [|a l IH]; intros st Ho; cbn; [by eexists; split; [|apply grown_refl]|].
  pose proof (Hstep st a Ho) as Ha. destruct (ok a); cbn; [|by rewrite Ha].
  destruct Ha as (st1 & -> & H1). cbn. specialize (IH st1 (grown_owned _ _ _ H1)).
  destruct (forallb ok l); [|done]. destruct IH as (st2 & -> & H2). exists st2. split; [done|].
  by eapply grown_trans.
Qed.

Lemma build_grown families st :
  Forall (owned (b_heap st)) (b_points st) ->
  if families_ok families then
    exists st', build order b now families st = Ok st' /\ grown st st' (expected_families b now families)
  else build order b now families st = Err nil_dereference.
Proof.
  intros Ho. unfold build, families_ok, expected_families.
  apply (grown_foldM _ (fun '(_, mf) => forallb (metric_ok (mf_Type mf)) (mf_Metric mf))
    (fun '(name, mf) => mf_Metric mf ≫= expected_metric b now name (mf_Type mf))); [|done].
  intros st' [name mf] Ho'. apply (grown_foldM _ (metric_ok (mf_Type mf))); [|done].
  intros st'' m Ho''. by apply build_metric_grown.
Qed.
End build_proofs.

(** What the page of a scrape should become. *)
Definition expected_page {F} (b : pointBuilder F) (parser : string -> list (string * MetricFamily) * option string)
    (clock : nat -> Z) (body : string) : list described :=
  '(now, chunk) ← imap (fun i chunk => (clock i, chunk)) (chunks body); expected_families b now (parser chunk).1.
Definition page_ok (parser : string -> list (string * MetricFamily) * option string) (body : string) : bool :=
  forallb (fun chunk => families_ok (parser chunk).1) (chunks body).

Lemma forallb_imap {A B} (f : nat -> A -> B) (p : B -> bool) (q : A -> bool) l :
  (forall i a, p (f i a) = q a) -> forallb p (imap f l) = forallb q l.
Proof.
  intros H. revert f H; induction l as [|a l IH]; intros f H; [done|]. cbn. rewrite H. f_equal.
  apply IH. intros i x. apply H.
Qed.

(** ** Properties *)

(** C8: a scrape.  A failed request and a status other than 200 are counted
    and reported.  Otherwise, for every parser, filter and visiting order: when
    every summary and histogram the parser returned carries its sub-message,
    the batch is the description of the page, metric by metric, with the
    metrics the filter rejects left out and the tags it rejects removed, and
    the points are counted; when one does not carry it, the scrape panics. *)
Theorem Scrape_spec {F : Type} `{!MetricFilter F} (order : tagmap -> list (string * string))
    (parser : string -> list (string * MetricFamily) * option string) (b : pointBuilder F)
    (url : string) (clock : nat -> Z) (c : scrape_counters) (h : heap) :
  (forall t, iterates (order t) t) ->
  (forall e, Scrape order parser b url clock (GetError e) c h =
     Some (MkScrape (collectErrors c + 1) (sc_eps c + 1) (collectedPoints c) (sc_pps c), h, Err e)) /\
  (forall code status body, code <> 200%Z -> exists e,
     Scrape order parser b url clock (Response code status body) c h =
     Some (MkScrape (collectErrors c + 1) (sc_eps c + 1) (collectedPoints c) (sc_pps c), h, Err e)) /\
  (forall status body,
     (page_ok parser body = false -> Scrape order parser b url clock (Response 200 status body) c h = None) /\
     (page_ok parser body = true -> exists h' ms,
       Scrape order parser b url clock (Response 200 status body) c h =
         Some (MkScrape (collectErrors c) (sc_eps c) (collectedPoints c + batch_points ms) (sc_pps c + batch_points ms),
               h', Ok ms) /\
       describe h' <$> ms = expected_page b parser clock body ≫= filter_described (pb_filters b))).
Proof.
  intros Hord. split_and!; [done| |].
  { intros code status body Hc. unfold Scrape. rewrite (proj2 (Z.eqb_neq _ _)) by done. by eexists. }
  intros status body. unfold Scrape, parseMetrics. cbn [negb Z.eqb Pos.eqb].
  pose proof (grown_foldM b (fun st '(now, chunk) => build order b now (parser chunk).1 st)
    (fun '(_, chunk) => families_ok (parser chunk).1)
    (fun '(now, chunk) => expected_families b now (parser chunk).1)
    (imap (fun i chunk => (clock i, chunk)) (chunks body)) (MkBuild h [] 0)) as H.
  rewrite (forallb_imap _ _ (fun chunk => families_ok (parser chunk).1)) in H by done.
  fold (page_ok parser body) in H. split; intros Hok; rewrite Hok in H.
  - rewrite H; [done| |constructor]. intros st [now chunk] Ho. by apply build_grown.
  - destruct H as (st' & Hst & Hg); [|constructor|].
    { intros st [now chunk] Ho. by apply build_grown. }
    rewrite Hst. eexists _, _. split; [done|]. by rewrite (grown_points _ _ _ _ Hg).
Qed.

Lemma Scrape_spec_witness :
  let counter := MkPromMetric [("code", "200")] None (Some (f64_of_Z 7)) None None None in
  let parser := fun _ : string => ([("http_requests", MkFamily COUNTER [counter])], @None string) in
  let b := MkBuilder (F := tag_keeper) None "node-1" "prom." false {["env" := "test"]} false in
  let body := unlines ["# TYPE http_requests counter"; "http_requests{code=200} 7"] in
  exists h' ms,
    Scrape map_to_list parser b "http://host/metrics" (fun _ => 60%Z) (Response 200 "200 OK" body)
      (MkScrape 0 0 0 0) ∅ = Some (MkScrape 0 0 (batch_points ms) (batch_points ms), h', Ok ms) /\
    describe h' <$> ms =
      [MkDescribed "prom.http.requests.counter" (PValue (f64_of_Z 7) 60) "node-1"
         (<["code" := "200"]> {["env" := "test"]})].
Proof.
  intros counter parser b body.
  destruct (Scrape_spec map_to_list parser b "http://host/metrics" (fun _ => 60%Z) (MkScrape 0 0 0 0) ∅)
    as (_ & _ & H); [intros t; apply iterates_canonical|].
  destruct (H "200 OK" body) as [_ H2]. destruct H2 as (h' & ms & E & Hd); [by vm_compute|].
  exists h', ms. split; [exact E|]. etransitivity; [exact Hd|]. by vm_compute.
Defined.

(** ** Instances *)

Fixpoint uniq (prev : option string) (l : list Instance_) : list Instance_ :=
  match l with
  | [] => []
  | i :: l' => if bool_decide (prev = Some (i_Host i)) then uniq prev l' else i :: uniq (Some (i_Host i)) l'
  end.

Lemma unique_loop l acc :
  foldl unique_step acc l = reverse (uniq (i_Host <$> head acc) l) ++ acc.
Proof.
  revert acc; induction l as [|i l IH]; intros acc; [done|]. cbn [foldl uniq]. rewrite IH.
  destruct acc as [|u acc]; cbn.
  - by rewrite bool_decide_eq_false_2, reverse_cons, <-app_assoc by done.
  - destruct (String.eqb_spec (i_Host u) (i_Host i)) as [E|E].
    + rewrite bool_decide_eq_true_2 by congruence. done.
    + rewrite bool_decide_eq_false_2 by congruence. by rewrite reverse_cons, <-app_assoc.
Qed.

Lemma removeDuplicate_uniq l : removeDuplicateInstances l = uniq None (merge_sort host_le l).
Proof. unfold removeDuplicateInstances. by rewrite unique_loop, app_nil_r, reverse_involutive. Qed.

Lemma uniq_sublist prev l : uniq prev l `sublist_of` l.
Proof.
  revert prev; induction l as [|i l IH]; intros prev; cbn; [done|]. case_bool_decide.
  - by apply sublist_cons.
  - by apply sublist_skip.
Qed.

Lemma uniq_keeps prev l i : i ∈ l -> prev = Some (i_Host i) \/ exists j, j ∈ uniq prev l /\ i_Host j = i_Host i.
Proof.
  revert prev; induction l as [|x l IH]; intros prev; [by intros ?%not_elem_of_nil|]. cbn.
  intros [->|Hi]%elem_of_cons; case_bool_decide as E; [by left| |by apply IH|].
  - right. exists x. split; [by left|done].
  - destruct (IH (Some (i_Host x)) Hi) as [[= Ex]|(j & Hj & Ej)].
    + right. exists x. split; [by left|done].
    + right. exists j. split; [by right|done].
Qed.

Lemma uniq_new h l j :
  StronglySorted host_le l -> Forall (fun i => String.le h (i_Host i)) l -> j ∈ uniq (Some h) l -> i_Host j <> h.
Proof.
  induction 1 as [|i l Hs IH Hi]; [by intros _ ?%not_elem_of_nil|]. intros [Hhi Hl]%Forall_cons. cbn.
  case_bool_decide as E; [by apply IH|]. intros [->|Hj]%elem_of_cons Ej; [congruence|].
  assert (j ∈ l) as Hjl by (eapply elem_of_sublist; [exact Hj|apply uniq_sublist]).
  rewrite Forall_forall in Hi. specialize (Hi j Hjl). unfold host_le in Hi. rewrite Ej in Hi.
  apply E. f_equal. by apply (anti_symm String.le).
Qed.

Lemma uniq_NoDup prev l : StronglySorted host_le l -> NoDup (i_Host <$> uniq prev l).
Proof.
  intros Hs. revert prev; induction Hs as [|i l Hs IH Hi]; intros prev; cbn; [constructor|].
  case_bool_decide; [apply IH|]. cbn. constructor; [|apply IH]. intros (j & Ej & Hj)%list_elem_of_fmap.
  by apply (uniq_new (i_Host i) l j).
Qed.

Lemma uniq_sorted prev l : StronglySorted host_le l -> StronglySorted host_le (uniq prev l).
Proof.
  intros Hs. revert prev; induction Hs as [|i l Hs IH Hi]; intros prev; cbn; [constructor|].
  case_bool_decide; [apply IH|]. constructor; [apply IH|]. rewrite Forall_forall in Hi |- *.
  intros j Hj. apply Hi. eapply elem_of_sublist; [exact Hj|apply uniq_sublist].
Qed.

#[export] Instance host_le_total : Total host_le.
Proof. intros a b. unfold host_le. apply (total String.le). Qed.
#[export] Instance host_le_trans : Transitive host_le.
Proof. intros a b c. unfold host_le. apply (transitivity (R := String.le)). Qed.

(** The instance of an address behind a port. *)
Definition instance_at (ip : string) (port : Z) : Instance_ :=
  let host := (ip +:+ ":" +:+ sprint_int port)%string in MkInstance host (Some {["instance" := host]}).

Definition all_instances (subsets : list EndpointSubset) : list Instance_ :=
  s ← subsets; (fun ip => instance_at ip (choosePort (Ports s))) <$> Addresses s.

Lemma collect_instances subsets acc :
  foldM (fun acc s => toAdd ← instancesFromSubset s; Ok (acc ++ toAdd)) acc subsets =
  if forallb (fun s => negb (choosePort (Ports s) =? -1)%Z) subsets then Ok (acc ++ all_instances subsets)
  else Err "could not find either HTTP or HTTPS port".
Proof.
  revert acc; induction subsets as [|s subsets IH]; intros acc; [by cbn; rewrite app_nil_r|].
  cbn [foldM forallb]. assert (Hs : instancesFromSubset s = if (choosePort (Ports s) =? -1)%Z
    then Err "could not find either HTTP or HTTPS port"
    else Ok ((fun ip => instance_at ip (choosePort (Ports s))) <$> Addresses s)) by done.
  rewrite Hs. destruct (choosePort (Ports s) =? -1)%Z; [done|].
  cbn [mbind result_bind negb andb]. rewrite IH. destruct (forallb _ subsets); [|done].
  unfold all_instances. cbn [mbind list_bind]. by rewrite <-app_assoc.
Qed.

(** An instance is determined by its host. *)
Lemma all_instances_host subsets i j :
  i ∈ merge_sort host_le (all_instances subsets) -> j ∈ merge_sort host_le (all_instances subsets) ->
  i_Host i = i_Host j -> i = j.
Proof.
  rewrite !merge_sort_Permutation. unfold all_instances. rewrite !list_elem_of_bind.
  intros (s1 & (ip1 & -> & _)%list_elem_of_fmap & _) (s2 & (ip2 & -> & _)%list_elem_of_fmap & _).
  unfold instance_at. cbn. by intros ->.
Qed.

Lemma choose_port_eq p ports :
  choose_port p ports =
  match List.find (fun e => String.eqb (ep_Name e) "https") ports with
  | Some e => ep_Port e
  | None => default p (ep_Port <$> last (List.filter (fun e => String.eqb (ep_Name e) "http") ports))
  end.
Proof.
  revert p; induction ports as [|e ports IH]; intros p; [done|]. cbn [choose_port List.find List.filter].
  destruct (String.eqb (ep_Name e) "https") eqn:E; [done|]. rewrite IH.
  destruct (List.find _ ports); [done|]. destruct (String.eqb (ep_Name e) "http"); [|done].
  rewrite last_cons. by destruct (last (List.filter _ ports)).
Qed.

(** The instances behind a service.  The port of a subset is its first
    port named https, or else its last one named http.  The lookup fails
    exactly when some subset has neither; otherwise it gives one instance, in
    the order of host names and tagged with its host, for each address and
    port of the subsets and no other. *)
Theorem instancesFromEndpoints_spec (subsets : list EndpointSubset) :
  (forall ports, choosePort ports =
     match List.find (fun e => String.eqb (ep_Name e) "https") ports with
     | Some e => ep_Port e
     | None => default (-1)%Z (ep_Port <$> last (List.filter (fun e => String.eqb (ep_Name e) "http") ports))
     end) /\
  (Exists (fun s => choosePort (Ports s) = (-1)%Z) subsets ->
     instancesFromEndpoints subsets = Err "could not find either HTTP or HTTPS port") /\
  (Forall (fun s => choosePort (Ports s) <> (-1)%Z) subsets -> exists l,
     instancesFromEndpoints subsets = Ok l /\ StronglySorted host_le l /\ NoDup (i_Host <$> l) /\
     forall i, i ∈ l <-> exists s ip, s ∈ subsets /\ ip ∈ Addresses s /\ i = instance_at ip (choosePort (Ports s))).
Proof.
  split_and!; [intros; apply choose_port_eq| |].
  - intros (s & Hs & Ep)%Exists_exists. unfold instancesFromEndpoints. rewrite collect_instances.
    destruct (forallb _ subsets) eqn:E; [|done]. exfalso.
    rewrite forallb_forall in E. specialize (E s (proj1 (list_elem_of_In _ _) Hs)). by rewrite Ep in E.
  - intros Hall. unfold instancesFromEndpoints. rewrite collect_instances.
    assert (forallb (fun s => negb (choosePort (Ports s) =? -1)%Z) subsets = true) as ->.
    { apply forallb_forall. intros s Hs%list_elem_of_In. rewrite Forall_forall in Hall.
      apply negb_true_iff, Z.eqb_neq, (Hall s Hs). }
    cbn [mbind result_bind app]. eexists. split; [done|]. rewrite removeDuplicate_uniq.
    assert (Hs : StronglySorted host_le (merge_sort host_le (all_instances subsets)))
      by (apply StronglySorted_merge_sort; apply _).
    split_and!; [by apply uniq_sorted|by apply uniq_NoDup|]. intros i.
    assert (Hi : i ∈ merge_sort host_le (all_instances subsets) <->
      exists s ip, s ∈ subsets /\ ip ∈ Addresses s /\ i = instance_at ip (choosePort (Ports s))).
    { rewrite merge_sort_Permutation. unfold all_instances. rewrite list_elem_of_bind.
      setoid_rewrite list_elem_of_fmap. naive_solver. }
    rewrite <-Hi. split; [intros H; eapply elem_of_sublist; [exact H|apply uniq_sublist]|].
    intros H. destruct (uniq_keeps None _ i H) as [[=]|(j & Hj & Ej)].
    assert (j = i) as <-; [|done].
    assert (Hjm : j ∈ merge_sort host_le (all_instances subsets))
      by (eapply elem_of_sublist; [exact Hj|apply uniq_sublist]).
    by apply (all_instances_host subsets).
Qed.

Lemma instancesFromEndpoints_spec_witness :
  let subsets := [MkSubset ["10.0.0.2"; "10.0.0.1"] [MkEndpointPort "http" 80; MkEndpointPort "https" 443];
                  MkSubset ["10.0.0.1"] [MkEndpointPort "https" 443]] in
  exists l, instancesFromEndpoints subsets = Ok l /\ instance_at "10.0.0.2" 443 ∈ l /\ NoDup (i_Host <$> l).
Proof.
  intros subsets. destruct (instancesFromEndpoints_spec subsets) as (_ & _ & H).
  destruct H as (l & E & _ & Hnd & Hl); [by repeat constructor|].
  exists l. split_and!; [exact E| |exact Hnd]. apply Hl.
  eexists _, "10.0.0.2". split_and!; [by left|by left|done].
Defined.
