(* ===== verification/SourceManager.v ===== *)
(** Scheduling and collecting: plugins/sources/interval_timer.go,
    plugins/sources/manager.go and plugins/manager/manager.go.

    Durations and times are nanoseconds.  The goroutines of the source manager
    are a step relation: one worker per call of [AddProvider], identified by
    its quit channel, and the collecting loop [run], which is folded into the
    delivery of a batch (the channel is unbuffered).  The maps and the
    goroutines are updated under the manager's lock, so each operation is one
    step. *)

From S2P Require Import Prelude GoFloat Metrics Distribution Wf Converter.

(** ** interval_timer.go *)

Record IntervalTimer := MkTimer { it_interval : Z; it_startTime : Z; it_lastResetTime : Z }.

Definition NewIntervalTimer (now interval : Z) : IntervalTimer := MkTimer interval now now.

(** The constant 0.0333. *)
Definition early_ratio : f64 := f64_div (f64_of_Z 333) (f64_of_Z 10000).

Definition scaleInterval (interval : Z) (ratio : f64) : Z := f64_to_i64 (f64_mul (f64_of_Z interval) ratio).

(** [None] is the division by an interval of zero. *)
Definition intervalsMissed (t : IntervalTimer) (now : Z) : option Z :=
  let elapsed := time_sub now (it_lastResetTime t) in
  if (elapsed <? it_interval t)%Z then Some 0%Z
  else q ← i64_div elapsed (it_interval t); Some (i64_sub q 1).

Definition waitToNextInterval (t : IntervalTimer) (diff : Z) : option Z :=
  if (it_interval t =? 0)%Z then None
  else
    let wait := i64_sub (it_interval t) (Z.rem diff (it_interval t)) in
    Some (if (wait <? scaleInterval (it_interval t) early_ratio)%Z then i64_add wait (it_interval t) else wait).

(** [Reset]: the timer, the missed intervals and the time to wait. *)
Definition Reset (t : IntervalTimer) (now : Z) : option (IntervalTimer * Z * Z) :=
  missed ← intervalsMissed t now;
  let t := MkTimer (it_interval t) (it_startTime t) now in
  wait ← waitToNextInterval t (time_sub now (it_startTime t));
  Some (t, missed, wait).

(** ** manager.go: scraping a provider *)

Record Batch := MkBatch {
  b_Timestamp : Z;
  b_Sets : gmap string HSet;
  b_Metrics : list (option wfmetric);
}.

(** What the sources of a provider do when they are scraped.  A source that
    reports no error returns a batch. *)
Inductive outcome := Scraped (b : Batch) (latency : Z) | ScrapeFailed.
Record Source := MkSource { src_AutoDiscovered : bool; src_outcome : outcome }.

Record scrape_stats := MkStats { scrapeErrors : Z; scrapeWarnings : Z; scrapeTimeouts : Z }.

(** [scrape]: the batches sent to the channel and the counters. *)
Fixpoint scrape (timeout : Z) (sources : list Source) (st : scrape_stats) : list Batch * scrape_stats :=
  match sources with
  | [] => ([], st)
  | source :: sources' =>
      let timeout := if (timeout <=? 0)%Z then minute else timeout in
      match src_outcome source with
      | ScrapeFailed =>
          ([], if src_AutoDiscovered source
               then MkStats (scrapeErrors st) (scrapeWarnings st + 1) (scrapeTimeouts st)
               else MkStats (scrapeErrors st + 1) (scrapeWarnings st) (scrapeTimeouts st))
      | Scraped b latency =>
          let st := if (timeout <=? latency)%Z
                    then MkStats (scrapeErrors st) (scrapeWarnings st) (scrapeTimeouts st + 1) else st in
          let '(bs, st) := scrape timeout sources' st in (b :: bs, st)
      end
  end.

(** ** manager.go: providers *)

Record SourceProvider := MkProvider { pv_Name : string; pv_CollectionInterval : Z; pv_Timeout : Z }.

(** A worker: waiting for its timer, or sending the batches of a scrape. *)
Record worker := MkWorker { w_provider : SourceProvider; w_quit : bool; w_sending : list Batch }.

Record sourceManager := MkManager {
  defaultCollectionInterval : Z;
  metricsSourceProviders : gmap string SourceProvider;
  metricsSourceTimers : gmap string IntervalTimer;
  metricsSourceQuits : gmap string positive;
  workers : gmap positive worker;
  response : list Batch;
  providerCount : Z;
  cleaned : list SourceProvider;   (** whose sources were cleaned up *)
}.

Definition Manager : sourceManager := MkManager minute ∅ ∅ ∅ ∅ [] 0 [].

Definition close_quit (c : positive) (ws : gmap positive worker) : gmap positive worker :=
  alter (fun w => MkWorker (w_provider w) true (w_sending w)) c ws.

Definition DeleteProvider (sm : sourceManager) (name : string) : sourceManager :=
  match metricsSourceProviders sm !! name with
  | None => sm
  | Some provider =>
      MkManager (defaultCollectionInterval sm)
        (delete name (metricsSourceProviders sm))
        (delete name (metricsSourceTimers sm))
        (delete name (metricsSourceQuits sm))
        (match metricsSourceQuits sm !! name with Some c => close_quit c (workers sm) | None => workers sm end)
        (response sm) (providerCount sm) (cleaned sm ++ [provider])
  end.

Definition AddProvider (sm : sourceManager) (now : Z) (provider : SourceProvider) : sourceManager :=
  let name := pv_Name provider in
  let sm := match metricsSourceProviders sm !! name with Some _ => DeleteProvider sm name | None => sm end in
  let interval := if (0 <? pv_CollectionInterval provider)%Z then pv_CollectionInterval provider
                  else defaultCollectionInterval sm in
  let quit := fresh (dom (workers sm)) in
  let providers := <[name := provider]> (metricsSourceProviders sm) in
  MkManager (defaultCollectionInterval sm) providers
    (<[name := NewIntervalTimer now interval]> (metricsSourceTimers sm))
    (<[name := quit]> (metricsSourceQuits sm))
    (<[quit := MkWorker provider false []]> (workers sm))
    (response sm) (Z.of_nat (size providers)) (cleaned sm).

(** [StopProviders]; [order] is the order in which the map is visited. *)
Definition StopProviders (sm : sourceManager) (order : list string) : sourceManager :=
  foldl DeleteProvider sm order.

Definition SetDefaultCollectionInterval (sm : sourceManager) (interval : Z) : sourceManager :=
  MkManager interval (metricsSourceProviders sm) (metricsSourceTimers sm) (metricsSourceQuits sm) (workers sm)
    (response sm) (providerCount sm) (cleaned sm).

(** [BuildProviders], from what [buildProviders] has made; [now]: the time of
    every addition. *)
Definition BuildProviders (now : SourceProvider -> Z) (sources : list SourceProvider) (sm : sourceManager)
    : result sourceManager :=
  let sm := foldl (fun sm runtime => AddProvider sm (now runtime) runtime) sm sources in
  if decide (metricsSourceProviders sm = ∅) then Err "no available sources to use" else Ok sm.

(** [DiscoveryPluginConfigs]: of the providers that have any; [order] is the
    order in which the map is visited. *)
Definition DiscoveryPluginConfigs {C} (pluginConfigs : SourceProvider -> option (list C))
    (order : list (string * SourceProvider)) : list C :=
  concat (map (fun x => default [] (pluginConfigs x.2)) order).

(** *** The common part of providers: internal/metrics/types.go *)

Record DefaultSourceProvider := MkDefaultProvider { sp_collectionInterval : Z; sp_timeout : Z }.
Definition CollectionInterval (sp : DefaultSourceProvider) : Z := sp_collectionInterval sp.
Definition Timeout (sp : DefaultSourceProvider) : Z := sp_timeout sp.
Definition Configure (interval timeout : Z) (sp : DefaultSourceProvider) : DefaultSourceProvider :=
  MkDefaultProvider interval (if (timeout =? 0)%Z then (30 * second)%Z else timeout).
(** The provider the manager sees. *)
Definition provider_of (name : string) (sp : DefaultSourceProvider) : SourceProvider :=
  MkProvider name (CollectionInterval sp) (Timeout sp).

Definition with_response (sm : sourceManager) (ws : gmap positive worker) (r : list Batch) : sourceManager :=
  MkManager (defaultCollectionInterval sm) (metricsSourceProviders sm) (metricsSourceTimers sm)
    (metricsSourceQuits sm) ws r (providerCount sm) (cleaned sm).

Definition rotateResponse (sm : sourceManager) : list Batch * sourceManager :=
  (response sm, with_response sm (workers sm) []).

Definition ts_le (a b : Batch) : Prop := (b_Timestamp a <= b_Timestamp b)%Z.
#[export] Instance ts_le_dec a b : Decision (ts_le a b).
Proof. unfold ts_le. apply _. Defined.

(** [sort.Slice] by timestamp, which does not fix the order of equal ones. *)
Class SortsByTime (sort : list Batch -> list Batch) : Prop := {
  sort_perm l : sort l ≡ₚ l;
  sort_sorted l : StronglySorted ts_le (sort l);
}.
#[export] Instance merge_sort_by_time : SortsByTime (merge_sort ts_le).
Proof.
  split; intros l; [apply merge_sort_Permutation|]. apply StronglySorted_merge_sort.
  - intros a b c. unfold ts_le. lia.
  - intros a b. unfold ts_le. lia.
Qed.

Section steps.
Context (sort : list Batch -> list Batch).

Definition GetPendingMetrics (sm : sourceManager) : list Batch * sourceManager :=
  let '(r, sm) := rotateResponse sm in (sort r, sm).

(** The steps of the manager and its goroutines.  [sent] is what the workers
    put on the channel, [got] what callers of [GetPendingMetrics] received. *)
Record system := MkSystem { sys_sm : sourceManager; sys_sent : list Batch; sys_got : list Batch }.

Inductive step : system -> system -> Prop :=
  | step_add s now p : step s (MkSystem (AddProvider (sys_sm s) now p) (sys_sent s) (sys_got s))
  | step_delete s name : step s (MkSystem (DeleteProvider (sys_sm s) name) (sys_sent s) (sys_got s))
  | step_tick s c w sources st bs st' :
      workers (sys_sm s) !! c = Some w -> w_sending w = [] ->
      scrape (pv_Timeout (w_provider w)) sources st = (bs, st') ->
      step s (MkSystem (with_response (sys_sm s)
                (<[c := MkWorker (w_provider w) (w_quit w) bs]> (workers (sys_sm s))) (response (sys_sm s)))
                (sys_sent s) (sys_got s))
  | step_send s c p q b bs :
      workers (sys_sm s) !! c = Some (MkWorker p q (b :: bs)) ->
      step s (MkSystem (with_response (sys_sm s) (<[c := MkWorker p q bs]> (workers (sys_sm s)))
                (response (sys_sm s) ++ [b])) (sys_sent s ++ [b]) (sys_got s))
  | step_quit s c p :
      workers (sys_sm s) !! c = Some (MkWorker p true []) ->
      step s (MkSystem (with_response (sys_sm s) (delete c (workers (sys_sm s))) (response (sys_sm s)))
                (sys_sent s) (sys_got s))
  | step_pending s :
      step s (MkSystem (GetPendingMetrics (sys_sm s)).2 (sys_sent s) (sys_got s ++ (GetPendingMetrics (sys_sm s)).1)).

Inductive reachable : system -> Prop :=
  | reach_init : reachable (MkSystem Manager [] [])
  | reach_step s s' : reachable s -> step s s' -> reachable s'.
End steps.

(** ** plugins/manager/manager.go *)

Definition combineMetricSets (dst src : Batch) : Batch :=
  MkBatch (b_Timestamp src) (copy_into (b_Sets dst) (b_Sets src)) (b_Metrics dst ++ b_Metrics src).

Section flush.
(** The state of the processors and of the sink. *)
Context {W : Type} (sort : list Batch -> list Batch).

(** The processors in turn; the first error ends it. *)
Fixpoint run_processors (ps : list (W -> Batch -> W * result Batch)) (w : W) (b : Batch) : W * result Batch :=
  match ps with
  | [] => (w, Ok b)
  | p :: ps' => match p w b with
                | (w, Ok b) => run_processors ps' w b
                | (w, Err e) => (w, Err e)
                end
  end.

Definition push (ps : list (W -> Batch -> W * result Batch)) (sink_Export : W -> Batch -> W)
    (sm : sourceManager) (w : W) : sourceManager * W :=
  let '(batches, sm) := GetPendingMetrics sort sm in
  let combined := foldl combineMetricSets (MkBatch time_zero ∅ []) batches in
  match run_processors ps w combined with
  | (w, Ok b) => (sm, sink_Export w b)
  | (w, Err _) => (sm, w)
  end.
End flush.

(** ** Lemmas on the timer *)

Lemma time_sub_small t u : (- two63 <= t - u < two63)%Z -> time_sub t u = (t - u)%Z.
Proof. unfold time_sub, two63. lia. Qed.

(** The interval after next starts on the grid of the start time. *)
Lemma aligned_wait interval diff : (0 < interval)%Z -> (0 <= diff)%Z ->
  exists k, (diff + (interval - Z.rem diff interval) = k * interval)%Z.
Proof.
  intros Hi Hd. exists (Z.quot diff interval + 1)%Z. pose proof (Z.quot_rem diff interval ltac:(lia)). lia.
Qed.

(** ** Lemmas on the manager *)

(** Each provider has a timer, a quit channel and exactly one worker that has
    not been told to quit; every such worker belongs to a provider. *)
Record manager_ok (sm : sourceManager) : Prop := {
  ok_timers : dom (metricsSourceTimers sm) = dom (metricsSourceProviders sm);
  ok_quits : dom (metricsSourceQuits sm) = dom (metricsSourceProviders sm);
  ok_worker name c p : metricsSourceQuits sm !! name = Some c -> metricsSourceProviders sm !! name = Some p ->
    exists bs, workers sm !! c = Some (MkWorker p false bs);
  ok_owner c w : workers sm !! c = Some w -> w_quit w = false ->
    metricsSourceQuits sm !! pv_Name (w_provider w) = Some c;
  ok_name name p : metricsSourceProviders sm !! name = Some p -> pv_Name p = name;
}.

Lemma close_quit_lookup c ws c' :
  close_quit c ws !! c' =
  if decide (c = c') then (fun w => MkWorker (w_provider w) true (w_sending w)) <$> ws !! c' else ws !! c'.
Proof.
  unfold close_quit. destruct (decide (c = c')) as [<-|Hne]; [by rewrite lookup_alter_eq|by rewrite lookup_alter_ne].
Qed.

(** Distinct providers have distinct quit channels. *)
Lemma quits_inj sm n1 n2 c :
  manager_ok sm -> metricsSourceQuits sm !! n1 = Some c -> metricsSourceQuits sm !! n2 = Some c -> n1 = n2.
Proof.
  intros [_ Hq Hw _ Hn] H1 H2.
  assert (Hp : forall n, metricsSourceQuits sm !! n = Some c -> exists p, metricsSourceProviders sm !! n = Some p).
  { intros n Hc. assert (n ∈ dom (metricsSourceQuits sm)) by (apply elem_of_dom; eauto).
    rewrite Hq in H. by apply elem_of_dom in H. }
  destruct (Hp _ H1) as [p1 E1], (Hp _ H2) as [p2 E2].
  destruct (Hw _ _ _ H1 E1) as [b1 W1], (Hw _ _ _ H2 E2) as [b2 W2]. rewrite W1 in W2. injection W2 as ->.
  by rewrite <-(Hn _ _ E1), <-(Hn _ _ E2).
Qed.

Lemma DeleteProvider_ok sm name : manager_ok sm -> manager_ok (DeleteProvider sm name).
Proof.
  intros Hok. unfold DeleteProvider. destruct (metricsSourceProviders sm !! name) as [p|] eqn:Ep; [|done].
  assert (exists c, metricsSourceQuits sm !! name = Some c) as [c Hc].
  { apply elem_of_dom. rewrite (ok_quits _ Hok). apply elem_of_dom. eauto. }
  rewrite Hc. split; cbn.
  - by rewrite !dom_delete_L, (ok_timers _ Hok).
  - by rewrite !dom_delete_L, (ok_quits _ Hok).
  - intros n c' p' (Hn & Hq)%lookup_delete_Some (_ & Hp)%lookup_delete_Some.
    rewrite close_quit_lookup, decide_False; [by eapply (ok_worker _ Hok)|].
    intros ->. apply Hn. by eapply quits_inj.
  - intros c' w Hw Hopen. rewrite close_quit_lookup in Hw. destruct (decide (c = c')) as [<-|Hne].
    { destruct (workers sm !! c); [|done]. cbn in Hw. injection Hw as <-. done. }
    pose proof (ok_owner _ Hok _ _ Hw Hopen) as Ho. rewrite lookup_delete_ne; [done|].
    intros E. rewrite <-E, Hc in Ho. by injection Ho.
  - intros n p' (_ & Hp)%lookup_delete_Some. by apply (ok_name _ Hok).
Qed.

Lemma DeleteProvider_gone sm name : metricsSourceProviders (DeleteProvider sm name) !! name = None.
Proof.
  unfold DeleteProvider. destruct (metricsSourceProviders sm !! name) eqn:E; [|done]. cbn. apply lookup_delete_eq.
Qed.

(** Adding a provider whose name is free. *)
Lemma add_fresh_ok sm p t n :
  manager_ok sm -> metricsSourceProviders sm !! pv_Name p = None ->
  manager_ok (MkManager (defaultCollectionInterval sm) (<[pv_Name p := p]> (metricsSourceProviders sm))
    (<[pv_Name p := t]> (metricsSourceTimers sm))
    (<[pv_Name p := fresh (dom (workers sm))]> (metricsSourceQuits sm))
    (<[fresh (dom (workers sm)) := MkWorker p false []]> (workers sm)) (response sm) n (cleaned sm)).
Proof.
  intros Hok Hfree. set (c := fresh (dom (workers sm))).
  assert (Hc : workers sm !! c = None) by (apply not_elem_of_dom, is_fresh).
  assert (Hq : metricsSourceQuits sm !! pv_Name p = None).
  { apply not_elem_of_dom. rewrite (ok_quits _ Hok). by apply not_elem_of_dom. }
  split; cbn.
  - by rewrite !dom_insert_L, (ok_timers _ Hok).
  - by rewrite !dom_insert_L, (ok_quits _ Hok).
  - intros name c' p' H1 H2. destruct (decide (name = pv_Name p)) as [->|Hne].
    + rewrite lookup_insert_eq in H1. rewrite lookup_insert_eq in H2. injection H1 as <-. injection H2 as <-. exists []. by rewrite lookup_insert_eq.
    + rewrite lookup_insert_ne in H1 by done. rewrite lookup_insert_ne in H2 by done. destruct (ok_worker _ Hok _ _ _ H1 H2) as [bs Hw].
      exists bs. rewrite lookup_insert_ne; [done|]. congruence.
  - intros c' w Hw Hopen. destruct (decide (c = c')) as [<-|Hne].
    + rewrite lookup_insert_eq in Hw. injection Hw as <-. cbn. by rewrite lookup_insert_eq.
    + rewrite lookup_insert_ne in Hw by done. pose proof (ok_owner _ Hok _ _ Hw Hopen) as Ho.
      rewrite lookup_insert_ne; [done|]. congruence.
  - intros name p' H. destruct (decide (name = pv_Name p)) as [->|Hne].
    + rewrite lookup_insert_eq in H. by injection H as <-.
    + rewrite lookup_insert_ne in H by done. by apply (ok_name _ Hok).
Qed.

Lemma AddProvider_ok sm now p : manager_ok sm -> manager_ok (AddProvider sm now p).
Proof.
  intros Hok. unfold AddProvider. destruct (metricsSourceProviders sm !! pv_Name p) eqn:E.
  - apply add_fresh_ok; [by apply DeleteProvider_ok|apply DeleteProvider_gone].
  - by apply add_fresh_ok.
Qed.

Lemma AddProvider_providers sm now p :
  metricsSourceProviders (AddProvider sm now p) = <[pv_Name p := p]> (metricsSourceProviders sm).
Proof.
  unfold AddProvider. cbn. destruct (metricsSourceProviders sm !! pv_Name p) as [q|] eqn:E; [|done].
  unfold DeleteProvider. rewrite E. cbn. apply insert_delete_eq.
Qed.

(** Building providers fails exactly when there is none; otherwise the manager
    has those of before and, under each name, the last one made. *)
Lemma BuildProviders_spec now sources sm :
  manager_ok sm ->
  BuildProviders now sources sm =
    (if decide (sources = [] /\ metricsSourceProviders sm = ∅) then Err "no available sources to use"
     else Ok (foldl (fun sm p => AddProvider sm (now p) p) sm sources)) /\
  let sm' := foldl (fun sm p => AddProvider sm (now p) p) sm sources in
  manager_ok sm' /\
  metricsSourceProviders sm' = foldl (fun m p => <[pv_Name p := p]> m) (metricsSourceProviders sm) sources.
Proof.
  assert (H : forall sm, metricsSourceProviders (foldl (fun sm p => AddProvider sm (now p) p) sm sources) =
    foldl (fun m p => <[pv_Name p := p]> m) (metricsSourceProviders sm) sources).
  { induction sources as [|p l IH]; intros sm0; [done|]. cbn [foldl]. by rewrite IH, AddProvider_providers. }
  assert (Hok' : forall sm, manager_ok sm -> manager_ok (foldl (fun sm p => AddProvider sm (now p) p) sm sources)).
  { clear H. induction sources as [|p l IH]; intros sm0 H0; [done|]. by apply IH, AddProvider_ok. }
  intros Hok. split; [|by split; [apply Hok'|apply H]]. unfold BuildProviders. rewrite H.
  destruct sources as [|p l _] using rev_ind; [by repeat case_decide; naive_solver|].
  rewrite (decide_False (P := _ /\ _)) by (intros [E _]; by apply app_eq_nil in E as [_ ?]).
  rewrite decide_False; [done|]. rewrite foldl_app. cbn [foldl]. apply insert_non_empty.
Qed.

(** A provider configured from its section and added to the manager gets a
    timer with the interval of the section, or the default one when that is not
    positive. *)
Lemma configured_timer sm now name interval timeout sp :
  metricsSourceTimers (AddProvider sm now (provider_of name (Configure interval timeout sp))) !! name =
    Some (NewIntervalTimer now (if (0 <? interval)%Z then interval else defaultCollectionInterval sm)).
Proof.
  unfold AddProvider. cbn. rewrite lookup_insert_eq. do 2 f_equal. destruct (0 <? interval)%Z; [done|].
  destruct (metricsSourceProviders sm !! name) eqn:E; [|done]. unfold DeleteProvider. by rewrite E.
Qed.

(** Replacing the batches a worker has to send changes nothing else. *)
Lemma sending_ok sm c p q bs bs' r :
  manager_ok sm -> workers sm !! c = Some (MkWorker p q bs) ->
  manager_ok (with_response sm (<[c := MkWorker p q bs']> (workers sm)) r).
Proof.
  intros Hok Hc. split; cbn; [apply Hok|apply Hok| | |apply (ok_name _ Hok)].
  - intros name c' p' H1 H2. destruct (ok_worker _ Hok _ _ _ H1 H2) as [bs1 Hw].
    destruct (decide (c = c')) as [<-|Hne]; [|rewrite lookup_insert_ne by done; by eauto].
    rewrite Hc in Hw. injection Hw as -> -> ->. exists bs'. by rewrite lookup_insert_eq.
  - intros c' w Hw Hopen. destruct (decide (c = c')) as [<-|Hne].
    + rewrite lookup_insert_eq in Hw. injection Hw as <-. by apply (ok_owner _ Hok _ _ Hc).
    + rewrite lookup_insert_ne in Hw by done. by apply (ok_owner _ Hok).
Qed.

Lemma worker_gone_ok sm c p :
  manager_ok sm -> workers sm !! c = Some (MkWorker p true []) ->
  manager_ok (with_response sm (delete c (workers sm)) (response sm)).
Proof.
  intros Hok Hc. split; cbn; [apply Hok|apply Hok| | |apply (ok_name _ Hok)].
  - intros name c' p' H1 H2. destruct (ok_worker _ Hok _ _ _ H1 H2) as [bs1 Hw].
    exists bs1. rewrite lookup_delete_ne; [done|]. intros <-. congruence.
  - intros c' w (_ & Hw)%lookup_delete_Some Hopen. by apply (ok_owner _ Hok).
Qed.

Lemma Manager_ok : manager_ok Manager.
Proof. split; [done|done| | |]; intros *; cbn; by rewrite lookup_empty. Qed.

Lemma step_ok sort s s' : manager_ok (sys_sm s) -> step sort s s' -> manager_ok (sys_sm s').
Proof.
  intros Hok Hstep. destruct Hstep; cbn.
  - by apply AddProvider_ok.
  - by apply DeleteProvider_ok.
  - destruct w as [p q bs0]. by eapply sending_ok.
  - by eapply sending_ok.
  - by eapply worker_gone_ok.
  - destruct Hok. by split.
Qed.

Lemma DeleteProvider_response sm name : response (DeleteProvider sm name) = response sm.
Proof. unfold DeleteProvider. by destruct (metricsSourceProviders sm !! name). Qed.

Lemma step_batches sort `{!SortsByTime sort} s s' :
  step sort s s' -> sys_got s ++ response (sys_sm s) ≡ₚ sys_sent s ->
  sys_got s' ++ response (sys_sm s') ≡ₚ sys_sent s'.
Proof.
  intros Hstep H. destruct Hstep; cbn.
  - destruct (metricsSourceProviders (sys_sm s) !! pv_Name p); [|done]. by rewrite DeleteProvider_response.
  - by rewrite DeleteProvider_response.
  - done.
  - by rewrite app_assoc, H.
  - done.
  - by rewrite app_nil_r, sort_perm.
Qed.

Lemma reachable_inv sort `{!SortsByTime sort} s :
  reachable sort s -> manager_ok (sys_sm s) /\ sys_got s ++ response (sys_sm s) ≡ₚ sys_sent s.
Proof.
  induction 1 as [|s s' _ [IH1 IH2] Hstep]; [split; [apply Manager_ok|done]|].
  split; [by eapply step_ok|by eapply step_batches].
Qed.

(** Deleting the names of a list leaves the providers that are not in it. *)
Lemma StopProviders_ok sm order :
  manager_ok sm -> manager_ok (StopProviders sm order) /\
  forall n, metricsSourceProviders (StopProviders sm order) !! n =
    if bool_decide (n ∈ order) then None else metricsSourceProviders sm !! n.
Proof.
  unfold StopProviders. revert sm; induction order as [|x order IH]; intros sm Hok; cbn [foldl]; [done|].
  destruct (IH (DeleteProvider sm x) (DeleteProvider_ok _ _ Hok)) as [H1 H2]. split; [done|].
  intros n. rewrite H2. assert (Hd : metricsSourceProviders (DeleteProvider sm x) !! n =
    if decide (n = x) then None else metricsSourceProviders sm !! n).
  { destruct (decide (n = x)) as [->|Hne]; [apply DeleteProvider_gone|]. unfold DeleteProvider.
    destruct (metricsSourceProviders sm !! x); [|done]. cbn. by rewrite lookup_delete_ne. }
  rewrite Hd. repeat case_bool_decide; destruct (decide (n = x)) as [->|]; try done; set_solver.
Qed.

(** ** Properties *)

(** The interval timer.  For a positive interval and times in order that
    do not overflow, resetting never fails; the next tick falls on a multiple
    of the interval from the start, so lateness does not accumulate; the wait
    is positive, at most one interval, or else, when the next multiple is
    nearer than 3.33% of the interval, goes to the one after it; and the number
    of intervals reported as missed is the number of whole intervals since the
    last reset, less the one that was served. *)
Theorem Reset_spec (t : IntervalTimer) (now : Z) :
  (0 < it_interval t < 2 ^ 61)%Z -> (it_startTime t <= it_lastResetTime t <= now)%Z ->
  (now - it_startTime t < 2 ^ 61)%Z ->
  exists missed wait, Reset t now = Some (MkTimer (it_interval t) (it_startTime t) now, missed, wait) /\
    (exists k, now + wait = it_startTime t + k * it_interval t)%Z /\
    (0 < wait < 2 * it_interval t + 1)%Z /\
    (scaleInterval (it_interval t) early_ratio <= wait <= it_interval t \/
     it_interval t < wait < it_interval t + scaleInterval (it_interval t) early_ratio)%Z /\
    missed = Z.max 0 ((now - it_lastResetTime t) / it_interval t - 1).
Proof.
  intros Hi Ht Hd. set (i := it_interval t) in *. set (diff := (now - it_startTime t)%Z).
  assert (Hrem : (0 <= Z.rem diff i < i)%Z) by (apply Z.rem_bound_pos; unfold diff; lia).
  destruct (aligned_wait i diff ltac:(lia) ltac:(unfold diff; lia)) as [k Hk].
  assert (Hmissed : intervalsMissed t now = Some (Z.max 0 ((now - it_lastResetTime t) / i - 1))%Z).
  { unfold intervalsMissed. rewrite time_sub_small by (unfold two63; lia). fold i.
    destruct (Z.ltb_spec (now - it_lastResetTime t) i) as [Hlt|Hge].
    - rewrite Z.div_small by lia. done.
    - unfold i64_div. rewrite (proj2 (Z.eqb_neq _ _)) by lia. cbn.
      rewrite Z.quot_div_nonneg by lia.
      assert (0 < (now - it_lastResetTime t) / i < 2 ^ 61)%Z.
      { split; [apply Z.div_str_pos; lia|]. apply Z.div_lt_upper_bound; [lia|]. nia. }
      unfold i64_sub. rewrite (wrap64_id ((now - it_lastResetTime t) / i)) by (unfold in_i64, two63; lia).
      rewrite wrap64_id by (unfold in_i64, two63; lia). f_equal. lia. }
  unfold Reset. rewrite Hmissed. cbn. unfold waitToNextInterval. cbn. fold i.
  rewrite (proj2 (Z.eqb_neq _ _)) by lia. cbn. rewrite time_sub_small by (unfold two63; lia). fold diff.
  unfold i64_sub. rewrite wrap64_id by (unfold in_i64, two63; lia).
  set (w := (i - Z.rem diff i)%Z) in *. eexists _, _. split; [done|].
  destruct (Z.ltb_spec w (scaleInterval i early_ratio)) as [Hlt|Hge].
  - unfold i64_add. rewrite wrap64_id by (unfold in_i64, two63; lia).
    split_and!; [exists (k + 1)%Z; unfold diff in Hk; lia|lia|lia|lia|done].
  - split_and!; [exists k; unfold diff in Hk; lia|lia|lia|lia|done].
Qed.

Lemma Reset_spec_witness :
  exists missed wait, Reset (MkTimer minute 0 minute) (3 * minute + 58 * second)%Z
      = Some (MkTimer minute 0 (3 * minute + 58 * second), missed, wait) /\
    missed = 1%Z /\ exists k, (3 * minute + 58 * second + wait = k * minute)%Z.
Proof.
  destruct (Reset_spec (MkTimer minute 0 minute) (3 * minute + 58 * second)%Z)
    as (missed & wait & E & (k & Hk) & _ & _ & Hm); [by vm_compute|by vm_compute|by vm_compute|].
  exists missed, wait. split_and!; [exact E|exact Hm|]. exists k. exact Hk.
Defined.



(** Scraping a provider stops at the first source that fails.  The batches
    sent are those of the sources before it, in order; the failure is counted
    as a warning for a discovered source and as an error otherwise; the
    sources after it are not scraped.  Slow sources are sent all the same and
    counted. *)
Theorem scrape_spec (timeout : Z) (sources : list Source) (st : scrape_stats) :
  let timeout' := if (timeout <=? 0)%Z then minute else timeout in
  exists ok rest, sources = ok ++ rest /\
    Forall (fun s => exists b l, src_outcome s = Scraped b l) ok /\
    (rest = [] \/ exists s rest', rest = s :: rest' /\ src_outcome s = ScrapeFailed) /\
    (scrape timeout sources st).1 = omap (fun s => match src_outcome s with Scraped b _ => Some b | _ => None end) ok /\
    let st' := (scrape timeout sources st).2 in
    scrapeErrors st' = (scrapeErrors st +
      match rest with s :: _ => if src_AutoDiscovered s then 0 else 1 | [] => 0 end)%Z /\
    scrapeWarnings st' = (scrapeWarnings st +
      match rest with s :: _ => if src_AutoDiscovered s then 1 else 0 | [] => 0 end)%Z /\
    scrapeTimeouts st' = (scrapeTimeouts st +
      zsum (fun s => match src_outcome s with
                     | Scraped _ l => if (timeout' <=? l)%Z then 1 else 0 | _ => 0 end) ok)%Z.
Proof.
  intros timeout'. revert timeout timeout' st; induction sources as [|s sources IH]; intros timeout timeout' st.
  { exists [], []. cbn. split_and!; eauto; lia. }
  assert (Ht : (if (timeout' <=? 0)%Z then minute else timeout') = timeout').
  { unfold timeout'. destruct (Z.leb_spec timeout 0) as [_|Hg]; [done|]. by rewrite (proj2 (Z.leb_gt _ _)). }
  destruct (src_outcome s) as [b l|] eqn:Es.
  - cbn [scrape]. rewrite Es. fold timeout'.
    specialize (IH timeout' (if (timeout' <=? l)%Z
      then MkStats (scrapeErrors st) (scrapeWarnings st) (scrapeTimeouts st + 1) else st)).
    cbv zeta in IH. rewrite Ht in IH. destruct IH as (ok & rest & -> & Hok & Hrest & Hbs & He & Hw & Hto).
    exists (s :: ok), rest. destruct (scrape timeout' (ok ++ rest) _) as [bs st']. cbn [fst snd] in *.
    split_and!; [done|by constructor; eauto|done| | | |].
    + cbn. by rewrite Es, Hbs.
    + rewrite He. by destruct (timeout' <=? l)%Z.
    + rewrite Hw. by destruct (timeout' <=? l)%Z.
    + rewrite Hto, zsum_cons, Es. destruct (timeout' <=? l)%Z; cbn; lia.
  - exists [], (s :: sources). cbn [scrape]. rewrite Es. split_and!; [done|constructor|by eauto| | | |];
      destruct (src_AutoDiscovered s); cbn; lia || done.
Qed.

(** ** Flushing *)

Lemma combine_loop batches acc :
  let c := foldl combineMetricSets acc batches in
  (forall k, b_Sets c !! k = match last (omap (fun b => b_Sets b !! k) batches) with
                             | Some x => Some x | None => b_Sets acc !! k end) /\
  b_Metrics c = b_Metrics acc ++ mjoin (b_Metrics <$> batches) /\
  b_Timestamp c = default (b_Timestamp acc) (b_Timestamp <$> last batches).
Proof.
  revert acc; induction batches as [|b batches IH]; intros acc; cbn [foldl]; [by rewrite app_nil_r|].
  destruct (IH (combineMetricSets acc b)) as (Hs & Hm & Ht). split_and!.
  - intros k. rewrite Hs. cbn [omap list_omap combineMetricSets b_Sets]. rewrite copy_into_lookup.
    destruct (b_Sets b !! k) as [x|].
    + rewrite last_cons. by destruct (last (omap (fun b => b_Sets b !! k) batches)).
    + done.
  - rewrite Hm. cbn. by rewrite <-app_assoc.
  - rewrite Ht, last_cons. by destruct (last batches).
Qed.

(** C19: a flush.  For every way the pending batches may be sorted: they are
    taken from the source manager and combined, later batches winning where
    two have a set for the same key, all metrics kept, and the timestamp that
    of a most recent batch; the combined batch goes through the processors and
    reaches the sink exactly when none of them fails. *)
Theorem push_spec {W : Type} (sort : list Batch -> list Batch) `{!SortsByTime sort}
    (ps : list (W -> Batch -> W * result Batch)) (sink_Export : W -> Batch -> W) (sm : sourceManager) (w : W) :
  exists batches combined,
    batches ≡ₚ response sm /\ StronglySorted ts_le batches /\
    (forall k, b_Sets combined !! k = last (omap (fun b => b_Sets b !! k) batches)) /\
    b_Metrics combined = mjoin (b_Metrics <$> batches) /\
    (response sm <> [] -> (exists b, b ∈ response sm /\ b_Timestamp b = b_Timestamp combined)) /\
    (forall b, b ∈ response sm -> (b_Timestamp b <= b_Timestamp combined)%Z) /\
    push sort ps sink_Export sm w =
      (with_response sm (workers sm) [],
       match run_processors ps w combined with
       | (w', Ok b) => sink_Export w' b
       | (w', Err _) => w'
       end).
Proof.
  set (batches := sort (response sm)). set (combined := foldl combineMetricSets (MkBatch time_zero ∅ []) batches).
  assert (Hp : batches ≡ₚ response sm) by apply sort_perm.
  assert (Hs : StronglySorted ts_le batches) by apply sort_sorted.
  destruct (combine_loop batches (MkBatch time_zero ∅ [])) as (Hsets & Hm & Ht). fold combined in Hsets, Hm, Ht.
  exists batches, combined. split_and!; [done|done| |done| | |].
  - intros k. rewrite Hsets. cbn. rewrite lookup_empty. by destruct (last (omap (fun b => b_Sets b !! k) batches)).
  - intros Hne. destruct (last batches) as [b|] eqn:El.
    + exists b. rewrite <-Hp. split; [|done]. by apply last_Some_elem_of.
    + apply last_None in El. rewrite El in Hp. apply Permutation_nil_l in Hp. by rewrite Hp in Hne.
  - intros b Hb. rewrite <-Hp in Hb. clearbody batches combined. clear Hsets Hm Hp.
    destruct batches as [|x bs _] using rev_ind; [by apply not_elem_of_nil in Hb|].
    rewrite last_snoc in Ht. rewrite Ht. cbn. apply elem_of_app in Hb as [Hb|Hb].
    + apply (StronglySorted_app_1_elem_of ts_le bs [x] b x Hs Hb); by left.
    + apply list_elem_of_singleton in Hb as ->. done.
  - unfold push, GetPendingMetrics, rotateResponse. fold batches. fold combined.
    by destruct (run_processors ps w combined) as [w' [b|e]].
Qed.

Lemma push_spec_witness :
  let b1 := MkBatch 20 ∅ [None] in
  let b2 := MkBatch 10 ∅ [] in
  let sm := with_response Manager ∅ [b1; b2] in
  exists t, push (merge_sort ts_le) [] (fun w b => w ++ [b_Timestamp b]) sm [] = (with_response sm ∅ [], [t]) /\
    (20 <= t)%Z /\ (10 <= t)%Z.
Proof.
  intros b1 b2 sm.
  destruct (push_spec (merge_sort ts_le) [] (fun w b => w ++ [b_Timestamp b]) sm [])
    as (batches & combined & _ & _ & _ & _ & _ & Hle & E).
  exists (b_Timestamp combined). split_and!; [exact E|apply (Hle b1); by left|apply (Hle b2); by right; left].
Defined.
