(* ===== verification/SinkManager.v ===== *)
(** The sink manager: plugins/sinks/manager.go.

    One goroutine per sink serves three unbuffered channels; each call of
    [Export], [ExportEvent] and [Stop] starts one goroutine per sink that
    waits until the sink's goroutine takes its message or until a timeout.
    The steps below are their interleavings: a message is taken only by a
    sink that is neither exporting nor stopped, and a waiting push may time
    out at any moment. *)

From S2P Require Import Prelude.

Section sinks.
Context {D E : Type}.

Inductive item := IData (d : D) | IEvent (e : E).

Record sinkHolder := MkHolder {
  sh_waiting : list item;    (** pushes waiting for the sink *)
  sh_busy : bool;            (** the sink is exporting *)
  sh_stopped : bool;         (** the goroutine has returned *)
  sh_exported : list item;   (** what the sink was given, in order *)
  sh_timedout : list item;   (** pushes that gave up *)
  sh_stops : nat;            (** stop messages waiting *)
  sh_stop_calls : nat;       (** calls of the sink's Stop *)
}.

Record sinkManager := MkSinkManager { sinkHolders : list sinkHolder; sinkTimeouts : Z }.

Definition new_holder : sinkHolder := MkHolder [] false false [] [] 0 0.
Definition NewSinkManager (sinks : nat) : sinkManager := MkSinkManager (replicate sinks new_holder) 0.

(** A push to every sink: [Export] and [ExportEvent]. *)
Definition push_item (x : item) (sh : sinkHolder) : sinkHolder :=
  MkHolder (sh_waiting sh ++ [x]) (sh_busy sh) (sh_stopped sh) (sh_exported sh) (sh_timedout sh) (sh_stops sh)
    (sh_stop_calls sh).
Definition SinkManager_Export (d : D) (sm : sinkManager) : sinkManager :=
  MkSinkManager (push_item (IData d) <$> sinkHolders sm) (sinkTimeouts sm).
Definition SinkManager_ExportEvent (e : E) (sm : sinkManager) : sinkManager :=
  MkSinkManager (push_item (IEvent e) <$> sinkHolders sm) (sinkTimeouts sm).
Definition SinkManager_Stop (sm : sinkManager) : sinkManager :=
  MkSinkManager ((fun sh => MkHolder (sh_waiting sh) (sh_busy sh) (sh_stopped sh) (sh_exported sh) (sh_timedout sh)
                              (S (sh_stops sh)) (sh_stop_calls sh)) <$> sinkHolders sm) (sinkTimeouts sm).

(** The steps of one sink and its pushes, with the timeouts they count. *)
Inductive holder_step : sinkHolder -> sinkHolder -> Z -> Prop :=
  | hs_take sh x l1 l2 :
      sh_waiting sh = l1 ++ x :: l2 -> sh_busy sh = false -> sh_stopped sh = false ->
      holder_step sh (MkHolder (l1 ++ l2) true false (sh_exported sh ++ [x]) (sh_timedout sh) (sh_stops sh)
                        (sh_stop_calls sh)) 0
  | hs_done sh : sh_busy sh = true ->
      holder_step sh (MkHolder (sh_waiting sh) false (sh_stopped sh) (sh_exported sh) (sh_timedout sh)
                        (sh_stops sh) (sh_stop_calls sh)) 0
  | hs_timeout sh x l1 l2 :
      sh_waiting sh = l1 ++ x :: l2 ->
      holder_step sh (MkHolder (l1 ++ l2) (sh_busy sh) (sh_stopped sh) (sh_exported sh) (sh_timedout sh ++ [x])
                        (sh_stops sh) (sh_stop_calls sh)) 1
  | hs_stop sh n : sh_stops sh = S n -> sh_busy sh = false -> sh_stopped sh = false ->
      holder_step sh (MkHolder (sh_waiting sh) false true (sh_exported sh) (sh_timedout sh) n
                        (S (sh_stop_calls sh))) 0
  | hs_stop_timeout sh n : sh_stops sh = S n ->
      holder_step sh (MkHolder (sh_waiting sh) (sh_busy sh) (sh_stopped sh) (sh_exported sh) (sh_timedout sh) n
                        (sh_stop_calls sh)) 0.

(** The steps of the manager; the last argument collects what was pushed. *)
Inductive manager_step : sinkManager * list item -> sinkManager * list item -> Prop :=
  | ms_export sm d p : manager_step (sm, p) (SinkManager_Export d sm, p ++ [IData d])
  | ms_event sm e p : manager_step (sm, p) (SinkManager_ExportEvent e sm, p ++ [IEvent e])
  | ms_stop sm p : manager_step (sm, p) (SinkManager_Stop sm, p)
  | ms_holder sm p i sh sh' n :
      sinkHolders sm !! i = Some sh -> holder_step sh sh' n ->
      manager_step (sm, p) (MkSinkManager (<[i := sh']> (sinkHolders sm)) (sinkTimeouts sm + n), p).

(** ** Invariant *)

Definition timeouts_of (sh : sinkHolder) : Z := Z.of_nat (length (sh_timedout sh)).

Record holder_ok (pushed : list item) (sh : sinkHolder) : Prop := {
  ho_items : sh_exported sh ++ sh_waiting sh ++ sh_timedout sh ≡ₚ pushed;
  ho_stopped : sh_stopped sh = true -> sh_busy sh = false;
  ho_stop_calls : sh_stop_calls sh = if sh_stopped sh then 1 else 0;
}.

Lemma holder_step_ok pushed sh sh' n :
  holder_ok pushed sh -> holder_step sh sh' n ->
  holder_ok pushed sh' /\ n = (Z.of_nat (length (sh_timedout sh')) - Z.of_nat (length (sh_timedout sh)))%Z /\
  (sh_stopped sh = true -> sh_stopped sh' = true /\ sh_exported sh' = sh_exported sh).
Proof.
  intros [Hi Hb Hc] Hstep. destruct Hstep as [sh x l1 l2 Hw Hbusy Hst|sh Hbusy|sh x l1 l2 Hw|sh k Hk Hbusy Hst|sh k Hk];
    cbn; rewrite ?length_app; cbn; (split_and!; [split; cbn; try done; try congruence|lia|try congruence; try done]).
  - rewrite <-Hi, Hw. solve_Permutation.
  - rewrite Hc. by rewrite Hst.
  - rewrite <-Hi, Hw. solve_Permutation.
  - rewrite Hc. by rewrite Hst.
Qed.

Definition manager_inv (st : sinkManager * list item) : Prop :=
  Forall (holder_ok st.2) (sinkHolders st.1) /\
  sinkTimeouts st.1 = zsum timeouts_of (sinkHolders st.1).

Lemma push_item_ok pushed x sh : holder_ok pushed sh -> holder_ok (pushed ++ [x]) (push_item x sh).
Proof.
  intros [Hi Hb Hc]. split; cbn; [|done|done]. rewrite <-Hi, <-!app_assoc.
  apply Permutation_app_head, Permutation_app_head, Permutation_app_comm.
Qed.

Lemma timeouts_fmap (g : sinkHolder -> sinkHolder) l :
  (forall sh, sh_timedout (g sh) = sh_timedout sh) -> zsum timeouts_of (g <$> l) = zsum timeouts_of l.
Proof.
  intros Hg. induction l as [|a l IH]; [done|]. rewrite fmap_cons, !zsum_cons, IH. unfold timeouts_of. by rewrite Hg.
Qed.

Lemma manager_step_inv st st' : manager_inv st -> manager_step st st' -> manager_inv st'.
Proof.
  intros [Hf Ht] Hstep. destruct Hstep as [sm d p|sm e p|sm p|sm p i sh sh' n Hi Hs]; cbn in *.
  - split; [|etransitivity; [exact Ht|symmetry; by apply timeouts_fmap]]. apply Forall_fmap. eapply Forall_impl; [exact Hf|]. intros sh. apply push_item_ok.
  - split; [|etransitivity; [exact Ht|symmetry; by apply timeouts_fmap]]. apply Forall_fmap. eapply Forall_impl; [exact Hf|]. intros sh. apply push_item_ok.
  - split; [|etransitivity; [exact Ht|symmetry; by apply timeouts_fmap]]. apply Forall_fmap. eapply Forall_impl; [exact Hf|]. by intros sh [? ? ?].
  - pose proof (Forall_lookup_1 _ _ _ _ Hf Hi) as Hok. destruct (holder_step_ok _ _ _ _ Hok Hs) as (Hok' & Hn & _).
    split; [by apply Forall_insert|]. cbn [fst sinkTimeouts sinkHolders].
    rewrite (zsum_insert _ _ _ _ _ Hi), Ht, Hn. unfold timeouts_of. lia.
Qed.
End sinks.
Arguments item : clear implicits.
Arguments sinkManager : clear implicits.

(** ** Property *)

(** C35: the sink manager, for every interleaving.  Every batch and event
    pushed is, for each sink, either given to it, still waiting or counted as
    timed out, exactly once; the counter of timeouts is the number of those
    that gave up; a sink is stopped at most once, and from then on it is given
    nothing. *)
Theorem sink_manager_invariant {D E : Type} (n : nat) (sm : sinkManager D E) (pushed : list (item D E)) :
  rtc manager_step (NewSinkManager n, []) (sm, pushed) ->
  sinkTimeouts sm = zsum timeouts_of (sinkHolders sm) /\
  forall i sh, sinkHolders sm !! i = Some sh ->
    sh_exported sh ++ sh_waiting sh ++ sh_timedout sh ≡ₚ pushed /\
    sh_stop_calls sh <= 1 /\
    (sh_stop_calls sh = 1 -> sh_stopped sh = true) /\
    (sh_stopped sh = true -> forall sh' k, holder_step sh sh' k ->
       sh_exported sh' = sh_exported sh /\ sh_stop_calls sh' = sh_stop_calls sh).
Proof.
  intros Hr. assert (Hinv : manager_inv (sm, pushed)).
  { revert Hr. apply (rtc_ind_r (R := manager_step) manager_inv (NewSinkManager n, [])).
    - split; cbn; [by apply Forall_replicate|]. induction n as [|n IH]; [done|]. cbn. by rewrite <-IH.
    - intros st1 st2 _ Hs Hi. by eapply manager_step_inv. }
  destruct Hinv as [Hf Ht]. split; [exact Ht|]. intros i sh Hi. pose proof (Forall_lookup_1 _ _ _ _ Hf Hi) as Hok.
  pose proof Hok as [H1 H2 H3]. split_and!; [done|rewrite H3; by destruct (sh_stopped sh); lia| |].
  - rewrite H3. by destruct (sh_stopped sh).
  - intros Hst sh' k Hs. destruct (holder_step_ok _ _ _ _ Hok Hs) as ([_ _ Hc'] & _ & Hkeep).
    destruct (Hkeep Hst) as [Hst' He]. split; [done|]. by rewrite Hc', H3, Hst, Hst'.
Qed.

Lemma sink_manager_invariant_witness :
  let x := IData 7%Z : item Z unit in
  let sh1 := MkHolder [] true false [x] [] 0 0 in
  let sh2 := MkHolder [] false false [] [x] 0 0 in
  sh_exported sh1 ++ sh_waiting sh1 ++ sh_timedout sh1 ≡ₚ [x] /\
  (1 = zsum timeouts_of [sh1; sh2])%Z.
Proof.
  intros x sh1 sh2. destruct (sink_manager_invariant 2 (MkSinkManager [sh1; sh2] 1) [x]) as [Ht Hi].
  { eapply rtc_l; [exact (ms_export (NewSinkManager 2) 7%Z [])|].
    eapply rtc_l; [apply (ms_holder _ _ 0 (push_item x new_holder) sh1 0); [done|exact (hs_take (push_item x new_holder) x [] [] eq_refl eq_refl eq_refl)]|].
    eapply rtc_l; [apply (ms_holder _ _ 1 (push_item x new_holder) sh2 1); [done|exact (hs_timeout (push_item x new_holder) x [] [] eq_refl)]|].
    apply rtc_refl. }
  split; [exact (proj1 (Hi 0 sh1 eq_refl))|exact Ht].
Defined.
