(* ===== verification/Leadership.v ===== *)
(** Leader election: internal/leadership/election.go and manager.go, and the
    agent type of internal/options/agent_type.go on which leading depends.

    The elector of client-go is the source of [OnNewLeader] calls.  Channels
    have room for one message: sending to a full one blocks, so a call of
    [OnNewLeader] is a step that is enabled once its sends find room; it holds
    the lock meanwhile, so only receivers run in between.  For each channel the
    state also keeps everything ever sent on it, and the identities elected so
    far, which the code does not store. *)

From S2P Require Import Prelude Util.

(** ** agent_type.go *)

Inductive AgentType := AllAgentType | ClusterAgentType | NodeAgentType | LegacyAgentType.

Definition AgentType_String (a : AgentType) : string :=
  match a with
  | AllAgentType => "all" | ClusterAgentType => "cluster" | NodeAgentType => "node" | LegacyAgentType => "legacy"
  end.
Definition NewAgentType (value : string) : result AgentType :=
  if String.eqb value "all" then Ok AllAgentType
  else if String.eqb value "cluster" then Ok ClusterAgentType
  else if String.eqb value "node" then Ok NodeAgentType
  else if String.eqb value "legacy" then Ok LegacyAgentType
  else Err "--agent can only be node, cluster, all or legacy".
Definition ScrapeCluster (a : AgentType) : bool :=
  match a with AllAgentType | LegacyAgentType | ClusterAgentType => true | NodeAgentType => false end.
Definition ScrapeNodes (a : AgentType) : string :=
  match a with AllAgentType => "all" | LegacyAgentType | NodeAgentType => "own" | ClusterAgentType => "none" end.
Definition ScrapeAnyNodes (a : AgentType) : bool :=
  match a with ClusterAgentType => false | _ => true end.
Definition ScrapeOnlyOwnNode (a : AgentType) : bool :=
  match a with LegacyAgentType | NodeAgentType => true | _ => false end.

Lemma AgentType_roundtrip a : NewAgentType (AgentType_String a) = Ok a.
Proof. by destruct a. Qed.

(** ** election.go *)

Record election := MkElection {
  started : bool;
  isLeader : bool;
  leaderId : string;
  leadingGauge : Z;
  electionError : Z;
  subscribers : gmap string positive;
  buffers : gmap positive (list bool);
  sent_log : gmap positive (list bool);
  history : list string;
}.

Definition election_init : election := MkElection false false "" 0 0 ∅ ∅ ∅ [].

(** [getLeaderElector]: the two environment variables must be set; creating
    the lock and the elector may fail too ([client_ok]). *)
Definition getLeaderElector (e : env) (client_ok : bool) : result string :=
  let nodeName := GetNodeName e in
  if String.eqb nodeName "" then Err (NodeNameEnvVar +:+ " envvar is not defined")%string
  else if String.eqb (GetNamespaceName e) "" then Err (NamespaceNameEnvVar +:+ " envvar is not defined")%string
  else if client_ok then Ok nodeName else Err "leader election".

Definition with_started (b : bool) (errors : Z) (st : election) : election :=
  MkElection b (isLeader st) (leaderId st) (leadingGauge st) errors (subscribers st) (buffers st) (sent_log st)
    (history st).

Definition startLeaderElection (e : env) (client_ok : bool) (st : election) : election * result unit :=
  if started st then (st, Ok tt)
  else match getLeaderElector e client_ok with
       | Err msg => (with_started false (electionError st + 1) st, Err msg)
       | Ok _ => (with_started true (electionError st) st, Ok tt)
       end.

Definition Subscribe (e : env) (client_ok : bool) (name : string) (st : election)
    : election * result positive :=
  match startLeaderElection e client_ok st with
  | (st, Err msg) => (st, Err msg)
  | (st, Ok _) =>
      let ch := fresh (dom (buffers st)) in
      let first := if isLeader st then [true] else [] in
      (MkElection (started st) (isLeader st) (leaderId st) (leadingGauge st) (electionError st)
         (<[name := ch]> (subscribers st)) (<[ch := first]> (buffers st)) (<[ch := first]> (sent_log st))
         (history st), Ok ch)
  end.

Definition Unsubscribe (name : string) (st : election) : election :=
  MkElection (started st) (isLeader st) (leaderId st) (leadingGauge st) (electionError st)
    (delete name (subscribers st)) (buffers st) (sent_log st) (history st).

(** A send on a channel with room for one message; [None] blocks. *)
Definition chan_send (v : bool) (ch : positive) (st : gmap positive (list bool) * gmap positive (list bool))
    : option (gmap positive (list bool) * gmap positive (list bool)) :=
  let '(bufs, log) := st in
  match bufs !! ch with
  | Some [] => Some (<[ch := [v]]> bufs, <[ch := default [] (log !! ch) ++ [v]]> log)
  | _ => None
  end.

(** The subscribers are told in the order in which the map is visited. *)
Fixpoint notify (v : bool) (order : list (string * positive))
    (st : gmap positive (list bool) * gmap positive (list bool))
    : option (gmap positive (list bool) * gmap positive (list bool)) :=
  match order with
  | [] => Some st
  | (_, ch) :: order' => st' ← chan_send v ch st; notify v order' st'
  end.

(** The callback; [None] while a send blocks. *)
Definition OnNewLeader (nodeName identity : string) (order : list (string * positive)) (st : election)
    : option election :=
  let self := String.eqb identity nodeName in
  let gauge := if self then 1%Z else 0%Z in
  let update lead bl := MkElection (started st) lead identity gauge (electionError st) (subscribers st)
                          bl.1 bl.2 (history st ++ [identity]) in
  if self && negb (isLeader st) then update true <$> notify true order (buffers st, sent_log st)
  else if negb self && isLeader st then update (isLeader st) <$> notify false order (buffers st, sent_log st)
  else Some (update (isLeader st) (buffers st, sent_log st)).

(** A receive from a channel. *)
Definition chan_receive (ch : positive) (st : election) : option (bool * election) :=
  match buffers st !! ch with
  | Some (v :: vs) =>
      Some (v, MkElection (started st) (isLeader st) (leaderId st) (leadingGauge st) (electionError st)
                 (subscribers st) (<[ch := vs]> (buffers st)) (sent_log st) (history st))
  | _ => None
  end.

Definition Leader (st : election) : string := leaderId st.
Definition Leading (a : AgentType) (st : election) : bool := ScrapeCluster a && isLeader st.

(** What [Manager.run] does with a message: [Resume] on true, [Pause] on
    false; the system runs after [Resume]. *)
Definition manager_run (running : bool) (msgs : list bool) : bool := foldl (fun _ isLeader => isLeader) running msgs.

(** The steps of the election state of node [nodeName]. *)
Inductive election_step (nodeName : string) : election -> election -> Prop :=
  | es_subscribe e client_ok name st : GetNodeName e = nodeName ->
      election_step nodeName st (Subscribe e client_ok name st).1
  | es_unsubscribe name st : election_step nodeName st (Unsubscribe name st)
  | es_leader identity order st st' : iterates order (subscribers st) ->
      OnNewLeader nodeName identity order st = Some st' -> election_step nodeName st st'
  | es_receive ch v st st' : chan_receive ch st = Some (v, st') -> election_step nodeName st st'.

Definition election_reachable (nodeName : string) : election -> Prop :=
  rtc (election_step nodeName) election_init.

(** ** Invariant *)

(** What a current subscriber has been sent: nothing before this node is
    first elected; then one true and after that only false. *)
Record election_ok (nodeName : string) (st : election) : Prop := {
  eo_leader : isLeader st = bool_decide (nodeName ∈ history st);
  eo_id : leaderId st = default "" (last (history st));
  eo_gauge : leadingGauge st = if bool_decide (last (history st) = Some nodeName) then 1%Z else 0%Z;
  eo_inj : forall n1 n2 ch, subscribers st !! n1 = Some ch -> subscribers st !! n2 = Some ch -> n1 = n2;
  eo_log : forall n ch, subscribers st !! n = Some ch ->
    exists k, sent_log st !! ch = Some (if isLeader st then true :: replicate k false else []);
  eo_buf : forall ch, is_Some (buffers st !! ch) <-> is_Some (sent_log st !! ch);
}.

(** ** Lemmas *)

Lemma chan_send_spec v ch bl bl' :
  chan_send v ch bl = Some bl' ->
  (forall c, is_Some (bl'.1 !! c) <-> is_Some (bl.1 !! c)) /\
  bl'.2 = <[ch := default [] (bl.2 !! ch) ++ [v]]> bl.2 /\ bl.1 !! ch = Some [].
Proof.
  destruct bl as [bufs log]. unfold chan_send. destruct (bufs !! ch) as [[|x xs]|] eqn:E; try done.
  intros [= <-]. cbn. split_and!; [|done|done]. intros c. destruct (decide (c = ch)) as [->|Hne].
  - rewrite lookup_insert_eq, E. by split; eauto.
  - by rewrite lookup_insert_ne.
Qed.

(** Every channel told is told once, the others not at all. *)
Lemma notify_spec v order bl bl' :
  NoDup (order.*2) -> notify v order bl = Some bl' ->
  (forall c, is_Some (bl'.1 !! c) <-> is_Some (bl.1 !! c)) /\
  (forall c, c ∈ order.*2 -> is_Some (bl.1 !! c) /\ bl'.2 !! c = Some (default [] (bl.2 !! c) ++ [v])) /\
  (forall c, c ∉ order.*2 -> bl'.2 !! c = bl.2 !! c).
Proof.
  revert bl; induction order as [|[n ch] order IH]; intros bl Hnd; cbn.
  { intros [= <-]. split_and!; [done| |done]. intros c Hc. by apply not_elem_of_nil in Hc. }
  apply NoDup_cons in Hnd as [Hch Hnd]. destruct (chan_send v ch bl) as [bl1|] eqn:Es; [|done]. cbn. intros Hn.
  destruct (chan_send_spec _ _ _ _ Es) as (Hd & Hl & Hb). destruct (IH bl1 Hnd Hn) as (Hd1 & Hin & Hout).
  split_and!.
  - intros c. by rewrite Hd1, Hd.
  - intros c [->|Hc]%elem_of_cons.
    + rewrite Hb. split; [by eauto|]. by rewrite (Hout ch Hch), Hl, lookup_insert_eq.
    + destruct (Hin c Hc) as [H1 H2]. rewrite <-Hd. split; [done|]. rewrite H2, Hl, lookup_insert_ne; [done|].
      by intros ->.
  - intros c Hc. apply not_elem_of_cons in Hc as [Hne Hc]. rewrite (Hout c Hc), Hl, lookup_insert_ne; [done|].
    by intros ->.
Qed.

(** A visit of subscribers with channels of their own sees each channel once. *)
Lemma order_channels (subs : gmap string positive) order :
  (forall n1 n2 ch, subs !! n1 = Some ch -> subs !! n2 = Some ch -> n1 = n2) -> iterates order subs ->
  NoDup (order.*2) /\ forall c, c ∈ order.*2 <-> exists n, subs !! n = Some c.
Proof.
  intros Hi Ho. split.
  - pose proof (iterates_NoDup _ _ Ho) as Hnd. assert (Hinj : forall n1 n2 c, (n1, c) ∈ order -> (n2, c) ∈ order -> n1 = n2).
    { intros n1 n2 c H1 H2. apply (iterates_elem _ _ _ _ Ho) in H1, H2. by eapply Hi. }
    clear Ho. induction order as [|[n c] order IH]; [constructor|]. cbn in *. apply NoDup_cons in Hnd as [Hn Hnd].
    constructor.
    + intros ([n' c'] & Ec & Hin)%list_elem_of_fmap. cbn in Ec. subst c'.
      assert (n = n') as <- by (apply (Hinj n n' c); [by left|by right]).
      apply Hn, list_elem_of_fmap. by exists (n, c).
    + apply IH; [done|]. intros n1 n2 c' H1 H2. apply (Hinj n1 n2 c'); by right.
  - intros c. rewrite list_elem_of_fmap. split.
    + intros ([n c'] & -> & Hin). exists n. by apply (iterates_elem _ _ _ _ Ho).
    + intros [n Hn]. exists (n, c). split; [done|]. by apply (iterates_elem _ _ _ _ Ho).
Qed.

Lemma told_channels st nodeName order :
  election_ok nodeName st -> iterates order (subscribers st) ->
  NoDup (order.*2) /\ forall c, c ∈ order.*2 <-> exists n, subscribers st !! n = Some c.
Proof. intros Hok. apply order_channels. by apply (eo_inj nodeName). Qed.

Lemma election_init_ok nodeName : election_ok nodeName election_init.
Proof. split; try done. Qed.

Lemma Subscribe_ok nodeName e client_ok name st :
  election_ok nodeName st -> election_ok nodeName (Subscribe e client_ok name st).1.
Proof.
  intros Hok. unfold Subscribe. assert (Hs : election_ok nodeName (startLeaderElection e client_ok st).1).
  { unfold startLeaderElection. destruct (started st); [done|].
    destruct (getLeaderElector e client_ok); destruct Hok; by split. }
  destruct (startLeaderElection e client_ok st) as [st1 [[]|msg]]; [|done]. cbn in Hs |- *. clear Hok.
  set (ch := fresh (dom (buffers st1))).
  assert (Hb : buffers st1 !! ch = None) by (apply not_elem_of_dom, is_fresh).
  assert (Hl : sent_log st1 !! ch = None).
  { destruct (sent_log st1 !! ch) eqn:E; [|done]. assert (is_Some (buffers st1 !! ch)) as [? H].
    { apply (eo_buf _ _ Hs). by eexists. } by rewrite Hb in H. }
  assert (Hnew : forall n, subscribers st1 !! n <> Some ch).
  { intros n Hn. destruct (eo_log _ _ Hs _ _ Hn) as [k Hk]. by rewrite Hl in Hk. }
  split; cbn; try apply Hs.
  - intros n1 n2 c H1 H2. rewrite lookup_insert_Some in H1. rewrite lookup_insert_Some in H2.
    destruct H1 as [[<- <-]|[Hn1 H1]], H2 as [[<- H2]|[Hn2 H2]]; [done|by apply Hnew in H2| |by eapply (eo_inj _ _ Hs)].
    subst c. by apply Hnew in H1.
  - intros n c H. rewrite lookup_insert_Some in H. destruct H as [[<- <-]|[Hn H]].
    + rewrite lookup_insert_eq. exists 0. done.
    + rewrite lookup_insert_ne; [by apply (eo_log _ _ Hs n)|]. intros <-. by apply Hnew in H.
  - intros c. destruct (decide (c = ch)) as [->|Hne]; [rewrite !lookup_insert_eq; by split; eauto|].
    rewrite !lookup_insert_ne by done. apply Hs.
Qed.

(** The new state is well formed when its logs are. *)
Lemma elected_ok nodeName identity st lead bl :
  election_ok nodeName st -> lead = isLeader st || String.eqb identity nodeName ->
  (forall n ch, subscribers st !! n = Some ch ->
     exists k, bl.2 !! ch = Some (if lead then true :: replicate k false else [])) ->
  (forall c, is_Some (bl.1 !! c) <-> is_Some (bl.2 !! c)) ->
  election_ok nodeName (MkElection (started st) lead identity (if String.eqb identity nodeName then 1%Z else 0%Z)
    (electionError st) (subscribers st) bl.1 bl.2 (history st ++ [identity])).
Proof.
  intros Hok -> Hlog Hbuf. split; cbn; [| | |apply (eo_inj _ _ Hok)|done|done].
  - rewrite (eo_leader _ _ Hok). destruct (String.eqb_spec identity nodeName) as [->|Hne].
    + rewrite orb_true_r, bool_decide_eq_true_2; [done|]. set_solver.
    + rewrite orb_false_r. apply bool_decide_ext. set_solver.
  - by rewrite last_snoc.
  - rewrite last_snoc. destruct (String.eqb_spec identity nodeName) as [->|Hne].
    + by rewrite bool_decide_eq_true_2.
    + rewrite bool_decide_eq_false_2; [done|]. by intros [= ->].
Qed.

(** The logs after a round of messages. *)
Lemma round_logs nodeName st order v bl' :
  election_ok nodeName st -> iterates order (subscribers st) ->
  notify v order (buffers st, sent_log st) = Some bl' ->
  (forall n ch, subscribers st !! n = Some ch -> bl'.2 !! ch = Some (default [] (sent_log st !! ch) ++ [v])) /\
  (forall c, is_Some (bl'.1 !! c) <-> is_Some (bl'.2 !! c)).
Proof.
  intros Hok Ho Hn. destruct (told_channels st nodeName order Hok Ho) as [Hnd Htold].
  destruct (notify_spec v order _ bl' Hnd Hn) as (Hd & Hin & Hout). split.
  - intros n ch Hs. apply Hin, Htold. by exists n.
  - intros c. rewrite Hd. cbn. destruct (decide (c ∈ order.*2)) as [Hc|Hc].
    + destruct (Hin c Hc) as [H1 H2]. rewrite H2. cbn in H1. split; eauto.
    + rewrite (Hout c Hc). apply (eo_buf _ _ Hok).
Qed.

Lemma OnNewLeader_ok nodeName identity order st st' :
  election_ok nodeName st -> iterates order (subscribers st) ->
  OnNewLeader nodeName identity order st = Some st' -> election_ok nodeName st'.
Proof.
  intros Hok Ho. unfold OnNewLeader.
  pose proof (elected_ok nodeName identity st) as Hel. set (self := String.eqb identity nodeName) in *.
  destruct (self && negb (isLeader st)) eqn:E1; [|destruct (negb self && isLeader st) eqn:E2].
  - apply andb_true_iff in E1 as [Es El]. apply negb_true_iff in El.
    destruct (notify true order _) as [bl|] eqn:En; [|done]. intros [= <-].
    destruct (round_logs _ _ _ _ _ Hok Ho En) as [Hl Hb].
    apply Hel; [done|by rewrite El, Es| |done]. intros n ch Hs. rewrite (Hl _ _ Hs).
    destruct (eo_log _ _ Hok _ _ Hs) as [k Hk]. rewrite El in Hk. exists 0. by rewrite Hk.
  - apply andb_true_iff in E2 as [Es El].
    destruct (notify false order _) as [bl|] eqn:En; [|done]. intros [= <-].
    destruct (round_logs _ _ _ _ _ Hok Ho En) as [Hl Hb].
    apply Hel; [done|by rewrite El| |done]. intros n ch Hs. rewrite (Hl _ _ Hs).
    destruct (eo_log _ _ Hok _ _ Hs) as [k Hk]. rewrite El in Hk |- *. exists (S k). rewrite Hk. cbn.
    by rewrite <-replicate_cons_app.
  - intros [= <-]. apply (Hel _ (buffers st, sent_log st)); [done|by destruct self, (isLeader st)| |];
      [apply (eo_log _ _ Hok)|apply (eo_buf _ _ Hok)].
Qed.

Lemma receive_ok nodeName ch v st st' :
  election_ok nodeName st -> chan_receive ch st = Some (v, st') -> election_ok nodeName st'.
Proof.
  intros Hok. unfold chan_receive. destruct (buffers st !! ch) as [[|x xs]|] eqn:E; try done. intros [= <- <-].
  split; cbn; try apply Hok. intros c. rewrite <-(eo_buf _ _ Hok). destruct (decide (c = ch)) as [->|Hne].
  - rewrite lookup_insert_eq, E. by split; eauto.
  - by rewrite lookup_insert_ne.
Qed.

Lemma election_reachable_ok nodeName st : election_reachable nodeName st -> election_ok nodeName st.
Proof.
  revert st. apply (rtc_ind_r (R := election_step nodeName) (election_ok nodeName) election_init);
    [apply election_init_ok|]. intros st1 st2 _ Hstep Hok. destruct Hstep.
  - by apply Subscribe_ok.
  - destruct Hok as [? ? ? Hinj Hlog ?]. split; cbn; try done.
    + intros n1 n2 ch (_ & H1)%lookup_delete_Some (_ & H2)%lookup_delete_Some. by eapply Hinj.
    + intros n ch (_ & H1)%lookup_delete_Some. by eapply Hlog.
  - by eapply OnNewLeader_ok.
  - by eapply receive_ok.
Qed.

(** ** Property *)

(** Leadership is never given up.  In every reachable state the leader is
    the node elected last and the gauge says whether it is this node; but
    this node takes itself for the leader from its first election on, whoever
    is elected later, and a subscriber is sent true once and from then on only
    false: a component that was paused is not resumed when this node is
    elected again. *)
Theorem leadership_never_lost (nodeName : string) (a : AgentType) (st : election) :
  election_reachable nodeName st ->
  Leader st = default "" (last (history st)) /\
  leadingGauge st = (if bool_decide (last (history st) = Some nodeName) then 1 else 0)%Z /\
  Leading a st = ScrapeCluster a && bool_decide (nodeName ∈ history st) /\
  forall n ch, subscribers st !! n = Some ch -> exists msgs, sent_log st !! ch = Some msgs /\
    (nodeName ∉ history st -> msgs = []) /\
    (nodeName ∈ history st -> exists k, msgs = true :: replicate k false /\ manager_run false msgs = bool_decide (k = 0)).
Proof.
  intros Hr. apply election_reachable_ok in Hr. destruct Hr as [Hl Hid Hg Hinj Hlog Hbuf].
  split_and!; [done|done|unfold Leading; by rewrite Hl|]. intros n ch Hs. destruct (Hlog n ch Hs) as [k Hk]. eexists. split; [exact Hk|].
  rewrite Hl. split; intros Hn.
  - by rewrite bool_decide_eq_false_2.
  - rewrite bool_decide_eq_true_2 by done. exists k. split; [done|]. unfold manager_run. cbn.
    clear Hk. induction k as [|k IH]; [done|]. cbn. rewrite (bool_decide_eq_false_2 (S k = 0)) by done.
    clear IH. induction k as [|k IH]; [done|]. exact IH.
Qed.

(** The node is elected, then another one, then the node again. *)
Definition reelected : election :=
  let e : env := <[NodeNameEnvVar := "n1"]> {[NamespaceNameEnvVar := "ns"]} in
  let s1 := (Subscribe e true "discovery" election_init).1 in
  let lead id st := default st (OnNewLeader "n1" id (map_to_list (subscribers st)) st) in
  let recv st := default st (snd <$> chan_receive 1 st) in
  recv (lead "n1" (recv (lead "n2" (recv (lead "n1" s1))))).

Lemma leadership_never_lost_witness :
  subscribers reelected !! "discovery" = Some 1%positive /\ Leader reelected = "n1" /\
  exists msgs, sent_log reelected !! 1%positive = Some msgs /\ manager_run false msgs = false.
Proof.
  assert (Hr : election_reachable "n1" reelected).
  { unfold election_reachable, reelected. cbv zeta.
    eapply rtc_l; [apply (es_subscribe "n1" (<[NodeNameEnvVar := "n1"]> {[NamespaceNameEnvVar := "ns"]}) true "discovery"); by vm_compute|].
    eapply rtc_l; [eapply (es_leader "n1" "n1"); [apply iterates_canonical|by vm_compute]|].
    eapply rtc_l; [eapply (es_receive "n1" 1); by vm_compute|].
    eapply rtc_l; [eapply (es_leader "n1" "n2"); [apply iterates_canonical|by vm_compute]|].
    eapply rtc_l; [eapply (es_receive "n1" 1); by vm_compute|].
    eapply rtc_l; [eapply (es_leader "n1" "n1"); [apply iterates_canonical|by vm_compute]|].
    match goal with |- rtc _ ?a ?b => replace b with a by by vm_compute end. apply rtc_refl. }
  destruct (leadership_never_lost "n1" LegacyAgentType reelected Hr) as (Hl & _ & _ & Hs).
  split_and!; [by vm_compute|etransitivity; [exact Hl|by vm_compute]|].
  destruct (Hs "discovery" 1%positive) as (msgs & Hm & _ & Hin); [by vm_compute|]. exists msgs. split; [exact Hm|].
  destruct Hin as (k & -> & Hrun); [by apply (bool_decide_unpack _); vm_compute|].
  etransitivity; [exact Hrun|]. apply bool_decide_eq_false_2. intros ->.
  replace (sent_log reelected !! 1%positive) with (Some [true; false]) in Hm by by vm_compute. done.
Defined.
