(* ===== verification/LeadershipLock.v ===== *)
(** The lock of the election state: internal/leadership/election.go and
    manager.go with what cmd/wavefront-collector/main.go does with them.

    Leadership.v takes the callback of an election for one step.  It is not:
    the callback sends on the channels of the subscribers one after the other
    while it holds the lock, a channel has room for one message, and main
    subscribes the agent with a channel that nobody receives from.  Here a
    send is a step, the lock is held or free, and a manager that has received
    a message calls [Leader], which needs the lock, before it resumes or
    pauses its component. *)

From Stdlib Require Import ZArith Lia.
From S2P Require Import Prelude Util Leadership.

(** The name under which main subscribes; the channel is dropped. *)
Definition agent_name : string := "agent".

(** A callback under way: the identity, the message, and the subscribers that
    are still to be told. *)
Record callback := MkCallback {
  cb_identity : string;
  cb_message : bool;
  cb_left : list (string * positive);
}.

Record locked := MkLocked {
  lk_state : election;
  lk_held : option callback;          (** the holder of the lock *)
  lk_waiting : list (string * bool);  (** managers that have received a message *)
  lk_done : list (string * bool);     (** [Resume] and [Pause] calls so far *)
}.
Definition locked_init : locked := MkLocked election_init None [] [].

Section lock.
Context (nodeName : string).

(** The beginning of the callback, up to the loop: gauge and leader are set,
    and whom to tell is known. *)
Definition begin_callback (identity : string) (order : list (string * positive)) (st : election) : election * callback :=
  let self := String.eqb identity nodeName in
  (MkElection (started st) (isLeader st) identity (if self then 1 else 0)%Z (electionError st) (subscribers st)
     (buffers st) (sent_log st) (history st ++ [identity]),
   if self && negb (isLeader st) then MkCallback identity true order
   else if negb self && isLeader st then MkCallback identity false order
   else MkCallback identity self []).

(** One send of the loop; [None] blocks. *)
Definition send_next (st : election) (cb : callback) : option (election * callback) :=
  match cb_left cb with
  | [] => None
  | (_, ch) :: more =>
      bl ← chan_send (cb_message cb) ch (buffers st, sent_log st);
      Some (MkElection (started st) (isLeader st) (leaderId st) (leadingGauge st) (electionError st) (subscribers st)
              bl.1 bl.2 (history st), MkCallback (cb_identity cb) (cb_message cb) more)
  end.

(** The end: this node leads when it was elected. *)
Definition end_callback (st : election) (cb : callback) : election :=
  MkElection (started st) (isLeader st || String.eqb (cb_identity cb) nodeName) (leaderId st) (leadingGauge st)
    (electionError st) (subscribers st) (buffers st) (sent_log st) (history st).

(** The callback without anything in between. *)
Fixpoint run_callback (fuel : nat) (st : election) (cb : callback) : option election :=
  match cb_left cb, fuel with
  | [], _ => Some (end_callback st cb)
  | _, O => None
  | _, S fuel => '(st', cb') ← send_next st cb; run_callback fuel st' cb'
  end.

Inductive lock_step : locked -> locked -> Prop :=
  | ls_subscribe e client_ok name st w d :   (** [Subscribe] takes the lock *)
      GetNodeName e = nodeName ->
      lock_step (MkLocked st None w d) (MkLocked (Subscribe e client_ok name st).1 None w d)
  | ls_unsubscribe name st w d :             (** nobody unsubscribes the agent *)
      name <> agent_name -> lock_step (MkLocked st None w d) (MkLocked (Unsubscribe name st) None w d)
  | ls_begin identity order st w d :
      iterates order (subscribers st) ->
      lock_step (MkLocked st None w d)
        (MkLocked (begin_callback identity order st).1 (Some (begin_callback identity order st).2) w d)
  | ls_send st cb st' cb' w d :
      send_next st cb = Some (st', cb') -> lock_step (MkLocked st (Some cb) w d) (MkLocked st' (Some cb') w d)
  | ls_end st cb w d :
      cb_left cb = [] -> lock_step (MkLocked st (Some cb) w d) (MkLocked (end_callback st cb) None w d)
  | ls_receive name ch v st st' h w d :      (** by the manager [name] *)
      subscribers st !! agent_name <> Some ch -> chan_receive ch st = Some (v, st') ->
      lock_step (MkLocked st h w d) (MkLocked st' h (w ++ [(name, v)]) d)
  | ls_handle m st w1 w2 d :                 (** [Leader] and then [Resume] or [Pause] *)
      lock_step (MkLocked st None (w1 ++ m :: w2) d) (MkLocked st None (w1 ++ w2) (d ++ [m])).

(** ** The callback as one step *)

Lemma run_callback_notify st cb fuel :
  length (cb_left cb) <= fuel ->
  run_callback fuel st cb =
    (fun bl => MkElection (started st) (isLeader st || String.eqb (cb_identity cb) nodeName) (leaderId st)
       (leadingGauge st) (electionError st) (subscribers st) bl.1 bl.2 (history st))
    <$> notify (cb_message cb) (cb_left cb) (buffers st, sent_log st).
Proof.
  revert st cb; induction fuel as [|fuel IH]; intros st [id v more] Hl; destruct more as [|[n ch] more]; cbn -[chan_send] in *; try lia; try done.
  destruct (chan_send v ch (buffers st, sent_log st)) as [[bufs log]|]; [|done]. cbn.
  by rewrite IH by (cbn; lia).
Qed.

Lemma run_callback_atomic identity order st :
  let '(st', cb) := begin_callback identity order st in
  run_callback (length (cb_left cb)) st' cb = OnNewLeader nodeName identity order st.
Proof.
  destruct (begin_callback identity order st) as [st' cb] eqn:E. rewrite run_callback_notify by done.
  unfold begin_callback in E. unfold OnNewLeader. destruct (String.eqb identity nodeName) eqn:Es, (isLeader st) eqn:El;
    cbn [andb negb] in *; injection E as <- <-; cbn [cb_left cb_message cb_identity isLeader started leaderId leadingGauge
      electionError subscribers buffers sent_log history orb notify]; rewrite ?Es; done.
Qed.

(** ** The agent's channel *)

(** What is in the channel [ch] of the agent, from which nobody receives. *)
Definition agent_buffer (s : locked) (ch : positive) : list bool :=
  if isLeader (lk_state s) then [true]
  else match lk_held s with
       | Some cb => if String.eqb (cb_identity cb) nodeName && negb (bool_decide (ch ∈ (cb_left cb).*2)) then [true] else []
       | None => []
       end.

(** The callback under way: it tells the current subscribers, true when this
    node is elected and false, the agent included, when another one is. *)
Definition callback_ok (st : election) (cb : callback) : Prop :=
  NoDup ((cb_left cb).*2) /\
  (cb_left cb <> [] -> cb_message cb = negb (isLeader st) /\ cb_message cb = String.eqb (cb_identity cb) nodeName) /\
  (isLeader st = true -> cb_identity cb <> nodeName -> forall ch, subscribers st !! agent_name = Some ch -> ch ∈ (cb_left cb).*2).

Record lock_ok (s : locked) : Prop := {
  lo_inj n1 n2 ch : subscribers (lk_state s) !! n1 = Some ch -> subscribers (lk_state s) !! n2 = Some ch -> n1 = n2;
  lo_dom n ch : subscribers (lk_state s) !! n = Some ch -> is_Some (buffers (lk_state s) !! ch);
  lo_held cb : lk_held s = Some cb -> callback_ok (lk_state s) cb;
  lo_agent ch : subscribers (lk_state s) !! agent_name = Some ch -> buffers (lk_state s) !! ch = Some (agent_buffer s ch);
}.

Lemma locked_init_ok : lock_ok locked_init.
Proof. by split. Qed.

Lemma subscribe_cases e client_ok name st :
  let st' := (Subscribe e client_ok name st).1 in
  isLeader st' = isLeader st /\
  (subscribers st' = subscribers st /\ buffers st' = buffers st \/
   exists ch, buffers st !! ch = None /\ subscribers st' = <[name := ch]> (subscribers st) /\
     buffers st' = <[ch := if isLeader st then [true] else []]> (buffers st)).
Proof.
  unfold Subscribe, startLeaderElection. destruct (started st).
  - split; [done|right]. eexists. split_and!; [|done|done]. apply not_elem_of_dom, is_fresh.
  - destruct (getLeaderElector e client_ok); cbn; split; try done; [right|by left].
    eexists. split_and!; [|done|done]. apply not_elem_of_dom, is_fresh.
Qed.

Lemma subscribe_ok e client_ok name st w d :
  lock_ok (MkLocked st None w d) -> lock_ok (MkLocked (Subscribe e client_ok name st).1 None w d).
Proof.
  intros [Hi Hd _ Ha]. cbn in *. destruct (subscribe_cases e client_ok name st) as [El [[Es Eb]|(ch & Hch & Es & Eb)]];
    split; unfold agent_buffer in *; cbn in *; rewrite ?Es, ?Eb, ?El; try done.
  - intros n1 n2 c H1 H2. rewrite lookup_insert_Some in H1, H2.
    destruct H1 as [[<- <-]|[Hn1 H1]], H2 as [[<- H2]|[Hn2 H2]]; try done; [|subst c|by eapply Hi].
    + destruct (Hd _ _ H2). congruence.
    + destruct (Hd _ _ H1). congruence.
  - intros n c H. rewrite lookup_insert_Some in H. destruct (decide (c = ch)) as [->|Hne]; [by rewrite lookup_insert_eq|].
    rewrite lookup_insert_ne by done. destruct H as [[_ ?]|[_ H]]; [done|by eapply Hd].
  - intros c H. rewrite lookup_insert_Some in H. destruct H as [[_ <-]|[_ H]]; [by rewrite lookup_insert_eq|].
    rewrite lookup_insert_ne; [by apply Ha|]. intros <-. destruct (Hd _ _ H). congruence.
Qed.

Lemma unsubscribe_ok name st w d :
  name <> agent_name -> lock_ok (MkLocked st None w d) -> lock_ok (MkLocked (Unsubscribe name st) None w d).
Proof.
  intros Hn [Hi Hd _ Ha]. split; unfold agent_buffer in *; cbn in *; try done.
  - intros n1 n2 ch [_ H1]%lookup_delete_Some [_ H2]%lookup_delete_Some. by eapply Hi.
  - intros n ch [_ H]%lookup_delete_Some. by eapply Hd.
  - intros ch [_ H]%lookup_delete_Some. by apply Ha.
Qed.

Lemma begin_ok identity order st w d :
  iterates order (subscribers st) -> lock_ok (MkLocked st None w d) ->
  lock_ok (MkLocked (begin_callback identity order st).1 (Some (begin_callback identity order st).2) w d).
Proof.
  intros Ho [Hi Hd _ Ha]. cbn in *. destruct (order_channels _ order Hi Ho) as [Hnd Hin].
  unfold begin_callback. split; unfold agent_buffer in *; cbn [lk_state lk_held isLeader subscribers buffers fst snd] in *; try done.
  - intros cb [= <-]. unfold callback_ok. cbn [isLeader subscribers].
    destruct (String.eqb_spec identity nodeName) as [->|Hne], (isLeader st) eqn:El; cbn [andb negb cb_left cb_message cb_identity];
      (split; [done || apply NoDup_nil_2|split]); try done.
    + intros _. by rewrite String.eqb_refl.
    + intros _. split; [done|]. symmetry. by apply String.eqb_neq.
    + intros _ _ ch Hch. apply Hin. by exists agent_name.
  - intros ch Hch. rewrite (Ha ch Hch). f_equal.
    destruct (isLeader st) eqn:El; [done|]. destruct (String.eqb_spec identity nodeName) as [->|Hne]; cbn [andb negb cb_identity cb_left].
    + rewrite String.eqb_refl, bool_decide_eq_true_2; [done|]. apply Hin. by exists agent_name.
    + by rewrite (proj2 (String.eqb_neq _ _) Hne).
Qed.

Lemma send_inv st cb st' cb' :
  send_next st cb = Some (st', cb') -> exists n ch more, cb_left cb = (n, ch) :: more /\
    cb' = MkCallback (cb_identity cb) (cb_message cb) more /\ buffers st !! ch = Some [] /\
    isLeader st' = isLeader st /\ subscribers st' = subscribers st /\ buffers st' = <[ch := [cb_message cb]]> (buffers st).
Proof.
  unfold send_next, chan_send. destruct (cb_left cb) as [|[n ch] more]; [done|].
  destruct (buffers st !! ch) as [[|]|] eqn:E; try done. cbn. intros [= <- <-]. by exists n, ch, more.
Qed.

Lemma send_ok st cb st' cb' w d :
  send_next st cb = Some (st', cb') -> lock_ok (MkLocked st (Some cb) w d) -> lock_ok (MkLocked st' (Some cb') w d).
Proof.
  intros (n & c & more & El & -> & Hc & EL & Es & Eb)%send_inv [Hi Hd Hh Ha]. cbn in *.
  destruct (Hh cb eq_refl) as (Hnd & Hmsg & Hstuck). rewrite El in Hnd, Hmsg, Hstuck. destruct (Hmsg ltac:(done)) as [Hm1 Hm2].
  cbn in Hnd. apply NoDup_cons in Hnd as [Hnc Hnd].
  assert (Hagent : forall ch, subscribers st !! agent_name = Some ch -> isLeader st = true -> ch <> c).
  { intros ch Hch HL ->. specialize (Ha c Hch). unfold agent_buffer in Ha. cbn in Ha. rewrite HL in Ha. congruence. }
  split; unfold agent_buffer in *; cbn in *; rewrite ?Es, ?EL; try done.
  - intros n' ch H. rewrite Eb. destruct (decide (ch = c)) as [->|Hne]; [by rewrite lookup_insert_eq|].
    rewrite lookup_insert_ne by done. by eapply Hd.
  - intros cb' [= <-]. unfold callback_ok. cbn. rewrite EL, Es. split_and!; [done|done|].
    intros HL Hid ch Hch. specialize (Hstuck HL Hid ch Hch). cbn in Hstuck. apply elem_of_cons in Hstuck as [->|?]; [|done].
    by destruct (Hagent c Hch HL).
  - intros ch Hch. specialize (Ha ch Hch). rewrite El in Ha. cbn in Ha. rewrite Eb. destruct (isLeader st) eqn:HL.
    + rewrite lookup_insert_ne; [done|]. apply not_eq_sym. by apply Hagent.
    + rewrite Hm1 in Hm2 |- *. cbn in Hm2. rewrite <-Hm2 in *. cbn [andb] in *. destruct (decide (ch = c)) as [->|Hne].
      * rewrite lookup_insert_eq, bool_decide_eq_false_2; done.
      * rewrite lookup_insert_ne by done. rewrite Ha.
        rewrite (bool_decide_ext (ch ∈ c :: more.*2) (ch ∈ more.*2)); [done|]. rewrite elem_of_cons. naive_solver.
Qed.

Lemma end_ok st cb w d :
  cb_left cb = [] -> lock_ok (MkLocked st (Some cb) w d) -> lock_ok (MkLocked (end_callback st cb) None w d).
Proof.
  intros El [Hi Hd Hh Ha]. split; unfold agent_buffer in *; cbn in *; try done.
  intros ch Hch. rewrite (Ha ch Hch). rewrite El. cbn. destruct (isLeader st); [done|]. cbn.
  by destruct (String.eqb _ _).
Qed.

Lemma receive_inv ch v st st' :
  chan_receive ch st = Some (v, st') -> exists vs, buffers st !! ch = Some (v :: vs) /\ isLeader st' = isLeader st /\
    subscribers st' = subscribers st /\ buffers st' = <[ch := vs]> (buffers st).
Proof.
  unfold chan_receive. destruct (buffers st !! ch) as [[|x vs]|]; try done. intros [= -> <-]. by exists vs.
Qed.

Lemma receive_lock_ok ch v st st' h w w' d :
  subscribers st !! agent_name <> Some ch -> chan_receive ch st = Some (v, st') ->
  lock_ok (MkLocked st h w d) -> lock_ok (MkLocked st' h w' d).
Proof.
  intros Hne (vs & Hb & EL & Es & Eb)%receive_inv [Hi Hd Hh Ha].
  split; unfold agent_buffer, callback_ok in *; cbn in *; rewrite ?Es, ?EL; try done.
  - intros n c H. rewrite Eb. destruct (decide (c = ch)) as [->|Hc]; [by rewrite lookup_insert_eq|].
    rewrite lookup_insert_ne by done. by eapply Hd.
  - intros c Hc. rewrite Eb, lookup_insert_ne; [by apply Ha|]. by intros ->.
Qed.

Lemma lock_step_ok s s' : lock_step s s' -> lock_ok s -> lock_ok s'.
Proof.
  destruct 1 as [e client_ok name st w d _|name st w d Hn|identity order st w d Ho|st cb st' cb' w d Hs|st cb w d El
    |name ch v st st' h w d Hne Hr|m st w1 w2 d].
  - apply subscribe_ok.
  - by apply unsubscribe_ok.
  - by apply begin_ok.
  - by apply send_ok.
  - by apply end_ok.
  - by apply (receive_lock_ok ch v).
  - intros [Hi Hd Hh Ha]. by split.
Qed.

(** ** A callback that never ends *)

(** The callback still has to tell the agent, whose channel is full. *)
Definition stuck (ch : positive) (s : locked) : Prop :=
  subscribers (lk_state s) !! agent_name = Some ch /\ buffers (lk_state s) !! ch = Some [true] /\
    exists cb, lk_held s = Some cb /\ ch ∈ (cb_left cb).*2.

Lemma notify_blocks v order ch bl :
  ch ∈ order.*2 -> bl.1 !! ch = Some [true] -> notify v order bl = None.
Proof.
  revert bl; induction order as [|[n c] order IH]; intros [bufs log] Hin Hb; [by apply not_elem_of_nil in Hin|].
  cbn in Hin, Hb. unfold notify; fold notify. destruct (chan_send v c (bufs, log)) as [bl1|] eqn:E; [|done].
  unfold chan_send in E. destruct (decide (c = ch)) as [->|Hne]; [by rewrite Hb in E|].
  apply elem_of_cons in Hin as [->|Hin]; [done|]. cbn. apply IH; [done|].
  destruct (bufs !! c) as [[|]|]; try done. injection E as <-. cbn. by rewrite lookup_insert_ne.
Qed.

(** What does not change while the callback is stuck. *)
Definition frozen (s : locked) : list (string * bool) * bool * gmap string positive * string :=
  (lk_done s, isLeader (lk_state s), subscribers (lk_state s), leaderId (lk_state s)).

Lemma stuck_step ch s s' : lock_step s s' -> stuck ch s -> stuck ch s' /\ frozen s' = frozen s.
Proof.
  intros Hstep (Hs & Hb & cb & Hh & Hin).
  destruct Hstep as [| | |st cb0 st' cb' w d Hsend|st cb0 w d El|name c v st st' h w d Hne Hr|]; cbn in *; try done.
  - injection Hh as ->. pose proof Hsend as Hsend'. apply send_inv in Hsend as (n & c & more & El & -> & Hc & EL & Es & Eb).
    rewrite El in Hin. cbn in Hin. apply elem_of_cons in Hin as [->|Hin]; [congruence|].
    assert (Hl : leaderId st' = leaderId st).
    { unfold send_next in Hsend'. rewrite El in Hsend'. destruct (chan_send _ _ _); [|done]. by injection Hsend' as <-. }
    unfold stuck, frozen. cbn. rewrite Es, EL, Eb, Hl. split; [|done]. split_and!; [done| |by eexists].
    rewrite lookup_insert_ne; [done|]. intros ->. congruence.
  - injection Hh as ->. rewrite El in Hin. by apply not_elem_of_nil in Hin.
  - assert (Hl : leaderId st' = leaderId st).
    { unfold chan_receive in Hr. repeat case_match; try done. by injection Hr as _ <-. }
    apply receive_inv in Hr as (vs & Hv & EL & Es & Eb). unfold stuck, frozen. cbn. rewrite Es, EL, Eb, Hl.
    split; [|done]. split_and!; [done| |by exists cb]. rewrite lookup_insert_ne; [done|]. by intros ->.
Qed.

Lemma stuck_steps ch s s' : rtc lock_step s s' -> stuck ch s -> stuck ch s' /\ frozen s' = frozen s.
Proof.
  induction 1 as [s|s1 s2 s3 H12 _ IH]; [done|]. intros Hs. destruct (stuck_step ch s1 s2 H12 Hs) as [H2 E2].
  destruct (IH H2) as [H3 E3]. split; [done|congruence].
Qed.
End lock.

(** ** Property *)

(** C16: a demotion never ends.  Once this node leads and main has
    subscribed the agent, the callback that reports another leader blocks for
    ever: it holds the lock and waits for room in a channel that nobody
    receives from.  From then on, whatever happens, no callback ends, nobody
    subscribes, unsubscribes or learns who leads, the node goes on taking
    itself for the leader, and no component is paused or resumed any more. *)
Theorem demotion_deadlocks (nodeName identity : string) (s s' : locked) (ch : positive) (order : list (string * positive)) :
  rtc (lock_step nodeName) locked_init s -> lk_held s = None -> isLeader (lk_state s) = true ->
  subscribers (lk_state s) !! agent_name = Some ch -> identity <> nodeName -> iterates order (subscribers (lk_state s)) ->
  let begun := begin_callback nodeName identity order (lk_state s) in
  rtc (lock_step nodeName) (MkLocked begun.1 (Some begun.2) (lk_waiting s) (lk_done s)) s' ->
  OnNewLeader nodeName identity order (lk_state s) = None /\
    is_Some (lk_held s') /\ isLeader (lk_state s') = true /\ lk_done s' = lk_done s /\
    subscribers (lk_state s') = subscribers (lk_state s) /\ leaderId (lk_state s') = identity.
Proof.
  intros Hr Hh HL Hs Hid Ho begun Hr'.
  assert (Hok : lock_ok nodeName s).
  { revert Hr. apply (rtc_ind_r (lock_ok nodeName) locked_init); [apply locked_init_ok|].
    intros s1 s2 _ H12. by apply lock_step_ok. }
  assert (Hb : buffers (lk_state s) !! ch = Some [true]).
  { rewrite (lo_agent _ _ Hok ch Hs). unfold agent_buffer. by rewrite HL. }
  destruct (order_channels _ order (lo_inj _ _ Hok) Ho) as [_ Hin].
  assert (Hch : ch ∈ order.*2) by (apply Hin; by exists agent_name).
  assert (Ebegun : begun.2 = MkCallback identity false order).
  { unfold begun, begin_callback. cbn. by rewrite (proj2 (String.eqb_neq _ _) Hid), HL. }
  destruct (stuck_steps nodeName ch _ s' Hr') as [(Hs' & Hb' & cb & Hh' & _) Hf].
  { unfold stuck. cbn [lk_state lk_held]. split_and!; [done|done|]. exists begun.2. by rewrite Ebegun. }
  unfold frozen in Hf. cbn in Hf. injection Hf as H1 H2 H3 H4.
  split_and!; [|by eexists|by rewrite H2|done|done|done].
  unfold OnNewLeader. rewrite (proj2 (String.eqb_neq _ _) Hid), HL. cbn [negb andb].
  by rewrite (notify_blocks false order ch).
Qed.

(** Main subscribes the agent, the discovery manager subscribes, and this
    node is elected; then another one is. *)
Definition lock_env : env := <[NodeNameEnvVar := "n1"]> {[NamespaceNameEnvVar := "ns"]}.
Definition subscribed : election :=
  (Subscribe lock_env true "discovery.manager" (Subscribe lock_env true agent_name election_init).1).1.
Definition elected : election :=
  default subscribed (OnNewLeader "n1" "n1" (map_to_list (subscribers subscribed)) subscribed).

(** A callback that nothing gets in the way of. *)
Lemma callback_steps nodeName fuel st cb st' w d :
  run_callback nodeName fuel st cb = Some st' ->
  rtc (lock_step nodeName) (MkLocked st (Some cb) w d) (MkLocked st' None w d).
Proof.
  revert st cb; induction fuel as [|fuel IH]; intros st cb; cbn; destruct (cb_left cb) as [|m more] eqn:El; try done.
  1,2: intros [= <-]; apply rtc_once; by apply ls_end.
  destruct (send_next st cb) as [[st1 cb1]|] eqn:Es; [|done]. cbn. intros H.
  eapply rtc_l; [by apply ls_send|]. by apply IH.
Qed.

Lemma elected_reached : rtc (lock_step "n1") locked_init (MkLocked elected None [] []).
Proof.
  eapply rtc_l; [by apply (ls_subscribe "n1" lock_env true agent_name)|].
  eapply rtc_l; [by apply (ls_subscribe "n1" lock_env true "discovery.manager")|].
  eapply rtc_l; [apply (ls_begin "n1" "n1" (map_to_list (subscribers subscribed))); apply iterates_canonical|].
  apply (callback_steps "n1" 2). by vm_compute.
Qed.

Lemma demotion_deadlocks_witness :
  exists s', is_Some (lk_held s') /\ isLeader (lk_state s') = true /\ leaderId (lk_state s') = "n2".
Proof.
  pose (order := map_to_list (subscribers elected)).
  eexists. destruct (demotion_deadlocks "n1" "n2" (MkLocked elected None [] [])
    (MkLocked (begin_callback "n1" "n2" order elected).1 (Some (begin_callback "n1" "n2" order elected).2) [] [])
    1 order elected_reached) as (_ & Hh & Hl & _ & _ & Hid).
  - reflexivity.
  - by vm_compute.
  - by vm_compute.
  - done.
  - apply iterates_canonical.
  - apply rtc_refl.
  - split_and!; [exact Hh|exact Hl|exact Hid].
Defined.
