(* ===== verification/Discovery.v ===== *)
(** Discovery: plugins/discovery/filter.go, endpoint_creator.go, discoverer.go,
    pod.go and service.go, internal/discovery/types.go, helper.go and
    endpoint.go.

    The encoders, which turn a resource and a rule into the configuration of a
    source, are a parameter (one function of the plugin type); the glob library
    is the parameter of Filters.v.  The queue hands resources to the
    discoverer one at a time and every operation holds its lock, so an
    operation is one step; what it does to the endpoint handler is the list of
    calls it makes. *)

From S2P Require Import Prelude Filters Util Leadership.

(** ** types.go, configs.go and helper.go *)

Inductive ResourceType := PodType | ServiceType | NodeType.
Definition ResourceType_String (t : ResourceType) : string :=
  match t with PodType => "pod" | ServiceType => "service" | NodeType => "node" end.

Record Resource := MkResource {
  r_Kind : string;
  r_IP : string;
  r_Name : string;
  r_Namespace : string;
  r_Labels : gmap string string;
  r_Annotations : gmap string string;
  r_Status : string;
  r_Images : list string;   (** of its containers *)
}.

Definition ResourceName (r : Resource) : string :=
  if negb (String.eqb (r_Namespace r) "") then (r_Namespace r +:+ "-" +:+ r_Kind r +:+ "-" +:+ r_Name r)%string
  else (r_Kind r +:+ "-" +:+ r_Name r)%string.

Record Selectors := MkSelectors {
  sel_ResourceType : string;
  sel_Images : list string;
  sel_Labels : gmap string (list string);
  sel_Namespaces : list string;
}.

(** ** filter.go *)

Record resourceFilter := MkFilter {
  rf_kind : string;
  rf_images : option Glob;
  rf_namespaces : option Glob;
  rf_labels : option (gmap string Glob);
}.

Definition resourceType (kind : string) : result string :=
  if String.eqb kind "" then Ok (ResourceType_String PodType)
  else if String.eqb kind "pod" || String.eqb kind "service" || String.eqb kind "node" then Ok kind
  else Err ("invalid resource type: " +:+ kind)%string.

Definition is_none {A} (o : option A) : bool := match o with None => true | Some _ => false end.

Definition newResourceFilter (glob_compile : string -> option Glob) (sel : Selectors) : result resourceFilter :=
  kind ← resourceType (sel_ResourceType sel);
  let rf := MkFilter kind (Compile glob_compile (sel_Images sel)) (Compile glob_compile (sel_Namespaces sel))
              (MultiCompile glob_compile (sel_Labels sel)) in
  if negb (String.eqb kind "node") && is_none (rf_images rf) && is_none (rf_labels rf) && is_none (rf_namespaces rf)
  then Err "no selectors specified" else Ok rf.

Definition matchesTags (matchers : gmap string Glob) (tags : gmap string string) : bool :=
  if bool_decide (size tags = 0) then false else MatchesAllTags matchers tags.

Definition filter_matches (r : option resourceFilter) (resource : Resource) : bool :=
  match r with
  | None => false
  | Some r =>
      if negb (String.eqb (rf_kind r) (r_Kind resource)) then false
      else if opt_test (rf_labels r) (fun m => negb (matchesTags m (r_Labels resource))) false then false
      else if opt_test (rf_namespaces r) (fun g => negb (g (r_Namespace resource))) false then false
      else match rf_images r with
           | Some g => existsb g (r_Images resource)
           | None => true
           end
  end.

(** ** endpoint_creator.go *)

(** A plugin configuration: what the discoverer reads, and the rest, which
    only the encoders read. *)
Record PluginConfig (R : Type) := MkPlugin {
  pc_Name : string;
  pc_Type : string;
  pc_Selectors : Selectors;
  pc_Port : string;
  pc_rest : R;
}.
Arguments MkPlugin {_} _ _ _ _ _.
Arguments pc_Name {_} _.
Arguments pc_Type {_} _.
Arguments pc_Selectors {_} _.
Arguments pc_Port {_} _.
Arguments pc_rest {_} _.

Definition pluginType {R} (plugin : PluginConfig R) : string :=
  if contains "prometheus" (pc_Type plugin) then "prometheus"
  else if contains "telegraf" (pc_Type plugin) then "telegraf"
  else "".

(** [strconv.ParseInt(s, 10, 32)] succeeds. *)
Fixpoint digits_value (s : string) (acc : Z) : option Z :=
  match s with
  | EmptyString => Some acc
  | String c s' =>
      let d := (Z.of_N (N_of_ascii c) - 48)%Z in
      if ((0 <=? d) && (d <=? 9))%Z then digits_value s' (10 * acc + d) else None
  end.
Definition is_int32 (s : string) : bool :=
  let '(neg, s') := match s with
                    | String "-" s' => (true, s')
                    | String "+" s' => (false, s')
                    | _ => (false, s)
                    end in
  if String.eqb s' "" then false
  else match digits_value s' 0 with
       | Some v => (v <=? if neg : bool then 2147483648 else 2147483647)%Z
       | None => false
       end.

Section discovery.
Context {R C : Type} `{!EqDecision C} (rest_zero : R).
(** The encoder of a plugin type: the name and the configuration. *)
Context (encoders : gmap string (Resource -> PluginConfig R -> option (string * C))).

Record Endpoint := MkEndpoint { ep_Name : string; ep_PluginType : string; ep_Config : C }.
#[export] Instance Endpoint_eq_dec : EqDecision Endpoint.
Proof. solve_decision. Defined.

Record delegate := MkDelegate { dg_filter : resourceFilter; dg_plugin : PluginConfig R }.

Definition makeDelegate (glob_compile : string -> option Glob) (plugin : PluginConfig R) : result delegate :=
  filter ← newResourceFilter glob_compile (pc_Selectors plugin);
  if negb (String.eqb (pc_Port plugin) "") && negb (is_int32 (pc_Port plugin)) then Err "invalid port"
  else if negb (contains "prometheus" (pc_Type plugin) || contains "telegraf" (pc_Type plugin))
  then Err ("invalid plugin type: " +:+ pc_Type plugin)%string
  else Ok (MkDelegate filter plugin).

Definition makeDelegates (glob_compile : string -> option Glob) (plugins : list (PluginConfig R)) : gmap string delegate :=
  foldl (fun ds plugin => match makeDelegate glob_compile plugin with Ok d => <[pc_Name plugin := d]> ds | Err _ => ds end)
    ∅ plugins.

Definition makeAnnotationExclusions (glob_compile : string -> option Glob) (selectors : list Selectors) : list resourceFilter :=
  omap (fun s => match newResourceFilter glob_compile s with Ok f => Some f | Err _ => None end) selectors.

Record endpointCreator := MkCreator {
  ec_delegates : gmap string delegate;
  ec_disableAnnotationDiscovery : bool;
  ec_annotationExcludes : list resourceFilter;
}.

Definition makeEndpoint (resource : Resource) (plugin : PluginConfig R) : option Endpoint :=
  encode ← encoders !! pluginType plugin;
  '(name, cfg) ← encode resource plugin;
  Some (MkEndpoint name (pluginType plugin) cfg).

(** [order] is the order in which the delegates are visited. *)
Definition discoverEndpointsWithRules (order : list (string * delegate)) (resource : Resource) : list Endpoint :=
  omap (fun '(_, d) => if filter_matches (Some (dg_filter d)) resource then makeEndpoint resource (dg_plugin d)
                       else None) order.

Definition annotation_plugin : PluginConfig R :=
  MkPlugin "" "prometheus" (MkSelectors "" [] ∅ []) "" rest_zero.

Definition discoverEndpointsWithAnnotations (e : endpointCreator) (resource : Resource) : list Endpoint :=
  if existsb (fun x => filter_matches (Some x) resource) (ec_annotationExcludes e) then []
  else match makeEndpoint resource annotation_plugin with Some ep => [ep] | None => [] end.

Definition discoverEndpoints (e : endpointCreator) (order : list (string * delegate)) (resource : Resource)
    : list Endpoint :=
  let eps := discoverEndpointsWithRules order resource in
  if nil_list eps && negb (ec_disableAnnotationDiscovery e)
  then discoverEndpointsWithAnnotations e resource else eps.

(** ** discoverer.go *)

(** The calls of the endpoint handler. *)
Inductive call := CAdd (ep : Endpoint) | CDelete (ep : Endpoint).

Abbreviation endpoints := (gmap string (list Endpoint)).

Definition internalDiscover (e : endpointCreator) (order : list (string * delegate)) (resource : Resource)
    (m : endpoints) : endpoints * list call :=
  let eps := discoverEndpoints e order resource in
  let resourceName := ResourceName resource in
  let oldEps := default [] (m !! resourceName) in
  let m := delete resourceName m in
  let m := if nil_list eps then m else <[resourceName := eps]> m in
  if bool_decide (eps = oldEps) then (m, [])
  else (m, (CDelete <$> oldEps) ++ (CAdd <$> eps)).

Definition internalDelete (resource : Resource) (m : endpoints) : endpoints * list call :=
  let resourceName := ResourceName resource in
  (delete resourceName m, CDelete <$> default [] (m !! resourceName)).

(** One resource of the queue. *)
Definition dequeue (e : endpointCreator) (order : list (string * delegate)) (resource : Resource) (m : endpoints)
    : endpoints * list call :=
  if String.eqb (r_Status resource) "delete" then internalDelete resource m
  else internalDiscover e order resource m.

(** [DeleteAll]; [order] is the order in which the endpoints are visited. *)
Definition DeleteAll (order : list (string * list Endpoint)) (m : endpoints) : endpoints * list call :=
  foldl (fun '(m, calls) '(k, eps) => (delete k m, calls ++ (CDelete <$> eps))) (m, []) order.

(** [discoverNodeEndpoint] for the nodes of the lister. *)
Definition discoverNodeEndpoint {IP} (ParseIP : string -> option IP) (IP_String : IP -> string) (en : env)
    (nodes : result (list Node)) (plugin : PluginConfig R) (m : endpoints) : result (endpoints * list call) :=
  match nodes with
  | Err e => Err ("error listing nodes: " +:+ e)%string
  | Ok [node] =>
      match GetNodeHostnameAndIP ParseIP node with
      | Err e => Err ("error getting node IP: " +:+ e)%string
      | Ok (_, ip) =>
          let resource := MkResource "node" (IP_String ip) (GetNodeName en) "" ∅ ∅ "" [] in
          match makeEndpoint resource plugin with
          | Some ep =>
              let name := ResourceName resource in
              Ok (<[name := default [] (m !! name) ++ [ep]]> m, [CAdd ep])
          | None => Ok (m, [])
          end
      end
  | Ok nodes => Err ("invalid number of nodes found: " +:+ sprint_int (Z.of_nat (length nodes)))%string
  end.

(** The operations of a discoverer, with the calls they have made so far. *)
Inductive discover_step (e : endpointCreator) : endpoints * list call -> endpoints * list call -> Prop :=
  | ds_dequeue m calls order resource m' new :
      iterates order (ec_delegates e) -> dequeue e order resource m = (m', new) ->
      discover_step e (m, calls) (m', calls ++ new)
  | ds_node {IP} (ParseIP : string -> option IP) IP_String m calls en nodes plugin m' new :
      discoverNodeEndpoint ParseIP IP_String en nodes plugin m = Ok (m', new) ->
      discover_step e (m, calls) (m', calls ++ new)
  | ds_delete_all m calls order m' new :
      iterates order m -> DeleteAll order m = (m', new) ->
      discover_step e (m, calls) (m', calls ++ new).

(** ** What is registered *)

Fixpoint remove_one (ep : Endpoint) (l : list Endpoint) : option (list Endpoint) :=
  match l with
  | [] => None
  | x :: l' => if bool_decide (x = ep) then Some l' else cons x <$> remove_one ep l'
  end.

(** The endpoints registered after a list of calls; deleting one that is not
    registered is an error. *)
Fixpoint registered (calls : list call) (l : list Endpoint) : option (list Endpoint) :=
  match calls with
  | [] => Some l
  | CAdd ep :: calls' => registered calls' (ep :: l)
  | CDelete ep :: calls' => l' ← remove_one ep l; registered calls' l'
  end.

Definition all_endpoints (m : endpoints) : list Endpoint := mjoin ((map_to_list m).*2).

(** ** Lemmas *)

Lemma remove_one_elem ep l : ep ∈ l -> exists l', remove_one ep l = Some l' /\ l ≡ₚ ep :: l'.
Proof.
  induction l as [|x l IH]; [by intros ?%not_elem_of_nil|]. cbn. case_bool_decide as E.
  { intros _. exists l. by subst. }
  intros [->|H]%elem_of_cons; [done|]. destruct (IH H) as (l' & -> & Hp). exists (x :: l'). split; [done|].
  rewrite Hp. apply Permutation_swap.
Qed.

Lemma registered_app c1 c2 l : registered (c1 ++ c2) l = l' ← registered c1 l; registered c2 l'.
Proof.
  revert l; induction c1 as [|[ep|ep] c1 IH]; intros l; cbn; [done|by rewrite IH|].
  destruct (remove_one ep l); cbn; [apply IH|done].
Qed.

Lemma registered_delete eps rest l :
  l ≡ₚ eps ++ rest -> exists l', registered (CDelete <$> eps) l = Some l' /\ l' ≡ₚ rest.
Proof.
  revert l; induction eps as [|ep eps IH]; intros l Hp; cbn; [by exists l|].
  destruct (remove_one_elem ep l) as (l' & -> & Hl); [rewrite Hp; by left|]. cbn.
  apply IH. apply (Permutation_cons_inv (a := ep)). by rewrite <-Hl, Hp.
Qed.

Lemma registered_add eps l : exists l', registered (CAdd <$> eps) l = Some l' /\ l' ≡ₚ eps ++ l.
Proof.
  revert l; induction eps as [|ep eps IH]; intros l; cbn; [by exists l|].
  destruct (IH (ep :: l)) as (l' & -> & Hp). exists l'. split; [done|]. rewrite Hp. by rewrite Permutation_middle.
Qed.

(** The endpoints of a map, with one resource apart. *)
Lemma all_endpoints_delete m k :
  all_endpoints m ≡ₚ default [] (m !! k) ++ all_endpoints (delete k m).
Proof.
  unfold all_endpoints. destruct (m !! k) as [eps|] eqn:E; cbn; [|by rewrite delete_id].
  rewrite <-(insert_delete_id m k eps E) at 1. rewrite (map_to_list_insert (delete k m) k eps) by apply lookup_delete_eq.
  done.
Qed.
Lemma all_endpoints_insert m k eps :
  m !! k = None -> all_endpoints (<[k := eps]> m) ≡ₚ eps ++ all_endpoints m.
Proof. intros H. unfold all_endpoints. by rewrite (map_to_list_insert m k eps H). Qed.

(** The calls so far leave registered exactly the endpoints of the map. *)
Definition balanced (st : endpoints * list call) : Prop :=
  exists l, registered st.2 [] = Some l /\ l ≡ₚ all_endpoints st.1.

Lemma balanced_calls m calls m' new :
  balanced (m, calls) ->
  (forall l, l ≡ₚ all_endpoints m -> exists l', registered new l = Some l' /\ l' ≡ₚ all_endpoints m') ->
  balanced (m', calls ++ new).
Proof.
  intros (l & Hl & Hp) Hnew. destruct (Hnew l Hp) as (l' & Hl' & Hp'). exists l'. cbn in *.
  by rewrite registered_app, Hl.
Qed.

Lemma delete_calls k m l :
  l ≡ₚ all_endpoints m ->
  exists l', registered (CDelete <$> default [] (m !! k)) l = Some l' /\ l' ≡ₚ all_endpoints (delete k m).
Proof. intros Hp. apply registered_delete. rewrite Hp. apply all_endpoints_delete. Qed.

Lemma internalDiscover_calls e order r m l :
  l ≡ₚ all_endpoints m ->
  exists l', registered (internalDiscover e order r m).2 l = Some l' /\
    l' ≡ₚ all_endpoints (internalDiscover e order r m).1.
Proof.
  intros Hp. unfold internalDiscover. set (eps := discoverEndpoints e order r). set (k := ResourceName r).
  assert (Hnew : all_endpoints (if nil_list eps then delete k m else <[k := eps]> (delete k m))
    ≡ₚ eps ++ all_endpoints (delete k m)).
  { destruct eps as [|x eps']; [done|]. apply all_endpoints_insert, lookup_delete_eq. }
  case_bool_decide as E; cbn.
  - exists l. split; [done|]. rewrite Hnew, Hp, E. apply all_endpoints_delete.
  - rewrite registered_app. destruct (delete_calls k m l Hp) as (l1 & -> & Hp1). cbn.
    destruct (registered_add eps l1) as (l2 & -> & Hp2). exists l2. split; [done|]. by rewrite Hp2, Hp1, Hnew.
Qed.

Lemma DeleteAll_eq (order : list (string * list Endpoint)) (m : endpoints) calls :
  foldl (fun '(m, calls) '(k, eps) => (delete k m, calls ++ (CDelete <$> eps))) (m, calls) order
  = (foldl (fun m k => delete k m) m order.*1, calls ++ (CDelete <$> mjoin order.*2)).
Proof.
  revert m calls; induction order as [|[k eps] o IH]; intros m calls; cbn; [by rewrite app_nil_r|].
  rewrite IH. cbn. by rewrite fmap_app, <-app_assoc.
Qed.

Lemma delete_keys_lookup (ks : list string) (m : endpoints) k :
  foldl (fun m k => delete k m) m ks !! k = if bool_decide (k ∈ ks) then None else m !! k.
Proof.
  revert m; induction ks as [|x ks IH]; intros m; cbn; [done|]. rewrite IH. destruct (decide (k = x)) as [->|Hne].
  - rewrite (bool_decide_eq_true_2 (x ∈ x :: ks)) by (by left). rewrite lookup_delete_eq. by case_bool_decide.
  - rewrite lookup_delete_ne by done. rewrite (bool_decide_ext (k ∈ x :: ks) (k ∈ ks)); [done|].
    rewrite elem_of_cons. naive_solver.
Qed.

Lemma DeleteAll_calls order m l :
  iterates order m -> l ≡ₚ all_endpoints m ->
  (DeleteAll order m).1 = ∅ /\ registered (DeleteAll order m).2 l = Some [].
Proof.
  intros Ho Hp. unfold DeleteAll. rewrite DeleteAll_eq. cbn. split.
  - apply map_empty. intros k. rewrite delete_keys_lookup. case_bool_decide as Hk; [done|].
    destruct (m !! k) as [eps|] eqn:E; [|done]. exfalso. apply Hk, list_elem_of_fmap.
    exists (k, eps). split; [done|]. by apply (iterates_elem _ _ _ _ Ho).
  - destruct (registered_delete (mjoin order.*2) [] l) as (l' & -> & Hl').
    { rewrite app_nil_r, Hp. unfold all_endpoints. unfold iterates in Ho. by rewrite Ho. }
    by apply Permutation_nil_r in Hl' as ->.
Qed.

Lemma discover_step_balanced e st st' : balanced st -> discover_step e st st' -> balanced st'.
Proof.
  intros Hb Hstep. destruct Hstep as [m calls order r m' new Ho Hd|IP P S m calls en nodes plugin m' new Hd|m calls order m' new Ho Hd].
  - eapply balanced_calls; [exact Hb|]. intros l Hp. unfold dequeue in Hd. destruct (String.eqb _ _).
    + unfold internalDelete in Hd. injection Hd as <- <-. by apply delete_calls.
    + pose proof (internalDiscover_calls e order r m l Hp) as H. by rewrite Hd in H.
  - eapply balanced_calls; [exact Hb|]. intros l Hp. unfold discoverNodeEndpoint in Hd.
    destruct nodes as [[|node [|]]|]; try done. destruct (GetNodeHostnameAndIP P node) as [[h ip]|]; [|done].
    destruct (makeEndpoint _ plugin) as [ep|]; injection Hd as <- <-; [|by exists l].
    set (k := ResourceName _). exists (ep :: l). split; [done|].
    rewrite <-insert_delete_eq. rewrite all_endpoints_insert by apply lookup_delete_eq.
    rewrite Hp, (all_endpoints_delete m k), <-app_assoc. cbn. apply Permutation_middle.
  - eapply balanced_calls; [exact Hb|]. intros l Hp. destruct (DeleteAll_calls order m l Ho Hp) as [H1 H2].
    rewrite Hd in H1, H2. cbn in H1, H2. exists []. by rewrite H1.
Qed.
End discovery.
Arguments Endpoint : clear implicits.

(** ** endpoint.go: the default handler's counters *)

(** The registered targets of a plugin type: [Add] counts an endpoint whose
    source could be built, [Delete] counts every endpoint. *)
Definition handler_count {C} (known : string -> bool) (builds : C -> bool) (counts : gmap string Z) (c : call (C := C))
    : gmap string Z :=
  let bump t d := if known t then <[t := (default 0 (counts !! t) + d)%Z]> counts else counts in
  match c with
  | CAdd ep => if builds (ep_Config ep) then bump (ep_PluginType ep) 1%Z else counts
  | CDelete ep => bump (ep_PluginType ep) (-1)%Z
  end.

(** ** pod.go and service.go *)

Definition hasIP (ip : string) : bool := negb (String.eqb ip "") && negb (String.eqb ip "None").
Definition podReady (phase ip : string) : bool := String.eqb phase "Running" && hasIP ip.

(** What the informers' events hand to the queue; [phase] and the resource of
    the pod or service. *)
Definition updatePod (phase : string) (pod : Resource) : list Resource :=
  if podReady phase (r_IP pod) then [pod] else [].
Definition with_status (status : string) (r : Resource) : Resource :=
  MkResource (r_Kind r) (r_IP r) (r_Name r) (r_Namespace r) (r_Labels r) (r_Annotations r) status (r_Images r).
Definition deletePod (pod : Resource) : list Resource := [with_status "delete" pod].
Definition updateService (service : Resource) : list Resource := if hasIP (r_IP service) then [service] else [].
Definition deleteService (service : Resource) : list Resource := [service].

(** The channel of a service handler: [start] makes a new one, [stop] closes
    it when there is one; closing it twice panics ([None]). *)
Inductive handler_chan := ChanNil | ChanOpen | ChanClosed.
Definition handler_start (c : handler_chan) : handler_chan := ChanOpen.
Definition handler_stop (c : handler_chan) : option handler_chan :=
  match c with ChanNil => Some ChanNil | ChanOpen => Some ChanClosed | ChanClosed => None end.

(** [Resume] and [Pause] of the discovery manager on the messages of the
    election, in order. *)
Fixpoint service_run (c : handler_chan) (msgs : list bool) : option handler_chan :=
  match msgs with
  | [] => Some c
  | true :: msgs' => service_run (handler_start c) msgs'
  | false :: msgs' => c' ← handler_stop c; service_run c' msgs'
  end.

(** ** Properties *)

(** Discovery keeps the handler in step.  For every encoder, every rule
    set and every sequence of discovered, updated and deleted resources, node
    endpoints and resets, whatever the visiting orders: the endpoints that
    have been added and not deleted are exactly those the discoverer holds,
    nothing is deleted that was not registered, and deleting all leaves none. *)
Theorem discoverer_balanced {R C : Type} `{!EqDecision C} (rest_zero : R)
    (encoders : gmap string (Resource -> PluginConfig R -> option (string * C))) (e : endpointCreator)
    (m : gmap string (list (Endpoint C))) (calls : list call) :
  rtc (discover_step rest_zero encoders e) (∅, []) (m, calls) ->
  exists l, registered calls [] = Some l /\ l ≡ₚ all_endpoints m /\
    forall order, iterates order m -> (DeleteAll order m).1 = ∅ /\
      registered (calls ++ (DeleteAll order m).2) [] = Some [].
Proof.
  intros Hr. assert (Hb : balanced (m, calls)).
  { revert Hr. apply (rtc_ind_r (R := discover_step rest_zero encoders e) balanced (∅, [])).
    - by exists [].
    - intros st1 st2 _ Hs Hb. exact (discover_step_balanced rest_zero encoders e st1 st2 Hb Hs). }
  destruct Hb as (l & Hl & Hp). exists l. split_and!; [done|done|]. intros order Ho.
  destruct (DeleteAll_calls order m l Ho Hp) as [H1 H2]. split; [done|]. cbn in Hl. rewrite registered_app, Hl. exact H2.
Qed.

(** A second demotion crashes the collector.  Once this node has led and
    two elections have been won by others, the discovery manager's subscriber
    has been told to pause twice, and pausing a second time closes a closed
    channel; up to one demotion it works. *)
Theorem second_demotion_panics (nodeName : string) (st : election) (ch : positive) (msgs : list bool) :
  election_reachable nodeName st -> subscribers st !! "discovery.manager" = Some ch ->
  sent_log st !! ch = Some msgs ->
  service_run ChanNil msgs =
    match length msgs with
    | 0 => Some ChanNil | 1 => Some ChanOpen | 2 => Some ChanClosed | _ => None
    end.
Proof.
  intros Hr%election_reachable_ok Hs Hm. destruct (eo_log _ _ Hr _ _ Hs) as [k Hk]. rewrite Hm in Hk.
  injection Hk as ->. destruct (isLeader st); [|done]. by destruct k as [|[|k]].
Qed.

Definition sample_encoders : gmap string (Resource -> PluginConfig unit -> option (string * string)) :=
  {["prometheus" := fun r p => Some (ResourceName r, pc_Name p)]}.
Definition sample_resource : Resource := MkResource "pod" "10.0.0.1" "web" "default" ∅ ∅ "" ["nginx"].
Definition sample_rule (name : string) : delegate (R := unit) :=
  MkDelegate (MkFilter "pod" (Some (fun _ => true)) None None) (MkPlugin name "prometheus" (MkSelectors "" ["*"] ∅ []) "" tt).
Definition sample_creator : endpointCreator (R := unit) :=
  MkCreator (<["a" := sample_rule "a"]> {["b" := sample_rule "b"]}) false [].

Lemma discoverer_balanced_witness :
  let st := dequeue tt sample_encoders sample_creator (map_to_list (ec_delegates sample_creator)) sample_resource ∅ in
  exists l, registered st.2 [] = Some l /\ l ≡ₚ all_endpoints st.1 /\ length l = 2.
Proof.
  intros st. destruct (discoverer_balanced tt sample_encoders sample_creator st.1 st.2) as (l & Hl & Hp & _).
  { apply rtc_once. apply (ds_dequeue tt sample_encoders sample_creator ∅ [] (map_to_list (ec_delegates sample_creator))
      sample_resource st.1 st.2); [apply iterates_canonical|by vm_compute]. }
  exists l. split_and!; [exact Hl|exact Hp|].
  etransitivity; [exact (Permutation_length Hp)|by vm_compute].
Defined.

Lemma second_demotion_panics_witness :
  exists st ch, election_reachable "n1" st /\ subscribers st !! "discovery.manager" = Some ch /\
    service_run ChanNil [true; false; false] = None.
Proof.
  pose (e := <[NodeNameEnvVar := "n1"]> {[NamespaceNameEnvVar := "ns"]} : env).
  pose (s0 := (Subscribe e true "discovery.manager" election_init).1).
  pose (lead := fun id st => default st (OnNewLeader "n1" id (map_to_list (subscribers st)) st)).
  pose (recv := fun st => default st (snd <$> chan_receive 1 st)).
  pose (st := lead "n3" (recv (lead "n2" (recv (lead "n1" s0))))).
  assert (Hr : election_reachable "n1" st).
  { unfold election_reachable.
    eapply rtc_l; [apply (es_subscribe "n1" e true "discovery.manager"); by vm_compute|].
    eapply rtc_l; [eapply (es_leader "n1" "n1"); [apply iterates_canonical|by vm_compute]|].
    eapply rtc_l; [eapply (es_receive "n1" 1); by vm_compute|].
    eapply rtc_l; [eapply (es_leader "n1" "n2"); [apply iterates_canonical|by vm_compute]|].
    eapply rtc_l; [eapply (es_receive "n1" 1); by vm_compute|].
    eapply rtc_l; [eapply (es_leader "n1" "n3"); [apply iterates_canonical|by vm_compute]|].
    match goal with |- rtc _ ?a ?b => replace b with a by by vm_compute end. apply rtc_refl. }
  exists st, 1%positive. split_and!; [exact Hr|by vm_compute|].
  exact (second_demotion_panics "n1" st 1 [true; false; false] Hr eq_refl eq_refl).
Defined.

(** Two rules that match a resource make the list of its endpoints depend on
    the order in which the rules are visited; the next time the resource is
    seen unchanged, its endpoints may be deleted and added again. *)
Lemma rediscovery_churn :
  let order1 := [("a", sample_rule "a"); ("b", sample_rule "b")] in
  let order2 := [("b", sample_rule "b"); ("a", sample_rule "a")] in
  let m := (internalDiscover tt sample_encoders sample_creator order1 sample_resource ∅).1 in
  order1 ≡ₚ order2 /\
  (internalDiscover tt sample_encoders sample_creator order1 sample_resource m).2 = [] /\
  length (internalDiscover tt sample_encoders sample_creator order2 sample_resource m).2 = 4.
Proof. split_and!; [apply Permutation_swap|by vm_compute|by vm_compute]. Qed.

(** The event of a deleted service is handled as an update: whatever the
    rules, its endpoints are discovered again and none is deleted. *)
Lemma deleted_service_rediscovered {R C : Type} `{!EqDecision C} (rest_zero : R)
    (encoders : gmap string (Resource -> PluginConfig R -> option (string * C))) e order service
    (m : gmap string (list (Endpoint C))) :
  r_Status service = "" -> m !! ResourceName service = Some (discoverEndpoints rest_zero encoders e order service) ->
  discoverEndpoints rest_zero encoders e order service <> [] ->
  Forall (fun r => dequeue rest_zero encoders e order r m = (m, [])) (deleteService service).
Proof.
  intros Hs Hm Hne. repeat constructor. unfold dequeue, internalDiscover. rewrite Hs, Hm. cbn.
  rewrite bool_decide_eq_true_2 by done. f_equal.
  destruct (discoverEndpoints rest_zero encoders e order service) as [|x l] eqn:E; [done|]. cbn.
  by rewrite insert_delete_eq, insert_id.
Qed.
