(* ===== verification/Summary.v ===== *)
(** The summary source: plugins/sources/summary/summary.go, which turns the
    statistics of a kubelet into metric sets.

    The statistics are records of what the code reads of the kubelet's
    structures; optional fields are the pointers that may be nil, counters are
    unsigned 64-bit numbers.  The labelled values of an interface or of a file
    system share one label map, so those maps live on the heap of Wf.v.  The
    kubelet client is a parameter; the uptimes of a scrape are taken at one
    instant. *)

From S2P Require Import Prelude GoFloat Metrics MetricTable Wf Util Converter Leadership SourceManager.

(** ** The kubelet's statistics *)

Record CPUStats := MkCPU { cpu_Time : Z; UsageNanoCores : option Z; UsageCoreNanoSeconds : option Z }.
Record MemoryStats := MkMemory {
  mem_Time : Z; UsageBytes : option Z; WorkingSetBytes : option Z; RSSBytes : option Z;
  PageFaults : option Z; MajorPageFaults : option Z }.
Record InterfaceStats := MkInterface {
  if_Name : string; RxBytes : option Z; RxErrors : option Z; TxBytes : option Z; TxErrors : option Z }.
Record NetworkStats := MkNetwork { net_Time : Z; net_default : InterfaceStats; Interfaces : list InterfaceStats }.
Record FsStats := MkFs {
  AvailableBytes : option Z; CapacityBytes : option Z; UsedBytes : option Z; Inodes : option Z; InodesFree : option Z }.
Record AcceleratorStats := MkAccelerator {
  acc_Make : string; acc_Model : string; acc_ID : string; MemoryTotal : Z; MemoryUsed : Z; DutyCycle : Z }.
Record UserDefinedMetric := MkUdm { udm_Name : string; udm_Value : f64 }.
Record ContainerStats := MkContainerStats {
  cst_Name : string; cst_StartTime : Z; cst_CPU : option CPUStats; cst_Memory : option MemoryStats;
  cst_Accelerators : list AcceleratorStats; cst_Rootfs : option FsStats; cst_Logs : option FsStats;
  cst_UserDefinedMetrics : list UserDefinedMetric }.
Record PodStats := MkPodStats {
  ps_Name : string; ps_Namespace : string; ps_UID : string; ps_StartTime : Z; ps_CPU : option CPUStats;
  ps_Memory : option MemoryStats; ps_Network : option NetworkStats; ps_VolumeStats : list (string * FsStats);
  ps_EphemeralStorage : option FsStats; ps_Containers : list ContainerStats }.
Record NodeStats := MkNodeStats {
  ns_NodeName : string; ns_StartTime : Z; ns_CPU : option CPUStats; ns_Memory : option MemoryStats;
  ns_Network : option NetworkStats; ns_Fs : option FsStats; ns_SystemContainers : list ContainerStats }.
Record SummaryStats := MkSummaryStats { sum_Node : NodeStats; sum_Pods : list PodStats }.

Record NodeInfo := MkNodeInfo {
  ni_NodeName : string; ni_HostName : string; ni_HostID : string; ni_KubeletVersion : string; ni_NodeRole : string }.

Definition VolumeResourcePrefix : string := "Volume:".
Definition RootFsKey : string := "/".
Definition LogsKey : string := "logs".
Definition NetworkInterfaceKey : string := "interface_name".

(** ** Adding values *)

(** [int64(uint64)]. *)
Definition put_int (m : MetricDescriptor) (value : option Z) (vals : gmap string Value) : gmap string Value :=
  match value with Some v => <[md_Name m := intValue (wrap64 v)]> vals | None => vals end.
Definition addIntMetric (m : MetricDescriptor) (value : option Z) (ms : HSet) : HSet :=
  with_Values (put_int m value) ms.
Definition addLabeledIntMetric (m : MetricDescriptor) (labels : positive) (value : option Z) (ms : HSet) : HSet :=
  match value with
  | Some v => add_labeled (MkLabeledValue (md_Name m) (Some labels) (intValue (wrap64 v))) ms
  | None => ms
  end.

(** A new label map. *)
Definition new_labels (labels : tagmap) (h : heap) : positive * heap :=
  let l := fresh (dom h) in (l, <[l := labels]> h).

(** ** Decoding *)

Definition decodeUptime (now startTime : Z) (ms : HSet) : HSet :=
  if time_is_zero startTime then ms
  else addIntMetric MetricUptime (Some (wrapu64 (Z.quot (time_sub now startTime) millisecond))) ms.

Definition decodeCPUStats (cpu : option CPUStats) (ms : HSet) : HSet :=
  match cpu with
  | None => ms
  | Some cpu =>
      let ms := addIntMetric MetricCpuUsage (UsageCoreNanoSeconds cpu) ms in
      match UsageNanoCores cpu with
      | Some nano => addIntMetric MetricCpuUsageCores (Some (nano / 1000000)%Z) ms
      | None => ms
      end
  end.

Definition decodeEphemeralStorageStats (storage : option FsStats) (ms : HSet) : HSet :=
  match storage with
  | None => ms
  | Some fs => addIntMetric MetricEphemeralStorageUsage (UsedBytes fs) ms
  end.

(** The sum of the used bytes when both are known. *)
Definition container_storage (rootfs logs : option FsStats) : option Z :=
  match rootfs, logs with
  | Some r, Some l =>
      match UsedBytes r, UsedBytes l with Some a, Some b => Some (wrapu64 (a + b)) | _, _ => None end
  | _, _ => None
  end.
Definition decodeEphemeralStorageStatsForContainer (rootfs logs : option FsStats) (ms : HSet) : HSet :=
  addIntMetric MetricEphemeralStorageUsage (container_storage rootfs logs) ms.

Definition decodeMemoryStats (memory : option MemoryStats) (ms : HSet) : HSet :=
  match memory with
  | None => ms
  | Some m =>
      let ms := addIntMetric MetricMemoryUsage (UsageBytes m) ms in
      let ms := addIntMetric MetricMemoryWorkingSet (WorkingSetBytes m) ms in
      let ms := addIntMetric MetricMemoryRSS (RSSBytes m) ms in
      let ms := addIntMetric MetricMemoryPageFaults (PageFaults m) ms in
      addIntMetric MetricMemoryMajorPageFaults (MajorPageFaults m) ms
  end.

Definition decodeAcceleratorStats (accelerators : list AcceleratorStats) (st : heap * HSet) : heap * HSet :=
  foldl (fun '(h, ms) a =>
    let '(l, h) := new_labels (<[Key LabelAcceleratorMake := acc_Make a]>
                      (<[Key LabelAcceleratorModel := acc_Model a]> {[Key LabelAcceleratorID := acc_ID a]})) h in
    let ms := addLabeledIntMetric MetricAcceleratorMemoryTotal l (Some (MemoryTotal a)) ms in
    let ms := addLabeledIntMetric MetricAcceleratorMemoryUsed l (Some (MemoryUsed a)) ms in
    (h, addLabeledIntMetric MetricAcceleratorDutyCycle l (Some (DutyCycle a)) ms)) st accelerators.

Definition decodeNetworkStats (network : option NetworkStats) (st : heap * HSet) : heap * HSet :=
  match network with
  | None => st
  | Some n =>
      let '(h, ms) := foldl (fun '(h, ms) i =>
          let '(l, h) := new_labels {[NetworkInterfaceKey := if_Name i]} h in
          let ms := addLabeledIntMetric MetricNetworkRx l (RxBytes i) ms in
          let ms := addLabeledIntMetric MetricNetworkRxErrors l (RxErrors i) ms in
          let ms := addLabeledIntMetric MetricNetworkTx l (TxBytes i) ms in
          (h, addLabeledIntMetric MetricNetworkTxErrors l (TxErrors i) ms)) st (Interfaces n) in
      let d := net_default n in
      let ms := addIntMetric MetricNetworkRx (RxBytes d) ms in
      let ms := addIntMetric MetricNetworkRxErrors (RxErrors d) ms in
      let ms := addIntMetric MetricNetworkTx (TxBytes d) ms in
      (h, addIntMetric MetricNetworkTxErrors (TxErrors d) ms)
  end.

Definition decodeFsStats (fsKey : string) (fs : option FsStats) (st : heap * HSet) : heap * HSet :=
  match fs with
  | None => st
  | Some fs =>
      let '(h, ms) := st in
      let '(l, h) := new_labels {[Key LabelResourceID := fsKey]} h in
      let ms := addLabeledIntMetric MetricFilesystemUsage l (UsedBytes fs) ms in
      let ms := addLabeledIntMetric MetricFilesystemLimit l (CapacityBytes fs) ms in
      let ms := addLabeledIntMetric MetricFilesystemAvailable l (AvailableBytes fs) ms in
      let ms := addLabeledIntMetric MetricFilesystemInodes l (Inodes fs) ms in
      (h, addLabeledIntMetric MetricFilesystemInodesFree l (InodesFree fs) ms)
  end.

Definition put_custom (udm : list UserDefinedMetric) (vals : gmap string Value) : gmap string Value :=
  foldl (fun vals m => <[(CustomMetricPrefix +:+ udm_Name m)%string := floatValue (udm_Value m)]> vals) vals udm.
Definition decodeUserDefinedMetrics (udm : list UserDefinedMetric) (ms : HSet) : HSet :=
  with_Values (put_custom udm) ms.

Definition getScrapeTime (cpu : option CPUStats) (memory : option MemoryStats) (network : option NetworkStats) : Z :=
  let known t := negb (time_is_zero t) in
  if from_option (fun x => known (cpu_Time x)) false cpu then from_option cpu_Time time_zero cpu
  else if from_option (fun x => known (mem_Time x)) false memory then from_option mem_Time time_zero memory
  else if from_option (fun x => known (net_Time x)) false network then from_option net_Time time_zero network
  else time_zero.

(** ** Sets *)

Definition new_set (labels : gmap string string) (startTime scrapeTime : Z) : HSet :=
  MkSet startTime time_zero scrapeTime ∅ labels [].

Definition getSystemContainerName (c : ContainerStats) : string :=
  if String.eqb (cst_Name c) "runtime" then "docker-daemon"
  else if String.eqb (cst_Name c) "misc" then "system" else cst_Name c.

Section decode.
Context (src : NodeInfo) (now : Z).

Definition container_labels (podLabels : gmap string string) (c : ContainerStats) (isSystemContainer : bool)
    : gmap string string :=
  <[Key LabelContainerName := if isSystemContainer then getSystemContainerName c else cst_Name c]>
    (<[Key LabelMetricSetType := MetricSetTypePodContainer]> podLabels).

Definition decodeContainerStats (podLabels : gmap string string) (c : ContainerStats) (isSystemContainer : bool)
    (h : heap) : heap * HSet :=
  let ms := new_set (container_labels podLabels c isSystemContainer) (cst_StartTime c)
              (getScrapeTime (cst_CPU c) (cst_Memory c) None) in
  let ms := decodeUptime now (cst_StartTime c) ms in
  let ms := decodeCPUStats (cst_CPU c) ms in
  let ms := decodeMemoryStats (cst_Memory c) ms in
  let '(h, ms) := decodeAcceleratorStats (cst_Accelerators c) (h, ms) in
  let '(h, ms) := decodeFsStats RootFsKey (cst_Rootfs c) (h, ms) in
  let '(h, ms) := decodeFsStats LogsKey (cst_Logs c) (h, ms) in
  let ms := decodeEphemeralStorageStatsForContainer (cst_Rootfs c) (cst_Logs c) ms in
  (h, decodeUserDefinedMetrics (cst_UserDefinedMetrics c) ms).

Abbreviation hsets := (gmap string HSet).

Definition decodeNodeStats (labels : gmap string string) (node : NodeStats) (st : heap * hsets) : heap * hsets :=
  let '(h, metrics) := st in
  let ms := new_set (<[Key LabelNodeRole := ni_NodeRole src]> (<[Key LabelMetricSetType := MetricSetTypeNode]> labels))
              (ns_StartTime node) (getScrapeTime (ns_CPU node) (ns_Memory node) (ns_Network node)) in
  let ms := decodeUptime now (ns_StartTime node) ms in
  let ms := decodeCPUStats (ns_CPU node) ms in
  let ms := decodeMemoryStats (ns_Memory node) ms in
  let '(h, ms) := decodeNetworkStats (ns_Network node) (h, ms) in
  let '(h, ms) := decodeFsStats RootFsKey (ns_Fs node) (h, ms) in
  let ms := decodeEphemeralStorageStats (ns_Fs node) ms in
  let metrics := <[NodeKey (ns_NodeName node) := ms]> metrics in
  foldl (fun '(h, metrics) c =>
    let '(h, ms) := decodeContainerStats labels c true h in
    let ms := set_label (Key LabelMetricSetType) MetricSetTypeSystemContainer ms in
    (h, <[NodeContainerKey (ns_NodeName node) (getSystemContainerName c) := ms]> metrics))
    (h, metrics) (ns_SystemContainers node).

Definition pod_labels (nodeLabels : gmap string string) (pod : PodStats) : gmap string string :=
  <[Key LabelNamespaceName := ps_Namespace pod]> (<[Key LabelPodName := ps_Name pod]>
    (<[Key LabelPodId := ps_UID pod]> (<[Key LabelMetricSetType := MetricSetTypePod]> nodeLabels))).

(** One container of a pod: a set of the same key that is newer is kept. *)
Definition decode_pod_container (podLabels : gmap string string) (pod : PodStats) (st : heap * hsets)
    (c : ContainerStats) : heap * hsets :=
  let '(h, metrics) := st in
  let key := PodContainerKey (ps_Namespace pod) (ps_Name pod) (cst_Name c) in
  let older := match metrics !! key with
               | Some ms => time_before (cst_StartTime c) (CollectionStartTime ms)
               | None => false
               end in
  if older then st
  else let '(h, ms) := decodeContainerStats podLabels c false h in (h, <[key := ms]> metrics).

Definition decodePodStats (nodeLabels : gmap string string) (st : heap * hsets) (pod : PodStats) : heap * hsets :=
  let '(h, metrics) := st in
  let labels := pod_labels nodeLabels pod in
  let ms := new_set labels (ps_StartTime pod) (getScrapeTime None None (ps_Network pod)) in
  let ms := decodeUptime now (ps_StartTime pod) ms in
  let '(h, ms) := decodeNetworkStats (ps_Network pod) (h, ms) in
  let ms := decodeCPUStats (ps_CPU pod) ms in
  let ms := decodeMemoryStats (ps_Memory pod) ms in
  let ms := decodeEphemeralStorageStats (ps_EphemeralStorage pod) ms in
  let '(h, ms) := foldl (fun st '(name, fs) => decodeFsStats (VolumeResourcePrefix +:+ name) (Some fs) st)
                    (h, ms) (ps_VolumeStats pod) in
  let metrics := <[PodKey (ps_Namespace pod) (ps_Name pod) := ms]> metrics in
  foldl (decode_pod_container labels pod) (h, metrics) (ps_Containers pod).

Definition node_labels : gmap string string :=
  <[Key LabelNodename := ni_NodeName src]> (<[Key LabelHostname := ni_HostName src]>
    {[Key LabelHostID := ni_HostID src]}).

Definition addSummaryMetricSets (summary : SummaryStats) (st : heap * hsets) : heap * hsets :=
  foldl (decodePodStats node_labels) (decodeNodeStats node_labels (sum_Node summary) st) (sum_Pods summary).

(** [Scrape]: the heap, the errors counted and the batch. *)
Definition summary_Scrape (summary : result SummaryStats) (collectErrors : Z) (h : heap)
    : heap * Z * result Batch :=
  match summary with
  | Err e => (h, (collectErrors + 1)%Z, Err e)
  | Ok summary =>
      let '(h, sets) := addSummaryMetricSets summary (h, ∅) in
      (h, collectErrors, Ok (MkBatch now sets []))
  end.
End decode.

(** [getNodeInfo] and [GetMetricsSources], the kubelet version and the
    provider of the node going to the environment. *)
Section provider.
Context {IP : Type} (ParseIP : string -> option IP).

Record KubeNode := MkKubeNode {
  kn_node : Node; kn_Annotations : gmap string string; kn_KubeletVersion : string; kn_ProviderID : string }.

Definition getNodeInfo (hostIDAnnotation : string) (node : KubeNode) (e : env) : env * result (NodeInfo * IP) :=
  match GetNodeHostnameAndIP ParseIP (kn_node node) with
  | Err msg => (e, Err msg)
  | Ok (hostname, ip) =>
      let hostID := if negb (String.eqb hostIDAnnotation "") then get_str (kn_Annotations node) hostIDAnnotation else "" in
      let e := SetKubernetesVersion (kn_KubeletVersion node) e in
      let e := SetKubernetesProvider (kn_ProviderID node) e in
      (e, Ok (MkNodeInfo (node_Name (kn_node node)) hostname hostID (kn_KubeletVersion node)
                (GetNodeRole (kn_node node)), ip))
  end.

Definition summary_GetMetricsSources (a : AgentType) (hostIDAnnotation : string) (nodes : result (list KubeNode))
    (e : env) : env * list (NodeInfo * IP) :=
  if negb (ScrapeAnyNodes a) then (e, [])
  else match nodes with
       | Err _ => (e, [])
       | Ok nodes =>
           foldl (fun '(e, sources) node =>
             match getNodeInfo hostIDAnnotation node e with
             | (e, Ok info) => (e, sources ++ [info])
             | (e, Err _) => (e, sources)
             end) (e, []) nodes
       end.
End provider.

(** ** What a container's set should hold *)

(** The integer metrics of a container, where they are known. *)
Definition container_ints (now : Z) (c : ContainerStats) : list (string * option Z) :=
  let cpu (f : CPUStats -> option Z) : option Z := cst_CPU c ≫= f in
  let mem (f : MemoryStats -> option Z) : option Z := cst_Memory c ≫= f in
  [(md_Name MetricUptime, if time_is_zero (cst_StartTime c) then None
                          else Some (Z.quot (time_sub now (cst_StartTime c)) millisecond));
   (md_Name MetricCpuUsage, cpu UsageCoreNanoSeconds);
   (md_Name MetricCpuUsageCores, (fun n => n / 1000000)%Z <$> cpu UsageNanoCores);
   (md_Name MetricMemoryUsage, mem UsageBytes);
   (md_Name MetricMemoryWorkingSet, mem WorkingSetBytes);
   (md_Name MetricMemoryRSS, mem RSSBytes);
   (md_Name MetricMemoryPageFaults, mem PageFaults);
   (md_Name MetricMemoryMajorPageFaults, mem MajorPageFaults);
   (md_Name MetricEphemeralStorageUsage, container_storage (cst_Rootfs c) (cst_Logs c))].

Definition container_value (now : Z) (c : ContainerStats) (name : string) : option Value :=
  match List.find (fun m => String.eqb (CustomMetricPrefix +:+ udm_Name m) name) (rev (cst_UserDefinedMetrics c)) with
  | Some m => Some (floatValue (udm_Value m))
  | None =>
      match List.find (fun '(n, _) => String.eqb n name) (container_ints now c) with
      | Some (_, Some v) => Some (intValue (wrap64 v))
      | _ => None
      end
  end.

(** ** Lemmas *)

Lemma wrap64_wrapu64 z : wrap64 (wrapu64 z) = wrap64 z.
Proof. unfold wrap64, wrapu64. by rewrite Zplus_mod_idemp_l. Qed.

(** What labelled values leave alone. *)
Definition same_core (ms ms' : HSet) : Prop :=
  Values ms' = Values ms /\ Labels ms' = Labels ms /\ CollectionStartTime ms' = CollectionStartTime ms.

Lemma labeled_core m l v ms : same_core ms (addLabeledIntMetric m l v ms).
Proof. by destruct v. Qed.
Lemma core_trans ms1 ms2 ms3 : same_core ms1 ms2 -> same_core ms2 ms3 -> same_core ms1 ms3.
Proof. intros (H1 & H2 & H3) (H4 & H5 & H6). split_and!; congruence. Qed.

Lemma accelerators_core l st : same_core st.2 (decodeAcceleratorStats l st).2.
Proof.
  unfold decodeAcceleratorStats. revert st; induction l as [|a l IH]; intros [h ms]; [done|]. cbn [foldl].
  eapply core_trans; [|apply IH]. done.
Qed.
Lemma fs_core k fs st : same_core st.2 (decodeFsStats k fs st).2.
Proof.
  destruct fs as [fs|]; [|done]. destruct st as [h ms]. cbn -[addLabeledIntMetric].
  do 5 (eapply core_trans; [|apply labeled_core]). done.
Qed.

(** Putting named values one after the other. *)
Definition put_named (vals : gmap string Value) (nv : string * option Z) : gmap string Value :=
  match nv.2 with Some v => <[nv.1 := intValue (wrap64 v)]> vals | None => vals end.

Lemma put_named_lookup l vals name :
  NoDup l.*1 ->
  foldl put_named vals l !! name =
  match List.find (fun '(n, _) => String.eqb n name) l with
  | Some (_, Some v) => Some (intValue (wrap64 v))
  | _ => vals !! name
  end.
Proof.
  revert vals; induction l as [|[n v] l IH]; intros vals Hnd; [done|]. cbn [foldl List.find].
  apply NoDup_cons in Hnd as [Hn Hnd]. rewrite (IH _ Hnd). unfold put_named. cbn in *.
  destruct (String.eqb_spec n name) as [->|Hne].
  - destruct (List.find (fun '(n, _) => String.eqb n name) l) as [[n' o]|] eqn:E.
    { apply find_some in E as [Hin E]. apply String.eqb_eq in E as ->. exfalso. apply Hn, list_elem_of_fmap.
      exists (name, o). split; [done|]. by apply list_elem_of_In. }
    destruct v; [by rewrite lookup_insert_eq|done].
  - destruct v; [by rewrite lookup_insert_ne|done].
Qed.

Lemma put_custom_lookup udm vals name :
  put_custom udm vals !! name =
  match List.find (fun m => String.eqb (CustomMetricPrefix +:+ udm_Name m) name) (rev udm) with
  | Some m => Some (floatValue (udm_Value m))
  | None => vals !! name
  end.
Proof.
  unfold put_custom. induction udm as [|m udm IH] using rev_ind; [done|].
  rewrite foldl_app, rev_unit. cbn [foldl List.find]. destruct (String.eqb_spec (CustomMetricPrefix +:+ udm_Name m) name) as [<-|Hne].
  - by rewrite lookup_insert_eq.
  - by rewrite lookup_insert_ne, IH.
Qed.

Lemma container_ints_NoDup now c : NoDup (container_ints now c).*1.
Proof. cbn [container_ints fmap list_fmap fst]. apply (bool_decide_unpack _). by vm_compute. Qed.

(** The values before the user defined metrics. *)
Lemma plain_values now c labels t :
  Values (decodeEphemeralStorageStatsForContainer (cst_Rootfs c) (cst_Logs c)
    (decodeMemoryStats (cst_Memory c) (decodeCPUStats (cst_CPU c)
      (decodeUptime now (cst_StartTime c) (new_set labels (cst_StartTime c) t)))))
  = foldl put_named ∅ (container_ints now c).
Proof.
  unfold decodeUptime, decodeEphemeralStorageStatsForContainer, container_ints.
  destruct (time_is_zero (cst_StartTime c)), (cst_CPU c) as [[? [] []]|], (cst_Memory c) as [[? [] [] [] [] []]|],
    (container_storage (cst_Rootfs c) (cst_Logs c)); cbn; rewrite ?wrap64_wrapu64; done.
Qed.

Lemma decodeContainerStats_core now labels c sys h :
  let ms := (decodeContainerStats now labels c sys h).2 in
  CollectionStartTime ms = cst_StartTime c /\ Labels ms = container_labels labels c sys /\
  forall name, Values ms !! name = container_value now c name.
Proof.
  unfold decodeContainerStats.
  set (ms0 := decodeMemoryStats _ _). pose proof (accelerators_core (cst_Accelerators c) (h, ms0)) as H1.
  destruct (decodeAcceleratorStats (cst_Accelerators c) (h, ms0)) as [h1 ms1].
  pose proof (fs_core RootFsKey (cst_Rootfs c) (h1, ms1)) as H2.
  destruct (decodeFsStats RootFsKey (cst_Rootfs c) (h1, ms1)) as [h2 ms2].
  pose proof (fs_core LogsKey (cst_Logs c) (h2, ms2)) as H3.
  destruct (decodeFsStats LogsKey (cst_Logs c) (h2, ms2)) as [h3 ms3]. cbn [snd] in *.
  pose proof (core_trans _ _ _ H1 (core_trans _ _ _ H2 H3)) as (Hv & Hl & Ht).
  assert (H0 : Labels ms0 = container_labels labels c sys /\ CollectionStartTime ms0 = cst_StartTime c).
  { unfold ms0, decodeUptime. destruct (time_is_zero _), (cst_CPU c) as [[? [] ?]|], (cst_Memory c); done. }
  destruct H0 as [H01 H02].
  split_and!; [exact (eq_trans Ht H02)|exact (eq_trans Hl H01)|]. intros name.
  cbn [decodeUserDefinedMetrics with_Values Values]. rewrite put_custom_lookup. unfold container_value.
  destruct (List.find _ (rev (cst_UserDefinedMetrics c))); [done|].
  cbn [decodeEphemeralStorageStatsForContainer addIntMetric with_Values Values]. rewrite Hv.
  change (put_int _ _ (Values ms0)) with
    (Values (decodeEphemeralStorageStatsForContainer (cst_Rootfs c) (cst_Logs c) ms0)).
  unfold ms0. rewrite plain_values, put_named_lookup by apply container_ints_NoDup.
  destruct (List.find _ _) as [[? []]|]; done.
Qed.

(** Names without slashes, as Kubernetes names are. *)
Definition summary_wf (s : SummaryStats) : bool :=
  str_free "/" (ns_NodeName (sum_Node s)) &&
  forallb (fun c => str_free "/" (getSystemContainerName c)) (ns_SystemContainers (sum_Node s)) &&
  forallb (fun p => str_free "/" (ps_Namespace p) && str_free "/" (ps_Name p) &&
             forallb (fun c => str_free "/" (cst_Name c)) (ps_Containers p)) (sum_Pods s).

(** The containers reported under one name, in the order of the report. *)
Definition reported (s : SummaryStats) : list (PodStats * ContainerStats) :=
  p ← sum_Pods s; pair p <$> ps_Containers p.
Definition named (ns p c : string) (pc : PodStats * ContainerStats) : bool :=
  String.eqb (ps_Namespace pc.1) ns && String.eqb (ps_Name pc.1) p && String.eqb (cst_Name pc.2) c.
Definition candidates (s : SummaryStats) (ns p c : string) : list (PodStats * ContainerStats) :=
  List.filter (named ns p c) (reported s).

Section containers.
Context (src : NodeInfo) (now : Z) (ns p c : string).
Context (Hwf : str_free "/" ns && str_free "/" p && str_free "/" c = true).

Definition starts (pc : PodStats * ContainerStats) : Z := cst_StartTime pc.2.

(** The set of a container of a pod. *)
Definition decoded_set (pc : PodStats * ContainerStats) (ms : HSet) : Prop :=
  CollectionStartTime ms = starts pc /\
  Labels ms = container_labels (pod_labels (node_labels src) pc.1) pc.2 false /\
  forall name, Values ms !! name = container_value now pc.2 name.

(** The entry of the key after the candidates so far: the newest, of several
    the last. *)
Definition newest (cands : list (PodStats * ContainerStats)) (o : option HSet) : Prop :=
  match cands with
  | [] => o = None
  | _ => exists l1 pc l2 ms, cands = l1 ++ pc :: l2 /\ o = Some ms /\ decoded_set pc ms /\
           Forall (fun x => starts x <= starts pc)%Z l1 /\ Forall (fun x => starts x < starts pc)%Z l2
  end.

Lemma newest_snoc cands pc ms o :
  newest cands o -> decoded_set pc ms ->
  newest (cands ++ [pc])
    (if match o with Some old => (starts pc <? CollectionStartTime old)%Z | None => false end then o else Some ms).
Proof.
  intros Hn Hd. assert (Hgoal : forall o', (exists l1 x l2 m, cands ++ [pc] = l1 ++ x :: l2 /\ o' = Some m /\
      decoded_set x m /\ Forall (fun y => starts y <= starts x)%Z l1 /\ Forall (fun y => starts y < starts x)%Z l2) ->
      newest (cands ++ [pc]) o') by (intros o'; by destruct cands).
  apply Hgoal. destruct cands as [|x0 cands].
  { cbn in Hn. subst o. exists [], pc, [], ms. by split_and!. }
  destruct Hn as (l1 & x & l2 & old & E & -> & Hold & H1 & H2). rewrite E. pose proof Hold as (Hs & _). rewrite Hs.
  destruct (Z.ltb_spec (starts pc) (starts x)) as [Hlt|Hge].
  - exists l1, x, (l2 ++ [pc]), old. rewrite <-app_assoc. split_and!; try done. apply Forall_app. by repeat constructor.
  - exists (l1 ++ x :: l2), pc, [], ms. split_and!; try done. apply Forall_app. split.
    + eapply Forall_impl; [exact H1|]. cbn. intros y Hy. cbn in Hy. lia.
    + constructor; [done|]. eapply Forall_impl; [exact H2|]. cbn. intros y Hy. cbn in Hy. lia.
Qed.

(** A container of another name leaves the entry alone. *)
Lemma other_key pod ct :
  str_free "/" (ps_Namespace pod) && str_free "/" (ps_Name pod) && str_free "/" (cst_Name ct) = true ->
  named ns p c (pod, ct) = false ->
  PodContainerKey (ps_Namespace pod) (ps_Name pod) (cst_Name ct) <> PodContainerKey ns p c.
Proof.
  intros H Hn E. apply (key_of_inj (KPodContainer _ _ _) (KPodContainer ns p c) H Hwf) in E. injection E as E1 E2 E3.
  unfold named in Hn. cbn in Hn. by rewrite E1, E2, E3, !String.eqb_refl in Hn.
Qed.

Lemma decode_pod_container_step pod cands st ct :
  str_free "/" (ps_Namespace pod) && str_free "/" (ps_Name pod) && str_free "/" (cst_Name ct) = true ->
  newest cands (st.2 !! PodContainerKey ns p c) ->
  newest (cands ++ List.filter (named ns p c) [(pod, ct)])
    ((decode_pod_container now (pod_labels (node_labels src) pod) pod st ct).2 !! PodContainerKey ns p c).
Proof.
  intros Hct Hn. destruct st as [h metrics]. unfold decode_pod_container. cbn [snd] in Hn.
  pose proof (decodeContainerStats_core now (pod_labels (node_labels src) pod) ct false h) as (H1 & H2 & H3).
  destruct (decodeContainerStats now _ ct false h) as [h' ms]. cbn [snd] in *. cbn [List.filter].
  destruct (named ns p c (pod, ct)) eqn:Ename.
  - pose proof Ename as En. unfold named in En. apply andb_true_iff in En as [[E1 E2]%andb_true_iff E3].
    apply String.eqb_eq in E1, E2, E3. cbn in E1, E2, E3. subst ns p c.
    assert (Hd : decoded_set (pod, ct) ms) by (by split_and!).
    pose proof (newest_snoc _ _ _ _ Hn Hd) as Hs. unfold time_before. cbn [starts snd] in Hs.
    unfold starts in Hs. cbn [snd] in Hs.
    destruct (match metrics !! _ with Some old => _ | None => _ end); [exact Hs|]. cbn. by rewrite lookup_insert_eq.
  - rewrite app_nil_r. pose proof (other_key pod ct Hct Ename) as Hk.
    destruct (match metrics !! _ with Some ms0 => _ | None => _ end); [done|]. cbn. by rewrite lookup_insert_ne.
Qed.

Lemma filter_app_pairs (l1 l2 : list (PodStats * ContainerStats)) :
  List.filter (named ns p c) (l1 ++ l2) = List.filter (named ns p c) l1 ++ List.filter (named ns p c) l2.
Proof. apply List.filter_app. Qed.

Lemma containers_loop pod cts cands st :
  str_free "/" (ps_Namespace pod) && str_free "/" (ps_Name pod) = true ->
  forallb (fun c => str_free "/" (cst_Name c)) cts = true ->
  newest cands (st.2 !! PodContainerKey ns p c) ->
  newest (cands ++ List.filter (named ns p c) (pair pod <$> cts))
    ((foldl (decode_pod_container now (pod_labels (node_labels src) pod) pod) st cts).2 !! PodContainerKey ns p c).
Proof.
  intros Hp. revert cands st; induction cts as [|ct cts IH]; intros cands st Hcts Hn; cbn [foldl fmap list_fmap].
  { by rewrite app_nil_r. }
  cbn in Hcts. apply andb_true_iff in Hcts as [Hct Hcts].
  change (List.filter (named ns p c) ((pod, ct) :: (pair pod <$> cts)))
    with (List.filter (named ns p c) ([(pod, ct)] ++ (pair pod <$> cts))).
  rewrite filter_app_pairs, app_assoc. apply IH; [done|]. apply decode_pod_container_step; [|done].
  by rewrite Hp.
Qed.

Definition pod_wf (pod : PodStats) : bool :=
  str_free "/" (ps_Namespace pod) && str_free "/" (ps_Name pod) &&
  forallb (fun c => str_free "/" (cst_Name c)) (ps_Containers pod).

Lemma pod_step pod cands st :
  pod_wf pod = true -> newest cands (st.2 !! PodContainerKey ns p c) ->
  newest (cands ++ List.filter (named ns p c) (pair pod <$> ps_Containers pod))
    ((decodePodStats now (node_labels src) st pod).2 !! PodContainerKey ns p c).
Proof.
  intros [Hp Hcts]%andb_true_iff Hn. destruct st as [h metrics]. unfold decodePodStats.
  destruct (decodeNetworkStats _ _) as [h1 ms1]. destruct (foldl _ (h1, _) (ps_VolumeStats pod)) as [h2 ms2].
  apply containers_loop; [done|done|]. cbn [snd] in *. rewrite lookup_insert_ne; [done|]. intros E.
  by apply (key_of_inj (KPod _ _) (KPodContainer ns p c) Hp Hwf) in E.
Qed.

Lemma pods_loop pods cands st :
  forallb pod_wf pods = true -> newest cands (st.2 !! PodContainerKey ns p c) ->
  newest (cands ++ List.filter (named ns p c) (pod ← pods; pair pod <$> ps_Containers pod))
    ((foldl (decodePodStats now (node_labels src)) st pods).2 !! PodContainerKey ns p c).
Proof.
  revert cands st; induction pods as [|pod pods IH]; intros cands st Hpods Hn; cbn [foldl].
  { cbn. by rewrite app_nil_r. }
  cbn [forallb] in Hpods. apply andb_true_iff in Hpods as [Hpod Hpods]. rewrite bind_cons, filter_app_pairs, app_assoc.
  apply IH; [done|]. by apply pod_step.
Qed.

(** The node's own sets have other keys. *)
Lemma node_step node st :
  str_free "/" (ns_NodeName node) = true ->
  forallb (fun c => str_free "/" (getSystemContainerName c)) (ns_SystemContainers node) = true ->
  (decodeNodeStats src now (node_labels src) node st).2 !! PodContainerKey ns p c = st.2 !! PodContainerKey ns p c.
Proof.
  intros Hnode Hsys. destruct st as [h metrics]. unfold decodeNodeStats.
  destruct (decodeNetworkStats _ _) as [h1 ms1]. destruct (decodeFsStats _ _ _) as [h2 ms2]. cbn [snd].
  assert (Hbase : <[NodeKey (ns_NodeName node) := decodeEphemeralStorageStats (ns_Fs node) ms2]> metrics
    !! PodContainerKey ns p c = metrics !! PodContainerKey ns p c).
  { rewrite lookup_insert_ne; [done|]. intros E. by apply (key_of_inj (KNode _) (KPodContainer ns p c) Hnode Hwf) in E. }
  rewrite <-Hbase. generalize (<[NodeKey (ns_NodeName node) := decodeEphemeralStorageStats (ns_Fs node) ms2]> metrics) h2.
  induction (ns_SystemContainers node) as [|ct cts IH]; intros m h3; [done|]. cbn [foldl].
  cbn [forallb] in Hsys. apply andb_true_iff in Hsys as [Hct Hsys].
  destruct (decodeContainerStats now (node_labels src) ct true h3) as [h4 ms4]. rewrite (IH Hsys).
  rewrite lookup_insert_ne; [done|]. intros E.
  apply (key_of_inj (KNodeContainer _ _) (KPodContainer ns p c)) in E; [done|by cbn; rewrite Hnode|done].
Qed.
End containers.

(** ** Property *)

(** C10: what a scrape of a kubelet holds for the containers of pods.  A failed
    request is counted and reported.  Otherwise, for every report with names
    without slashes: a container that is not reported has no set; when several
    are reported under one name, the set is that of the newest, and of several
    equally new ones of the last; its labels are those of the node, of its pod
    and its own; and its values are exactly the uptime, the processor, memory
    and storage figures the report gives, as signed 64-bit numbers, and its
    user defined metrics. *)
Theorem summary_containers (src : NodeInfo) (now : Z) (s : SummaryStats) (errors : Z) (h : heap) :
  summary_wf s = true ->
  (forall e, summary_Scrape src now (Err e) errors h = (h, errors + 1, Err e)%Z) /\
  exists h' b, summary_Scrape src now (Ok s) errors h = (h', errors, Ok b) /\ b_Timestamp b = now /\ b_Metrics b = [] /\
    forall ns p c, str_free "/" ns && str_free "/" p && str_free "/" c = true ->
      (candidates s ns p c = [] -> b_Sets b !! PodContainerKey ns p c = None) /\
      (candidates s ns p c <> [] -> exists l1 pc l2 ms,
         candidates s ns p c = l1 ++ pc :: l2 /\ b_Sets b !! PodContainerKey ns p c = Some ms /\
         Forall (fun x => starts x <= starts pc)%Z l1 /\ Forall (fun x => starts x < starts pc)%Z l2 /\
         CollectionStartTime ms = starts pc /\
         Labels ms = container_labels (pod_labels (node_labels src) pc.1) pc.2 false /\
         forall name, Values ms !! name = container_value now pc.2 name).
Proof.
  intros Hwf. split; [done|]. unfold summary_Scrape.
  destruct (addSummaryMetricSets src now s (h, ∅)) as [h' sets] eqn:Es. eexists h', _. split_and!; [done|done|done|].
  intros ns p c Hk. cbn [b_Sets]. unfold summary_wf in Hwf. apply andb_true_iff in Hwf as [[Hn Hsys]%andb_true_iff Hpods].
  assert (Hnew : newest src now (candidates s ns p c) (sets !! PodContainerKey ns p c)).
  { replace sets with (addSummaryMetricSets src now s (h, ∅)).2 by by rewrite Es.
    apply (pods_loop src now ns p c Hk (sum_Pods s) []); [done|].
    by rewrite (node_step src now ns p c Hk) by done. }
  unfold newest in Hnew. destruct (candidates s ns p c) as [|x l]; [by split|]. split; [done|]. intros _.
  destruct Hnew as (l1 & pc & l2 & ms & E & Hs & (H1 & H2 & H3) & H4 & H5). by exists l1, pc, l2, ms.
Qed.

Definition sample_container_stats (start cpu : Z) : ContainerStats :=
  MkContainerStats "app" start (Some (MkCPU 5 None (Some cpu))) None [] None None [].
Definition sample_summary : SummaryStats :=
  MkSummaryStats (MkNodeStats "n1" 1 None None None None [])
    [MkPodStats "web" "default" "u1" 1 None None None [] None
       [sample_container_stats 20 700; sample_container_stats 10 900]].

Lemma summary_containers_witness :
  exists h' b ms, summary_Scrape (MkNodeInfo "n1" "n1" "" "" "worker") 30 (Ok sample_summary) 0 ∅ = (h', 0%Z, Ok b) /\
    b_Sets b !! PodContainerKey "default" "web" "app" = Some ms /\ CollectionStartTime ms = 20%Z.
Proof.
  destruct (summary_containers (MkNodeInfo "n1" "n1" "" "" "worker") 30 sample_summary 0 ∅) as (_ & h' & b & E & _ & _ & H);
    [by vm_compute|].
  destruct (H "default" "web" "app") as [_ Hc]; [by vm_compute|].
  destruct Hc as (l1 & pc & l2 & ms & Ec & Hms & H1 & H2 & Hs & _); [by vm_compute|].
  exists h', b, ms. split_and!; [exact E|exact Hms|]. rewrite Hs.
  destruct l1 as [|x1 [|x2 l1]]; cbn in Ec; [by injection Ec as <- <-| |].
  - injection Ec as <- <- <-. apply Forall_cons in H1 as [H1 _]. by vm_compute in H1.
  - apply (f_equal length) in Ec. cbn in Ec. rewrite length_app in Ec. cbn in Ec. lia.
Defined.
