(* ===== verification/PointGroups.v ===== *)
(** Points that share a tag map.

    Several sources build one tag map and put it into more than one point, and
    then filter the points one at a time.  Filtering removes tags from the map
    in place, so what happens to a point can change the tags on which the next
    one is judged.  This file says what a group of points with one map becomes,
    and proves it of the loop [for _, point := range points { result =
    wf.FilterAppend(filters, fps, result, point) }]. *)

From Stdlib Require Import ZArith Lia.
From S2P Require Import Prelude GoFloat Filters Wf.

(** [make(map[string]string)], filled with [m]. *)
Definition new_map (h : heap) (m : tagmap) : heap * positive :=
  let l := fresh (dom h) in (<[l := m]> h, l).

(** The points of one map: the map ([None] is nil), and their names, values,
    times and sources. *)
Record proto := MkProto { pp_name : string; pp_value : f64; pp_ts : Z; pp_source : string }.
Record group := MkGroup { g_tags : option tagmap; g_points : list proto }.

Definition point_at (l : option positive) (p : proto) : wfmetric :=
  MPoint (NewPoint (pp_name p) (pp_value p) (pp_ts p) (pp_source p) l).

Section filtering.
Context {F : Type} `{!MetricFilter F} (f : option F).

(** The loop of the sources: the heap, the points kept and the number of
    points filtered. *)
Definition filter_step (st : heap * list wfmetric * Z) (m : wfmetric) : heap * list wfmetric * Z :=
  let '(h, points, fps) := st in
  let '(h', points', n) := FilterAppend f h points (Some m) in (h', points', (fps + n)%Z).
Definition filter_points (st : heap * list wfmetric * Z) (ms : list wfmetric) : heap * list wfmetric * Z :=
  foldl filter_step st ms.

(** ** What becomes of a group *)

Definition kept_tags (t : tagmap) : tagmap :=
  match f with Some f => filter_names (match_tag f) t | None => t end.
Definition accepts (name : string) (t : tagmap) : bool :=
  match f with Some f => match_metric f name t | None => true end.

Definition describe_proto (t : tagmap) (p : proto) : described :=
  MkDescribed (pp_name p) (PValue (pp_value p) (pp_ts p)) (pp_source p) t.

(** [t] is what the map holds when a point is judged: once a point has been
    kept, only the tags the filter keeps are left for the following ones. *)
Fixpoint filter_protos (t : tagmap) (ps : list proto) : list described :=
  match ps with
  | [] => []
  | p :: ps =>
      if accepts (pp_name p) t then describe_proto (kept_tags t) p :: filter_protos (kept_tags t) ps
      else filter_protos t ps
  end.
Definition filter_group (g : group) : list described := filter_protos (default ∅ (g_tags g)) (g_points g).

(** [ms] are the points of the groups [gs]; the maps of the groups are
    different locations, those of [ls]. *)
Inductive realises (h : heap) : list positive -> list wfmetric -> list group -> Prop :=
  | realises_nil : realises h [] [] []
  | realises_map l t ls ps ms gs :
      h !! l = Some t -> l ∉ ls -> realises h ls ms gs ->
      realises h (l :: ls) (map (point_at (Some l)) ps ++ ms) (MkGroup (Some t) ps :: gs)
  | realises_nil_map ls ps ms gs :
      realises h ls ms gs -> realises h ls (map (point_at None) ps ++ ms) (MkGroup None ps :: gs).

(** ** Lemmas *)

Lemma filter_names_idemp pred t : filter_names pred (filter_names pred t) = filter_names pred t.
Proof. apply map_eq. intros k. rewrite !filter_names_lookup. by destruct (pred k). Qed.

Lemma kept_tags_idemp t : kept_tags (kept_tags t) = kept_tags t.
Proof. unfold kept_tags. destruct f; [apply filter_names_idemp|done]. Qed.

Lemma kept_tags_empty : kept_tags ∅ = ∅.
Proof. unfold kept_tags. destruct f; [|done]. apply map_eq. intros k. rewrite filter_names_lookup, lookup_empty. by destruct (match_tag _ k). Qed.

Lemma describe_point_at h l p : describe h (point_at l p) = describe_proto (deref h l) p.
Proof. unfold describe, describe_proto. cbn. f_equal. unfold copy_into, pairs_map. cbn. apply (right_id_L ∅ (∪)). Qed.

(** The map [l] of the heap [h] holds [t]. *)
Definition holds (h : heap) (l : option positive) (t : tagmap) : Prop :=
  match l with Some l => h !! l = Some t | None => t = ∅ end.

Lemma holds_deref h l t : holds h l t -> deref h l = t.
Proof. destruct l as [l|]; cbn; [by intros ->|done]. Qed.

(** One point: it is judged on the current tags, and when it is kept its map
    keeps only the tags that pass. *)
Lemma filter_step_point h acc n l t p :
  holds h l t ->
  filter_step (h, acc, n) (point_at l p) =
    if accepts (pp_name p) t then
      (match l with Some l => <[l := kept_tags t]> h | None => h end, acc ++ [point_at l p], n)
    else (h, acc, (n + 1)%Z).
Proof.
  intros Ht. unfold filter_step, FilterAppend, Filter, accepts, kept_tags. destruct f as [g|].
  - assert (Metric_Tags h (point_at l p) = t) as ->.
    { cbn. rewrite (holds_deref h l t Ht). unfold copy_into, pairs_map. cbn. apply (right_id_L ∅ (∪)). }
    cbn [Metric_Name point_at NewPoint p_Metric]. destruct (match_metric g (pp_name p) t); cbn [negb]; [|done].
    unfold FilterTags. cbn. rewrite Z.add_0_r. destruct l as [l|]; [|done]. cbn in Ht. by rewrite Ht.
  - rewrite Z.add_0_r. destruct l as [l|]; [|done]. cbn in Ht. by rewrite insert_id.
Qed.

(** The points of one map. *)
Lemma group_loop ps h l t :
  holds h l t ->
  exists h' new, (forall acc n, filter_points (h, acc, n) (map (point_at l) ps) =
      (h', acc ++ new, (n + Z.of_nat (length ps) - Z.of_nat (length new))%Z)) /\
    describe h' <$> new = filter_protos t ps /\ Forall (fun m => tags_ref m = l) new /\
    (forall l', l <> Some l' -> h' !! l' = h !! l') /\
    holds h' l (match new with [] => t | _ => kept_tags t end).
Proof.
  revert h t; induction ps as [|p ps IH]; intros h t Ht.
  { exists h, []. split_and!; try done. intros acc n. cbn. rewrite app_nil_r. f_equal. lia. }
  cbn [map filter_protos]. destruct (accepts (pp_name p) t) eqn:E.
  - assert (H1 : holds (match l with Some l => <[l := kept_tags t]> h | None => h end) l (kept_tags t)).
    { destruct l as [l|]; cbn; [by rewrite lookup_insert_eq|cbn in Ht; subst; apply kept_tags_empty]. }
    destruct (IH _ _ H1) as (h' & new & Hrun & Hd & Hr & Hf & Hl).
    exists h', (point_at l p :: new).
    assert (Hl' : holds h' l (kept_tags t)) by (destruct new; [done|by rewrite kept_tags_idemp in Hl]).
    split_and!.
    + intros acc n. cbn [filter_points foldl]. rewrite (filter_step_point h acc n l t p Ht), E.
      unfold filter_points in Hrun. rewrite Hrun, <- app_assoc. cbn [length app]. f_equal. lia.
    + rewrite fmap_cons, Hd, describe_point_at. by rewrite (holds_deref _ _ _ Hl').
    + by constructor.
    + intros l' Hne. rewrite Hf by done. destruct l as [l|]; [|done]. rewrite lookup_insert_ne; [done|congruence].
    + done.
  - destruct (IH h t Ht) as (h' & new & Hrun & Hd & Hr & Hf & Hl).
    exists h', new. split_and!; try done. intros acc n. cbn [filter_points foldl].
    rewrite (filter_step_point h acc n l t p Ht), E. unfold filter_points in Hrun. rewrite Hrun.
    f_equal. cbn [length]. lia.
Qed.

Lemma realises_frame h h' ls ms gs :
  realises h ls ms gs -> (forall l, l ∈ ls -> h' !! l = h !! l) -> realises h' ls ms gs.
Proof.
  induction 1 as [|l t ls ps ms gs Hl Hn _ IH|ls ps ms gs _ IH]; intros Hh.
  - constructor.
  - constructor; [rewrite Hh; [done|by left]|done|]. apply IH. intros l' Hl'. apply Hh. by right.
  - constructor. by apply IH.
Qed.

Lemma filter_points_app st ms1 ms2 : filter_points st (ms1 ++ ms2) = filter_points (filter_points st ms1) ms2.
Proof. apply foldl_app. Qed.

(** The loop over [ms] from [h] and [acc] kept [new], which read as [ds]; it
    wrote only to the maps of [ls]. *)
Record ran (h : heap) (ls : list positive) (ms : list wfmetric) (ds : list described) (h' : heap) (new : list wfmetric)
    : Prop := {
  ran_loop : forall acc n, filter_points (h, acc, n) ms =
    (h', acc ++ new, (n + Z.of_nat (length ms) - Z.of_nat (length new))%Z);
  ran_points : describe h' <$> new = ds;
  ran_heap : forall l, l ∉ ls -> h' !! l = h !! l;
  ran_refs : forall m l, m ∈ new -> tags_ref m = Some l -> l ∈ ls;
  ran_dom : forall l, is_Some (h !! l) -> is_Some (h' !! l);
}.

Lemma ran_app h ls1 ls2 ms1 ms2 ds1 ds2 h1 h2 new1 new2 :
  (forall l, l ∈ ls1 -> l ∉ ls2) ->
  ran h ls1 ms1 ds1 h1 new1 -> ran h1 ls2 ms2 ds2 h2 new2 ->
  ran h (ls1 ++ ls2) (ms1 ++ ms2) (ds1 ++ ds2) h2 (new1 ++ new2).
Proof.
  intros Hdis [L1 P1 H1 R1 D1] [L2 P2 H2 R2 D2]. split.
  - intros acc n. rewrite filter_points_app, L1, L2, app_assoc. f_equal. rewrite !length_app. lia.
  - rewrite fmap_app, P2. f_equal. rewrite <- P1. apply list_fmap_ext. intros i m Hm%list_elem_of_lookup_2.
    apply describe_same. destruct (tags_ref m) as [l|] eqn:E; [|done]. cbn. rewrite H2; [done|].
    by apply Hdis, (R1 m).
  - intros l Hl. rewrite elem_of_app in Hl. rewrite H2, H1; [done|tauto|tauto].
  - intros m l [Hm|Hm]%elem_of_app Hl; apply elem_of_app; [left|right]; eauto.
  - eauto.
Qed.

Definition locs (l : option positive) : list positive := match l with Some l => [l] | None => [] end.

Lemma group_ran h l t ps :
  holds h l (default ∅ t) ->
  exists h' new, ran h (locs l) (map (point_at l) ps) (filter_group (MkGroup t ps)) h' new.
Proof.
  intros Ht. destruct (group_loop ps h l _ Ht) as (h' & new & Hrun & Hd & Hr & Hf & Hl).
  exists h', new. split; [intros; by rewrite length_map|done| | |].
  - intros l' Hl'. apply Hf. intros ->. apply Hl'. by left.
  - intros m l' Hm E. rewrite Forall_forall in Hr. rewrite (Hr m Hm) in E. subst. by left.
  - intros l' Hs. destruct (decide (l = Some l')) as [->|Hne]; [by rewrite Hl|by rewrite Hf].
Qed.

(** The points of several groups read, after the loop, as what the filter
    makes of the groups. *)
Lemma groups_ran h ls ms gs :
  realises h ls ms gs -> exists h' new, ran h ls ms (gs ≫= filter_group) h' new.
Proof.
  revert h ls ms; induction gs as [|g gs IH]; intros h ls ms Hr.
  { inversion Hr; subst. exists h, []. split; try done; [|by intros ? ? ?%elem_of_nil].
    intros acc n. cbn. rewrite app_nil_r. f_equal. lia. }
  assert (exists l ls' ms', ls = locs l ++ ls' /\ ms = map (point_at l) (g_points g) ++ ms' /\
    holds h l (default ∅ (g_tags g)) /\ realises h ls' ms' gs /\ (forall x, x ∈ locs l -> x ∉ ls'))
    as (l & ls' & ms' & -> & -> & Hl & Hr' & Hdis).
  { inversion Hr; subst; [exists (Some l)|exists None]; do 2 eexists; split_and!; try done; cbn.
    - by intros x ->%list_elem_of_singleton.
    - by intros x ?%elem_of_nil. }
  destruct g as [t ps]. destruct (group_ran h l t ps Hl) as (h1 & new1 & H1).
  destruct (IH h1 ls' ms') as (h2 & new2 & H2).
  { eapply realises_frame; [exact Hr'|]. intros x Hx. apply (ran_heap _ _ _ _ _ _ H1). intros Hx'. by apply (Hdis x). }
  exists h2, (new1 ++ new2). change ((MkGroup t ps :: gs) ≫= filter_group) with (filter_group (MkGroup t ps) ++ (gs ≫= filter_group)).
  by eapply ran_app.
Qed.

(** The lists of groups of a batch of points add up. *)
Lemma realises_app h ls1 ls2 ms1 ms2 gs1 gs2 :
  realises h ls1 ms1 gs1 -> realises h ls2 ms2 gs2 -> (forall l, l ∈ ls1 -> l ∉ ls2) ->
  realises h (ls1 ++ ls2) (ms1 ++ ms2) (gs1 ++ gs2).
Proof.
  intros H1 H2. induction H1 as [|l t ls ps ms gs Hl Hn H1 IH|ls ps ms gs H1 IH]; intros Hd; [done| |].
  - rewrite <- app_assoc. cbn. constructor; [done| |].
    + rewrite elem_of_app. intros [?|?]; [done|]. by apply (Hd l); [left|].
    + apply IH. intros x Hx. apply Hd. by right.
  - rewrite <- app_assoc. cbn. constructor. by apply IH.
Qed.

(** ** Building groups *)

(** A step that builds the points of the groups [gs] in maps it allocates. *)
Definition builds (h : heap) (st : heap * list wfmetric) (gs : list group) : Prop :=
  exists ls, realises st.1 ls st.2 gs /\ (forall l, l ∈ ls -> h !! l = None) /\
    (forall l, is_Some (h !! l) -> st.1 !! l = h !! l).

Lemma builds_nil h : builds h (h, []) [].
Proof. exists []. split; [constructor|]. split; [by intros ? ?%elem_of_nil|done]. Qed.

Lemma builds_new h t ps :
  builds h (let '(h', l) := new_map h t in (h', map (point_at (Some l)) ps)) [MkGroup (Some t) ps].
Proof.
  unfold new_map. set (l := fresh (dom h)). assert (Hl : h !! l = None) by apply not_elem_of_dom, is_fresh.
  exists [l]. cbn. split; [|split].
  - rewrite <- (app_nil_r (map _ _)). constructor; [by rewrite lookup_insert_eq|apply not_elem_of_nil|constructor].
  - by intros x ->%list_elem_of_singleton.
  - intros x [v Hx]. rewrite lookup_insert_ne; [done|]. intros <-. congruence.
Qed.

Lemma builds_app h h1 ms1 gs1 h2 ms2 gs2 :
  builds h (h1, ms1) gs1 -> builds h1 (h2, ms2) gs2 -> builds h (h2, ms1 ++ ms2) (gs1 ++ gs2).
Proof.
  intros (ls1 & R1 & F1 & K1) (ls2 & R2 & F2 & K2). cbn in *. exists (ls1 ++ ls2). cbn.
  assert (Hin : forall l, l ∈ ls1 -> is_Some (h1 !! l)).
  { clear -R1. induction R1 as [|l t ls ps ms gs Hl Hn H1 IH|]; intros x Hx; [by apply elem_of_nil in Hx| |eauto].
    apply elem_of_cons in Hx as [->|Hx]; eauto. }
  split; [|split].
  - apply realises_app; [|done|].
    + eapply realises_frame; [exact R1|]. intros l Hl. by apply K2, Hin.
    + intros l Hl1 Hl2. destruct (Hin l Hl1) as [v Hv]. rewrite F2 in Hv; [done|done].
  - intros l [Hl|Hl]%elem_of_app; [by apply F1|]. specialize (F2 l Hl).
    destruct (h !! l) as [v|] eqn:E; [|done]. rewrite <- (K1 l) in E by eauto. congruence.
  - intros l Hl. rewrite K2, K1; [done|done|by rewrite K1].
Qed.

(** A loop over items, each of which allocates maps and adds points. *)
Lemma builds_loop {A} (step : heap -> A -> heap * list wfmetric) (gs : A -> list group) items h pts0 :
  (forall h a, builds h (step h a) (gs a)) ->
  let st := foldl (fun '(h, pts) a => let '(h', new) := step h a in (h', pts ++ new)) (h, pts0) items in
  exists new, st.2 = pts0 ++ new /\ builds h (st.1, new) (items ≫= gs).
Proof.
  intros Hstep. revert h pts0; induction items as [|a items IH]; intros h pts0; cbn.
  { exists []. rewrite app_nil_r. split; [done|apply builds_nil]. }
  pose proof (Hstep h a) as H1. destruct (step h a) as [h1 new1].
  destruct (IH h1 (pts0 ++ new1)) as (new & E & H2). exists (new1 ++ new). split; [by rewrite E, app_assoc|].
  by eapply builds_app.
Qed.

Lemma realises_length h ls ms gs : realises h ls ms gs -> length ms = length (gs ≫= g_points).
Proof. induction 1; [done| |]; cbn; rewrite !length_app, length_map; by f_equal. Qed.

(** A source that builds the points of one kind of item after another and
    filters them as it goes. *)
Definition scrape_step {A} (gen : heap -> A -> heap * list wfmetric) (st : heap * list wfmetric * Z) (a : A)
    : heap * list wfmetric * Z :=
  let '(h, points, fps) := st in
  let '(h', new) := gen h a in filter_points (h', points, fps) new.

Lemma scrape_loop {A} (gen : heap -> A -> heap * list wfmetric) (gs : A -> list group) items h :
  (forall h a, builds h (gen h a) (gs a)) ->
  exists h' points, foldl (scrape_step gen) (h, [], 0%Z) items =
      (h', points, (Z.of_nat (length ((items ≫= gs) ≫= g_points)) - Z.of_nat (length points))%Z) /\
    describe h' <$> points = ((items ≫= gs) ≫= filter_group).
Proof.
  intros Hgen.
  cut (exists h' points, foldl (scrape_step gen) (h, [], 0%Z) items =
      (h', points, (Z.of_nat (length ((items ≫= gs) ≫= g_points)) - Z.of_nat (length points))%Z) /\
    describe h' <$> points = ((items ≫= gs) ≫= filter_group) /\
    forall m l, m ∈ points -> tags_ref m = Some l -> is_Some (h' !! l)).
  { intros (h' & points & ? & ? & _). by exists h', points. }
  induction items as [|a items IH] using rev_ind.
  { exists h, []. split_and!; try done. by intros ? ? ?%elem_of_nil. }
  rewrite foldl_app. destruct IH as (h1 & points & -> & Hd & Hs). cbn [foldl]. unfold scrape_step.
  pose proof (Hgen h1 a) as (ls & Hr & Hfresh & Hkeep). destruct (gen h1 a) as [h2 ms]. cbn [fst snd] in *.
  destruct (groups_ran _ _ _ _ Hr) as (h3 & new & [L P Hh Hrf Hdom]). rewrite L.
  assert (Hout : forall m l, m ∈ points -> tags_ref m = Some l -> l ∉ ls).
  { intros m l Hm E Hl. destruct (Hs m l Hm E) as [v Hv]. specialize (Hfresh l Hl). congruence. }
  exists h3, (points ++ new). rewrite !bind_app. cbn [mbind list_bind]. rewrite !app_nil_r. split_and!.
  - f_equal. rewrite !length_app, (realises_length _ _ _ _ Hr). lia.
  - rewrite fmap_app, P. f_equal. rewrite <- Hd. apply list_fmap_ext. intros i m Hm%list_elem_of_lookup_2.
    apply describe_same. destruct (tags_ref m) as [l|] eqn:E; [|done]. cbn.
    rewrite Hh by (by eapply Hout). by rewrite Hkeep by (by eapply Hs).
  - intros m l [Hm|Hm]%elem_of_app E.
    + apply Hdom. rewrite Hkeep; by eapply Hs.
    + apply Hdom. specialize (Hrf m l Hm E). clear -Hr Hrf.
      induction Hr as [|l0 t ls ps ms' gs' Hl Hn H1 IH|]; [by apply elem_of_nil in Hrf| |eauto].
      apply elem_of_cons in Hrf as [->|Hrf]; eauto.
Qed.
End filtering.
