(* ===== verification/Configuration.v ===== *)
(** The configuration and start-up of the collector: internal/configuration,
    internal/discovery (configs.go, helper.go, parser.go), internal/flags,
    internal/options.

    The YAML decoder and Go's URL functions are parameters.  [log.Fatalf] ends
    the process: it and a nil dereference are the two ways a start-up step
    ends without a value, which [outcome] tells apart. *)

From Stdlib Require Import ZArith Lia.
From S2P Require Import Prelude GoFloat Filters Util Leadership Discovery.

(** ** How a start-up step ends *)

Inductive outcome (A : Type) :=
  | Done (a : A)
  | Fatal (msg : string)   (** [log.Fatalf] *)
  | Panic (msg : string).  (** a run-time panic *)
Arguments Done {_} _.
Arguments Fatal {_} _.
Arguments Panic {_} _.

#[export] Instance outcome_ret : MRet outcome := fun _ a => Done a.
#[export] Instance outcome_bind : MBind outcome := fun _ _ f o =>
  match o with Done a => f a | Fatal e => Fatal e | Panic e => Panic e end.

Definition nil_pointer : string := "invalid memory address or nil pointer dereference".

(** [*p] of a pointer. *)
Definition deref_ptr {A} (p : option A) : outcome A :=
  match p with Some a => Done a | None => Panic nil_pointer end.

Definition outcome_ok {A} (o : outcome A) : bool := match o with Done _ => true | _ => false end.

(** ** internal/discovery/configs.go *)

Record CollectionConfig := MkCollection { cl_Interval : Z; cl_Timeout : Z }.
Definition collection_zero : CollectionConfig := MkCollection 0 0.

(** The fields of a rule that only the encoders read. *)
Record PluginRest := MkRest {
  pr_Scheme : string;
  pr_Path : string;
  pr_Conf : string;
  pr_Source : string;
  pr_Prefix : string;
  pr_Tags : gmap string string;
  pr_IncludeLabels : string;
  pr_Filters : Config.Config;
  pr_Collection : CollectionConfig;
  pr_Internal : bool;
}.
Definition rest_zero : PluginRest := MkRest "" "" "" "" "" ∅ "" Config.zero collection_zero false.

Abbreviation Rule := (PluginConfig PluginRest).

Record PrometheusConfig := MkPromConfig {
  pm_Name : string;
  pm_ResourceType : string;
  pm_Labels : gmap string string;
  pm_Namespace : string;
  pm_Port : string;
  pm_Path : string;
  pm_Scheme : string;
  pm_Prefix : string;
  pm_Tags : gmap string string;
  pm_Source : string;
  pm_IncludeLabels : string;
  pm_Filters : Config.Config;
}.

Record DiscoveryConfig := MkDiscovery {
  dc_DiscoveryInterval : Z;
  dc_AnnotationPrefix : string;
  dc_AnnotationExcludes : list Selectors;
  dc_EnableRuntimePlugins : bool;
  dc_DisableAnnotationDiscovery : bool;
  dc_PluginConfigs : list Rule;
  dc_PromConfigs : list PrometheusConfig;
}.
Definition discovery_zero : DiscoveryConfig := MkDiscovery 0 "" [] false false [] [].

Definition with_plugins (ps : list Rule) (c : DiscoveryConfig) : DiscoveryConfig :=
  MkDiscovery (dc_DiscoveryInterval c) (dc_AnnotationPrefix c) (dc_AnnotationExcludes c)
    (dc_EnableRuntimePlugins c) (dc_DisableAnnotationDiscovery c) ps (dc_PromConfigs c).

(** ** helper.go *)

(** The rule made of one deprecated configuration. *)
Definition rule_of_prom (promCfg : PrometheusConfig) : Rule :=
  MkPlugin (pm_Name promCfg) "prometheus"
    (MkSelectors (pm_ResourceType promCfg) []
       (if bool_decide (0 < size (pm_Labels promCfg)) then (fun v => [v]) <$> pm_Labels promCfg else ∅)
       (if String.eqb (pm_Namespace promCfg) "" then [] else [pm_Namespace promCfg]))
    (pm_Port promCfg)
    (MkRest (pm_Scheme promCfg) (pm_Path promCfg) "" (pm_Source promCfg) (pm_Prefix promCfg) (pm_Tags promCfg)
       (pm_IncludeLabels promCfg) (pm_Filters promCfg) collection_zero false).

Definition ConvertPromToPlugin (cfg : DiscoveryConfig) : DiscoveryConfig :=
  if nil_list (dc_PromConfigs cfg) then cfg
  else with_plugins (dc_PluginConfigs cfg ++ map rule_of_prom (dc_PromConfigs cfg)) cfg.

(** ** internal/configuration/config.go *)

Record Transforms := MkTransforms {
  tr_Source : string;
  tr_Prefix : string;
  tr_Tags : gmap string string;
  tr_Filters : Config.Config;
}.
Definition transforms_zero : Transforms := MkTransforms "" "" ∅ Config.zero.

(** [ErrorLogPercent] only sets the verbosity of the log. *)
Record WavefrontSinkConfig := MkSinkConfig {
  sk_Transforms : Transforms;
  sk_Server : string;
  sk_Token : string;
  sk_BatchSize : Z;
  sk_MaxBufferSize : Z;
  sk_ProxyAddress : string;
  sk_TestMode : bool;
  sk_ClusterName : string;
  sk_Version : f64;
  sk_InternalStatsPrefix : string;
  sk_EventsEnabled : bool;
}.

Record SummarySourceConfig := MkSummary {
  su_Transforms : Transforms;
  su_Collection : CollectionConfig;
  su_URL : string;
  su_KubeletPort : string;
  su_KubeletHttps : string;
  su_InClusterConfig : string;
  su_UseServiceAccount : string;
  su_Insecure : string;
  su_Auth : string;
}.

Record CadvisorSourceConfig := MkCadvisor { ca_Transforms : Transforms; ca_Collection : CollectionConfig }.
Record ControlPlaneSourceConfig := MkControlPlane { cp_Collection : CollectionConfig }.

(** internal/httputil/configs.go. *)
Record TLSConfig := MkTLS {
  tls_CAFile : string;
  tls_CertFile : string;
  tls_KeyFile : string;
  tls_ServerName : string;
  tls_InsecureSkipVerify : bool;
}.
Definition tls_zero : TLSConfig := MkTLS "" "" "" "" false.
Record ClientConfig := MkClientConfig {
  hc_BearerTokenFile : string;
  hc_BearerToken : string;
  hc_ProxyURL : option string;
  hc_TLSConfig : TLSConfig;
}.
Definition client_zero : ClientConfig := MkClientConfig "" "" None tls_zero.

Record PrometheusSourceConfig := MkPromSource {
  ps_Transforms : Transforms;
  ps_Collection : CollectionConfig;
  ps_URL : string;
  ps_HTTPClientConfig : ClientConfig;
  ps_Discovered : string;
  ps_Name : string;
  ps_UseLeaderElection : bool;
}.

Record TelegrafSourceConfig := MkTelegraf {
  tg_Transforms : Transforms;
  tg_Collection : CollectionConfig;
  tg_Plugins : list string;
  tg_Conf : string;
  tg_Discovered : string;
  tg_Name : string;
  tg_UseLeaderElection : bool;
}.

Record SystemdSourceConfig := MkSystemd {
  sd_Transforms : Transforms;
  sd_Collection : CollectionConfig;
  sd_IncludeTaskMetrics : bool;
  sd_IncludeStartTimeMetrics : bool;
  sd_IncludeRestartMetrics : bool;
  sd_UnitAllowList : list string;
  sd_UnitDenyList : list string;
}.

Record StatsSourceConfig := MkStats { ss_Transforms : Transforms; ss_Collection : CollectionConfig }.
(** [KubeClient] is set or not. *)
Record KubernetesStateSourceConfig := MkState {
  ks_Transforms : Transforms;
  ks_Collection : CollectionConfig;
  ks_KubeClient : bool;
}.

Record SourceConfig := MkSources {
  SummaryConfig : option SummarySourceConfig;
  CadvisorConfig : option CadvisorSourceConfig;
  ControlPlaneConfig : option ControlPlaneSourceConfig;
  PrometheusConfigs : list PrometheusSourceConfig;
  TelegrafConfigs : list TelegrafSourceConfig;
  SystemdConfig : option SystemdSourceConfig;
  StatsConfig : option StatsSourceConfig;
  StateConfig : option KubernetesStateSourceConfig;
}.
Definition sources_zero : SourceConfig := MkSources None None None [] [] None None None.

(** [configuration.Config]. *)
Record CollectorConfig := MkCollector {
  FlushInterval : Z;
  DefaultCollectionInterval : Z;
  SinkExportDataTimeout : Z;
  EnableDiscovery : bool;
  EnableEvents : bool;
  ClusterName : string;
  Sinks : list WavefrontSinkConfig;
  Sources : option SourceConfig;
  EventsConfig : EventsFilter;
  DiscoveryConf : DiscoveryConfig;
  OmitBucketSuffix : bool;
  Experimental : list string;
  cfg_ScrapeCluster : bool;
}.

Definition GetStringValue (value defaultValue : string) : string :=
  if negb (String.eqb value "") then value else defaultValue.
Definition GetDurationValue (value defaultValue : Z) : Z := if (value =? 0)%Z then defaultValue else value.

(** ** Loading (parser.go of both packages) *)

Section loading.
(** [yaml.UnmarshalStrict] into the configuration type. *)
Context {T : Type} (unmarshal : string -> result T).

Definition FromYAML (what : string) (contents : string) : result T :=
  match unmarshal contents with
  | Ok cfg => Ok cfg
  | Err e => Err ("unable to parse " +:+ what +:+ ": " +:+ e)%string
  end.

(** [read] is the content of the file, or the error of reading it. *)
Definition FromFile (what unable : string) (read : result string) : result T :=
  match read with
  | Err e => Err ("unable to load " +:+ unable +:+ ": " +:+ e)%string
  | Ok contents => FromYAML what contents
  end.

(** [Changed] of the listener: the configuration it hands to the handler. *)
Definition Changed (what unable : string) (read : result string) : option T :=
  match FromFile what unable read with Ok cfg => Some cfg | Err _ => None end.
End loading.

(** ** internal/flags *)

Record URL := MkURL {
  u_Scheme : string;
  u_Host : string;
  u_Path : string;
  u_Query : gmap string (list string);
}.
Definition url_zero : URL := MkURL "" "" "" ∅.
Record Uri := MkUri { Key_ : string; Val_ : URL }.

Section uris.
Context (url_String : URL -> string) (url_Parse : string -> result URL) (ExpandEnv : string -> string).

Definition Uri_String (u : Uri) : string :=
  let val := url_String (Val_ u) in
  if String.eqb val "" then Key_ u else (Key_ u +:+ ":" +:+ val)%string.

Definition Uri_Set (u : Uri) (value : string) : result Uri :=
  let '(key, rest) := split_first ":" value in
  if String.eqb key "" then Err ("missing uri key in '" +:+ value +:+ "'")%string
  else match rest with
       | Some s =>
           if String.eqb s "" then Ok (MkUri key (Val_ u))
           else uri ← url_Parse (ExpandEnv s); Ok (MkUri key uri)
       | None => Ok (MkUri key (Val_ u))
       end.

Definition Uris_String (us : list Uri) : string := ("[" +:+ join " " (map Uri_String us) +:+ "]")%string.

Definition Uris_Set (us : list Uri) (value : string) : result (list Uri) :=
  u ← Uri_Set (MkUri "" url_zero) value; Ok (us ++ [u]).
End uris.

Abbreviation query := (gmap string (list string)).
Definition vals_of (vals : query) (name : string) : list string := default [] (vals !! name).

Definition decode_tag_step (tags : gmap string string) (tag : string) : gmap string string :=
  match split_on ":" tag with [k; v] => <[k := v]> tags | _ => tags end.
Definition DecodeTags (vals : query) : gmap string string := foldl decode_tag_step ∅ (vals_of vals "tag").

Definition DecodeValue (vals : query) (name : string) : string := hd "" (vals_of vals name).

(** [strconv.ParseBool]. *)
Definition ParseBool (s : string) : option bool :=
  if bool_decide (s ∈ ["1"; "t"; "T"; "TRUE"; "true"; "True"]) then Some true
  else if bool_decide (s ∈ ["0"; "f"; "F"; "FALSE"; "false"; "False"]) then Some false
  else None.

Definition DecodeBoolean (vals : query) (name : string) : bool :=
  match vals_of vals name with
  | [] => false
  | v :: _ => default false (ParseBool v)
  end.

(** ** internal/options *)

Record CollectorRunOptions := MkOptions {
  o_daemon : bool;
  o_AgentType : AgentType;
  o_ConfigFile : string;
  o_MetricResolution : Z;
  o_Sources : list Uri;
  o_Sinks : list Uri;
  o_SinkExportDataTimeout : Z;
  o_EnableDiscovery : bool;
  o_EnableRuntimeConfigs : bool;
  o_DiscoveryConfigFile : string;
  o_InternalStatsPrefix : string;
}.

(** The defaults [Parse] registers. *)
Definition NewCollectorRunOptions : CollectorRunOptions :=
  MkOptions false AllAgentType "" (60 * second) [] [] (20 * second) true false "" "kubernetes.".

Definition DaemonAndAgentErr : string := "cannot set --daemon with --agent".

(** [changed] tells which flags were given. *)
Definition handleDaemonFlag (changed : string -> bool) (opts : CollectorRunOptions) : result CollectorRunOptions :=
  if changed "daemon" && changed "agent" then Err DaemonAndAgentErr
  else if changed "daemon" then
    Ok (MkOptions (o_daemon opts) (if o_daemon opts then LegacyAgentType else AllAgentType) (o_ConfigFile opts)
          (o_MetricResolution opts) (o_Sources opts) (o_Sinks opts) (o_SinkExportDataTimeout opts)
          (o_EnableDiscovery opts) (o_EnableRuntimeConfigs opts) (o_DiscoveryConfigFile opts)
          (o_InternalStatsPrefix opts))
  else Ok opts.

(** *** adapter.go: deprecated flags to a configuration *)

Definition with_sources (f : SourceConfig -> SourceConfig) (cfg : CollectorConfig) : CollectorConfig :=
  MkCollector (FlushInterval cfg) (DefaultCollectionInterval cfg) (SinkExportDataTimeout cfg) (EnableDiscovery cfg)
    (EnableEvents cfg) (ClusterName cfg) (Sinks cfg) (f <$> Sources cfg) (EventsConfig cfg) (DiscoveryConf cfg)
    (OmitBucketSuffix cfg) (Experimental cfg) (cfg_ScrapeCluster cfg).
Definition with_sinks (sinks : list WavefrontSinkConfig) (cfg : CollectorConfig) : CollectorConfig :=
  MkCollector (FlushInterval cfg) (DefaultCollectionInterval cfg) (SinkExportDataTimeout cfg) (EnableDiscovery cfg)
    (EnableEvents cfg) (ClusterName cfg) sinks (Sources cfg) (EventsConfig cfg) (DiscoveryConf cfg)
    (OmitBucketSuffix cfg) (Experimental cfg) (cfg_ScrapeCluster cfg).
Definition with_cluster (name : string) (cfg : CollectorConfig) : CollectorConfig :=
  MkCollector (FlushInterval cfg) (DefaultCollectionInterval cfg) (SinkExportDataTimeout cfg) (EnableDiscovery cfg)
    (EnableEvents cfg) name (Sinks cfg) (Sources cfg) (EventsConfig cfg) (DiscoveryConf cfg)
    (OmitBucketSuffix cfg) (Experimental cfg) (cfg_ScrapeCluster cfg).
Definition with_discovery (d : DiscoveryConfig) (cfg : CollectorConfig) : CollectorConfig :=
  MkCollector (FlushInterval cfg) (DefaultCollectionInterval cfg) (SinkExportDataTimeout cfg) (EnableDiscovery cfg)
    (EnableEvents cfg) (ClusterName cfg) (Sinks cfg) (Sources cfg) (EventsConfig cfg) d
    (OmitBucketSuffix cfg) (Experimental cfg) (cfg_ScrapeCluster cfg).

Definition events_zero : EventsFilter := MkEventsFilter ∅ ∅ [] [] ∅ ∅ [] [].

Definition getTransforms (vals : query) : Transforms :=
  MkTransforms (DecodeValue vals "source") (DecodeValue vals "prefix") (DecodeTags vals) (FromQuery vals).

(** The source that each flag describes. *)
Definition summarySource (uri : Uri) : SummarySourceConfig :=
  let vals := u_Query (Val_ uri) in
  let u := Val_ uri in
  MkSummary (getTransforms vals) collection_zero
    (if negb (String.eqb (u_Scheme u) "") then (u_Scheme u +:+ "://" +:+ u_Host u +:+ u_Path u)%string else "")
    (DecodeValue vals "kubeletPort") (DecodeValue vals "kubeletHttps") (DecodeValue vals "inClusterConfig")
    (DecodeValue vals "useServiceAccount") (DecodeValue vals "insecure") (DecodeValue vals "auth").
Definition addSummarySource (cfg : CollectorConfig) (uri : Uri) : CollectorConfig :=
  with_sources (fun s => MkSources (Some (summarySource uri)) (CadvisorConfig s) (ControlPlaneConfig s) (PrometheusConfigs s)
    (TelegrafConfigs s) (SystemdConfig s) (StatsConfig s) (StateConfig s)) cfg.

Definition addStateSource (cfg : CollectorConfig) (uri : Uri) : CollectorConfig :=
  let state := MkState (getTransforms (u_Query (Val_ uri))) collection_zero false in
  with_sources (fun s => MkSources (SummaryConfig s) (CadvisorConfig s) (ControlPlaneConfig s) (PrometheusConfigs s)
    (TelegrafConfigs s) (SystemdConfig s) (StatsConfig s) (Some state)) cfg.

Definition prometheusSource (uri : Uri) : PrometheusSourceConfig :=
  let vals := u_Query (Val_ uri) in
  MkPromSource (getTransforms vals) collection_zero (DecodeValue vals "url") client_zero "" "" false.
Definition addPrometheusSource (cfg : CollectorConfig) (uri : Uri) : CollectorConfig :=
  with_sources (fun s => MkSources (SummaryConfig s) (CadvisorConfig s) (ControlPlaneConfig s)
    (PrometheusConfigs s ++ [prometheusSource uri]) (TelegrafConfigs s) (SystemdConfig s) (StatsConfig s) (StateConfig s)) cfg.

Definition addCadvisorSource (cfg : CollectorConfig) (uri : Uri) : CollectorConfig :=
  let cadvisor := MkCadvisor (getTransforms (u_Query (Val_ uri))) collection_zero in
  with_sources (fun s => MkSources (SummaryConfig s) (Some cadvisor) (ControlPlaneConfig s) (PrometheusConfigs s)
    (TelegrafConfigs s) (SystemdConfig s) (StatsConfig s) (StateConfig s)) cfg.

Definition telegrafSource (uri : Uri) : TelegrafSourceConfig :=
  let vals := u_Query (Val_ uri) in
  let plugins := DecodeValue vals "plugins" in
  MkTelegraf (getTransforms vals) collection_zero
    (if negb (String.eqb plugins "") then split_on "," plugins else []) "" "" "" false.
Definition addTelegrafSource (cfg : CollectorConfig) (uri : Uri) : CollectorConfig :=
  with_sources (fun s => MkSources (SummaryConfig s) (CadvisorConfig s) (ControlPlaneConfig s) (PrometheusConfigs s)
    (TelegrafConfigs s ++ [telegrafSource uri]) (SystemdConfig s) (StatsConfig s) (StateConfig s)) cfg.

Definition addSystemdSource (cfg : CollectorConfig) (uri : Uri) : CollectorConfig :=
  let vals := u_Query (Val_ uri) in
  let systemd := MkSystemd (getTransforms vals) collection_zero (DecodeBoolean vals "taskMetrics")
    (DecodeBoolean vals "startTimeMetrics") (DecodeBoolean vals "restartMetrics")
    (vals_of vals "unitWhitelist") (vals_of vals "unitBlacklist") in
  with_sources (fun s => MkSources (SummaryConfig s) (CadvisorConfig s) (ControlPlaneConfig s) (PrometheusConfigs s)
    (TelegrafConfigs s) (Some systemd) (StatsConfig s) (StateConfig s)) cfg.

Definition addInternalStatsSource (cfg : CollectorConfig) (prefix : string) : CollectorConfig :=
  let stats := MkStats (MkTransforms "" prefix ∅ Config.zero) collection_zero in
  with_sources (fun s => MkSources (SummaryConfig s) (CadvisorConfig s) (ControlPlaneConfig s) (PrometheusConfigs s)
    (TelegrafConfigs s) (SystemdConfig s) (Some stats) (StateConfig s)) cfg.

(** What [addSources] does with one flag; [None] is the early return. *)
Definition addSource (cfg : CollectorConfig) (src : Uri) : option CollectorConfig :=
  if String.eqb (Key_ src) "kubernetes.summary_api" then Some (addSummarySource cfg src)
  else if String.eqb (Key_ src) "kubernetes.state" then Some (addStateSource cfg src)
  else if String.eqb (Key_ src) "prometheus" then Some (addPrometheusSource cfg src)
  else if String.eqb (Key_ src) "kubernetes.cadvisor" then Some (addCadvisorSource cfg src)
  else if String.eqb (Key_ src) "telegraf" then Some (addTelegrafSource cfg src)
  else if String.eqb (Key_ src) "systemd" then Some (addSystemdSource cfg src)
  else None.

Fixpoint add_sources (cfg : CollectorConfig) (sources : list Uri) : CollectorConfig :=
  match sources with
  | [] => cfg
  | src :: rest => match addSource cfg src with Some cfg' => add_sources cfg' rest | None => cfg end
  end.
Definition addSources (cfg : CollectorConfig) (sources : list Uri) : CollectorConfig :=
  add_sources (MkCollector (FlushInterval cfg) (DefaultCollectionInterval cfg) (SinkExportDataTimeout cfg)
    (EnableDiscovery cfg) (EnableEvents cfg) (ClusterName cfg) (Sinks cfg) (Some sources_zero) (EventsConfig cfg)
    (DiscoveryConf cfg) (OmitBucketSuffix cfg) (Experimental cfg) (cfg_ScrapeCluster cfg)) sources.

Definition wavefrontSinkOf (uri : Uri) : WavefrontSinkConfig :=
  let vals := u_Query (Val_ uri) in
  MkSinkConfig (getTransforms vals) (DecodeValue vals "server") (DecodeValue vals "token") 0 0
    (DecodeValue vals "proxyAddress") false (DecodeValue vals "clusterName") f64_zero "" false.
Definition addWavefrontSink (cfg : CollectorConfig) (uri : Uri) : CollectorConfig :=
  with_sinks (Sinks cfg ++ [wavefrontSinkOf uri]) cfg.

Fixpoint addSinks (cfg : CollectorConfig) (sinks : list Uri) : CollectorConfig :=
  match sinks with
  | [] => cfg
  | sink :: rest => if String.eqb (Key_ sink) "wavefront" then addSinks (addWavefrontSink cfg sink) rest else cfg
  end.

Definition with_prefix (prefix : string) (t : Transforms) : Transforms :=
  MkTransforms (tr_Source t) prefix (tr_Tags t) (tr_Filters t).
Definition sink_transforms (t : Transforms) (s : WavefrontSinkConfig) : WavefrontSinkConfig :=
  MkSinkConfig t (sk_Server s) (sk_Token s) (sk_BatchSize s) (sk_MaxBufferSize s) (sk_ProxyAddress s) (sk_TestMode s)
    (sk_ClusterName s) (sk_Version s) (sk_InternalStatsPrefix s) (sk_EventsEnabled s).
Definition summary_prefix (prefix : string) (s : SummarySourceConfig) : SummarySourceConfig :=
  MkSummary (with_prefix prefix (su_Transforms s)) (su_Collection s) (su_URL s) (su_KubeletPort s) (su_KubeletHttps s)
    (su_InClusterConfig s) (su_UseServiceAccount s) (su_Insecure s) (su_Auth s).

(** The prefix of the first sink moves to the summary source. *)
Definition extractSinkProperties (cfg : CollectorConfig) : outcome CollectorConfig :=
  match Sinks cfg with
  | [] => Fatal "no sink configured"
  | sink :: rest =>
      let prefix := tr_Prefix (sk_Transforms sink) in
      cfg' ← (if negb (String.eqb prefix "") then
                src ← deref_ptr (Sources cfg);
                summary ← deref_ptr (SummaryConfig src);
                mret (with_sources (fun s => MkSources (Some (summary_prefix prefix summary)) (CadvisorConfig s)
                  (ControlPlaneConfig s) (PrometheusConfigs s) (TelegrafConfigs s) (SystemdConfig s) (StatsConfig s)
                  (StateConfig s)) (with_sinks (sink_transforms (with_prefix "" (sk_Transforms sink)) sink :: rest) cfg))
              else mret cfg);
      mret (with_cluster (sk_ClusterName sink) cfg')
  end.

(** [read] is the content of the discovery file, [unmarshal] the decoder. *)
Definition loadDiscoveryFileOrDie (unmarshal : string -> result DiscoveryConfig) (read : result string)
    : outcome (list Rule) :=
  match FromFile unmarshal "discovery config" "discovery config file" read with
  | Err e => Fatal ("error loading discovery configuration: " +:+ e)%string
  | Ok cfg => Done (dc_PluginConfigs (ConvertPromToPlugin cfg))
  end.

Definition Convert (unmarshal : string -> result DiscoveryConfig) (read : string -> result string)
    (opts : CollectorRunOptions) : outcome (result CollectorConfig) :=
  let cfg := MkCollector (o_MetricResolution opts) (o_MetricResolution opts) (o_SinkExportDataTimeout opts)
    (o_EnableDiscovery opts) false "" [] None events_zero discovery_zero false [] (ScrapeCluster (o_AgentType opts)) in
  if nil_list (o_Sources opts) then Done (Err "missing sources")
  else if nil_list (o_Sinks opts) then Done (Err "missing sink")
  else
    let cfg := addInternalStatsSource (addSinks (addSources cfg (o_Sources opts)) (o_Sinks opts))
                 (o_InternalStatsPrefix opts) in
    cfg ← extractSinkProperties cfg;
    if o_EnableDiscovery opts then
      let d := DiscoveryConf cfg in
      let interval := if (dc_DiscoveryInterval d =? 0)%Z then (5 * minute)%Z else dc_DiscoveryInterval d in
      plugins ← (if negb (String.eqb (o_DiscoveryConfigFile opts) "")
                 then loadDiscoveryFileOrDie unmarshal (read (o_DiscoveryConfigFile opts))
                 else mret (dc_PluginConfigs d));
      Done (Ok (with_discovery (MkDiscovery interval (dc_AnnotationPrefix d) (dc_AnnotationExcludes d)
        (o_EnableRuntimeConfigs opts) (dc_DisableAnnotationDiscovery d) plugins (dc_PromConfigs d)) cfg))
    else Done (Ok cfg).

(** ** Lemmas *)

Fixpoint take_while {A} (p : A -> bool) (l : list A) : list A :=
  match l with [] => [] | a :: l' => if p a then a :: take_while p l' else [] end.

Definition is_key (k : string) (u : Uri) : bool := String.eqb (Key_ u) k.
Definition is_source (u : Uri) : bool :=
  is_key "kubernetes.summary_api" u || is_key "kubernetes.state" u || is_key "prometheus" u
  || is_key "kubernetes.cadvisor" u || is_key "telegraf" u || is_key "systemd" u.

(** The flags before the first one with an unknown key. *)
Definition accepted_sources (opts : CollectorRunOptions) : list Uri := take_while is_source (o_Sources opts).
Definition accepted_sinks (opts : CollectorRunOptions) : list Uri := take_while (is_key "wavefront") (o_Sinks opts).

Definition last_or {A} (l : list A) (o : option A) : option A := match last l with Some a => Some a | None => o end.

Lemma last_or_app {A} (l1 l2 : list A) o : last_or (l1 ++ l2) o = last_or l2 (last_or l1 o).
Proof. unfold last_or. rewrite last_app. by destruct (last l2). Qed.

(** The parts of the sources that the accepted flags set. *)
Record sources_of (l : list Uri) (s s' : SourceConfig) : Prop := {
  so_summary : SummaryConfig s' =
    last_or (map summarySource (List.filter (is_key "kubernetes.summary_api") l)) (SummaryConfig s);
  so_prometheus : PrometheusConfigs s' =
    PrometheusConfigs s ++ map prometheusSource (List.filter (is_key "prometheus") l);
  so_telegraf : TelegrafConfigs s' = TelegrafConfigs s ++ map telegrafSource (List.filter (is_key "telegraf") l);
}.

Lemma add_sources_spec l cfg s :
  Sources cfg = Some s ->
  exists s', add_sources cfg l = with_sources (fun _ => s') cfg /\ sources_of (take_while is_source l) s s'.
Proof.
  revert cfg s; induction l as [|u l IH]; intros cfg s Hs.
  { exists s. split; [|by constructor; cbn; rewrite ?app_nil_r].
    destruct cfg; cbn in *. by rewrite Hs. }
  cbn [add_sources take_while].
  assert (Hgo : forall cfg' s0, addSource cfg u = Some cfg' -> Sources cfg' = Some s0 -> 
    with_sources (fun _ => s0) cfg = cfg' -> is_source u = true -> sources_of [u] s s0 ->
    exists s', (match addSource cfg u with Some c => add_sources c l | None => cfg end) = with_sources (fun _ => s') cfg /\
      sources_of (if is_source u then u :: take_while is_source l else []) s s').
  { intros cfg' s0 -> H0 <- -> [A1 A2 A3]. edestruct IH as (s' & -> & [H1 H2 H3]); [exact H0|]. exists s'.
    split; [unfold with_sources; cbn; by rewrite Hs|].
    change (u :: take_while is_source l) with ([u] ++ take_while is_source l).
    constructor; rewrite List.filter_app, map_app; rewrite ?H1, ?H2, ?H3, ?A1, ?A2, ?A3, <- ?app_assoc; try done.
    by rewrite last_or_app. }
  destruct (addSource cfg u) as [cfg'|] eqn:E0.
  - pose proof E0 as E1. revert E1. unfold addSource.
    repeat match goal with |- context [String.eqb (Key_ u) ?k] => destruct (String.eqb_spec (Key_ u) k) as [E|?] end;
    intros [= <-].
    all: eapply Hgo; [done|cbn; by rewrite Hs|destruct cfg; cbn in Hs; by subst| |].
    all: try (unfold is_source, is_key; by rewrite E).
    all: constructor; unfold is_key; cbn [List.filter]; rewrite E; cbn; by rewrite ?app_nil_r.
  - assert (is_source u = false) as ->.
    { revert E0. unfold addSource, is_source, is_key.
      repeat match goal with |- context [String.eqb (Key_ u) ?k] => destruct (String.eqb (Key_ u) k); [done|] end. done. }
    exists s. split; [destruct cfg; cbn in *; by rewrite Hs|by constructor; cbn; rewrite ?app_nil_r].
Qed.

Lemma addSinks_spec l cfg :
  addSinks cfg l = with_sinks (Sinks cfg ++ map wavefrontSinkOf (take_while (is_key "wavefront") l)) cfg.
Proof.
  revert cfg; induction l as [|u l IH]; intros cfg; cbn.
  { rewrite app_nil_r. by destruct cfg. }
  unfold is_key at 1. destruct (String.eqb (Key_ u) "wavefront").
  - rewrite IH. cbn. by rewrite <- app_assoc.
  - cbn. rewrite app_nil_r. by destruct cfg.
Qed.

(** The summary source that the accepted flags set, and the prefix of the
    first sink. *)
Definition flag_summary (opts : CollectorRunOptions) : option SummarySourceConfig :=
  last (map summarySource (List.filter (is_key "kubernetes.summary_api") (accepted_sources opts))).
Definition flag_prefix (sink : Uri) : string := DecodeValue (u_Query (Val_ sink)) "prefix".

(** ** Properties *)


Definition sample_uri (k : string) (q : query) : Uri := MkUri k (MkURL "" "" "" q).
Definition sample_options (sources : list Uri) : CollectorRunOptions :=
  MkOptions false AllAgentType "" (60 * second) sources [sample_uri "wavefront" {["prefix" := ["kubernetes."]]}] (20 * second)
    true false "" "kubernetes.".

