(* ===== verification/KState.v ===== *)
(** The Kubernetes state source: plugins/sources/kstate.

    The informers keep the cluster's objects up to date; what a store lists is
    an argument ([store], the objects of a resource, in some order).  An item
    of a store is a Go interface value, [item], whose dynamic type is the
    constructor.  The points of one object share one tag map, so the tag maps
    live in the heap of Wf.v. *)

From Stdlib Require Import ZArith Lia.
From S2P Require Import Prelude GoFloat Filters Metrics Wf PointGroups Util Leadership Discovery Configuration.

(** ** Kubernetes objects (the fields the source reads) *)

Record ObjectMeta := MkMeta { om_Name : string; om_Namespace : string; om_Labels : gmap string string }.

Record Job := MkJob {
  jb_meta : ObjectMeta; jb_Completions : option Z; jb_Parallelism : option Z;
  jb_Active : Z; jb_Failed : Z; jb_Succeeded : Z }.
(** [cj_Active] is the number of references in [Status.Active]. *)
Record CronJob := MkCronJob { cj_meta : ObjectMeta; cj_Active : Z }.
Record DaemonSet := MkDaemonSet {
  ds_meta : ObjectMeta; ds_CurrentNumberScheduled : Z; ds_DesiredNumberScheduled : Z;
  ds_NumberMisscheduled : Z; ds_NumberReady : Z }.
(** Deployments, replica sets and replication controllers have these fields. *)
Record Replicated := MkReplicated {
  rp_meta : ObjectMeta; rp_Replicas : option Z; rp_AvailableReplicas : Z; rp_ReadyReplicas : Z }.
Record StatefulSet := MkStatefulSet {
  sf_meta : ObjectMeta; sf_Replicas : option Z; sf_ReadyReplicas : Z; sf_CurrentReplicas : Z; sf_UpdatedReplicas : Z }.
Record HorizontalPodAutoscaler := MkHPA {
  ha_meta : ObjectMeta; ha_MaxReplicas : Z; ha_MinReplicas : option Z; ha_CurrentReplicas : Z; ha_DesiredReplicas : Z }.

Record Taint := MkTaint { tn_Key : string; tn_Value : string; tn_Effect : string }.
(** A node: the fields of Util.v and those this source reads besides. *)
Record KNode := MkKNode {
  kn_node : Node; kn_Taints : list Taint; kn_ProviderID : string; kn_PodCIDR : string;
  kn_KernelVersion : string; kn_OSImage : string; kn_ContainerRuntimeVersion : string;
  kn_KubeletVersion : string; kn_KubeProxyVersion : string }.

Record PodCondition := MkPodCondition { pc_Type : string; pc_Status : string; pc_Reason : string; pc_Message : string }.
Record KContainerStatus := MkKStatus { kst_Name : string; kst_Image : string; kst_State : ContainerState }.
Record KPod := MkKPod {
  kp_meta : ObjectMeta; kp_UID : string; kp_NodeName : string; kp_Phase : string;
  kp_Conditions : list PodCondition; kp_ContainerStatuses : list KContainerStatus }.

(** The dynamic types of the objects in the stores. *)
Inductive item :=
  | ItJob (j : Job)
  | ItCronJob (j : CronJob)
  | ItDaemonSet (d : DaemonSet)
  | ItDeployment (d : Replicated)
  | ItReplicaSet (r : Replicated)
  | ItReplicationController (r : Replicated)
  | ItStatefulSet (s : StatefulSet)
  | ItHPA_v2beta1 (h : HorizontalPodAutoscaler)
  | ItHPA_v2beta2 (h : HorizontalPodAutoscaler)
  | ItNode (n : KNode)
  | ItPod (p : KPod).

(** ** helper.go *)

Definition buildTags (key name ns : string) (srcTags : tagmap) : tagmap :=
  let tags := {[key := name]} in
  let tags := if negb (String.eqb ns "") then <["namespace_name" := ns]> tags else tags in
  copy_into tags srcTags.

Definition nonempty (s : string) : bool := negb (String.eqb s "").

(** The visits of a map's range loop write distinct keys, so their order does
    not matter; the loops use the canonical one. *)
Definition copyLabels (src out : tagmap) : tagmap :=
  foldl (fun out '(key, value) =>
    if nonempty key && nonempty value then <[("label." +:+ key)%string := value]> out else out) out (map_to_list src).
Definition copyTags (src out : tagmap) : tagmap :=
  foldl (fun out '(key, value) => if nonempty key && nonempty value then <[key := value]> out else out) out (map_to_list src).

Definition floatVal (i : option Z) (f : f64) : f64 := match i with Some i => f64_of_Z i | None => f end.

Definition f64_minus_one : f64 := f64_of_Z (-1).

(** ** The points of an object

    A handler is given the transforms of the source, its time in seconds and
    an item; a wrong dynamic type is logged and yields nothing. *)

Section handlers.
Context (transforms : Transforms) (now : Z).

Definition metricPoint (name : string) (value : f64) (tags : positive) : wfmetric :=
  MPoint (NewPoint (tr_Prefix transforms +:+ name) value now (tr_Source transforms) (Some tags)).

(** A new tag map and one point per name and value. *)
Definition points_with (h : heap) (tags : tagmap) (values : list (string * f64)) : heap * list wfmetric :=
  let '(h', l) := new_map h tags in (h', map (fun '(name, value) => metricPoint name value l) values).

Definition object_tags (key : string) (meta : ObjectMeta) : tagmap :=
  buildTags key (om_Name meta) (om_Namespace meta) (tr_Tags transforms).

Definition pointsForJob (h : heap) (it : item) : heap * list wfmetric :=
  match it with
  | ItJob job =>
      points_with h (object_tags "job" (jb_meta job))
        [("job.active", f64_of_Z (jb_Active job)); ("job.failed", f64_of_Z (jb_Failed job));
         ("job.succeeded", f64_of_Z (jb_Succeeded job)); ("job.completions", floatVal (jb_Completions job) f64_minus_one);
         ("job.parallelism", floatVal (jb_Parallelism job) f64_minus_one)]
  | _ => (h, [])
  end.

Definition pointsForCronJob (h : heap) (it : item) : heap * list wfmetric :=
  match it with
  | ItCronJob job => points_with h (object_tags "cronjob" (cj_meta job)) [("cronjob.active", f64_of_Z (cj_Active job))]
  | _ => (h, [])
  end.

Definition pointsForDaemonSet (h : heap) (it : item) : heap * list wfmetric :=
  match it with
  | ItDaemonSet ds =>
      points_with h (object_tags "daemonset" (ds_meta ds))
        [("daemonset.current_scheduled", f64_of_Z (ds_CurrentNumberScheduled ds));
         ("daemonset.desired_scheduled", f64_of_Z (ds_DesiredNumberScheduled ds));
         ("daemonset.misscheduled", f64_of_Z (ds_NumberMisscheduled ds));
         ("daemonset.ready", f64_of_Z (ds_NumberReady ds))]
  | _ => (h, [])
  end.

Definition pointsForDeployment (h : heap) (it : item) : heap * list wfmetric :=
  match it with
  | ItDeployment d =>
      points_with h (object_tags "deployment" (rp_meta d))
        [("deployment.desired_replicas", floatVal (rp_Replicas d) f64_one);
         ("deployment.available_replicas", f64_of_Z (rp_AvailableReplicas d));
         ("deployment.ready_replicas", f64_of_Z (rp_ReadyReplicas d))]
  | _ => (h, [])
  end.

Definition pointsForReplicaSet (h : heap) (it : item) : heap * list wfmetric :=
  match it with
  | ItReplicaSet rs =>
      points_with h (object_tags "replicaset" (rp_meta rs))
        [("replicaset.desired_replicas", floatVal (rp_Replicas rs) f64_one);
         ("replicaset.available_replicas", f64_of_Z (rp_AvailableReplicas rs));
         ("replicaset.ready_replicas", f64_of_Z (rp_ReadyReplicas rs))]
  | _ => (h, [])
  end.

Definition pointsForReplicationController (h : heap) (it : item) : heap * list wfmetric :=
  match it with
  | ItReplicationController rs =>
      points_with h (object_tags "replicationcontroller" (rp_meta rs))
        [("replicationcontroller.desired_replicas", floatVal (rp_Replicas rs) f64_one);
         ("replicationcontroller.available_replicas", f64_of_Z (rp_AvailableReplicas rs));
         ("replicationcontroller.ready_replicas", f64_of_Z (rp_ReadyReplicas rs))]
  | _ => (h, [])
  end.

Definition pointsForStatefulSet (h : heap) (it : item) : heap * list wfmetric :=
  match it with
  | ItStatefulSet ss =>
      points_with h (object_tags "statefulset" (sf_meta ss))
        [("statefulset.desired_replicas", floatVal (sf_Replicas ss) f64_one);
         ("statefulset.current_replicas", f64_of_Z (sf_CurrentReplicas ss));
         ("statefulset.ready_replicas", f64_of_Z (sf_ReadyReplicas ss));
         ("statefulset.updated_replicas", f64_of_Z (sf_UpdatedReplicas ss))]
  | _ => (h, [])
  end.

(** The type assertion is to [v2beta2]. *)
Definition pointsForHPA (h : heap) (it : item) : heap * list wfmetric :=
  match it with
  | ItHPA_v2beta2 hpa =>
      points_with h (object_tags "hpa" (ha_meta hpa))
        [("hpa.max_replicas", f64_of_Z (ha_MaxReplicas hpa));
         ("hpa.min_replicas", floatVal (ha_MinReplicas hpa) f64_one);
         ("hpa.current_replicas", f64_of_Z (ha_CurrentReplicas hpa));
         ("hpa.desired_replicas", f64_of_Z (ha_DesiredReplicas hpa))]
  | _ => (h, [])
  end.

(** *** nodes.go *)

Definition nodeConditionFloat64 (status : string) : f64 :=
  if String.eqb status "True" then f64_one
  else if String.eqb status "False" then f64_zero
  else f64_minus_one.

Definition node_tags (node : KNode) : tagmap :=
  copyLabels (node_Labels (kn_node node)) (buildTags "nodename" (node_Name (kn_node node)) "" (tr_Tags transforms)).

(** A loop that makes a map and points of each of a list of values. *)
Definition each {A} (h : heap) (l : list A) (step : heap -> A -> heap * list wfmetric) : heap * list wfmetric :=
  foldl (fun '(h, points) a => let '(h', new) := step h a in (h', points ++ new)) (h, []) l.

Definition condition_tags (node : KNode) (c : NodeCondition) : tagmap :=
  <[Key LabelNodeRole := GetNodeRole (kn_node node)]> (<["condition" := nc_Type c]> (<["status" := nc_Status c]>
    (node_tags node))).
Definition buildNodeConditions (h : heap) (node : KNode) : heap * list wfmetric :=
  each h (node_Conditions (kn_node node)) (fun h c =>
    points_with h (condition_tags node c) [("node.status.condition", nodeConditionFloat64 (nc_Status c))]).

Definition taint_tags (node : KNode) (t : Taint) : tagmap :=
  <["effect" := tn_Effect t]> (<["value" := tn_Value t]> (<["key" := tn_Key t]> (node_tags node))).
Definition buildNodeTaints (h : heap) (node : KNode) : heap * list wfmetric :=
  each h (kn_Taints node) (fun h t => points_with h (taint_tags node t) [("node.spec.taint", f64_one)]).

Definition info_tags (node : KNode) : tagmap :=
  let tags := <["node_role" := GetNodeRole (kn_node node)]> (<["pod_cidr" := kn_PodCIDR node]>
    (<["provider_id" := kn_ProviderID node]> (<["kubeproxy_version" := kn_KubeProxyVersion node]>
    (<["kubelet_version" := kn_KubeletVersion node]> (<["container_runtime_version" := kn_ContainerRuntimeVersion node]>
    (<["os_image" := kn_OSImage node]> (<["kernel_version" := kn_KernelVersion node]> (node_tags node)))))))) in
  foldl (fun tags a => if String.eqb (na_Type a) "InternalIP" then <["internal_ip" := na_Address a]> tags else tags)
    tags (node_Addresses (kn_node node)).
Definition buildNodeInfo (h : heap) (node : KNode) : heap * list wfmetric :=
  points_with h (info_tags node) [("node.info", f64_one)].

Definition pointsForNode (h : heap) (it : item) : heap * list wfmetric :=
  match it with
  | ItNode node =>
      let '(h1, points) := buildNodeConditions h node in
      let '(h2, taints) := buildNodeTaints h1 node in
      let '(h3, info) := buildNodeInfo h2 node in
      (h3, (points ++ taints) ++ info)
  | _ => (h, [])
  end.

(** *** non_running_pods.go *)

Definition maxPointTagLength : nat := 255 - String.length "=" - String.length "message".
Definition truncateMessage (message : string) : string :=
  if (maxPointTagLength <=? String.length message)%nat then String.substring 0 maxPointTagLength message else message.

Definition POD_PHASE_PENDING : Z := 1.
Definition POD_PHASE_FAILED : Z := 4.

(** One condition of a pending pod, and of a failed one. *)
Definition pending_step (tags : tagmap) (c : PodCondition) : tagmap :=
  if String.eqb (pc_Type c) "PodScheduled" && String.eqb (pc_Status c) "False" then
    <["message" := truncateMessage (pc_Message c)]> (<["reason" := pc_Reason c]> (<[Key LabelNodename := "none"]> tags))
  else if String.eqb (pc_Type c) "ContainersReady" && String.eqb (pc_Status c) "False" then
    <["message" := truncateMessage (pc_Message c)]> (<["reason" := pc_Reason c]> tags)
  else tags.
Definition failed_step (tags : tagmap) (c : PodCondition) : tagmap :=
  if String.eqb (pc_Type c) "Ready" then
    <["message" := truncateMessage (pc_Message c)]> (<["reason" := pc_Reason c]> tags)
  else tags.

(** The tags of the phase metric, before the shared tags are copied. *)
Definition phase_tags (pod : KPod) : tagmap :=
  let tags := <["phase" := kp_Phase pod]> (<[Key LabelPodId := kp_UID pod]>
    (<[Key LabelMetricSetType := MetricSetTypePod]> (object_tags "pod_name" (kp_meta pod)))) in
  let phaseValue := ConvertPodPhase (kp_Phase pod) in
  let tags := if (phaseValue =? POD_PHASE_PENDING)%Z then foldl pending_step tags (kp_Conditions pod) else tags in
  if (phaseValue =? POD_PHASE_FAILED)%Z then foldl failed_step tags (kp_Conditions pod) else tags.

(** [buildPodPhaseMetrics] also adds the node to the shared tags, which it
    returns here. *)
Definition shared_node (pod : KPod) (sharedTags : tagmap) : tagmap :=
  if nonempty (kp_NodeName pod) then <[Key LabelNodename := kp_NodeName pod]> sharedTags else sharedTags.
Definition buildPodPhaseMetrics (h : heap) (pod : KPod) (sharedTags : tagmap) : heap * list wfmetric * tagmap :=
  let sharedTags := shared_node pod sharedTags in
  let '(h', points) := points_with h (copyTags sharedTags (phase_tags pod))
    [("pod.status.phase", f64_of_Z (ConvertPodPhase (kp_Phase pod)))] in
  (h', points, sharedTags).

Definition status_tags (pod : KPod) (sharedTags : tagmap) (status : KContainerStatus) : tagmap :=
  AddMetricTags (NewContainerStateInfo (kst_State status))
    (copyTags sharedTags (<[Key LabelContainerBaseImage := kst_Image status]> (<[Key LabelContainerName := kst_Name status]>
      (<[Key LabelMetricSetType := MetricSetTypePodContainer]> (object_tags "pod_name" (kp_meta pod)))))).
Definition buildContainerStatusMetrics (h : heap) (pod : KPod) (sharedTags : tagmap) : heap * list wfmetric :=
  each h (kp_ContainerStatuses pod) (fun h status =>
    points_with h (status_tags pod sharedTags status)
      [("pod_container.status", f64_of_Z (csi_Value (NewContainerStateInfo (kst_State status))))]).

Definition pointsForNonRunningPods (h : heap) (it : item) : heap * list wfmetric :=
  match it with
  | ItPod pod =>
      let sharedTags := copyLabels (om_Labels (kp_meta pod)) ∅ in
      let '(h1, points, sharedTags) := buildPodPhaseMetrics h pod sharedTags in
      let '(h2, statuses) := buildContainerStatusMetrics h1 pod sharedTags in
      (h2, points ++ statuses)
  | _ => (h, [])
  end.

End handlers.

(** ** provider.go *)

Definition resourceHandler : Type := Transforms -> Z -> heap -> item -> heap * list wfmetric.
Definition funcs : list (string * resourceHandler) :=
  [("jobs", pointsForJob); ("cronjobs", pointsForCronJob); ("daemonsets", pointsForDaemonSet);
   ("deployments", pointsForDeployment); ("replicasets", pointsForReplicaSet);
   ("replicationcontrollers", pointsForReplicationController); ("statefulsets", pointsForStatefulSet);
   ("horizontalpodautoscalers", pointsForHPA); ("nodes", pointsForNode); ("pods", pointsForNonRunningPods)].

(** [List] is the lister's method: the items of a resource's store, or an
    error for a resource without an informer; [clock] is the time in seconds
    that is read when an item is handled. *)
Definition pointsForResource (transforms : Transforms) (clock : item -> Z) (List : string -> result (list item))
    (h : heap) (resType : string) : heap * list wfmetric :=
  match List resType with
  | Err _ => (h, [])
  | Ok [] => (h, [])
  | Ok items =>
      match (list_to_map funcs : gmap string resourceHandler) !! resType with
      | None => (h, [])
      | Some f => each h items (fun h it => f transforms (clock it) h it)
      end
  end.

(** ** lister.go *)

(** The dynamic type of an object. *)
Definition dynamic_type (it : item) : string :=
  match it with
  | ItJob _ => "*batchv1.Job"
  | ItCronJob _ => "*batchv1beta1.CronJob"
  | ItDaemonSet _ => "*appsv1.DaemonSet"
  | ItDeployment _ => "*appsv1.Deployment"
  | ItReplicaSet _ => "*appsv1.ReplicaSet"
  | ItReplicationController _ => "*v1.ReplicationController"
  | ItStatefulSet _ => "*appsv1.StatefulSet"
  | ItHPA_v2beta1 _ => "*v2beta1.HorizontalPodAutoscaler"
  | ItHPA_v2beta2 _ => "*v2beta2.HorizontalPodAutoscaler"
  | ItNode _ => "*v1.Node"
  | ItPod _ => "*v1.Pod"
  end.

(** [fields.OneTermNotEqualSelector], or everything. *)
Inductive pod_selector := AllObjects | NotEqual (field value : string).

(** The informers: resource, type of its objects, selector. *)
Definition buildInformers : gmap string (string * pod_selector) :=
  list_to_map
    [("daemonsets", ("*appsv1.DaemonSet", AllObjects)); ("deployments", ("*appsv1.Deployment", AllObjects));
     ("statefulsets", ("*appsv1.StatefulSet", AllObjects)); ("replicasets", ("*appsv1.ReplicaSet", AllObjects));
     ("jobs", ("*batchv1.Job", AllObjects)); ("cronjobs", ("*batchv1beta1.CronJob", AllObjects));
     ("horizontalpodautoscalers", ("*v2beta1.HorizontalPodAutoscaler", AllObjects));
     ("nodes", ("*v1.Node", AllObjects)); ("replicationcontrollers", ("*v1.ReplicationController", AllObjects));
     ("pods", ("*v1.Pod", NotEqual "status.phase" "Running"))].

(** [store] is what the informer of a resource holds. *)
Definition lister_List (store : string -> list item) (resource : string) : result (list item) :=
  match buildInformers !! resource with
  | Some _ => Ok (store resource)
  | None => Err ("unsupported resource type: " +:+ resource)%string
  end.

(** A store holds objects of the type its informer was built for. *)
Definition typed_store (store : string -> list item) : Prop :=
  forall r t sel it, buildInformers !! r = Some (t, sel) -> it ∈ store r -> dynamic_type it = t.

(** [Resume] and [Pause]: the stop channel of the informers. *)
Definition lister_Resume (c : handler_chan) : handler_chan := ChanOpen.
Definition lister_Pause (c : handler_chan) : option handler_chan :=
  match c with
  | ChanNil => Some ChanNil
  | ChanOpen => Some ChanClosed
  | ChanClosed => None
  end.

(** ** provider.go: the source and its provider *)

Definition getDefault (val defaultVal : string) : string := if String.eqb val "" then defaultVal else val.

(** The transforms of a new source. *)
Definition NewStateMetricsSource (e : env) (transforms : Transforms) : Transforms :=
  MkTransforms (getDefault (GetNodeName e) (tr_Source transforms)) (getDefault (tr_Prefix transforms) "kubernetes.")
    (tr_Tags transforms) (tr_Filters transforms).

Section scrape.
Context {F : Type} `{!MetricFilter F} (filters : option F).

(** [Scrape]: [order] is the order in which the handlers are visited.  The result is the heap, the points, and the
    increments of the counters of collected and of filtered points. *)
Definition Scrape (transforms : Transforms) (clock : item -> Z) (store : string -> list item) (order : list string) (h : heap)
    : heap * list wfmetric * (Z * Z) :=
  let '(h', points, fps) :=
    foldl (scrape_step filters (pointsForResource transforms clock (lister_List store))) (h, [], 0%Z) order in
  (h', points, (Z.of_nat (length points), fps)).
End scrape.

Section provider.
Context {S : Type}.
(** [GetMetricsSources] of the provider. *)
Definition GetMetricsSources (a : AgentType) (st : election) (sources : list S) : list S :=
  if Leading a st then sources else [].

(** [mk] builds the source of a lister. *)
Definition NewStateProvider (a : AgentType) (e : env) (mk : Transforms -> S) (cfg : KubernetesStateSourceConfig)
    : result (list S) :=
  if negb (ScrapeCluster a) then Ok []
  else if negb (ks_KubeClient cfg) then Err "kubeclient not initialized"
  else Ok [mk (NewStateMetricsSource e (ks_Transforms cfg))].
End provider.

(** ** What an object is reported as *)

Section expected.
Context (transforms : Transforms) (now : Z).

Definition protos (values : list (string * f64)) : list proto :=
  map (fun '(name, value) => MkProto (tr_Prefix transforms +:+ name) value now (tr_Source transforms)) values.
Definition one_group (tags : tagmap) (values : list (string * f64)) : group := MkGroup (Some tags) (protos values).

(** The key of the name tag, the object and the values of a workload. *)
Definition workload (it : item) : option (string * ObjectMeta * list (string * f64)) :=
  match it with
  | ItJob j => Some ("job", jb_meta j,
      [("job.active", f64_of_Z (jb_Active j)); ("job.failed", f64_of_Z (jb_Failed j));
       ("job.succeeded", f64_of_Z (jb_Succeeded j)); ("job.completions", floatVal (jb_Completions j) f64_minus_one);
       ("job.parallelism", floatVal (jb_Parallelism j) f64_minus_one)])
  | ItCronJob j => Some ("cronjob", cj_meta j, [("cronjob.active", f64_of_Z (cj_Active j))])
  | ItDaemonSet d => Some ("daemonset", ds_meta d,
      [("daemonset.current_scheduled", f64_of_Z (ds_CurrentNumberScheduled d));
       ("daemonset.desired_scheduled", f64_of_Z (ds_DesiredNumberScheduled d));
       ("daemonset.misscheduled", f64_of_Z (ds_NumberMisscheduled d)); ("daemonset.ready", f64_of_Z (ds_NumberReady d))])
  | ItDeployment d => Some ("deployment", rp_meta d,
      [("deployment.desired_replicas", floatVal (rp_Replicas d) f64_one);
       ("deployment.available_replicas", f64_of_Z (rp_AvailableReplicas d));
       ("deployment.ready_replicas", f64_of_Z (rp_ReadyReplicas d))])
  | ItReplicaSet r => Some ("replicaset", rp_meta r,
      [("replicaset.desired_replicas", floatVal (rp_Replicas r) f64_one);
       ("replicaset.available_replicas", f64_of_Z (rp_AvailableReplicas r));
       ("replicaset.ready_replicas", f64_of_Z (rp_ReadyReplicas r))])
  | ItReplicationController r => Some ("replicationcontroller", rp_meta r,
      [("replicationcontroller.desired_replicas", floatVal (rp_Replicas r) f64_one);
       ("replicationcontroller.available_replicas", f64_of_Z (rp_AvailableReplicas r));
       ("replicationcontroller.ready_replicas", f64_of_Z (rp_ReadyReplicas r))])
  | ItStatefulSet s => Some ("statefulset", sf_meta s,
      [("statefulset.desired_replicas", floatVal (sf_Replicas s) f64_one);
       ("statefulset.current_replicas", f64_of_Z (sf_CurrentReplicas s));
       ("statefulset.ready_replicas", f64_of_Z (sf_ReadyReplicas s));
       ("statefulset.updated_replicas", f64_of_Z (sf_UpdatedReplicas s))])
  | ItHPA_v2beta2 a => Some ("hpa", ha_meta a,
      [("hpa.max_replicas", f64_of_Z (ha_MaxReplicas a)); ("hpa.min_replicas", floatVal (ha_MinReplicas a) f64_one);
       ("hpa.current_replicas", f64_of_Z (ha_CurrentReplicas a));
       ("hpa.desired_replicas", f64_of_Z (ha_DesiredReplicas a))])
  | _ => None
  end.

Definition node_groups (n : KNode) : list group :=
  map (fun c => one_group (condition_tags transforms n c) [("node.status.condition", nodeConditionFloat64 (nc_Status c))])
    (node_Conditions (kn_node n)) ++
  map (fun t => one_group (taint_tags transforms n t) [("node.spec.taint", f64_one)]) (kn_Taints n) ++
  [one_group (info_tags transforms n) [("node.info", f64_one)]].

Definition pod_groups (p : KPod) : list group :=
  let shared := shared_node p (copyLabels (om_Labels (kp_meta p)) ∅) in
  one_group (copyTags shared (phase_tags transforms p)) [("pod.status.phase", f64_of_Z (ConvertPodPhase (kp_Phase p)))] ::
  map (fun s => one_group (status_tags transforms p shared s)
         [("pod_container.status", f64_of_Z (csi_Value (NewContainerStateInfo (kst_State s))))]) (kp_ContainerStatuses p).

Definition object_groups (it : item) : list group :=
  match it with
  | ItNode n => node_groups n
  | ItPod p => pod_groups p
  | _ => match workload it with
         | Some (key, meta, values) => [one_group (object_tags transforms key meta) values]
         | None => []
         end
  end.
End expected.

(** The type that the handler of a resource asserts. *)
Definition handled_type : gmap string string :=
  list_to_map
    [("jobs", "*batchv1.Job"); ("cronjobs", "*batchv1beta1.CronJob"); ("daemonsets", "*appsv1.DaemonSet");
     ("deployments", "*appsv1.Deployment"); ("replicasets", "*appsv1.ReplicaSet");
     ("replicationcontrollers", "*v1.ReplicationController"); ("statefulsets", "*appsv1.StatefulSet");
     ("horizontalpodautoscalers", "*v2beta2.HorizontalPodAutoscaler"); ("nodes", "*v1.Node"); ("pods", "*v1.Pod")].

(** What a scrape reports of an item of the store of [r]. *)
Definition resource_groups (transforms : Transforms) (now : Z) (r : string) (it : item) : list group :=
  if bool_decide (handled_type !! r = Some (dynamic_type it)) then object_groups transforms now it else [].

(** ** Lemmas *)

Section building.
Context (transforms : Transforms).
Implicit Types (h : heap).

Lemma points_with_builds now h tags values :
  builds h (points_with transforms now h tags values) [one_group transforms now tags values].
Proof.
  pose proof (builds_new h tags (protos transforms now values)) as H. unfold points_with, new_map in *.
  unfold protos in H. rewrite map_map in H. unfold one_group, protos.
  erewrite map_ext; [exact H|]. by intros [name value].
Qed.

Lemma each_builds {A} (step : heap -> A -> heap * list wfmetric) (gs : A -> list group) l h :
  (forall h a, builds h (step h a) (gs a)) -> builds h (each h l step) (l ≫= gs).
Proof.
  intros Hs. destruct (builds_loop step gs l h [] Hs) as (new & E & H). unfold each. cbn [app] in E.
  destruct (foldl _ _ _) as [h' pts]. cbn in *. by subst.
Qed.

Lemma each_builds_one {A} (step : heap -> A -> heap * list wfmetric) (g : A -> group) l h :
  (forall h a, builds h (step h a) [g a]) -> builds h (each h l step) (map g l).
Proof.
  intros Hs. pose proof (each_builds step (fun a => [g a]) l h Hs) as H.
  assert ((l ≫= fun a => [g a]) = map g l) as <-; [|done]. clear. induction l as [|a l IH]; cbn; [done|by f_equal].
Qed.

Lemma node_builds now h n : builds h (pointsForNode transforms now h (ItNode n)) (node_groups transforms now n).
Proof.
  unfold pointsForNode, node_groups. rewrite (app_assoc (map _ _)).
  pose proof (each_builds_one (fun h c => points_with transforms now h (condition_tags transforms n c)
    [("node.status.condition", nodeConditionFloat64 (nc_Status c))]) _ (node_Conditions (kn_node n)) h
    (fun h a => points_with_builds now h _ _)) as H1.
  unfold buildNodeConditions. destruct (each h _ _) as [h1 p1].
  pose proof (each_builds_one (fun h t => points_with transforms now h (taint_tags transforms n t)
    [("node.spec.taint", f64_one)]) _ (kn_Taints n) h1 (fun h a => points_with_builds now h _ _)) as H2.
  unfold buildNodeTaints. destruct (each h1 _ _) as [h2 p2].
  pose proof (points_with_builds now h2 (info_tags transforms n) [("node.info", f64_one)]) as H3.
  unfold buildNodeInfo. destruct (points_with _ _ h2 _ _) as [h3 p3].
  apply (builds_app h h2 (p1 ++ p2) (_ ++ _) h3 p3); [by apply (builds_app h h1 p1 _ h2 p2)|done].
Qed.

Lemma pod_builds now h p : builds h (pointsForNonRunningPods transforms now h (ItPod p)) (pod_groups transforms now p).
Proof.
  unfold pointsForNonRunningPods, pod_groups, buildPodPhaseMetrics. set (shared := shared_node p _).
  pose proof (points_with_builds now h (copyTags shared (phase_tags transforms p))
    [("pod.status.phase", f64_of_Z (ConvertPodPhase (kp_Phase p)))]) as H1.
  destruct (points_with _ _ h _ _) as [h1 p1].
  pose proof (each_builds_one (fun h s => points_with transforms now h (status_tags transforms p shared s)
    [("pod_container.status", f64_of_Z (csi_Value (NewContainerStateInfo (kst_State s))))]) _
    (kp_ContainerStatuses p) h1 (fun h a => points_with_builds now h _ _)) as H2.
  unfold buildContainerStatusMetrics. destruct (each h1 _ _) as [h2 p2].
  by apply (builds_app h h1 p1 [_] h2 p2).
Qed.

(** The handler of a resource, on every item. *)
Lemma handler_builds now r f it h :
  (r, f) ∈ funcs -> builds h (f transforms now h it) (resource_groups transforms now r it).
Proof.
  unfold funcs, resource_groups. intros Hin.
  repeat (apply elem_of_cons in Hin as [[= -> ->]|Hin]; [destruct it; first [apply builds_nil|apply points_with_builds
    |apply node_builds|apply pod_builds]|]).
  by apply elem_of_nil in Hin.
Qed.

Lemma resource_builds clock List h r :
  builds h (pointsForResource transforms clock List h r)
    (match List r with Ok items => items ≫= (fun it => resource_groups transforms (clock it) r it) | Err _ => [] end).
Proof.
  unfold pointsForResource. destruct (List r) as [items|e]; [|apply builds_nil].
  destruct items as [|it items]; [apply builds_nil|]. set (l := it :: items).
  destruct ((list_to_map funcs : gmap string resourceHandler) !! r) as [f|] eqn:E.
  - apply elem_of_list_to_map_2 in E.
    exact (each_builds (fun h it => f transforms (clock it) h it) _ l h (fun h a => handler_builds (clock a) r f a h E)).
  - assert ((l ≫= fun it => resource_groups transforms (clock it) r it) = []) as ->; [|apply builds_nil].
    assert (handled_type !! r = None) as Hr.
    { apply not_elem_of_list_to_map_2 in E. apply not_elem_of_list_to_map_1. exact E. }
    clear E. induction l as [|a l IH]; [done|]. cbn. unfold resource_groups at 1. rewrite Hr.
    rewrite bool_decide_false by done. exact IH.
Qed.
End building.

(** A store whose type is not the one its handler asserts yields nothing. *)
Lemma wrong_type_nothing transforms clock store h r t sel :
  typed_store store -> buildInformers !! r = Some (t, sel) -> handled_type !! r <> Some t ->
  exists h', pointsForResource transforms clock (lister_List store) h r = (h', []).
Proof.
  intros Hty Hinf Hne. pose proof (resource_builds transforms clock (lister_List store) h r) as (ls & Hr & _).
  destruct (pointsForResource _ _ _ h r) as [h' ms]. exists h'. f_equal. unfold lister_List in Hr. rewrite Hinf in Hr.
  assert ((store r ≫= fun it => resource_groups transforms (clock it) r it) = []) as E.
  { assert (Hall : forall it, it ∈ store r -> dynamic_type it = t) by (intros; by eapply Hty).
    clear Hr Hty. induction (store r) as [|it l IH]; [done|]. cbn. unfold resource_groups at 1.
    rewrite bool_decide_false by (rewrite (Hall it); [done|by left]). apply IH. intros; apply Hall; by right. }
  rewrite E in Hr. cbn in Hr. inversion Hr; subst; [done].
Qed.

(** ** Properties *)

(** C12: a scrape of the Kubernetes state.  For every content of the stores,
    every order of the handlers and every filter: the points of a scrape are,
    handler by handler and object by object, what the filter makes of the
    object's groups of points; collected points are counted, and the others
    are counted as filtered.  Each object has its documented metrics and its
    tags; the points of one group share a tag map, so a point is judged on the
    tags that the filter left when an earlier point of its group was kept. *)
Theorem kstate_Scrape_spec {F : Type} `{!MetricFilter F} (filters : option F) (transforms : Transforms)
    (clock : item -> Z) (store : string -> list item) (order : list string) (h : heap) :
  let items r := match buildInformers !! r with Some _ => store r | None => [] end in
  let groups := order ≫= fun r => items r ≫= fun it => resource_groups transforms (clock it) r it in
  exists h' points,
    Scrape filters transforms clock store order h =
      (h', points, (Z.of_nat (length points), (Z.of_nat (length (groups ≫= g_points)) - Z.of_nat (length points))%Z)) /\
    describe h' <$> points = (groups ≫= filter_group filters).
Proof.
  intros items groups. unfold Scrape.
  destruct (scrape_loop filters (pointsForResource transforms clock (lister_List store))
    (fun r => items r ≫= fun it => resource_groups transforms (clock it) r it) order h) as (h' & points & -> & Hd).
  { intros h0 r. pose proof (resource_builds transforms clock (lister_List store) h0 r) as H. unfold lister_List in *.
    unfold items. by destruct (buildInformers !! r). }
  by exists h', points.
Qed.

(** The resources of the source. *)
Definition resources : list string := map fst funcs.

Lemma resources_spec r :
  (is_Some (buildInformers !! r) <-> r ∈ resources) /\ (is_Some (handled_type !! r) <-> r ∈ resources).
Proof.
  destruct (decide (r ∈ resources)) as [Hin|Hout].
  - assert (is_Some (buildInformers !! r) /\ is_Some (handled_type !! r)) as [? ?]; [|done].
    unfold resources, funcs in Hin. cbn [map fst] in Hin.
    repeat (apply elem_of_cons in Hin as [->|Hin]; [split; by eexists; vm_compute|]). by apply elem_of_nil in Hin.
  - assert (buildInformers !! r = None /\ handled_type !! r = None) as [-> ->]; [|split; split; intros H; try done; by destruct H].
    split; apply not_elem_of_list_to_map_1; intros Hin; apply Hout; revert Hin; unfold resources, funcs;
      cbn [map fst fmap list_fmap]; rewrite !elem_of_cons; tauto.
Qed.

Lemma informer_types r :
  r <> "horizontalpodautoscalers" -> fst <$> buildInformers !! r = handled_type !! r /\
  fst <$> buildInformers !! r <> Some "*v2beta1.HorizontalPodAutoscaler".
Proof.
  intros Hr. destruct (decide (r ∈ resources)) as [Hin|Hout].
  - unfold resources, funcs in Hin. cbn [map fst] in Hin.
    repeat (apply elem_of_cons in Hin as [->|Hin]; [first [done|split; [by vm_compute|by vm_compute]]|]).
    by apply elem_of_nil in Hin.
  - destruct (resources_spec r) as [H1 H2]. destruct (buildInformers !! r); [by destruct Hout; apply H1|].
    destruct (handled_type !! r); [by destruct Hout; apply H2|]. done.
Qed.


(** Pod autoscalers are never reported.  The informer is built for
    [v2beta1] objects and the handler asserts [v2beta2], so whatever
    autoscalers a well-typed store holds, their handler logs an error for each
    and produces no point. *)
Theorem hpa_never_reported (transforms : Transforms) (clock : item -> Z) (store : string -> list item) (h : heap) :
  typed_store store ->
  exists h', pointsForResource transforms clock (lister_List store) h "horizontalpodautoscalers" = (h', []).
Proof. intros Hty. by apply (wrong_type_nothing _ _ _ _ _ "*v2beta1.HorizontalPodAutoscaler" AllObjects). Qed.

Definition sample_hpa : HorizontalPodAutoscaler := MkHPA (MkMeta "web" "default" ∅) 5 (Some 1%Z) 2 3.
Definition sample_store (r : string) : list item :=
  if String.eqb r "horizontalpodautoscalers" then [ItHPA_v2beta1 sample_hpa] else [].

Lemma sample_store_typed : typed_store sample_store.
Proof.
  intros r t sel it Hi Hin. unfold sample_store in Hin. destruct (String.eqb_spec r "horizontalpodautoscalers") as [->|];
    [|by apply elem_of_nil in Hin]. apply list_elem_of_singleton in Hin as ->.
  assert (buildInformers !! "horizontalpodautoscalers" = Some ("*v2beta1.HorizontalPodAutoscaler", AllObjects)) as E
    by by vm_compute.
  rewrite E in Hi. by injection Hi as <- _.
Qed.

Lemma hpa_never_reported_witness :
  exists h', pointsForResource transforms_zero (fun _ => 0%Z) (lister_List sample_store) ∅ "horizontalpodautoscalers" = (h', []).
Proof. apply hpa_never_reported, sample_store_typed. Defined.

(** A tag cannot both select and be removed.  When the allow-list of
    metric tags tests only tags that the filter also excludes, an object whose
    tags are on the allow-list is reported by its first point alone: keeping
    that point removes the tags from the map the other points share, and these
    are then dropped, although the filter accepts each of them with the tags
    of the object. *)
Theorem excluded_tag_hides_points (f : globFilter) (m : gmap string Glob) (transforms : Transforms) (now : Z)
    (tags : tagmap) (value : string * f64) (values : list (string * f64)) :
  metricAllowList f = None -> metricDenyList f = None -> metricTagDenyList f = None ->
  metricTagAllowList f = Some m -> (forall k, is_Some (m !! k) -> match_tag f k = false) ->
  MatchesTags m tags = true ->
  Forall (fun p => accepts (Some f) (pp_name p) tags = true) (protos transforms now (value :: values)) /\
  exists d, filter_group (Some f) (one_group transforms now tags (value :: values)) = [d].
Proof.
  intros Ha Hd Htd Hta Hex Hm.
  assert (Hacc : forall name t, accepts (Some f) name t = MatchesTags m t).
  { intros name t. cbn. unfold MatchMetric. rewrite Ha, Hd, Htd, Hta. cbn. by destruct (MatchesTags m t). }
  assert (Hkept : MatchesTags m (kept_tags (Some f) tags) = false).
  { apply not_true_iff_false. rewrite MatchesTags_spec. intros (k & g & v & Hk & Hv & _).
    unfold kept_tags in Hv. rewrite filter_names_lookup, Hex in Hv; [done|by eexists]. }
  split; [apply Forall_forall; intros; by rewrite Hacc|].
  destruct value as [name v]. unfold one_group, filter_group. change (default ∅ (g_tags _)) with tags.
  cbn [g_points protos map filter_protos pp_name].
  rewrite Hacc, Hm. eexists. f_equal. fold (protos transforms now values).
  induction (protos transforms now values) as [|p ps IH]; [done|]. cbn [filter_protos]. by rewrite Hacc, Hkept.
Qed.

Definition namespace_filter : globFilter :=
  MkGlobFilter None None (Some {["namespace_name" := String.eqb "default"]}) None None (Some (String.eqb "namespace_name")).
Definition sample_deployment : Replicated := MkReplicated (MkMeta "web" "default" ∅) (Some 3%Z) 2 2.

Lemma excluded_tag_hides_points_witness :
  exists d, ([object_tags transforms_zero "deployment" (rp_meta sample_deployment)] ≫= fun tags =>
    filter_group (Some namespace_filter) (one_group transforms_zero 0 tags
      [("deployment.desired_replicas", f64_one); ("deployment.ready_replicas", f64_one)])) = [d].
Proof.
  cbn [mbind list_bind]. rewrite app_nil_r.
  eapply (excluded_tag_hides_points namespace_filter {["namespace_name" := String.eqb "default"]} transforms_zero 0
    (object_tags transforms_zero "deployment" (rp_meta sample_deployment)) ("deployment.desired_replicas", f64_one)
    [("deployment.ready_replicas", f64_one)]); try done.
  intros k [g Hk]. apply lookup_singleton_Some in Hk as [<- _]. done.
Defined.

(** Messages of conditions fit in a point tag.  The truncated message is a
    prefix of the message, it is the message when that is short enough, and
    with its name and the equals sign it never exceeds 255 bytes. *)
Theorem truncateMessage_bounds (message : string) :
  String.length "message" + String.length "=" + String.length (truncateMessage message) <= 255 /\
  has_prefix (truncateMessage message) message = true /\
  (String.length "message" + String.length "=" + String.length message <= 255 -> truncateMessage message = message).
Proof.
  assert (Hp : forall n s, has_prefix (String.substring 0 n s) s = true /\ String.length (String.substring 0 n s) <= n /\
                           (String.length s <= n -> String.substring 0 n s = s)).
  { intros n s; revert n; induction s as [|c s IH]; intros [|n]; cbn; split_and!; try done; try lia.
    - rewrite Ascii.eqb_refl. cbn. apply IH.
    - destruct (IH n) as (_ & ? & _). lia.
    - intros H. f_equal. apply IH. lia. }
  assert (Hid : forall s, has_prefix s s = true) by (induction s as [|c s IH]; cbn; [done|by rewrite Ascii.eqb_refl]).
  unfold truncateMessage. change maxPointTagLength with 247. cbn [String.length].
  destruct (Nat.leb_spec 247 (String.length message)) as [Hl|Hl].
  - destruct (Hp 247 message) as (H1 & H2 & H3). split_and!; [lia|done|]. intros H. apply H3. lia.
  - split_and!; [lia|done|done].
Qed.

Lemma truncateMessage_bounds_witness : truncateMessage "FailedScheduling" = "FailedScheduling".
Proof. apply (proj2 (proj2 (truncateMessage_bounds "FailedScheduling"))). cbn. lia. Defined.
