(* ===== verification/Telegraf.v ===== *)
(** The Telegraf source: plugins/sources/telegraf (accumulator.go, provider.go,
    system.go, parse.go, factory.go).

    Telegraf's input plugins are third-party code: gathering is a list of
    calls on the accumulator and a final error.  A field value is a Go
    interface value, of which the accumulator only looks at the kind.
    [log.Fatal] ends the process ([Fatal]). *)

From Stdlib Require Import ZArith Lia.
From S2P Require Import Prelude GoFloat Filters Wf PointGroups Util Leadership Configuration.

(** ** accumulator.go *)

(** The dynamic values of fields.  [VNumber] is any value whose type converts
    to float64, with the result of the conversion; [VOther] is a value of a
    type that does not; a pointer may be nil. *)
Inductive fieldValue :=
  | VNil
  | VString (s : string)
  | VBool (b : bool)
  | VNumber (f : f64)
  | VOther
  | VPtr (v : option fieldValue).

(** [getFloat]: one pointer is followed; strings, booleans and pointers are
    not convertible.  The type of a nil pointer's target panics. *)
Definition getFloat (unk : fieldValue) : outcome (result f64) :=
  match unk with
  | VNil => Done (Err "cannot convert nil value to float64")
  | VNumber f | VPtr (Some (VNumber f)) => Done (Ok f)
  | VPtr None => Panic "call of reflect.Value.Type on zero Value"
  | VString _ | VBool _ | VOther | VPtr (Some _) => Done (Err "cannot convert to float64")
  end.

Record telegrafPluginSource (F : Type) := MkTelegrafSource {
  ts_name : string;
  ts_source : string;
  ts_prefix : string;
  ts_tags : tagmap;
  ts_filters : option F;
  ts_autoDiscovered : bool;
  ts_targetTags : option tagmap;   (** set with the target counters *)
}.
Arguments MkTelegrafSource {_} _ _ _ _ _ _ _.
Arguments ts_name {_} _.
Arguments ts_source {_} _.
Arguments ts_prefix {_} _.
Arguments ts_tags {_} _.
Arguments ts_filters {_} _.
Arguments ts_autoDiscovered {_} _.
Arguments ts_targetTags {_} _.

(** A call of a plugin on the accumulator: a measurement with its fields in
    the order they are visited, its tags and its time ([None] is "now"). *)
Inductive accumulator_call :=
  | CallFields (measurement : string) (fields : list (string * fieldValue)) (tags : tagmap) (timestamp : option Z)
  | CallGauge (measurement : string) (fields : list (string * fieldValue)) (tags : tagmap) (timestamp : option Z)
  | CallCounter (measurement : string) (fields : list (string * fieldValue)) (tags : tagmap) (timestamp : option Z)
  | CallError (err : option string)
  | CallUnsupported.   (** summaries, histograms, metrics, precision, tracking *)

Section accumulator.
Context {F : Type} `{!MetricFilter F} (t : telegrafPluginSource F) (now : Z).

(** [telegrafDataBatch]: the heap, the points, and the increments of the
    counters of filtered points and of errors. *)
Record telegrafDataBatch := MkDataBatch {
  tb_heap : heap;
  tb_Metrics : list wfmetric;
  tb_filtered : Z;
  tb_errors : Z;
}.

Definition copy_nonempty (src out : tagmap) : tagmap :=
  foldl (fun out '(k, v) => if negb (String.eqb v "") then <[k := v]> out else out) out (map_to_list src).
Definition buildTags (pointTags : tagmap) : tagmap := copy_nonempty pointTags (copy_nonempty (ts_tags t) ∅).

(** The value of a field, [None] when the field is skipped. *)
Definition field_value (v : fieldValue) : outcome (option f64) :=
  match v with
  | VString _ => Done None
  | VBool p => Done (Some (if p then f64_one else f64_zero))
  | _ => r ← getFloat v; Done (match r with Ok value => Some value | Err _ => None end)
  end.

Definition field_name (measurement metric : string) : string :=
  let metricName := replace_char "_" "." (measurement +:+ "." +:+ metric)%string in
  if negb (String.eqb (ts_prefix t) "") then (ts_prefix t +:+ "." +:+ metricName)%string else metricName.

(** [ts.UnixNano()/1000]: microseconds. *)
Definition field_time (timestamp : option Z) : Z := Z.quot (unix_nano (default now timestamp)) 1000.

Definition prepare_point (measurement : string) (tags : tagmap) (timestamp : option Z)
    (b : telegrafDataBatch) (field : string * fieldValue) : outcome telegrafDataBatch :=
  let '(metric, v) := field in
  value ← field_value v;
  match value with
  | None => Done b
  | Some value =>
      let '(h, l) := new_map (tb_heap b) (buildTags tags) in
      let '(h', points, n) := FilterAppend (ts_filters t) h (tb_Metrics b)
        (Some (MPoint (NewPoint (field_name measurement metric) value (field_time timestamp) (ts_source t) (Some l)))) in
      Done (MkDataBatch h' points (tb_filtered b + n)%Z (tb_errors b))
  end.

Fixpoint preparePoints (measurement : string) (fields : list (string * fieldValue)) (tags : tagmap)
    (timestamp : option Z) (b : telegrafDataBatch) : outcome telegrafDataBatch :=
  match fields with
  | [] => Done b
  | f :: fields' =>
      b' ← prepare_point measurement tags timestamp b f;
      preparePoints measurement fields' tags timestamp b'
  end.

Definition AddError (err : option string) (b : telegrafDataBatch) : telegrafDataBatch :=
  match err with
  | Some _ => MkDataBatch (tb_heap b) (tb_Metrics b) (tb_filtered b) (tb_errors b + 1)%Z
  | None => b
  end.

Definition accumulate (b : telegrafDataBatch) (c : accumulator_call) : outcome telegrafDataBatch :=
  match c with
  | CallFields m fields tags ts | CallGauge m fields tags ts | CallCounter m fields tags ts =>
      preparePoints m fields tags ts b
  | CallError err => Done (AddError err b)
  | CallUnsupported => Fatal "not supported"
  end.

Fixpoint gather (b : telegrafDataBatch) (calls : list accumulator_call) : outcome telegrafDataBatch :=
  match calls with
  | [] => Done b
  | c :: calls' => b' ← accumulate b c; gather b' calls'
  end.

(** ** provider.go: the source *)

(** [Scrape]: what the plugin does ([calls] and the error it returns), and the
    increments of the counters of errors, filtered and collected points; the
    target counters of errors and of collected points, when the source has
    them, get the same increments. *)
Definition Scrape (calls : list accumulator_call) (err : option string) (h : heap)
    : outcome (heap * list wfmetric * (Z * Z * Z)) :=
  b ← gather (MkDataBatch h [] 0 0) calls;
  let errors := match err with Some _ => (tb_errors b + 1)%Z | None => tb_errors b end in
  Done (tb_heap b, tb_Metrics b, (errors, tb_filtered b, Z.of_nat (length (tb_Metrics b)))).
End accumulator.

Definition hostPlugins : list string :=
  ["mem"; "net"; "netstat"; "linux_sysctl_fs"; "swap"; "cpu"; "disk"; "diskio"; "system"; "kernel"; "processes"].
Definition pluginType (plugin : string) : string :=
  if existsb (String.eqb plugin) hostPlugins then "telegraf_host" else "telegraf".

Definition extractTags (tags : tagmap) (name discovered : string) : tagmap :=
  let result := filter (fun '(k, _) => k = "pod" \/ k = "service" \/ k = "namespace" \/ k = "node") tags in
  let result := <["discovered" := if negb (String.eqb discovered "") then discovered else "static"]> result in
  <["type" := name]> result.

(** The registry of the collector's counters: their keys.  [EncodeKey] is the
    library's encoding of a name and tags. *)
Section registry.
Context (EncodeKey : string -> tagmap -> string).

(** [newTelegrafPluginSource], with the counters it registers. *)
Definition newTelegrafPluginSource {F} (e : env) (name prefix : string) (tags : tagmap) (filters : option F)
    (discovered : string) (registry : gset string) : telegrafPluginSource F * gset string :=
  let pType := (pluginType name +:+ "." +:+ name)%string in
  let pt := {["type" := pType]} in
  let registry := registry ∪ {[ EncodeKey "source.points.collected" pt; EncodeKey "source.points.filtered" pt;
                                EncodeKey "source.collect.errors" pt ]} in
  let targetTags := if negb (String.eqb discovered "") then Some (extractTags tags pType discovered) else None in
  (MkTelegrafSource (name +:+ "_plugin") (GetNodeName e) prefix tags filters (negb (String.eqb discovered "")) targetTags,
   match targetTags with
   | Some tags => registry ∪ {[ EncodeKey "target.points.collected" tags; EncodeKey "target.collect.errors" tags ]}
   | None => registry
   end).

(** [Cleanup] unregisters the same key twice. *)
Definition Cleanup {F} (t : telegrafPluginSource F) (registry : gset string) : gset string :=
  let key := EncodeKey "target.collect.errors" (default ∅ (ts_targetTags t)) in
  (registry ∖ {[ key ]}) ∖ {[ key ]}.
End registry.

Definition Source_Name {F} (t : telegrafPluginSource F) : string := ("telegraf_" +:+ ts_name t +:+ "_source")%string.

(** ** provider.go and parse.go: the provider *)

Section provider.
(** [Inputs] is the library's table of plugins, [Unmarshal] the TOML decoder
    into a plugin ([None] is a panic, which is recovered). *)
Context {P F : Type} (Inputs : string -> option P) (Unmarshal : string -> P -> option (result P)).

Definition initPlugin (input : P) (conf : string) : result P :=
  if String.eqb conf "" then Err "missing telegraf configuration"
  else match Unmarshal conf input with
       | Some r => r
       | None => Err "invalid telegraf configuration"
       end.

Record telegrafProvider := MkProvider {
  tp_name : string;
  tp_useLeaderElection : bool;
  tp_sources : list (string * P);   (** the plugin's name and the plugin, of each source *)
}.

Definition providerName : string := "telegraf_provider".

(** One round of the loop of [NewProvider]. *)
Definition add_plugin (a : AgentType) (conf : string) (st : list (string * P) * bool) (name : string)
    : result (list (string * P) * bool) :=
  let '(sources, hostPlugin) := st in
  if negb (ScrapeAnyNodes a) && String.eqb (pluginType name) "telegraf_host" then Ok st
  else match Inputs (trim " " name) with
       | None => Err ("telegraf plugin not found: " +:+ name)%string
       | Some plugin =>
           plugin' ← (if negb (String.eqb conf "") then
                        match initPlugin plugin conf with
                        | Ok p => Ok p
                        | Err e => Err ("error creating plugin: " +:+ name +:+ " err: " +:+ e)%string
                        end
                      else Ok plugin);
           Ok (sources ++ [(name, plugin')], hostPlugin && String.eqb (pluginType name) "telegraf_host")
       end.

Definition plugins_of (cfg : TelegrafSourceConfig) : list string :=
  if nil_list (tg_Plugins cfg) then hostPlugins else tg_Plugins cfg.

(** The prefix of the sources. *)
Definition provider_prefix (cfg : TelegrafSourceConfig) : string :=
  let prefix := GetStringValue (tr_Prefix (tg_Transforms cfg)) "" in
  if negb (String.eqb prefix "") then trim "." prefix else prefix.

Definition NewProvider (a : AgentType) (cfg : TelegrafSourceConfig) : result telegrafProvider :=
  '(sources, hostPlugin) ← foldM (add_plugin a (tg_Conf cfg)) ([], true) (plugins_of cfg);
  let name := if negb (String.eqb (tg_Name cfg) "") then (providerName +:+ ": " +:+ tg_Name cfg)%string
              else (providerName +:+ ": [" +:+ join " " (plugins_of cfg) +:+ "]")%string in
  let useLeaderElection := tg_UseLeaderElection cfg || (String.eqb (tg_Discovered cfg) "" && negb hostPlugin) in
  Ok (MkProvider name useLeaderElection sources).

Definition GetMetricsSources (leading : bool) (p : telegrafProvider) : list (string * P) :=
  if tp_useLeaderElection p && negb leading then [] else tp_sources p.

(** [Build] of the factory: the provider and the interval and timeout it is
    configured with. *)
Definition Build (a : AgentType) (cfg : TelegrafSourceConfig) : result (telegrafProvider * Z * Z) :=
  p ← NewProvider a cfg; Ok (p, cl_Interval (tg_Collection cfg), cl_Timeout (tg_Collection cfg)).
End provider.

(** ** system.go *)

(** What the host library reports: the load averages (a nil pointer when they
    are not available) with the error, the number of processors and the uptime
    in seconds. *)
Record host_stats := MkHost {
  loadavg : option (f64 * f64 * f64);
  load_error : option string;
  n_cpus : Z;
  uptime_ : result Z;
}.

(** [%2d] and [%02d] of a non-negative number. *)
Definition pad_left (c : Ascii.ascii) (s : string) : string :=
  if (String.length s <? 2)%nat then String c s else s.

Definition formatUptime (uptime : Z) : string :=
  let days := (uptime / (60 * 60 * 24))%Z in
  let prefix := if negb (days =? 0)%Z then
                  (sprint_int days +:+ " day" +:+ (if (1 <? days)%Z then "s" else "") +:+ ", ")%string
                else "" in
  let minutes := (uptime / 60)%Z in
  let hours := ((minutes / 60) mod 24)%Z in
  (prefix +:+ pad_left " " (sprint_int hours) +:+ ":" +:+ pad_left "0" (sprint_int (minutes mod 60)))%string.

(** [Gather] of the system plugin: its calls and its error.  [visit] is the
    order in which the fields of a map are visited. *)
Definition Gather (visit : list (string * fieldValue) -> list (string * fieldValue)) (now : Z) (s : host_stats)
    : outcome (list accumulator_call * option string) :=
  if match load_error s with Some e => negb (contains "not implemented" e) | None => false end
  then Done ([], load_error s)
  else
    '(load1, load5, load15) ← deref_ptr (loadavg s);
    let gauge := CallGauge "system" (visit [("load1", VNumber load1); ("load5", VNumber load5);
      ("load15", VNumber load15); ("n_cpus", VNumber (f64_of_Z (n_cpus s)))]) ∅ (Some now) in
    Done match uptime_ s with
         | Err e => ([gauge], Some e)
         | Ok uptime =>
             ([gauge; CallCounter "system" [("uptime", VNumber (f64_of_Z uptime))] ∅ (Some now);
               CallFields "system" [("uptime_format", VString (formatUptime uptime))] ∅ (Some now)], None)
         end.

Example formatUptime_days : formatUptime 183845 = "2 days,  3:04".
Proof. by vm_compute. Qed.

(** ** What a gathering reports *)

Section expected.
Context {F : Type} `{!MetricFilter F} (t : telegrafPluginSource F) (now : Z).

(** A value that is reported, and one that makes the process panic. *)
Definition reported (v : fieldValue) : option f64 :=
  match v with
  | VBool p => Some (if p then f64_one else f64_zero)
  | VNumber f | VPtr (Some (VNumber f)) => Some f
  | _ => None
  end.
Definition is_nil_ptr (v : fieldValue) : bool := match v with VPtr None => true | _ => false end.

Definition field_groups (measurement : string) (tags : tagmap) (timestamp : option Z) (f : string * fieldValue)
    : list group :=
  match reported f.2 with
  | Some value => [MkGroup (Some (buildTags t tags))
                     [MkProto (field_name t measurement f.1) value (field_time now timestamp) (ts_source t)]]
  | None => []
  end.

Definition call_groups (c : accumulator_call) : list group :=
  match c with
  | CallFields m fields tags ts | CallGauge m fields tags ts | CallCounter m fields tags ts =>
      fields ≫= field_groups m tags ts
  | _ => []
  end.

Definition call_fields (c : accumulator_call) : list (string * fieldValue) :=
  match c with
  | CallFields _ fields _ _ | CallGauge _ fields _ _ | CallCounter _ fields _ _ => fields
  | _ => []
  end.
Definition supported (c : accumulator_call) : bool :=
  match c with CallUnsupported => false | _ => forallb (fun f => negb (is_nil_ptr f.2)) (call_fields c) end.
Definition is_error (c : accumulator_call) : bool := match c with CallError (Some _) => true | _ => false end.

(** ** Lemmas *)

Lemma field_value_eq v : is_nil_ptr v = false -> field_value v = Done (reported v).
Proof. by destruct v as [|s|b|f| |[[]|]]. Qed.

(** One field is one step of a scrape whose groups are single points. *)
Definition field_gen (m : string) (tags : tagmap) (ts : option Z) (h : heap) (f : string * fieldValue)
    : heap * list wfmetric :=
  match reported f.2 with
  | Some value => let '(h', l) := new_map h (buildTags t tags) in
      (h', [point_at (Some l) (MkProto (field_name t m f.1) value (field_time now ts) (ts_source t))])
  | None => (h, [])
  end.

Lemma field_gen_builds m tags ts h f : builds h (field_gen m tags ts h f) (field_groups m tags ts f).
Proof.
  unfold field_gen, field_groups. destruct (reported f.2) as [value|]; [|apply builds_nil].
  exact (builds_new h (buildTags t tags) [MkProto (field_name t m f.1) value (field_time now ts) (ts_source t)]).
Qed.

(** The fields of all calls, with what their points are built from. *)
Definition located := (string * tagmap * option Z * (string * fieldValue))%type.
Definition call_located (c : accumulator_call) : list located :=
  match c with
  | CallFields m fields tags ts | CallGauge m fields tags ts | CallCounter m fields tags ts =>
      map (fun f => (m, tags, ts, f)) fields
  | _ => []
  end.
Definition located_gen (h : heap) (x : located) : heap * list wfmetric :=
  let '(m, tags, ts, f) := x in field_gen m tags ts h f.

Definition as_batch (st : heap * list wfmetric * Z) (errors : Z) : telegrafDataBatch :=
  MkDataBatch st.1.1 st.1.2 st.2 errors.

Lemma prepare_point_step m tags ts st errors f :
  is_nil_ptr f.2 = false ->
  prepare_point t now m tags ts (as_batch st errors) f =
    Done (as_batch (scrape_step (ts_filters t) located_gen st (m, tags, ts, f)) errors).
Proof.
  intros Hf. destruct st as [[h pts] n], f as [metric v]. cbn in Hf. unfold prepare_point. rewrite (field_value_eq v Hf).
  unfold as_batch, scrape_step, located_gen, field_gen.
  cbn [mbind outcome_bind fst snd tb_heap tb_Metrics tb_filtered tb_errors].
  destruct (reported v) as [value|]; [|done]. destruct (new_map h (buildTags t tags)) as [h' l].
  unfold filter_points. cbn [foldl filter_step]. change (point_at _ _) with (MPoint (NewPoint (field_name t m metric) value (field_time now ts) (ts_source t) (Some l))).
  by destruct (FilterAppend _ _ _ _) as [[h2 pts2] k].
Qed.

Lemma gather_loop calls st errors :
  forallb supported calls = true ->
  gather t now (as_batch st errors) calls =
    Done (as_batch (foldl (scrape_step (ts_filters t) located_gen) st (calls ≫= call_located))
            (errors + Z.of_nat (length (List.filter is_error calls)))).
Proof.
  revert st errors; induction calls as [|c calls IH]; intros st errors Hs; cbn [gather].
  { cbn. by rewrite Z.add_0_r. }
  cbn [forallb] in Hs. apply andb_prop in Hs as [Hc Hs].
  assert (Hfields : forall m fields tags ts st, forallb (fun f => negb (is_nil_ptr f.2)) fields = true ->
    preparePoints t now m fields tags ts (as_batch st errors) =
    Done (as_batch (foldl (scrape_step (ts_filters t) located_gen) st (map (fun f => (m, tags, ts, f)) fields)) errors)).
  { clear. intros m fields tags ts. induction fields as [|f fields IH]; intros st Hn; [done|].
    cbn [forallb] in Hn. apply andb_prop in Hn as [Hn1 Hn2]. apply negb_true_iff in Hn1. cbn [preparePoints].
    rewrite (prepare_point_step m tags ts st errors f Hn1). cbn [mbind outcome_bind]. by rewrite IH. }
  assert (Hacc : accumulate t now (as_batch st errors) c =
    Done (as_batch (foldl (scrape_step (ts_filters t) located_gen) st (call_located c))
            (errors + (if is_error c then 1 else 0)))).
  { destruct c as [m fs tg ts|m fs tg ts|m fs tg ts|[e|]|]; cbn in Hc |- *; try done;
      rewrite ?Z.add_0_r; try done; by apply Hfields. }
  rewrite Hacc. cbn [mbind outcome_bind]. rewrite IH by done. do 2 f_equal.
  - by rewrite bind_cons, foldl_app.
  - cbn [List.filter]. destruct (is_error c); cbn [length]; lia.
Qed.

Lemma located_groups calls :
  (calls ≫= call_located) ≫= (fun x => let '(m, tags, ts, f) := x in field_groups m tags ts f) = calls ≫= call_groups.
Proof.
  induction calls as [|c calls IH]; [done|]. rewrite !bind_cons, bind_app, IH. f_equal.
  assert (forall m tags ts fields, map (fun f => (m, tags, ts, f)) fields ≫=
    (fun x : located => let '(m, tags, ts, f) := x in field_groups m tags ts f) = fields ≫= field_groups m tags ts) as H.
  { intros m tags ts fields. induction fields as [|f fields IHf]; [done|]. cbn. by f_equal. }
  destruct c; cbn [call_located call_groups]; try done; apply H.
Qed.
End expected.

(** ** Properties *)

(** C26: a Telegraf scrape.  For every sequence of calls of a plugin that are
    supported: the points of the scrape are, call by call and field by field,
    what the filter makes of the fields that are booleans or convert to a
    number (strings and other values are skipped), with the documented name,
    the tags of source and measurement and a map of their own; the errors the
    plugin reported and its final error are counted, and every point is
    counted as collected or as filtered.  A call that is not supported ends
    the process. *)
Theorem telegraf_Scrape_spec {F : Type} `{!MetricFilter F} (t : telegrafPluginSource F) (now : Z)
    (calls : list accumulator_call) (err : option string) (h : heap) :
  let groups := calls ≫= call_groups t now in
  (forallb supported calls = true ->
   exists h' points, Scrape t now calls err h =
       Done (h', points, ((Z.of_nat (length (List.filter is_error calls)) + match err with Some _ => 1 | None => 0 end)%Z,
                          (Z.of_nat (length groups) - Z.of_nat (length points))%Z, Z.of_nat (length points))) /\
     describe h' <$> points = (groups ≫= filter_group (ts_filters t))) /\
  (forall pre post, calls = pre ++ CallUnsupported :: post -> forallb supported pre = true ->
   Scrape t now calls err h = Fatal "not supported").
Proof.
  intros groups. unfold Scrape. change (MkDataBatch h [] 0 0) with (as_batch (h, [], 0%Z) 0). split.
  - intros Hs. rewrite (gather_loop t now calls _ _ Hs).
    destruct (scrape_loop (ts_filters t) (located_gen t now)
      (fun x => let '(m, tags, ts, f) := x in field_groups t now m tags ts f) (calls ≫= call_located) h)
      as (h' & points & -> & Hd).
    { intros h0 [[[m tags] ts] f]. apply field_gen_builds. }
    rewrite located_groups in *. fold groups in Hd |- *. exists h', points. cbn. split; [|done].
    assert (length (groups ≫= g_points) = length groups) as ->.
    { assert (Forall (fun g => length (g_points g) = 1) groups) as Hall.
      { unfold groups. apply Forall_bind, Forall_forall. intros c _. cbn. unfold call_groups.
        assert (Hf : forall m tags ts fields, Forall (fun g => length (g_points g) = 1) (fields ≫= field_groups t now m tags ts)).
        { intros. apply Forall_bind, Forall_forall. intros f _. cbn. unfold field_groups.
          case_match; by repeat constructor. }
        destruct c; first [by apply Hf|by constructor]. }
      clear -Hall. induction Hall as [|g gs Hg _ IH]; [done|]. rewrite bind_cons, length_app, Hg. cbn. by f_equal. }
    destruct err; repeat (lia || f_equal).
  - intros pre post -> Hs.
    clear groups. assert (Hgo : forall st n, gather t now (as_batch st n) (pre ++ CallUnsupported :: post) = Fatal "not supported");
      [|by rewrite Hgo].
    induction pre as [|c pre IH]; intros st n; [done|].
    cbn [forallb] in Hs. apply andb_prop in Hs as [Hc Hs]. cbn [app gather].
    pose proof (gather_loop t now [c] st n) as H1. cbn [gather forallb] in H1. rewrite Hc in H1. specialize (H1 eq_refl).
    destruct (accumulate t now (as_batch st n) c) as [b|e|e]; cbn in H1; try done. injection H1 as ->.
    cbn [mbind outcome_bind]. by apply IH.
Qed.

Definition sample_source : telegrafPluginSource globFilter :=
  MkTelegrafSource "mem_plugin" "node" "" ∅ None false None.

Lemma telegraf_Scrape_spec_witness :
  exists h' points, Scrape sample_source 0 [CallGauge "mem" [("used_percent", VBool true); ("note", VString "x")] ∅ None]
      (Some "timeout") ∅ = Done (h', points, (1, 0, 1)%Z) /\
    map dp_name (describe h' <$> points) = ["mem.used.percent"].
Proof.
  destruct (proj1 (telegraf_Scrape_spec sample_source 0
    [CallGauge "mem" [("used_percent", VBool true); ("note", VString "x")] ∅ None] (Some "timeout") ∅) eq_refl)
    as (h' & points & -> & Hd).
  exists h', points. assert (length points = 1) as Hl.
  { apply (f_equal length) in Hd. rewrite length_fmap in Hd. etransitivity; [exact Hd|by vm_compute]. }
  split; [rewrite Hl; by vm_compute|]. rewrite Hd. by vm_compute.
Defined.

Section provider_proofs.
Context {P : Type} (Inputs : string -> option P) (Unmarshal : string -> P -> option (result P)).

(** The plugin of a name with its configuration, when there is one. *)
Definition configured (conf name : string) : option P :=
  plugin ← Inputs (trim " " name);
  if negb (String.eqb conf "") then match initPlugin Unmarshal plugin conf with Ok p => Some p | Err _ => None end
  else Some plugin.
Definition considered (a : AgentType) (name : string) : bool :=
  ScrapeAnyNodes a || negb (String.eqb (pluginType name) "telegraf_host").
Definition is_host (name : string) : bool := String.eqb (pluginType name) "telegraf_host".

Lemma add_plugin_eq a conf sources host n :
  exists e, add_plugin Inputs Unmarshal a conf (sources, host) n =
    if considered a n then
      match configured conf n with Some p => Ok (sources ++ [(n, p)], host && is_host n) | None => Err e end
    else Ok (sources, host).
Proof.
  unfold add_plugin, considered, configured, is_host.
  destruct (ScrapeAnyNodes a), (String.eqb (pluginType n) "telegraf_host"); cbn [negb andb orb];
    destruct (Inputs (trim " " n)) as [p|]; cbn [mbind option_bind]; try (by eexists);
    destruct (negb (String.eqb conf "")); try (by exists ""); by destruct (initPlugin Unmarshal p conf); eexists.
Qed.

Lemma add_plugins a conf names sources host :
  match foldM (add_plugin Inputs Unmarshal a conf) (sources, host) names with
  | Ok st => exists ps, mapM (configured conf) (List.filter (considered a) names) = Some ps /\
      st = (sources ++ zip (List.filter (considered a) names) ps, host && forallb is_host (List.filter (considered a) names))
  | Err _ => mapM (configured conf) (List.filter (considered a) names) = None
  end.
Proof.
  revert sources host; induction names as [|n names IH]; intros sources host; cbn [foldM List.filter].
  { exists []. cbn. by rewrite app_nil_r, andb_true_r. }
  destruct (add_plugin_eq a conf sources host n) as [e ->]. destruct (considered a n); [|apply IH]. cbn [mapM].
  change (mapM (configured conf) (n :: ?l)) with (p ← configured conf n; k ← mapM (configured conf) l; Some (p :: k)).
  destruct (configured conf n) as [p|]; cbn [mbind result_bind option_bind]; [|done].
  specialize (IH (sources ++ [(n, p)]) (host && is_host n)).
  destruct (foldM _ _ names) as [st|e'].
  - destruct IH as (ps & -> & ->). exists (p :: ps). cbn. split; [done|]. by rewrite <- app_assoc, <- andb_assoc.
  - by rewrite IH.
Qed.
End provider_proofs.

(** Building a Telegraf provider.  The host plugins are left out when this
    instance scrapes no nodes; the others must all be known (their names are
    trimmed for that) and accept the configuration, or the provider is an
    error.  The provider then has one source per plugin, in order, and it
    needs leadership exactly when it is told so or when it is static and one
    of its plugins is not a host plugin by its exact name.  So a host plugin
    whose name carries a space is collected by the leader only. *)
Theorem telegraf_NewProvider_spec {P : Type} (Inputs : string -> option P) (Unmarshal : string -> P -> option (result P))
    (a : AgentType) (cfg : TelegrafSourceConfig) :
  let names := List.filter (considered a) (plugins_of cfg) in
  match NewProvider Inputs Unmarshal a cfg with
  | Ok p =>
      exists ps, mapM (configured Inputs Unmarshal (tg_Conf cfg)) names = Some ps /\ tp_sources p = zip names ps /\
        tp_useLeaderElection p =
          (tg_UseLeaderElection cfg || (String.eqb (tg_Discovered cfg) "" && negb (forallb is_host names))) /\
        (forall leading, GetMetricsSources leading p =
           if leading || negb (tp_useLeaderElection p) then zip names ps else [])
  | Err _ => mapM (configured Inputs Unmarshal (tg_Conf cfg)) names = None
  end.
Proof.
  intros names. unfold NewProvider.
  pose proof (add_plugins Inputs Unmarshal a (tg_Conf cfg) (plugins_of cfg) [] true) as H.
  destruct (foldM _ _ _) as [[sources host]|e]; cbn [mbind result_bind]; [|exact H].
  destruct H as (ps & Hps & [= -> ->]). exists ps. cbn. split_and!; try done.
  intros []; unfold GetMetricsSources; cbn; [by rewrite andb_false_r|].
  rewrite andb_true_r. by destruct (_ || _).
Qed.

(** The counters that a discovered source leaves behind.  [Cleanup] removes
    one of the two counters of the target. *)
Lemma cleanup_keeps_points_counter {F : Type} (EncodeKey : string -> tagmap -> string) (e : env) (name prefix : string)
    (tags : tagmap) (filters : option F) (discovered : string) (registry : gset string) :
  discovered <> "" ->
  (forall t, EncodeKey "target.points.collected" t <> EncodeKey "target.collect.errors" t) ->
  let '(t, registry') := newTelegrafPluginSource EncodeKey e name prefix tags filters discovered registry in
  exists key, key ∈ registry' /\ key ∈ Cleanup EncodeKey t registry' /\
    key = EncodeKey "target.points.collected" (default ∅ (ts_targetTags t)).
Proof.
  intros Hd Hkey. unfold newTelegrafPluginSource. apply String.eqb_neq in Hd. rewrite Hd. cbn [negb].
  eexists. split; [|split; [|reflexivity]]; cbn; [set_solver|]. unfold Cleanup. cbn. specialize (Hkey (extractTags tags (pluginType name +:+ "." +:+ name) discovered)).
  set_solver.
Qed.
