(* ===== verification/Encoder.v ===== *)
(** The encoders of discovered endpoints: internal/discovery/utils/encoding.go,
    plugins/discovery/prometheus/encoder.go and plugins/discovery/telegraf.

    An encoder turns a resource and a rule into the configuration of a source.
    [time.ParseDuration], [Duration.String] and the YAML decoder of HTTP
    configurations are parameters. *)

From Stdlib Require Import ZArith Lia.
From S2P Require Import Prelude Filters Wf Util Prometheus Leadership Discovery Configuration Telegraf.

(** ** encoding.go *)

Definition EncodeTags (destTags : tagmap) (prefix : string) (tags : tagmap) : tagmap :=
  foldl (fun dest '(k, v) =>
    if negb (String.eqb k "pod-template-hash") && negb (String.eqb k "") && negb (String.eqb v "")
    then <[(prefix +:+ k)%string := v]> dest else dest) destTags (map_to_list tags).

Definition EncodeMeta (tags : tagmap) (kind : string) (meta : Resource) : tagmap :=
  let tags := <[kind := r_Name meta]> tags in
  if negb (String.eqb (r_Namespace meta) "") then <["namespace" := r_Namespace meta]> tags else tags.

(** The first that is not empty of: the annotation, the configuration, the
    default. *)
Definition Param (meta : Resource) (annotation cfgVal defaultVal : string) : string :=
  let value := if negb (String.eqb annotation "") then get_str (r_Annotations meta) annotation else "" in
  let value := if String.eqb value "" then cfgVal else value in
  if String.eqb value "" then defaultVal else value.

(** ** The Prometheus encoder *)

Record prometheusEncoder := MkEncoder {
  scrapeAnnotation : string;
  schemeAnnotation : string;
  pathAnnotation : string;
  portAnnotation : string;
  prefixAnnotation : string;
  labelsAnnotation : string;
  sourceAnnotation : string;
  collectionIntervalAnnotation : string;
  timeoutAnnotation : string;
  insecureSkipVerifyAnnotation : string;
  serverNameAnnotation : string;
}.

Definition customAnnotation (suffix prefix : string) : string := (prefix +:+ suffix)%string.

Definition newPrometheusEncoder (prefix : string) : prometheusEncoder :=
  let prefix := if String.eqb prefix "" then "prometheus.io" else prefix in
  MkEncoder (customAnnotation "/scrape" prefix) (customAnnotation "/scheme" prefix) (customAnnotation "/path" prefix)
    (customAnnotation "/port" prefix) (customAnnotation "/prefix" prefix) (customAnnotation "/includeLabels" prefix)
    (customAnnotation "/source" prefix) (customAnnotation "/collectionInterval" prefix)
    (customAnnotation "/timeout" prefix) (customAnnotation "/insecureSkipVerify" prefix)
    (customAnnotation "/serverName" prefix).

Definition sanitizePort (name port : string) : string :=
  if contains "kube-state-metrics" name && String.eqb port "" then "8080" else port.

Definition uniqueName (name port path : string) (internal : bool) : string :=
  let out := name in
  let out := if negb (String.eqb port "") then (out +:+ ":" +:+ port)%string else out in
  let out := if negb (String.eqb path "") then (out +:+ path)%string else out in
  if internal then (out +:+ ".internal")%string else out.

(** The URL of [encodeBase]. *)
Definition base_url (scheme ip port path : string) : string :=
  let port := if negb (String.eqb port "") then (":" +:+ port)%string else port in
  (scheme +:+ "://" +:+ ip +:+ port +:+ path)%string.

Definition missing_ip (ip : string) : bool := String.eqb ip "" || String.eqb ip "None".

Section prometheus.
Context (ParseDuration : string -> result Z) (Duration_String : Z -> string).
Context (httpFromYAML : string -> result ClientConfig).
(** The name of the collector's node. *)
Context (nodeName : string).

Definition encodeHTTPConf (conf insecure serverName : string) : result ClientConfig :=
  if negb (String.eqb conf "") then httpFromYAML conf
  else
    let insecureBool :=
      if negb (String.eqb insecure "") then default false (ParseBool insecure)
      else if negb (String.eqb serverName "") then false
      else true in
    Ok (MkClientConfig "" "" None (MkTLS "" "" "" serverName insecureBool)).

(** The tags of the source. *)
Definition encode_tags (meta : Resource) (tags : tagmap) (includeLabels : string) : tagmap :=
  let out := EncodeTags (EncodeMeta ∅ (r_Kind meta) meta) "" tags in
  if String.eqb includeLabels "true" then EncodeTags out "label." (r_Labels meta) else out.

(** [Encode] of a resource and a rule; [None] is the third result [false]. *)
Definition Encode (e : prometheusEncoder) (meta : Resource) (rule : Rule) : option (string * PrometheusSourceConfig) :=
  let cfg := pc_rest rule in
  if missing_ip (r_IP meta) then None
  else
    let discoveryType := if negb (String.eqb (pc_Name rule) "") then "rule" else "annotation" in
    let useLeaderElection := String.eqb (r_Kind meta) (ResourceType_String ServiceType) in
    let collectionInterval :=
      Param meta (collectionIntervalAnnotation e) (Duration_String (cl_Interval (pr_Collection cfg))) "0s" in
    let timeout := Param meta (timeoutAnnotation e) (Duration_String (cl_Timeout (pr_Collection cfg))) "0s" in
    match ParseDuration collectionInterval, ParseDuration timeout with
    | Ok collectionDuration, Ok timeoutDuration =>
        let scrape := Param meta (scrapeAnnotation e) "" "false" in
        if String.eqb (pc_Name rule) "" && negb (String.eqb scrape "true") then None
        else
          let scheme := Param meta (schemeAnnotation e) (pr_Scheme cfg) "http" in
          let path := Param meta (pathAnnotation e) (pr_Path cfg) "/metrics" in
          let port := Param meta (portAnnotation e) (pc_Port rule) "" in
          let prefix := Param meta (prefixAnnotation e) (pr_Prefix cfg) "" in
          let source := Param meta (sourceAnnotation e) (pr_Source cfg) nodeName in
          let includeLabels := Param meta (labelsAnnotation e) (pr_IncludeLabels cfg) "true" in
          let insecureSkipVerify := Param meta (insecureSkipVerifyAnnotation e) "" "" in
          let serverName := Param meta (serverNameAnnotation e) "" "" in
          let source := if String.eqb source "" then r_Name meta else source in
          let port := sanitizePort (r_Name meta) port in
          let name := uniqueName (ResourceName meta) port path (pr_Internal cfg) in
          match encodeHTTPConf (pr_Conf cfg) insecureSkipVerify serverName with
          | Err _ => None
          | Ok http =>
              Some (name, MkPromSource
                (MkTransforms source prefix (encode_tags meta (pr_Tags cfg) includeLabels) (pr_Filters cfg))
                (MkCollection collectionDuration timeoutDuration)
                (base_url scheme (r_IP meta) port path) http discoveryType name useLeaderElection)
          end
    | _, _ => None
    end.
End prometheus.

(** ** The Telegraf encoder *)

(** [strings.Replace(s, old, new, -1)] for a non-empty [old]; the fuel bounds
    the number of characters visited. *)
Fixpoint replace_all (fuel : nat) (old new s : string) : string :=
  match fuel with
  | O => s
  | S fuel =>
      match s with
      | EmptyString => ""
      | String c s' =>
          if has_prefix old s then (new +:+ replace_all fuel old new (str_drop (String.length old) s))%string
          else String c (replace_all fuel old new s')
      end
  end.
Definition Replace (s old new : string) : string := replace_all (S (String.length s)) old new s.

Definition PrefixAnnotation : string := "wavefront.com/prefix".
Definition LabelsAnnotation : string := "wavefront.com/includeLabels".

Definition telegraf_uniqueName (name port : string) : string :=
  if String.eqb port "" then name else (name +:+ ":" +:+ port)%string.

Definition telegraf_Encode (meta : Resource) (rule : Rule) : option (string * TelegrafSourceConfig) :=
  let cfg := pc_rest rule in
  if missing_ip (r_IP meta) then None
  else
    let useLeaderElection := String.eqb (r_Kind meta) (ResourceType_String ServiceType) in
    let name := telegraf_uniqueName (ResourceName meta) (pc_Port rule) in
    let pluginName := Replace (pc_Type rule) "telegraf/" "" in
    let scheme := Param meta "" (pr_Scheme cfg) "http" in
    let server := (scheme +:+ "://" +:+ r_IP meta +:+ ":" +:+ pc_Port rule)%string in
    let conf := Replace (pr_Conf cfg) "${server}" server in
    let conf := Replace conf "${host}" (r_IP meta) in
    let conf := Replace conf "${port}" (pc_Port rule) in
    let prefix := Param meta PrefixAnnotation (pr_Prefix cfg) "" in
    let includeLabels := Param meta LabelsAnnotation (pr_IncludeLabels cfg) "true" in
    Some (name, MkTelegraf
      (MkTransforms "" prefix (encode_tags meta (pr_Tags cfg) includeLabels) (pr_Filters cfg))
      (pr_Collection cfg) [pluginName] conf "rule" name useLeaderElection).

(** ** The encoders the discoverer uses *)

Inductive source_config := PromConfig (c : PrometheusSourceConfig) | TelConfig (c : TelegrafSourceConfig).

Section encoders.
Context (ParseDuration : string -> result Z) (Duration_String : Z -> string).
Context (httpFromYAML : string -> result ClientConfig) (nodeName : string).

Definition encoders (annotationPrefix : string) : gmap string (Resource -> Rule -> option (string * source_config)) :=
  <["prometheus" := fun r rule =>
      '(n, c) ← Encode ParseDuration Duration_String httpFromYAML nodeName (newPrometheusEncoder annotationPrefix) r rule;
      Some (n, PromConfig c)]>
    {["telegraf" := fun r rule => '(n, c) ← telegraf_Encode r rule; Some (n, TelConfig c)]}.
End encoders.

(** ** Lemmas *)

Definition encodes (k v : string) : bool :=
  negb (String.eqb k "pod-template-hash") && negb (String.eqb k "") && negb (String.eqb v "").

Lemma EncodeTags_lookup dst p tags k :
  EncodeTags dst p tags !! (p +:+ k)%string =
    match tags !! k with Some v => if encodes k v then Some v else dst !! (p +:+ k)%string | None => dst !! (p +:+ k)%string end.
Proof. apply (foldl_insert_lookup (fun k => p +:+ k)%string encodes). intros a b. apply str_app_inj_l. Qed.

Lemma EncodeTags_other dst p tags k' :
  (forall k, (p +:+ k)%string <> k') -> EncodeTags dst p tags !! k' = dst !! k'.
Proof. apply (foldl_insert_other (fun k => p +:+ k)%string encodes). Qed.

Lemma app_prefix p k : has_prefix p (p +:+ k)%string = true.
Proof.
  induction p as [|c p IH]; [done|]. change (Ascii.eqb c c && has_prefix p (p +:+ k) = true). by rewrite Ascii.eqb_refl.
Qed.

Lemma has_prefix_split p s : has_prefix p s = true -> s = (p +:+ str_drop (String.length p) s)%string.
Proof.
  revert s; induction p as [|c p IH]; intros [|d s]; cbn; try done.
  intros [->%Ascii.eqb_eq H]%andb_prop. exact (f_equal (String d) (IH s H)).
Qed.

Lemma has_prefix_none p k' : has_prefix p k' = false -> forall k, (p +:+ k)%string <> k'.
Proof. intros H k <-. by rewrite app_prefix in H. Qed.

(** What [EncodeMeta] contributes. *)
Definition meta_tag (meta : Resource) (k : string) : option string :=
  if negb (String.eqb (r_Namespace meta) "") && String.eqb k "namespace" then Some (r_Namespace meta)
  else if String.eqb k (r_Kind meta) then Some (r_Name meta) else None.

Lemma EncodeMeta_lookup meta k : EncodeMeta ∅ (r_Kind meta) meta !! k = meta_tag meta k.
Proof.
  unfold EncodeMeta, meta_tag. destruct (String.eqb (r_Namespace meta) ""); cbn [negb andb].
  - destruct (String.eqb_spec k (r_Kind meta)) as [->|Hne]; [by rewrite lookup_insert_eq|].
    by rewrite lookup_insert_ne, lookup_empty.
  - destruct (String.eqb_spec k "namespace") as [->|Hn]; [by rewrite lookup_insert_eq|].
    rewrite lookup_insert_ne by done.
    destruct (String.eqb_spec k (r_Kind meta)) as [->|Hne]; [by rewrite lookup_insert_eq|].
    by rewrite lookup_insert_ne, lookup_empty.
Qed.

(** The tag of a rule, and the label behind a tag. *)
Definition accepted (tags : tagmap) (k : string) : option string :=
  match tags !! k with Some v => if encodes k v then Some v else None | None => None end.
Definition label_of (k : string) : option string :=
  if has_prefix "label." k then Some (str_drop (String.length "label.") k) else None.

(** ** Properties *)

(** The tags of a discovered source.  A tag is, in this order of
    precedence, an accepted label of the resource under "label.<name>" (when
    labels are included), an accepted tag of the rule, the namespace, or the
    name of the resource under its kind; there are no others.  Empty names
    and values and the pod template hash are not accepted. *)
Theorem encode_tags_spec (meta : Resource) (tags : tagmap) (includeLabels k : string) :
  let label := if String.eqb includeLabels "true" then label_of k ≫= accepted (r_Labels meta) else None in
  encode_tags meta tags includeLabels !! k =
    match label with
    | Some v => Some v
    | None => match accepted tags k with Some v => Some v | None => meta_tag meta k end
    end.
Proof.
  unfold encode_tags. cbn zeta.
  assert (Hbase : EncodeTags (EncodeMeta ∅ (r_Kind meta) meta) "" tags !! k =
    match accepted tags k with Some v => Some v | None => meta_tag meta k end).
  { rewrite (EncodeTags_lookup _ "" tags k), EncodeMeta_lookup. unfold accepted.
    destruct (tags !! k) as [v|]; [|done]. by destruct (encodes k v). }
  destruct (String.eqb includeLabels "true"); [|exact Hbase].
  unfold label_of. destruct (has_prefix "label." k) eqn:E.
  - apply has_prefix_split in E. rewrite E at 1. set (l := str_drop _ _) in *.
    rewrite EncodeTags_lookup, <- E, Hbase. cbn [mbind option_bind]. unfold accepted.
    destruct (r_Labels meta !! l) as [v|]; [|done]. by destruct (encodes l v).
  - rewrite EncodeTags_other; [exact Hbase|]. by apply has_prefix_none.
Qed.

(** The HTTP configuration of a discovered source.  Without explicit
    configuration in the rule, certificates go unverified exactly when the
    annotation says so or when neither it nor a server name is given; an
    annotation that does not parse keeps verification on.  With a
    configuration, the source is built only when it parses. *)
Theorem encodeHTTPConf_spec (httpFromYAML : string -> result ClientConfig) (conf insecure serverName : string) :
  match encodeHTTPConf httpFromYAML conf insecure serverName with
  | Err e => conf <> "" /\ httpFromYAML conf = Err e
  | Ok cfg =>
      (conf <> "" -> httpFromYAML conf = Ok cfg) /\
      (conf = "" -> tls_ServerName (hc_TLSConfig cfg) = serverName /\
         (tls_InsecureSkipVerify (hc_TLSConfig cfg) = true <->
          ParseBool insecure = Some true \/ (insecure = "" /\ serverName = "")))
  end.
Proof.
  unfold encodeHTTPConf. destruct (String.eqb_spec conf "") as [->|Hne]; cbn [negb].
  - split; [done|]. intros _. cbn. split; [done|].
    destruct (String.eqb_spec insecure "") as [->|Hi]; cbn [negb].
    + destruct (String.eqb_spec serverName "") as [->|Hs]; cbn; [naive_solver|].
      split; [done|]. intros [H|[_ H]]; [by vm_compute in H|done].
    + destruct (ParseBool insecure) as [[]|]; cbn; naive_solver.
  - destruct (httpFromYAML conf); [|done]. by split.
Qed.

Definition resource_at (kind namespace name : string) : Resource :=
  MkResource kind "10.0.0.1" name namespace ∅ ∅ "" [].

(** The names of resources.  Two resources of one kind whose namespaces
    hold no dash (and exist, both or neither) have the same name only if they
    are the same; with dashes, which Kubernetes allows, two different pods can
    share a name.  The discoverer then takes them for one resource: unless
    they have the same endpoints, discovering the second deletes the
    endpoints of the first. *)
Theorem ResourceName_identifies :
  (forall r1 r2, r_Kind r1 = r_Kind r2 -> (r_Namespace r1 = "" <-> r_Namespace r2 = "") ->
     str_free "-" (r_Namespace r1) = true -> str_free "-" (r_Namespace r2) = true ->
     ResourceName r1 = ResourceName r2 -> r_Namespace r1 = r_Namespace r2 /\ r_Name r1 = r_Name r2) /\
  ResourceName (resource_at "pod" "a" "b-pod-c") = ResourceName (resource_at "pod" "a-pod-b" "c") /\
  (forall {R C} `{!EqDecision C} (zero : R) (encs : gmap string (Resource -> PluginConfig R -> option (string * C)))
     e order r1 r2 m, ResourceName r1 = ResourceName r2 ->
     discoverEndpoints zero encs e order r1 <> [] ->
     discoverEndpoints zero encs e order r1 <> discoverEndpoints zero encs e order r2 ->
     forall ep, ep ∈ discoverEndpoints zero encs e order r1 ->
       CDelete ep ∈ (internalDiscover zero encs e order r2 (internalDiscover zero encs e order r1 m).1).2).
Proof.
  split; [|split; [done|]].
  - intros r1 r2 Hk Hn H1 H2. unfold ResourceName. rewrite Hk.
    destruct (String.eqb_spec (r_Namespace r1) "") as [E1|E1], (String.eqb_spec (r_Namespace r2) "") as [E2|E2];
      cbn [negb]; try naive_solver.
    + rewrite E1, E2. intros H. split; [done|]. by apply str_app_inj_l, str_app_inj_l in H.
    + intros H. apply (str_sep_inj "-") in H as [-> H]; [|done|done].
      split; [done|]. by apply str_app_inj_l, (str_app_inj_l "-") in H.
  - intros R C HC zero encs e order r1 r2 m Hname Hne Hdiff ep Hep. unfold internalDiscover at 1. rewrite <- Hname.
    assert (default [] ((internalDiscover zero encs e order r1 m).1 !! ResourceName r1) =
      discoverEndpoints zero encs e order r1) as ->.
    { unfold internalDiscover. destruct (discoverEndpoints zero encs e order r1) as [|x l]; [done|]. cbn [nil_list].
      case_bool_decide; cbn [fst]; by rewrite lookup_insert_eq. }
    rewrite bool_decide_false by congruence. cbn [snd]. rewrite elem_of_app. left. by apply list_elem_of_fmap_2.
Qed.

Section encode.
Context (ParseDuration : string -> result Z) (Duration_String : Z -> string).
Context (httpFromYAML : string -> result ClientConfig) (nodeName : string).


Lemma ResourceName_nonempty meta s : (ResourceName meta +:+ s)%string <> "".
Proof. unfold ResourceName. destruct (r_Kind meta), (r_Namespace meta); done. Qed.

Lemma uniqueName_nonempty meta port path internal : uniqueName (ResourceName meta) port path internal <> "".
Proof.
  unfold uniqueName. pose proof (ResourceName_nonempty meta) as H. pose proof (H "") as H0. rewrite str_app_nil_r in H0.
  destruct (negb (String.eqb port "")), (negb (String.eqb path "")), internal; rewrite ?str_app_assoc; done.
Qed.

Lemma Encode_name e meta rule name c :
  Encode ParseDuration Duration_String httpFromYAML nodeName e meta rule = Some (name, c) -> ps_Name c = name /\ name <> "".
Proof.
  unfold Encode. repeat (case_match; try done).
  all: intros [= <- <-]; split; [done|apply uniqueName_nonempty].
Qed.

Lemma telegraf_Encode_name meta rule name c :
  telegraf_Encode meta rule = Some (name, c) -> tg_Name c = name /\ name <> "".
Proof.
  unfold telegraf_Encode. destruct (missing_ip (r_IP meta)); [done|]. intros [= <- <-]. split; [done|].
  unfold telegraf_uniqueName. pose proof (ResourceName_nonempty meta) as H. pose proof (H "") as H0.
  rewrite str_app_nil_r in H0. by destruct (String.eqb (pc_Port rule) "").
Qed.

(** Deleting an endpoint removes its source.  Whatever encoder built an
    endpoint, the provider built from its configuration registers under the
    name of its factory followed by the name of the endpoint, which is the
    name the handler deletes. *)
Theorem endpoint_names_provider (annotationPrefix : string) (meta : Resource) (rule : Rule) (name : string)
    (cfg : source_config) (t : string) (encode : Resource -> Rule -> option (string * source_config)) :
  encoders ParseDuration Duration_String httpFromYAML nodeName annotationPrefix !! t = Some encode ->
  encode meta rule = Some (name, cfg) ->
  match cfg with
  | PromConfig c => t = "prometheus" /\ provider_name (ps_Name c) (ps_URL c) = ("prometheus_metrics_provider: " +:+ name)%string
  | TelConfig c => t = "telegraf" /\
      forall P Inputs Unmarshal a (p : telegrafProvider (P := P)),
        NewProvider Inputs Unmarshal a c = Ok p -> tp_name p = (providerName +:+ ": " +:+ name)%string
  end.
Proof.
  unfold encoders. destruct (decide (t = "prometheus")) as [->|Hn1].
  - rewrite lookup_insert_eq. intros [= <-] He. apply bind_Some in He as ([n c] & He & [= <- <-]).
    apply Encode_name in He as [-> Hne]. split; [done|]. unfold provider_name, nonempty.
    apply String.eqb_neq in Hne. by rewrite Hne.
  - rewrite lookup_insert_ne by done. intros [<- <-]%lookup_singleton_Some He.
    apply bind_Some in He as ([n c] & He & [= <- <-]). apply telegraf_Encode_name in He as [Hn Hne]. split; [done|].
    intros P Inputs Unmarshal a p. unfold NewProvider.
    destruct (foldM _ _ _) as [[sources host]|err]; cbn [mbind result_bind]; [|done]. intros [= <-]. cbn [tp_name].
    rewrite Hn. apply String.eqb_neq in Hne. by rewrite Hne.
Qed.
End encode.

Definition sample_rule : Rule :=
  MkPlugin "redis" "telegraf/redis" (MkSelectors "pod" ["redis*"] ∅ []) "6379"
    (MkRest "" "" "servers = [${server}]" "" "" ∅ "" Config.zero collection_zero false).

Lemma endpoint_names_provider_witness :
  exists c, telegraf_Encode (resource_at "pod" "default" "redis") sample_rule = Some ("default-pod-redis:6379", c) /\
    tg_Conf c = "servers = [http://10.0.0.1:6379]" /\
    forall p, NewProvider (fun n => if String.eqb n "redis" then Some tt else None) (fun _ u => Some (Ok u)) AllAgentType c = Ok p ->
      tp_name p = "telegraf_provider: default-pod-redis:6379".
Proof.
  eexists. split; [by vm_compute|]. split; [by vm_compute|].
  refine (proj2 (endpoint_names_provider (fun _ => Ok 0%Z) (fun _ => "0s") (fun _ => Err "") "node" ""
    (resource_at "pod" "default" "redis") sample_rule "default-pod-redis:6379" (TelConfig _) "telegraf" _ eq_refl _) unit _ _ _).
  by vm_compute.
Defined.

Lemma ResourceName_identifies_witness :
  ResourceName (resource_at "pod" "a" "x") = ResourceName (resource_at "pod" "a" "x") /\ "a" = "a" /\ "x" = "x".
Proof.
  split; [done|]. by apply (proj1 ResourceName_identifies (resource_at "pod" "a" "x") (resource_at "pod" "a" "x")).
Defined.
