(* ===== verification/FloatExact.v ===== *)
(** Exactness of binary64 on small integers.

    [f64_of_Z n] of an integer below 2^53 is the integer, and sums and products
    that stay below 2^53 are exact: adding floats that hold such integers is
    adding the integers.  Counters that the collector keeps as [float64] are
    integers because of this. *)

From Stdlib Require Import ZArith Lia SpecFloat Zpow_facts.
From S2P Require Import Prelude GoFloat.

Local Open Scope Z_scope.

(** The number of binary digits of a positive number. *)
Definition digits (n : Z) : Z := Z.log2 n + 1.

Lemma Zdigits2_digits p : Zdigits2 (Z.pos p) = digits (Z.pos p).
Proof.
  unfold digits. cbn [Zdigits2]. induction p as [p IH|p IH|]; [| |done]; cbn [digits2_pos].
  - rewrite Pos2Z.inj_succ, IH. rewrite (Pos2Z.inj_xI p), Z.log2_succ_double by done. lia.
  - rewrite Pos2Z.inj_succ, IH. rewrite (Pos2Z.inj_xO p), Z.log2_double by done. lia.
Qed.

Lemma digits_shift n k : 0 < n -> 0 <= k -> digits (n * 2 ^ k) = digits n + k.
Proof. intros Hn Hk. unfold digits. rewrite Z.log2_mul_pow2 by done. lia. Qed.

Lemma digits_bound n k : 0 < n < 2 ^ k -> 0 < digits n <= k.
Proof.
  intros [Hn Hk]. unfold digits. pose proof (Z.log2_nonneg n).
  assert (0 < k) by (destruct (Z.lt_trichotomy k 0) as [?|[->|?]]; [rewrite Z.pow_neg_r in Hk; lia|cbn in Hk; lia|lia]).
  apply Z.log2_lt_pow2 in Hk; lia.
Qed.

Lemma iter_shr_nat p mrs : SpecFloat.iter_pos shr_1 p mrs = Nat.iter (Pos.to_nat p) shr_1 mrs.
Proof.
  revert mrs; induction p as [p IH|p IH|]; intros mrs; cbn [SpecFloat.iter_pos]; [| |done].
  - rewrite !IH, Pos2Nat.inj_xI, <- Nat.iter_add. replace (S (2 * Pos.to_nat p)) with (Pos.to_nat p + Pos.to_nat p + 1)%nat by lia.
    by rewrite (Nat.iter_add (Pos.to_nat p + Pos.to_nat p)).
  - rewrite !IH, Pos2Nat.inj_xO, <- Nat.iter_add. f_equal. lia.
Qed.

(** Shifting out zero bits loses nothing. *)
Lemma shr_exact m s e :
  0 < m -> 0 <= s -> shr (Build_shr_record (m * 2 ^ s) false false) e s = (Build_shr_record m false false, e + s).
Proof.
  intros Hm Hs. destruct s as [|p|p]; [|clear Hs|lia].
  { cbn. by rewrite Z.mul_1_r, Z.add_0_r. }
  unfold shr. f_equal. rewrite iter_shr_nat, <- (positive_nat_Z p).
  induction (Pos.to_nat p) as [|n IH]; [by rewrite Z.mul_1_r|].
  rewrite Nat.iter_succ_r. rewrite <- IH. f_equal. rewrite Nat2Z.inj_succ, Z.pow_succ_r by lia.
  replace (m * (2 * 2 ^ Z.of_nat n)) with (2 * (m * 2 ^ Z.of_nat n)) by lia.
  assert (0 < m * 2 ^ Z.of_nat n) by (apply Z.mul_pos_pos; [done|]; apply Z.pow_pos_nonneg; lia).
  by destruct (m * 2 ^ Z.of_nat n).
Qed.

(** The canonical float of an integer with at most 53 digits. *)
Definition small_float (n : Z) : f64 := S754_finite false (Z.to_pos (n * 2 ^ (53 - digits n))) (digits n - 53).

Lemma fexp_small d : 0 < d -> fexp 53 1024 d = d - 53.
Proof. intros. unfold fexp, emin. lia. Qed.

(** Rounding an integer that has been scaled by a power of two. *)
Lemma round_scaled n k m e :
  0 < n < 2 ^ 53 -> 53 - digits n <= k -> Z.pos m = n * 2 ^ k -> e = - k ->
  binary_round_aux 53 1024 false (Z.pos m) e loc_Exact = small_float n.
Proof.
  intros Hn Hk Hm ->. pose proof (digits_bound n 53 Hn) as Hd.
  set (q := n * 2 ^ (53 - digits n)).
  assert (Hq : 0 < q) by (apply Z.mul_pos_pos; [lia|]; apply Z.pow_pos_nonneg; lia).
  assert (Hdq : digits q = 53) by (unfold q; rewrite digits_shift; lia).
  assert (Hmq : Z.pos m = q * 2 ^ (k - (53 - digits n))).
  { rewrite Hm. unfold q. rewrite <- Z.mul_assoc, <- Z.pow_add_r by lia. do 2 f_equal. lia. }
  assert (Hfix : forall e', e' = digits n - 53 -> shr_fexp 53 1024 q e' loc_Exact = (Build_shr_record q false false, e')).
  { intros e' ->. unfold shr_fexp. cbn [shr_record_of_loc]. destruct q as [|q'|q'] eqn:Eq; try lia.
    rewrite Zdigits2_digits, Hdq, fexp_small by lia. rewrite <- Eq.
    pose proof (shr_exact q 0 (digits n - 53)) as H. rewrite Z.mul_1_r in H.
    replace (53 + (digits n - 53) - 53 - (digits n - 53)) with 0 by lia. rewrite H by lia. f_equal. lia. }
  unfold binary_round_aux. unfold shr_fexp at 1. cbn [shr_record_of_loc]. rewrite Zdigits2_digits.
  assert (digits (Z.pos m) + - k = digits n) as -> by (rewrite Hm, digits_shift; lia).
  rewrite fexp_small, Hmq by lia. replace (digits n - 53 - - k) with (k - (53 - digits n)) by lia.
  rewrite shr_exact by lia. cbn [shr_m loc_of_shr_record round_nearest_even].
  rewrite Hfix by lia. cbn [shr_m]. unfold small_float. fold q.
  destruct q as [|q'|q'] eqn:Eq; try lia. cbn [Z.to_pos].
  assert ((- k + (k - (53 - digits n)) <=? 1024 - 53) = true) as -> by (apply Z.leb_le; lia).
  f_equal. lia.
Qed.

Lemma iter_xO d m : Z.pos (Pos.iter xO m d) = Z.pos m * 2 ^ Z.pos d.
Proof.
  change (Pos.iter xO m d) with (shift_pos d m). rewrite shift_pos_correct. rewrite Z.pow_pos_fold. lia.
Qed.

Lemma normalize_scaled n k : 0 < n < 2 ^ 53 -> 0 <= k -> binary_normalize 53 1024 (n * 2 ^ k) (- k) false = small_float n.
Proof.
  intros Hn Hk. pose proof (digits_bound n 53 Hn) as Hd.
  assert (Hp : 0 < n * 2 ^ k) by (apply Z.mul_pos_pos; [lia|]; apply Z.pow_pos_nonneg; lia).
  destruct (n * 2 ^ k) as [|m|m] eqn:Em; try lia. cbn [binary_normalize]. unfold binary_round, shl_align.
  assert (Zdigits2 (Z.pos m) + - k = digits n) as Hdm by (rewrite Zdigits2_digits, <- Em, digits_shift; lia).
  cbn [Zdigits2] in Hdm. rewrite Hdm, fexp_small by lia.
  destruct (digits n - 53 - - k) as [|d|d] eqn:Ed.
  - apply (round_scaled n k); lia.
  - apply (round_scaled n k); lia.
  - apply (round_scaled n (53 - digits n)); [done|lia| |lia].
    rewrite iter_xO, <- Em, <- Z.mul_assoc, <- Z.pow_add_r by lia. do 2 f_equal. lia.
Qed.

(** ** The arithmetic *)

Lemma f64_of_Z_small n : 0 < n < 2 ^ 53 -> f64_of_Z n = small_float n.
Proof. intros Hn. unfold f64_of_Z. rewrite <- (Z.mul_1_r n) at 1. apply (normalize_scaled n 0); lia. Qed.

(** The mantissa of a small integer, brought to a smaller exponent. *)
Lemma align_small n e :
  0 < n < 2 ^ 53 -> e <= digits n - 53 ->
  Z.pos (fst (shl_align (Z.to_pos (n * 2 ^ (53 - digits n))) (digits n - 53) e)) = n * 2 ^ (- e).
Proof.
  intros Hn He. pose proof (digits_bound n 53 Hn) as Hd.
  assert (Hq : 0 < n * 2 ^ (53 - digits n)) by (apply Z.mul_pos_pos; [lia|]; apply Z.pow_pos_nonneg; lia).
  unfold shl_align. destruct (e - (digits n - 53)) as [|d|d] eqn:Ed; cbn [fst]; [|lia|].
  - rewrite Z2Pos.id by done. do 2 f_equal. lia.
  - rewrite iter_xO, Z2Pos.id, <- Z.mul_assoc, <- Z.pow_add_r by lia. do 2 f_equal. lia.
Qed.

(** Adding floats that hold integers is adding the integers, while the sum is
    below 2^53. *)
Lemma f64_add_exact n m : 0 <= n -> 0 <= m -> n + m < 2 ^ 53 -> f64_add (f64_of_Z n) (f64_of_Z m) = f64_of_Z (n + m).
Proof.
  intros Hn Hm Hs. destruct (decide (n = 0)) as [->|Hn0].
  { destruct (decide (m = 0)) as [->|Hm0]; [done|]. change (0 + m) with m. rewrite (f64_of_Z_small m) by lia. reflexivity. }
  destruct (decide (m = 0)) as [->|Hm0].
  { rewrite Z.add_0_r, (f64_of_Z_small n) by lia. reflexivity. }
  rewrite (f64_of_Z_small n), (f64_of_Z_small m) by lia. unfold f64_add, small_float, SFadd. cbn [cond_Zopp].
  pose proof (digits_bound n 53 ltac:(lia)). pose proof (digits_bound m 53 ltac:(lia)).
  set (e := Z.min (digits n - 53) (digits m - 53)).
  rewrite !align_small, <- Z.mul_add_distr_r by lia.
  rewrite <- (Z.opp_involutive e) at 2. rewrite normalize_scaled by lia. by rewrite f64_of_Z_small by lia.
Qed.

(** Counting by ones in a [float64]. *)
Lemma count_exact {A} (P : A -> bool) (l : list A) n :
  0 <= n -> n + Z.of_nat (length l) < 2 ^ 53 ->
  foldl (fun acc a => if P a then f64_add acc f64_one else acc) (f64_of_Z n) l
    = f64_of_Z (n + Z.of_nat (length (List.filter P l))).
Proof.
  revert n; induction l as [|a l IH]; intros n Hn Hl; cbn [foldl List.filter length] in *; [by rewrite Z.add_0_r|].
  destruct (P a).
  - unfold f64_one at 2. rewrite f64_add_exact, IH by lia. cbn [length]. f_equal. lia.
  - rewrite IH by lia. done.
Qed.
