(* ===== verification/Interleaving.v ===== *)
(** Several producers, one channel.

    A source whose goroutines send points over one channel, which another
    goroutine filters as they arrive, gets the points in any order that keeps
    the order of each producer.  This file says what such an order is and
    proves that, as long as the producers share no tag map, the points that
    pass the filter are the same in all of them. *)

From Stdlib Require Import ZArith Lia.
From S2P Require Import Prelude GoFloat Filters Wf PointGroups.

(** [interleaving ls l]: the receiver sees [l] when the producers send [ls]. *)
Inductive interleaving {A} : list (list A) -> list A -> Prop :=
  | interleaving_nil ls : Forall (fun xs => xs = []) ls -> interleaving ls []
  | interleaving_cons ls1 x xs ls2 l :
      interleaving (ls1 ++ xs :: ls2) l -> interleaving (ls1 ++ (x :: xs) :: ls2) (x :: l).

Lemma concat_nils {A} (ls : list (list A)) : Forall (fun xs => xs = []) ls -> concat ls = [].
Proof. induction 1 as [|xs ls -> _ IH]; [done|exact IH]. Qed.

Lemma interleaving_perm {A} (ls : list (list A)) l : interleaving ls l -> l ≡ₚ concat ls.
Proof.
  induction 1 as [ls Hls|ls1 x xs ls2 l _ IH]; [by rewrite concat_nils|].
  rewrite IH, !concat_app. cbn. by rewrite Permutation_middle.
Qed.

Section filtering.
Context {F : Type} `{!MetricFilter F} (f : option F).

(** The same heap and count; the points in another order. *)
Definition reordered (s s' : heap * list wfmetric * Z) : Prop :=
  s.1.1 = s'.1.1 /\ s.1.2 ≡ₚ s'.1.2 /\ s.2 = s'.2.

#[export] Instance reordered_equiv : Equivalence reordered.
Proof.
  split.
  - by intros s.
  - intros s s' (? & ? & ?). by split_and!.
  - intros s1 s2 s3 (? & ? & ?) (? & ? & ?). split_and!; try congruence. by etransitivity.
Qed.

Definition passes (h : heap) (m : wfmetric) : bool :=
  match f with Some f => match_metric f (Metric_Name m) (Metric_Tags h m) | None => true end.
Definition passed (h : heap) (m : wfmetric) : heap * wfmetric :=
  match f with Some f => FilterTags (match_tag f) h m | None => (h, m) end.

Lemma filter_step_eq h acc n m :
  filter_step f (h, acc, n) m =
    if passes h m then ((passed h m).1, acc ++ [(passed h m).2], n) else (h, acc, (n + 1)%Z).
Proof.
  unfold filter_step, FilterAppend, Filter, passes, passed. destruct f as [g|]; [|by rewrite Z.add_0_r].
  destruct (match_metric g _ _); cbn [negb]; [|done]. destruct (FilterTags _ h m). cbn. by rewrite Z.add_0_r.
Qed.

#[export] Instance filter_step_proper m : Proper (reordered ==> reordered) (fun st => filter_step f st m).
Proof.
  intros [[h acc] n] [[h' acc'] n'] (E1 & E2 & E3). cbn [fst snd] in *. subst. cbv beta. rewrite !filter_step_eq.
  destruct (passes h' m); split_and!; try done. cbn. by rewrite E2.
Qed.

#[export] Instance filter_points_proper : Proper (reordered ==> eq ==> reordered) (filter_points f).
Proof.
  intros s s' E ms _ <-. revert s s' E; induction ms as [|m ms IH]; intros s s' E; [done|].
  apply IH. exact (filter_step_proper m s s' E).
Qed.

(** Metrics without a common tag map. *)
Definition apart (a b : wfmetric) : Prop := forall l, tags_ref a = Some l -> tags_ref b <> Some l.

Lemma passed_deref h a b : apart a b -> deref (passed h a).1 (tags_ref b) = deref h (tags_ref b).
Proof.
  intros Hab. unfold passed. destruct f as [g|]; [|done]. destruct (tags_ref b) as [l|] eqn:E; [|done]. cbn [deref].
  rewrite FilterTags_heap; [done|]. intros Ha. by apply (Hab l Ha).
Qed.

Lemma passes_deref h h' m : deref h (tags_ref m) = deref h' (tags_ref m) -> passes h m = passes h' m.
Proof. intros E. unfold passes. destruct f as [g|]; [|done]. assert (Metric_Tags h m = Metric_Tags h' m) as -> by (destruct m; cbn in *; by rewrite E). done. Qed.

Lemma passed_snd h h' m : (passed h m).2 = (passed h' m).2.
Proof. unfold passed. by destruct f. Qed.

Lemma passed_comm h a b : apart a b -> (passed (passed h a).1 b).1 = (passed (passed h b).1 a).1.
Proof.
  intros Hab. unfold passed. destruct f as [g|]; [|done]. unfold FilterTags. cbn [fst].
  destruct (tags_ref a) as [la|] eqn:Ea, (tags_ref b) as [lb|] eqn:Eb; try done.
  assert (la <> lb) by (intros ->; by apply (Hab lb)).
  destruct (h !! la) as [ta|] eqn:Ta, (h !! lb) as [tb|] eqn:Tb;
    rewrite ?lookup_insert_ne, ?Ta, ?Tb by done; try done. by rewrite insert_insert_ne.
Qed.

Lemma apart_sym a b : apart a b -> apart b a.
Proof. intros H l Hb Ha. by apply (H l). Qed.

(** Two metrics that are apart can be filtered in either order. *)
Lemma filter_step_swap st a b :
  apart a b -> reordered (filter_step f (filter_step f st a) b) (filter_step f (filter_step f st b) a).
Proof.
  intros Hab. destruct st as [[h acc] n]. rewrite !filter_step_eq.
  pose proof (passes_deref _ _ _ (passed_deref h a b Hab)) as Hb.
  pose proof (passes_deref _ _ _ (passed_deref h b a (apart_sym _ _ Hab))) as Ha.
  destruct (passes h a) eqn:Pa, (passes h b) eqn:Pb; rewrite !filter_step_eq, ?Ha, ?Hb, ?Pa, ?Pb; try done.
  split_and!; [by apply passed_comm| |done]. cbn.
  rewrite (passed_snd (passed h a).1 h), (passed_snd (passed h b).1 h), <- !app_assoc. cbn.
  apply Permutation_app_head, perm_swap.
Qed.

Lemma filter_points_front st a ms :
  Forall (apart a) ms -> reordered (filter_points f (filter_step f st a) ms) (filter_step f (filter_points f st ms) a).
Proof.
  revert st; induction ms as [|b ms IH]; intros st Ha; [done|]. apply Forall_cons in Ha as [Hb Ha].
  change (filter_points f ?s (b :: ms)) with (filter_points f (filter_step f s b) ms).
  etransitivity; [|by apply IH]. apply filter_points_proper; [by apply filter_step_swap|done].
Qed.

(** Producers of which no two share a tag map. *)
Definition separate (ls : list (list wfmetric)) : Prop :=
  forall i j xs ys x y, i <> j -> ls !! i = Some xs -> ls !! j = Some ys -> x ∈ xs -> y ∈ ys -> apart x y.

Lemma separate_tail ls1 x xs ls2 : separate (ls1 ++ (x :: xs) :: ls2) -> separate (ls1 ++ xs :: ls2).
Proof.
  intros H i j us vs u v Hij Hi Hj Hu Hv.
  assert (Hw : forall k ws w, (ls1 ++ xs :: ls2) !! k = Some ws -> w ∈ ws ->
    exists ws', (ls1 ++ (x :: xs) :: ls2) !! k = Some ws' /\ w ∈ ws').
  { intros k ws w Hk Hin. apply lookup_app_Some in Hk as [Hk|[Hl Hk]].
    - exists ws. by rewrite lookup_app_l by (by eapply lookup_lt_Some).
    - rewrite lookup_app_r by done. destruct (k - length ls1) as [|k'].
      + injection Hk as <-. exists (x :: xs). split; [done|by right].
      + by exists ws. }
  destruct (Hw i us u Hi Hu) as (us' & Hi' & Hu'), (Hw j vs v Hj Hv) as (vs' & Hj' & Hv').
  by apply (H i j us' vs' u v).
Qed.

Lemma separate_head ls1 x xs ls2 : separate (ls1 ++ (x :: xs) :: ls2) -> Forall (apart x) (concat ls1).
Proof.
  intros H. apply Forall_forall. intros y (ys & Hys & Hy)%list_elem_of_In%in_concat.
  apply list_elem_of_In in Hys. apply list_elem_of_In in Hy.
  apply list_elem_of_lookup in Hys as [j Hj]. pose proof (lookup_lt_Some _ _ _ Hj).
  apply (H (length ls1) j (x :: xs) ys); [lia| | |by left|done].
  - by rewrite lookup_app_r, Nat.sub_diag by lia.
  - by rewrite lookup_app_l by done.
Qed.

(** Every interleaving does what sending one producer's points after
    another's does, up to the order of the points. *)
Lemma interleaving_filter ls l st :
  interleaving ls l -> separate ls -> reordered (filter_points f st l) (filter_points f st (concat ls)).
Proof.
  intros Hi. revert st; induction Hi as [ls Hls|ls1 x xs ls2 l _ IH]; intros st Hsep.
  { by rewrite concat_nils. }
  change (filter_points f st (x :: l)) with (filter_points f (filter_step f st x) l).
  rewrite IH by by eapply separate_tail. rewrite !concat_app, !filter_points_app. cbn [concat].
  rewrite !filter_points_app. rewrite filter_points_front by by eapply separate_head.
  done.
Qed.
End filtering.

(** ** Producers that build their points in maps of their own *)

Lemma interleaving_nil_cons {A} (ls : list (list A)) l : interleaving ls l -> interleaving ([] :: ls) l.
Proof.
  induction 1 as [ls Hls|ls1 x xs ls2 l _ IH]; [by repeat constructor|].
  exact (interleaving_cons ([] :: ls1) x xs ls2 l IH).
Qed.

(** One producer after the other is one of the orders. *)
Lemma interleaving_concat {A} (ls : list (list A)) : interleaving ls (concat ls).
Proof.
  induction ls as [|xs ls IH]; [by constructor|]. cbn. induction xs as [|x xs IHx]; [by apply interleaving_nil_cons|].
  exact (interleaving_cons [] x xs ls _ IHx).
Qed.

(** The producers build their points one after another, from the heap [h] to
    the heap [h']. *)
Inductive builds_all : heap -> heap -> list (list wfmetric) -> list (list group) -> Prop :=
  | builds_all_nil h : builds_all h h [] []
  | builds_all_cons h h1 h2 ms gs mss gss :
      builds h (h1, ms) gs -> builds_all h1 h2 mss gss -> builds_all h h2 (ms :: mss) (gs :: gss).

Lemma builds_all_builds h h' mss gss : builds_all h h' mss gss -> builds h (h', concat mss) (concat gss).
Proof. induction 1 as [h|h h1 h2 ms gs mss gss H _ IH]; [apply builds_nil|]. cbn. by eapply builds_app. Qed.

Lemma realises_refs h ls ms gs : realises h ls ms gs -> forall m l, m ∈ ms -> tags_ref m = Some l -> l ∈ ls.
Proof.
  induction 1 as [|l t ls ps ms gs Hl Hn _ IH|ls ps ms gs _ IH]; intros m k Hm E; [by apply elem_of_nil in Hm| |];
    apply elem_of_app in Hm as [(p & -> & _)%list_elem_of_fmap|Hm].
  - injection E as <-. by left.
  - right. by eapply IH.
  - done.
  - by eapply IH.
Qed.

Lemma realises_heap h ls ms gs : realises h ls ms gs -> forall l, l ∈ ls -> is_Some (h !! l).
Proof.
  induction 1 as [|l t ls ps ms gs Hl Hn _ IH|]; intros x Hx; [by apply elem_of_nil in Hx| |eauto].
  apply elem_of_cons in Hx as [->|Hx]; eauto.
Qed.

Lemma builds_refs h h' ms gs m l :
  builds h (h', ms) gs -> m ∈ ms -> tags_ref m = Some l -> h !! l = None /\ is_Some (h' !! l).
Proof.
  intros (ls & Hr & Hf & _) Hm E. pose proof (realises_refs _ _ _ _ Hr m l Hm E). split; [by apply Hf|].
  by eapply realises_heap.
Qed.

Lemma builds_all_fresh h h' mss gss ms m l :
  builds_all h h' mss gss -> ms ∈ mss -> m ∈ ms -> tags_ref m = Some l -> h !! l = None.
Proof.
  intros Hb Hms Hm. apply (builds_refs h h' (concat mss) (concat gss)); [by apply builds_all_builds|].
  apply list_elem_of_In, in_concat. exists ms. split; by apply list_elem_of_In.
Qed.

Lemma builds_all_separate h h' mss gss : builds_all h h' mss gss -> separate mss.
Proof.
  induction 1 as [h|h h1 h2 ms gs mss gss H Ha IH]; [by intros i|].
  assert (Hd : forall j ys x y, mss !! j = Some ys -> x ∈ ms -> y ∈ ys -> apart x y).
  { intros j ys x y Hj Hx Hy l Hlx Hly. destruct (builds_refs _ _ _ _ _ _ H Hx Hlx) as [_ [t Ht]].
    rewrite (builds_all_fresh _ _ _ _ ys y l Ha) in Ht; [done|by eapply list_elem_of_lookup_2|done|done]. }
  intros [|i] [|j] xs ys x y Hij Hi Hj Hx Hy; [done| | |].
  - injection Hi as <-. by eapply Hd.
  - injection Hj as <-. apply apart_sym. by eapply Hd.
  - eapply (IH i j); [congruence|done..].
Qed.

(** Whatever the order in which the points arrive, those that are kept are
    those of the groups, filtered. *)
Lemma interleaving_builds {F} `{!MetricFilter F} (f : option F) h h1 mss gss l :
  builds_all h h1 mss gss -> interleaving mss l ->
  exists h' points, filter_points f (h1, [], 0%Z) l =
      (h', points, (Z.of_nat (length (concat gss ≫= g_points)) - Z.of_nat (length points))%Z) /\
    describe h' <$> points ≡ₚ (concat gss ≫= filter_group f).
Proof.
  intros Hb Hi. pose proof (builds_all_builds _ _ _ _ Hb) as (ls & Hr & _). cbn [fst snd] in Hr.
  destruct (groups_ran f _ _ _ _ Hr) as (h' & new & [L P _ _ _]).
  pose proof (interleaving_filter f mss l (h1, [], 0%Z) Hi (builds_all_separate _ _ _ _ Hb)) as (E1 & E2 & E3).
  rewrite L in E1, E2, E3. cbn [fst snd app] in *.
  destruct (filter_points f (h1, [], 0%Z) l) as [[h2 pts] n]. cbn [fst snd] in *. subst h2 n. exists h', pts. split.
  - f_equal. rewrite (realises_length _ _ _ _ Hr), E2. lia.
  - by rewrite E2, P.
Qed.
