(* ===== verification/Systemd.v ===== *)
(** The systemd source: plugins/sources/systemd (systemd.go, filter.go).

    The D-Bus library is a parameter: a connection answers queries for the
    units and for their properties, whose values are Go interface values.  A
    type assertion on a value of another type panics.  The goroutines of
    [Scrape] are producers on one channel (Interleaving.v); [arrive] is the
    order in which their points come out of it. *)

From Stdlib Require Import ZArith Lia.
From S2P Require Import Prelude GoFloat FloatExact Filters Wf PointGroups Interleaving Util Leadership Configuration.

(** ** What D-Bus answers *)

Inductive dbus_value := DString (s : string) | DUint32 (z : Z) | DUint64 (z : Z) | DOther.

(** The fields of [dbus.UnitStatus] that are used. *)
Record unit_status := MkUnit { u_Name : string; u_LoadState : string; u_ActiveState : string }.

Record dbus_conn := MkConn {
  ListUnits : result (list unit_status);
  GetUnitTypeProperty : string -> string -> string -> result dbus_value;
  GetUnitProperty : string -> string -> result dbus_value;
  GetManagerProperty : string -> result string;
}.

Definition assertion_failed : string := "interface conversion".
Definition as_string (v : dbus_value) : outcome string :=
  match v with DString s => Done s | _ => Panic assertion_failed end.
Definition as_uint32 (v : dbus_value) : outcome Z :=
  match v with DUint32 z => Done z | _ => Panic assertion_failed end.
Definition as_uint64 (v : dbus_value) : outcome Z :=
  match v with DUint64 z => Done z | _ => Panic assertion_failed end.

(** A property, asserted to have a type; [None] when the query failed. *)
Definition read {A} (assert : dbus_value -> outcome A) (answer : result dbus_value) : outcome (option A) :=
  match answer with Ok v => a ← assert v; Done (Some a) | Err _ => Done None end.

(** ** filter.go *)

Record unitFilter := MkUnitFilter { unitAllowList : option Glob; unitDenyList : option Glob }.

Definition match_ (uf : unitFilter) (name : string) : bool :=
  if match unitAllowList uf with Some g => negb (g name) | None => false end then false
  else if match unitDenyList uf with Some g => g name | None => false end then false
  else true.

Definition fromConfig (glob_compile : string -> option Glob) (allowList denyList : list string) : option unitFilter :=
  if nil_list allowList && nil_list denyList then None
  else Some (MkUnitFilter (Compile glob_compile allowList) (Compile glob_compile denyList)).

(** ** systemd.go *)

Definition unitStatesName : list string := ["active"; "activating"; "deactivating"; "inactive"; "failed"].

Record systemdMetricsSource := MkSource {
  prefix : string;
  source : string;
  collectTaskMetrics : bool;
  collectStartTimeMetrics : bool;
  collectRestartMetrics : bool;
  unitsFilter : option unitFilter;
  filters : option globFilter;
}.

Definition setTag (tags : tagmap) (key val : string) : tagmap :=
  if negb (String.eqb val "") then <[key := val]> tags else tags.
Definition setTags (tags : tagmap) (name state service : string) : tagmap :=
  setTag (setTag (setTag tags "name" name) "state_name" state) "type" service.

Definition summarizeUnits (units : list unit_status) : gmap string f64 :=
  let summarized := foldl (fun m s => <[s := f64_zero]> m) ∅ unitStatesName in
  foldl (fun m u => <[u_ActiveState u := f64_add (default f64_zero (m !! u_ActiveState u)) f64_one]> m) summarized units.

Section source.
Context (src : systemdMetricsSource) (conn : dbus_conn) (now : Z).

Definition filterUnits (units : list unit_status) : list unit_status :=
  List.filter (fun u => match unitsFilter src with Some uf => match_ uf (u_Name u) | None => true end &&
                        String.eqb (u_LoadState u) "loaded") units.

Definition metricPoint (name : string) (value : f64) (ts : Z) (tags : option positive) : wfmetric :=
  MPoint (NewPoint (prefix src +:+ replace_char "_" "." name) value ts (source src) tags).

(** A loop over the units of which each round sends some points. *)
Fixpoint for_units (body : heap -> unit_status -> outcome (heap * list wfmetric)) (h : heap) (units : list unit_status)
    : outcome (heap * list wfmetric) :=
  match units with
  | [] => Done (h, [])
  | u :: units' =>
      '(h1, sent) ← body h u;
      '(h2, sent') ← for_units body h1 units';
      Done (h2, sent ++ sent')
  end.

(** One point with a map of its own. *)
Definition send (h : heap) (name : string) (value : f64) (tags : tagmap) : heap * list wfmetric :=
  let '(h', l) := new_map h tags in (h', [metricPoint name value now (Some l)]).

(** The loop over the states of a unit. *)
Fixpoint send_states (h : heap) (u : unit_status) (serviceType : string) (states : list string) : heap * list wfmetric :=
  match states with
  | [] => (h, [])
  | stateName :: states' =>
      let isActive := if String.eqb stateName (u_ActiveState u) then f64_one else f64_zero in
      let '(h1, sent) := send h "unit_state" isActive (setTags ∅ (u_Name u) stateName serviceType) in
      let '(h2, sent') := send_states h1 u serviceType states' in (h2, sent ++ sent')
  end.

Definition unit_status_points (h : heap) (u : unit_status) : outcome (heap * list wfmetric) :=
  serviceType ← (if has_suffix ".service" (u_Name u) then
                   t ← read as_string (GetUnitTypeProperty conn (u_Name u) "Service" "Type"); Done (default "" t)
                 else if has_suffix ".mount" (u_Name u) then
                   t ← read as_string (GetUnitTypeProperty conn (u_Name u) "Mount" "Type"); Done (default "" t)
                 else Done "");
  let '(h1, sent) := send_states h u serviceType unitStatesName in
  if collectRestartMetrics src && has_suffix ".service" (u_Name u) then
    restarts ← read as_uint32 (GetUnitTypeProperty conn (u_Name u) "Service" "NRestarts");
    match restarts with
    | None => Done (h1, sent)
    | Some n =>
        let '(h2, sent') := send h1 "service_restart_total" (f64_of_Z n) (setTag ∅ "name" (u_Name u)) in
        Done (h2, sent ++ sent')
    end
  else Done (h1, sent).
Definition collectUnitStatusMetrics : heap -> list unit_status -> outcome (heap * list wfmetric) :=
  for_units unit_status_points.

(** The three points of a socket have one map. *)
Definition socket_points (h : heap) (u : unit_status) : outcome (heap * list wfmetric) :=
  if negb (has_suffix ".socket" (u_Name u)) then Done (h, [])
  else
    accepted ← read as_uint32 (GetUnitTypeProperty conn (u_Name u) "Socket" "NAccepted");
    match accepted with
    | None => Done (h, [])
    | Some accepted =>
        let '(h, tags) := new_map h (setTag ∅ "name" (u_Name u)) in
        let p1 := metricPoint "socket_accepted_connections_total" (f64_of_Z accepted) now (Some tags) in
        current ← read as_uint32 (GetUnitTypeProperty conn (u_Name u) "Socket" "NConnections");
        match current with
        | None => Done (h, [p1])
        | Some current =>
            let p2 := metricPoint "socket_current_connections" (f64_of_Z current) now (Some tags) in
            refused ← read as_uint32 (GetUnitTypeProperty conn (u_Name u) "Socket" "NRefused");
            match refused with
            | None => Done (h, [p1; p2])
            | Some refused =>
                Done (h, [p1; p2; metricPoint "socket_refused_connections_total" (f64_of_Z refused) now (Some tags)])
            end
        end
    end.
Definition collectSockets : heap -> list unit_status -> outcome (heap * list wfmetric) := for_units socket_points.

Definition usec (z : Z) : f64 := f64_div (f64_of_Z z) (f64_of_Z 1000000).

Definition start_time_points (h : heap) (u : unit_status) : outcome (heap * list wfmetric) :=
  startTimeUsec ← (if negb (String.eqb (u_ActiveState u) "active") then Done (Some 0%Z)
                   else read as_uint64 (GetUnitProperty conn (u_Name u) "ActiveEnterTimestamp"));
  match startTimeUsec with
  | None => Done (h, [])
  | Some z => Done (send h "unit_start_time_seconds" (usec z) (setTag ∅ "name" (u_Name u)))
  end.
Definition collectUnitStartTimeMetrics : heap -> list unit_status -> outcome (heap * list wfmetric) :=
  for_units start_time_points.

Definition MaxUint64 : Z := (2 ^ 64 - 1)%Z.
Definition task_points (name property : string) (h : heap) (u : unit_status) : outcome (heap * list wfmetric) :=
  val ← read as_uint64 (GetUnitTypeProperty conn (u_Name u) "Service" property);
  Done match val with
       | Some val => if negb (val =? MaxUint64)%Z then send h name (f64_of_Z val) (setTag ∅ "name" (u_Name u)) else (h, [])
       | None => (h, [])
       end.
Definition unit_tasks_points (h : heap) (u : unit_status) : outcome (heap * list wfmetric) :=
  if has_suffix ".service" (u_Name u) then
    '(h1, sent) ← task_points "unit_tasks_current" "TasksCurrent" h u;
    '(h2, sent') ← task_points "unit_tasks_max" "TasksMax" h1 u;
    Done (h2, sent ++ sent')
  else Done (h, []).
Definition collectUnitTasksMetrics : heap -> list unit_status -> outcome (heap * list wfmetric) :=
  for_units unit_tasks_points.

Definition timer_points (h : heap) (u : unit_status) : outcome (heap * list wfmetric) :=
  if negb (has_suffix ".timer" (u_Name u)) then Done (h, [])
  else
    last ← read as_uint64 (GetUnitTypeProperty conn (u_Name u) "Timer" "LastTriggerUSec");
    match last with
    | None => Done (h, [])
    | Some last => Done (send h "timer_last_trigger_seconds" (usec last) (setTag ∅ "name" (u_Name u)))
    end.
Definition collectTimers : heap -> list unit_status -> outcome (heap * list wfmetric) := for_units timer_points.

(** [summary] is the map's entries in the order of the iteration. *)
Fixpoint collectSummaryMetrics (h : heap) (summary : list (string * f64)) : heap * list wfmetric :=
  match summary with
  | [] => (h, [])
  | (stateName, count) :: summary' =>
      let '(h1, sent) := send h "units" count (setTag ∅ "state_name" stateName) in
      let '(h2, sent') := collectSummaryMetrics h1 summary' in (h2, sent ++ sent')
  end.

Definition collectSystemState : result (list wfmetric) :=
  match GetManagerProperty conn "SystemState" with
  | Err e => Err ("couldn't get system state: " +:+ e)%string
  | Ok systemState =>
      let isSystemRunning :=
        if String.eqb systemState (String "034" ("running" +:+ String "034" ""))%string then f64_one else f64_zero in
      Ok [metricPoint "system_running" isSystemRunning now None]
  end.

(** A goroutine that is started on a condition. *)
Definition go_if (c : bool) (run : heap -> list unit_status -> outcome (heap * list wfmetric)) (h : heap)
    (units : list unit_status) : outcome (heap * list wfmetric) :=
  if c then run h units else Done (h, []).

(** The producers of the channel: the goroutine of [Scrape] itself sends the
    summary first and the state of the system last. *)
Definition producers (visit : gmap string f64 -> list (string * f64)) (allUnits : list unit_status) (h : heap)
    : outcome (heap * list (list wfmetric)) :=
  let '(h, summary) := collectSummaryMetrics h (visit (summarizeUnits allUnits)) in
  let units := filterUnits allUnits in
  '(h, status) ← collectUnitStatusMetrics h units;
  '(h, starts) ← go_if (collectStartTimeMetrics src) collectUnitStartTimeMetrics h units;
  '(h, tasks) ← go_if (collectTaskMetrics src) collectUnitTasksMetrics h units;
  '(h, timers) ← collectTimers h units;
  '(h, sockets) ← collectSockets h units;
  let state := match collectSystemState with Ok ps => ps | Err _ => [] end in
  Done (h, [summary ++ state; status; starts; tasks; timers; sockets]).
End source.

(** [Scrape]: the heap, the batch, the error, and the increments of the
    counters of errors, filtered and collected points. *)
Definition Scrape (src : systemdMetricsSource) (dial : result dbus_conn) (now : Z)
    (visit : gmap string f64 -> list (string * f64)) (arrive : list (list wfmetric) -> list wfmetric) (h : heap)
    : outcome (heap * option (list wfmetric) * option string * (Z * Z * Z)) :=
  match dial with
  | Err e => Done (h, None, Some ("couldn't get dbus connection: " +:+ e)%string, (1, 0, 0)%Z)
  | Ok conn =>
      match ListUnits conn with
      | Err e => Done (h, None, Some ("couldn't get units: " +:+ e)%string, (1, 0, 0)%Z)
      | Ok allUnits =>
          '(h, chans) ← producers src conn now visit allUnits h;
          let '(h', points, fps) := filter_points (filters src) (h, [], 0%Z) (arrive chans) in
          let err := match collectSystemState src conn now with Err e => Some e | Ok _ => None end in
          Done (h', Some points, err,
                (match err with Some _ => 1 | None => 0 end, fps, Z.of_nat (length points))%Z)
      end
  end.

Definition NewProvider (glob_compile : string -> option Glob) (e : env) (hostname : result string)
    (cfg : SystemdSourceConfig) : list systemdMetricsSource :=
  let prefix := GetStringValue (tr_Prefix (sd_Transforms cfg)) "kubernetes.systemd." in
  let source := GetStringValue (tr_Source (sd_Transforms cfg)) (GetNodeName e) in
  let source := if String.eqb source "" then
                  match hostname with Ok h => h | Err _ => "wavefront-collector-for-kubernetes" end
                else source in
  [MkSource prefix source (sd_IncludeTaskMetrics cfg) (sd_IncludeStartTimeMetrics cfg) (sd_IncludeRestartMetrics cfg)
     (fromConfig glob_compile (sd_UnitAllowList cfg) (sd_UnitDenyList cfg))
     (FromConfig glob_compile (tr_Filters (sd_Transforms cfg)))].

(** ** What a scrape reports *)

Fixpoint take_while_some {A} (l : list (option A)) : list A :=
  match l with Some a :: l' => a :: take_while_some l' | _ => [] end.

Section expected.
Context (src : systemdMetricsSource) (conn : dbus_conn) (now : Z).

(** A property that can be read with its type, and one that makes the
    assertion fail. *)
Definition typed {A} (assert : dbus_value -> outcome A) (answer : result dbus_value) : option A :=
  match answer with Ok v => match assert v with Done a => Some a | _ => None end | Err _ => None end.
Definition well_typed {A} (assert : dbus_value -> outcome A) (answer : result dbus_value) : bool :=
  match answer with Ok v => outcome_ok (assert v) | Err _ => true end.

(** The types that systemd documents for the properties of the units. *)
Definition documented_types (u : unit_status) : bool :=
  let n := u_Name u in
  well_typed as_string (GetUnitTypeProperty conn n "Service" "Type") &&
  well_typed as_string (GetUnitTypeProperty conn n "Mount" "Type") &&
  well_typed as_uint32 (GetUnitTypeProperty conn n "Service" "NRestarts") &&
  well_typed as_uint32 (GetUnitTypeProperty conn n "Socket" "NAccepted") &&
  well_typed as_uint32 (GetUnitTypeProperty conn n "Socket" "NConnections") &&
  well_typed as_uint32 (GetUnitTypeProperty conn n "Socket" "NRefused") &&
  well_typed as_uint64 (GetUnitTypeProperty conn n "Service" "TasksCurrent") &&
  well_typed as_uint64 (GetUnitTypeProperty conn n "Service" "TasksMax") &&
  well_typed as_uint64 (GetUnitTypeProperty conn n "Timer" "LastTriggerUSec") &&
  well_typed as_uint64 (GetUnitProperty conn n "ActiveEnterTimestamp").

Definition proto_of (name : string) (value : f64) : proto :=
  MkProto (prefix src +:+ replace_char "_" "." name) value now (source src).
Definition single (name : string) (value : f64) (tags : tagmap) : group := MkGroup (Some tags) [proto_of name value].
Definition named (u : unit_status) : tagmap := setTag ∅ "name" (u_Name u).
Definition optional {A} (o : option A) (f : A -> group) : list group := match o with Some a => [f a] | None => [] end.

Definition service_type (u : unit_status) : string :=
  default "" (if has_suffix ".service" (u_Name u) then typed as_string (GetUnitTypeProperty conn (u_Name u) "Service" "Type")
              else if has_suffix ".mount" (u_Name u) then typed as_string (GetUnitTypeProperty conn (u_Name u) "Mount" "Type")
              else None).

Definition state_group (u : unit_status) (state : string) : group :=
  single "unit_state" (if String.eqb state (u_ActiveState u) then f64_one else f64_zero)
    (setTags ∅ (u_Name u) state (service_type u)).
Definition status_groups (u : unit_status) : list group :=
  map (state_group u) unitStatesName ++
  (if collectRestartMetrics src && has_suffix ".service" (u_Name u) then
     optional (typed as_uint32 (GetUnitTypeProperty conn (u_Name u) "Service" "NRestarts"))
       (fun n => single "service_restart_total" (f64_of_Z n) (named u))
   else []).

Definition start_groups (u : unit_status) : list group :=
  optional (if String.eqb (u_ActiveState u) "active" then typed as_uint64 (GetUnitProperty conn (u_Name u) "ActiveEnterTimestamp")
            else Some 0%Z)
    (fun t => single "unit_start_time_seconds" (usec t) (named u)).

Definition task_group (u : unit_status) (name property : string) : list group :=
  match typed as_uint64 (GetUnitTypeProperty conn (u_Name u) "Service" property) with
  | Some n => if (n =? MaxUint64)%Z then [] else [single name (f64_of_Z n) (named u)]
  | None => []
  end.
Definition task_groups (u : unit_status) : list group :=
  if has_suffix ".service" (u_Name u) then
    task_group u "unit_tasks_current" "TasksCurrent" ++ task_group u "unit_tasks_max" "TasksMax"
  else [].

Definition timer_groups (u : unit_status) : list group :=
  if has_suffix ".timer" (u_Name u) then
    optional (typed as_uint64 (GetUnitTypeProperty conn (u_Name u) "Timer" "LastTriggerUSec"))
      (fun t => single "timer_last_trigger_seconds" (usec t) (named u))
  else [].

(** The counters of a socket: each only when the ones before it are there. *)
Definition socket_protos (u : unit_status) : list proto :=
  let counter name property := p ← typed as_uint32 (GetUnitTypeProperty conn (u_Name u) "Socket" property);
                               Some (proto_of name (f64_of_Z p)) in
  take_while_some [counter "socket_accepted_connections_total" "NAccepted";
                   counter "socket_current_connections" "NConnections";
                   counter "socket_refused_connections_total" "NRefused"].
Definition socket_groups (u : unit_status) : list group :=
  if has_suffix ".socket" (u_Name u) then
    match socket_protos u with [] => [] | ps => [MkGroup (Some (named u)) ps] end
  else [].

Definition summary_groups (summary : list (string * f64)) : list group :=
  map (fun e => single "units" e.2 (setTag ∅ "state_name" e.1)) summary.

Definition running_groups : list group :=
  match GetManagerProperty conn "SystemState" with
  | Ok s => [MkGroup None [proto_of "system_running"
               (if String.eqb s (String "034" ("running" +:+ String "034" ""))%string then f64_one else f64_zero)]]
  | Err _ => []
  end.

(** All points of a scrape. *)
Definition expected_groups (allUnits : list unit_status) : list group :=
  let units := filterUnits src allUnits in
  summary_groups (map_to_list (summarizeUnits allUnits)) ++ running_groups ++
  (units ≫= status_groups) ++
  (if collectStartTimeMetrics src then units ≫= start_groups else []) ++
  (if collectTaskMetrics src then units ≫= task_groups else []) ++
  (units ≫= timer_groups) ++ (units ≫= socket_groups).
End expected.

(** ** Lemmas *)

Section lemmas.
Context (src : systemdMetricsSource) (conn : dbus_conn) (now : Z).

Lemma read_typed {A} (assert : dbus_value -> outcome A) answer :
  well_typed assert answer = true -> read assert answer = Done (typed assert answer).
Proof. destruct answer as [v|e]; [|done]. cbn. by destruct (assert v). Qed.

(** [run] ends and has built the groups [gs]. *)
Definition sends (h : heap) (run : outcome (heap * list wfmetric)) (gs : list group) : Prop :=
  exists r, run = Done r /\ builds h r gs.

Lemma sends_nil h : sends h (Done (h, [])) [].
Proof. exists (h, []). split; [done|apply builds_nil]. Qed.

Lemma send_builds h name value tags : builds h (send src now h name value tags) [single src now name value tags].
Proof. exact (builds_new h tags [proto_of src now name value]). Qed.

Lemma sends_send h name value tags : sends h (Done (send src now h name value tags)) [single src now name value tags].
Proof. eexists. split; [done|apply send_builds]. Qed.

Lemma sends_app h run1 gs1 (k : heap -> outcome (heap * list wfmetric)) gs2 :
  sends h run1 gs1 -> (forall h1, sends h1 (k h1) gs2) ->
  sends h ('(h1, sent) ← run1; '(h2, sent') ← k h1; Done (h2, sent ++ sent')) (gs1 ++ gs2).
Proof.
  intros ([h1 ms1] & -> & H1) Hk. cbn. destruct (Hk h1) as ([h2 ms2] & -> & H2). cbn.
  eexists. split; [done|]. by eapply builds_app.
Qed.

Lemma for_units_sends body (gs : unit_status -> list group) units h :
  (forall h u, u ∈ units -> sends h (body h u) (gs u)) -> sends h (for_units body h units) (units ≫= gs).
Proof.
  revert h; induction units as [|u units IH]; intros h Hb; [apply sends_nil|].
  apply (sends_app h (body h u) (gs u) (fun h1 => for_units body h1 units)).
  - apply Hb. by left.
  - intros h1. apply IH. intros h2 u' Hu. apply Hb. by right.
Qed.

Lemma send_states_builds h u states t :
  t = service_type conn u -> builds h (send_states src now h u t states) (map (state_group src conn now u) states).
Proof.
  intros ->. revert h; induction states as [|s states IH]; intros h; [apply builds_nil|]. cbn [send_states map].
  pose proof (send_builds h "unit_state" (if String.eqb s (u_ActiveState u) then f64_one else f64_zero)
    (setTags ∅ (u_Name u) s (service_type conn u))) as H1.
  destruct (send _ _ _ _ _ _) as [h1 ms1]. specialize (IH h1).
  destruct (send_states _ _ _ _ _ _) as [h2 ms2]. exact (builds_app _ _ _ _ _ _ _ H1 IH).
Qed.

(** The properties of a unit with the documented types, one by one. *)
Ltac properties H := unfold documented_types in H; repeat (apply andb_prop in H as [H ?]).

Lemma status_sends h u : documented_types conn u = true -> sends h (unit_status_points src conn now h u) (status_groups src conn now u).
Proof.
  intros H. properties H. unfold unit_status_points, status_groups.
  assert ((if has_suffix ".service" (u_Name u) then
             t ← read as_string (GetUnitTypeProperty conn (u_Name u) "Service" "Type"); Done (default "" t)
           else if has_suffix ".mount" (u_Name u) then
             t ← read as_string (GetUnitTypeProperty conn (u_Name u) "Mount" "Type"); Done (default "" t)
           else Done "") = Done (service_type conn u)) as ->.
  { unfold service_type. rewrite !read_typed by done. destruct (has_suffix ".service" _); [done|]. by destruct (has_suffix ".mount" _). }
  cbn [mbind outcome_bind]. pose proof (send_states_builds h u unitStatesName _ eq_refl) as Hs1.
  destruct (send_states _ _ _ _ _ _) as [h1 ms1]. destruct (collectRestartMetrics src && _).
  - rewrite read_typed by done. cbn [mbind outcome_bind].
    destruct (typed as_uint32 _) as [n|]; cbn [optional]; [|rewrite app_nil_r; by eexists].
    pose proof (send_builds h1 "service_restart_total" (f64_of_Z n) (named u)) as Hs2. unfold named in Hs2.
    destruct (send _ _ h1 _ _ _) as [h2 ms2]. eexists. split; [done|]. by eapply builds_app.
  - rewrite app_nil_r. by eexists.
Qed.

Lemma start_sends h u : documented_types conn u = true -> sends h (start_time_points src conn now h u) (start_groups src conn now u).
Proof.
  intros H. properties H. unfold start_time_points, start_groups. rewrite read_typed by done.
  destruct (String.eqb (u_ActiveState u) "active"); cbn [negb mbind outcome_bind optional]; [|apply sends_send].
  destruct (typed as_uint64 _); [apply sends_send|apply sends_nil].
Qed.

Lemma task_sends h u name property :
  well_typed as_uint64 (GetUnitTypeProperty conn (u_Name u) "Service" property) = true ->
  sends h (task_points src conn now name property h u) (task_group src conn now u name property).
Proof.
  intros H. unfold task_points, task_group. rewrite read_typed by done. cbn [mbind outcome_bind].
  destruct (typed as_uint64 _) as [n|]; [|apply sends_nil].
  destruct (n =? MaxUint64)%Z; cbn [negb]; [apply sends_nil|apply sends_send].
Qed.

Lemma tasks_sends h u : documented_types conn u = true -> sends h (unit_tasks_points src conn now h u) (task_groups src conn now u).
Proof.
  intros H. properties H. unfold unit_tasks_points, task_groups. destruct (has_suffix ".service" _); [|apply sends_nil].
  apply (sends_app h _ _ (fun h1 => task_points src conn now "unit_tasks_max" "TasksMax" h1 u)); [|intros h1]; by apply task_sends.
Qed.

Lemma timer_sends h u : documented_types conn u = true -> sends h (timer_points src conn now h u) (timer_groups src conn now u).
Proof.
  intros H. properties H. unfold timer_points, timer_groups. destruct (has_suffix ".timer" _); cbn [negb]; [|apply sends_nil].
  rewrite read_typed by done. cbn [mbind outcome_bind]. destruct (typed as_uint64 _); [apply sends_send|apply sends_nil].
Qed.

Lemma socket_sends h u : documented_types conn u = true -> sends h (socket_points src conn now h u) (socket_groups src conn now u).
Proof.
  intros H. properties H. unfold socket_points, socket_groups. destruct (has_suffix ".socket" _); cbn [negb]; [|apply sends_nil].
  unfold socket_protos. rewrite !read_typed by done. cbn [mbind outcome_bind].
  destruct (typed as_uint32 (GetUnitTypeProperty conn (u_Name u) "Socket" "NAccepted")) as [a|]; cbn [mbind option_bind take_while_some]; [|apply sends_nil].
  destruct (typed as_uint32 (GetUnitTypeProperty conn (u_Name u) "Socket" "NConnections")) as [c|], (typed as_uint32 (GetUnitTypeProperty conn (u_Name u) "Socket" "NRefused")) as [r|];
    cbn [mbind option_bind take_while_some]; (eexists; split; [reflexivity|]);
    match goal with |- builds _ _ [MkGroup _ ?ps] => exact (builds_new h (named u) ps) end.
Qed.

Lemma summary_builds h summary : builds h (collectSummaryMetrics src now h summary) (summary_groups src now summary).
Proof.
  revert h; induction summary as [|[s c] summary IH]; intros h; [apply builds_nil|]. cbn [collectSummaryMetrics].
  pose proof (send_builds h "units" c (setTag ∅ "state_name" s)) as H1.
  destruct (send _ _ _ _ _ _) as [h1 ms1]. specialize (IH h1).
  destruct (collectSummaryMetrics _ _ _ _) as [h2 ms2]. exact (builds_app _ _ _ _ _ _ _ H1 IH).
Qed.

(** The state of the system is a point without a map. *)
Lemma state_builds h :
  builds h (h, match collectSystemState src conn now with Ok ps => ps | Err _ => [] end) (running_groups src conn now).
Proof.
  unfold collectSystemState, running_groups. destruct (GetManagerProperty conn "SystemState") as [s|e]; [|apply builds_nil].
  exists []. split; [|split; [by intros ? ?%elem_of_nil|done]]. cbn.
  exact (realises_nil_map h [] [proto_of src now "system_running"
    (if String.eqb s _ then f64_one else f64_zero)] [] [] (realises_nil h)).
Qed.

Lemma go_if_sends h units c run gs :
  (forall h, sends h (run h units) gs) -> sends h (go_if c run h units) (if c then gs else []).
Proof. intros H. destruct c; [apply H|apply sends_nil]. Qed.
End lemmas.

(** The groups of each producer. *)
Definition producer_groups (src : systemdMetricsSource) (conn : dbus_conn) (now : Z) (summary : list (string * f64))
    (units : list unit_status) : list (list group) :=
  [summary_groups src now summary ++ running_groups src conn now;
   units ≫= status_groups src conn now;
   if collectStartTimeMetrics src then units ≫= start_groups src conn now else [];
   if collectTaskMetrics src then units ≫= task_groups src conn now else [];
   units ≫= timer_groups src conn now;
   units ≫= socket_groups src conn now].

Lemma producers_build src conn now visit allUnits h :
  forallb (documented_types conn) (filterUnits src allUnits) = true ->
  exists h1 mss, producers src conn now visit allUnits h = Done (h1, mss) /\
    builds_all h h1 mss (producer_groups src conn now (visit (summarizeUnits allUnits)) (filterUnits src allUnits)).
Proof.
  intros Hty. set (units := filterUnits src allUnits) in *.
  assert (Hu : forall u, u ∈ units -> documented_types conn u = true).
  { intros u Hu. rewrite forallb_forall in Hty. by apply Hty, list_elem_of_In. }
  unfold producers. fold units. pose proof (summary_builds src now h (visit (summarizeUnits allUnits))) as B0.
  destruct (collectSummaryMetrics _ _ _ _) as [h0 ms0]. pose proof (builds_app _ _ _ _ _ _ _ B0 (state_builds src conn now h0)) as B.
  destruct (for_units_sends (unit_status_points src conn now) _ units h0 (fun h u Hin => status_sends src conn now h u (Hu u Hin))) as ([h1 ms1] & E1 & B1).
  destruct (go_if_sends h1 units (collectStartTimeMetrics src) (collectUnitStartTimeMetrics src conn now) (units ≫= start_groups src conn now)) as ([h2 ms2] & E2 & B2).
  { intros h'. apply for_units_sends. intros h2 u Hin. by apply start_sends, Hu. }
  destruct (go_if_sends h2 units (collectTaskMetrics src) (collectUnitTasksMetrics src conn now) (units ≫= task_groups src conn now)) as ([h3 ms3] & E3 & B3).
  { intros h'. apply for_units_sends. intros h3 u Hin. by apply tasks_sends, Hu. }
  destruct (for_units_sends (timer_points src conn now) _ units h3 (fun h u Hin => timer_sends src conn now h u (Hu u Hin))) as ([h4 ms4] & E4 & B4).
  destruct (for_units_sends (socket_points src conn now) _ units h4 (fun h u Hin => socket_sends src conn now h u (Hu u Hin))) as ([h5 ms5] & E5 & B5).
  unfold collectUnitStatusMetrics, collectTimers, collectSockets. rewrite E1. cbn [mbind outcome_bind]. rewrite E2. cbn [mbind outcome_bind].
  rewrite E3. cbn [mbind outcome_bind]. rewrite E4. cbn [mbind outcome_bind]. rewrite E5. cbn [mbind outcome_bind].
  do 2 eexists. split; [reflexivity|]. unfold producer_groups. by repeat (econstructor; [eassumption|]); constructor.
Qed.

Lemma bind_permutation {A B} (f : A -> list B) l l' : l ≡ₚ l' -> (l ≫= f) ≡ₚ (l' ≫= f).
Proof. intros ->. done. Qed.


Definition sample_conn : dbus_conn := MkConn
  (Ok [MkUnit "a.socket" "loaded" "active"; MkUnit "b.mount" "masked" "inactive"])
  (fun name type property => if String.eqb type "Socket" then Ok (DUint32 7) else Err "no such property")
  (fun _ _ => Err "no such property") (fun _ => Err "timeout").
Definition sample_source : systemdMetricsSource := MkSource "kubernetes.systemd." "node" false false false None None.


(** A value of another type ends the process. *)
Example assertion_panics :
  Scrape (MkSource "" "" false false false None None)
    (Ok (MkConn (Ok [MkUnit "a.socket" "loaded" "active"]) (fun _ _ _ => Ok (DString "7")) (fun _ _ => Err "") (fun _ => Err "")))
    0 map_to_list (@concat wfmetric) ∅ = Panic assertion_failed.
Proof. by vm_compute. Qed.

(** ** The summary *)

Lemma summarize_lookup units (m : gmap string f64) (c : string -> Z) s :
  (forall s, 0 <= c s)%Z -> (forall s, c s + Z.of_nat (length units) < 2 ^ 53)%Z ->
  (forall s, default f64_zero (m !! s) = f64_of_Z (c s)) ->
  let m' := foldl (fun m u => <[u_ActiveState u := f64_add (default f64_zero (m !! u_ActiveState u)) f64_one]> m) m units in
  default f64_zero (m' !! s) = f64_of_Z (c s + Z.of_nat (length (List.filter (fun u => String.eqb (u_ActiveState u) s) units))) /\
  (is_Some (m' !! s) <-> is_Some (m !! s) \/ s ∈ map u_ActiveState units).
Proof.
  revert m c; induction units as [|u units IH]; intros m c H0 Hlt Hm; cbn [foldl List.filter length map].
  { rewrite Z.add_0_r. split; [apply Hm|]. split; [by left|]. intros [?|[]%elem_of_nil]; done. }
  set (c' := fun s => (c s + if String.eqb (u_ActiveState u) s then 1 else 0)%Z).
  destruct (IH (<[u_ActiveState u := f64_add (default f64_zero (m !! u_ActiveState u)) f64_one]> m) c') as [E D].
  - intros s'. unfold c'. specialize (H0 s'). destruct (String.eqb _ _); lia.
  - intros s'. unfold c'. specialize (Hlt s'). cbn [length] in Hlt. destruct (String.eqb _ _); lia.
  - intros s'. unfold c'. destruct (String.eqb_spec (u_ActiveState u) s') as [<-|Hne].
    + rewrite lookup_insert_eq. cbn [default from_option id]. rewrite Hm. unfold f64_one. specialize (H0 (u_ActiveState u)).
      specialize (Hlt (u_ActiveState u)). cbn [length] in Hlt. apply f64_add_exact; lia.
    + rewrite lookup_insert_ne by done. by rewrite Z.add_0_r.
  - cbv zeta in *. split.
    + rewrite E. unfold c'. f_equal. destruct (String.eqb _ _); cbn [length]; lia.
    + rewrite D. rewrite elem_of_cons. destruct (decide (s = u_ActiveState u)) as [->|Hne].
      * rewrite lookup_insert_eq. naive_solver.
      * rewrite lookup_insert_ne by done. naive_solver.
Qed.

(** The summary counts.  For every state of a unit the summary holds the
    number of units in that state, exactly (below 2^53 units); its states are
    the five known ones, which are there even when no unit has them, and those
    that the units have. *)
Theorem summarizeUnits_spec (units : list unit_status) (s : string) :
  (Z.of_nat (length units) < 2 ^ 53)%Z ->
  summarizeUnits units !! s =
    if decide (s ∈ unitStatesName \/ s ∈ map u_ActiveState units)
    then Some (f64_of_Z (Z.of_nat (length (List.filter (fun u => String.eqb (u_ActiveState u) s) units)))) else None.
Proof.
  intros Hlt. set (m := foldl (fun m s => <[s := f64_zero]> m) ∅ unitStatesName : gmap string f64).
  assert (Hm : forall s, m !! s = if decide (s ∈ unitStatesName) then Some f64_zero else None).
  { intros s'. unfold m, unitStatesName. cbn [foldl]. rewrite !lookup_insert, lookup_empty.
    repeat case_decide; set_solver. }
  destruct (summarize_lookup units m (fun _ => 0%Z) s) as [E D]; [done|done| |].
  { intros s'. rewrite Hm. by case_decide. }
  fold m. change (summarizeUnits units) with
    (foldl (fun m u => <[u_ActiveState u := f64_add (default f64_zero (m !! u_ActiveState u)) f64_one]> m) m units).
  destruct (foldl _ m units !! s) as [v|] eqn:El.
  - rewrite decide_True; [cbn in E; by rewrite E|].
    destruct (proj1 D (ex_intro _ v eq_refl)) as [[w Hw]|?]; [|by right]. rewrite Hm in Hw. case_decide; [by left|done].
  - rewrite decide_False; [done|]. intros Hin. destruct (proj2 D) as [w Hw]; [|discriminate].
    destruct Hin as [Hin|Hin]; [left|by right]. rewrite Hm, decide_True by done. by eexists.
Qed.

Lemma summarizeUnits_spec_witness :
  summarizeUnits [MkUnit "a" "loaded" "active"; MkUnit "b" "loaded" "reloading"; MkUnit "c" "masked" "active"] !! "active"
    = Some (f64_of_Z 2).
Proof. etransitivity; [apply summarizeUnits_spec; cbn; lia|by vm_compute]. Defined.
