(* ===== verification/GoSlice.v ===== *)
(** Go slices: a part of an array that other slices may share.

    [append] writes into the array when it has room and otherwise moves to a
    new, larger array; how much larger is the run-time's choice ([grow], of the
    old capacity and the length that is needed).  Two slices of one array see
    each other's writes. *)

From Stdlib Require Import ZArith Lia.
From S2P Require Import Prelude.

Record slice := MkSlice { sl_array : positive; sl_len : nat; sl_cap : nat }.

Section slices.
Context {A : Type} (zero : A) (grow : nat -> nat -> nat).

(** The arrays. *)
Abbreviation store := (gmap positive (list A)).

Definition array_of (σ : store) (s : slice) : list A := default [] (σ !! sl_array s).
Definition read (σ : store) (s : slice) : list A := take (sl_len s) (array_of σ s).

(** A slice and its array are there. *)
Definition slice_ok (σ : store) (s : slice) : Prop :=
  exists a, σ !! sl_array s = Some a /\ length a = sl_cap s /\ sl_len s <= sl_cap s.

(** [append(s, xs...)]. *)
Definition append (σ : store) (s : slice) (xs : list A) : store * slice :=
  let n := sl_len s + length xs in
  if n <=? sl_cap s then
    (<[sl_array s := take (sl_len s) (array_of σ s) ++ xs ++ drop n (array_of σ s)]> σ, MkSlice (sl_array s) n (sl_cap s))
  else
    let cap := Nat.max n (grow (sl_cap s) n) in
    let l := fresh (dom σ) in
    (<[l := read σ s ++ xs ++ replicate (cap - n) zero]> σ, MkSlice l n cap).

(** A slice with the elements [xs] and room for [spare] more. *)
Definition make_slice (σ : store) (xs : list A) (spare : nat) : store * slice :=
  let l := fresh (dom σ) in (<[l := xs ++ replicate spare zero]> σ, MkSlice l (length xs) (length xs + spare)).

(** ** Lemmas *)

Lemma read_length σ s : slice_ok σ s -> length (read σ s) = sl_len s.
Proof. intros (a & Ha & Hl & Hc). unfold read, array_of. rewrite Ha. cbn. rewrite length_take. lia. Qed.

Lemma append_ok σ s xs : slice_ok σ s -> slice_ok (append σ s xs).1 (append σ s xs).2.
Proof.
  intros Hs. pose proof (read_length σ s Hs) as Hr. destruct Hs as (a & Ha & Hl & Hc). unfold append.
  destruct (Nat.leb_spec (sl_len s + length xs) (sl_cap s)) as [H|H]; eexists; cbv zeta; cbn [fst snd sl_array sl_len sl_cap];
    (split; [apply lookup_insert_eq|]).
  - unfold array_of. rewrite Ha. cbn. rewrite !length_app, length_take, length_drop. lia.
  - rewrite !length_app, length_replicate, Hr. lia.
Qed.

Lemma read_insert σ l a n c : read (<[l := a]> σ) (MkSlice l n c) = take n a.
Proof. unfold read, array_of. cbn. by rewrite lookup_insert_eq. Qed.

(** [append] is concatenation. *)
Lemma append_read σ s xs : slice_ok σ s -> read (append σ s xs).1 (append σ s xs).2 = read σ s ++ xs.
Proof.
  intros Hs. pose proof (read_length σ s Hs) as Hr. unfold append.
  destruct (Nat.leb_spec (sl_len s + length xs) (sl_cap s)) as [H|H]; cbv zeta; cbn [fst snd]; rewrite read_insert, app_assoc;
    apply take_app_length'; rewrite length_app; [change (take (sl_len s) (array_of σ s)) with (read σ s)|]; lia.
Qed.

(** What [append] does to the other slices: nothing, unless it has room and
    they share the array. *)
Lemma append_frame σ s xs l :
  is_Some (σ !! l) -> l <> sl_array s \/ sl_cap s < sl_len s + length xs -> (append σ s xs).1 !! l = σ !! l.
Proof.
  intros [v Hv] Hor. unfold append. destruct (Nat.leb_spec (sl_len s + length xs) (sl_cap s)) as [H|H]; cbn [fst].
  - destruct Hor as [Hne|?]; [|lia]. by rewrite lookup_insert_ne.
  - rewrite lookup_insert_ne; [done|]. intros E. assert (σ !! fresh (dom σ) = None) by apply not_elem_of_dom, is_fresh.
    cbn in *. congruence.
Qed.

Lemma append_array σ s xs :
  slice_ok σ s -> (append σ s xs).2.(sl_array) = sl_array s /\ sl_len s + length xs <= sl_cap s \/
  σ !! (append σ s xs).2.(sl_array) = None /\ sl_cap s < sl_len s + length xs.
Proof.
  intros _. unfold append. destruct (Nat.leb_spec (sl_len s + length xs) (sl_cap s)) as [H|H]; cbn; [by left|right].
  split; [apply not_elem_of_dom, is_fresh|done].
Qed.

Lemma append_dom σ s xs l : slice_ok σ s -> is_Some (σ !! l) -> is_Some ((append σ s xs).1 !! l).
Proof.
  intros (a & Ha & _) [v Hv]. unfold append. destruct (_ <=? _); cbn; rewrite lookup_insert; case_decide; by eauto.
Qed.

(** A loop of appends: the result reads as the concatenation. *)
Definition appends (st : store * slice) (xss : list (list A)) : store * slice :=
  foldl (fun st xs => append st.1 st.2 xs) st xss.

Lemma appends_read st xss : slice_ok st.1 st.2 ->
  slice_ok (appends st xss).1 (appends st xss).2 /\ read (appends st xss).1 (appends st xss).2 = read st.1 st.2 ++ concat xss.
Proof.
  revert st; induction xss as [|xs xss IH]; intros st Hs; cbn [appends foldl concat]; [by rewrite app_nil_r|].
  destruct (IH (append st.1 st.2 xs) (append_ok _ _ xs Hs)) as [H1 H2]. split; [exact H1|].
  unfold appends in H2. cbn [concat]. rewrite H2, append_read, <- app_assoc by done. done.
Qed.

Lemma appends_len st xss : sl_len (appends st xss).2 = sl_len st.2 + length (concat xss).
Proof.
  revert st; induction xss as [|xs xss IH]; intros st; cbn [appends foldl concat]; [cbn; lia|].
  unfold appends in IH. rewrite IH. unfold append. rewrite length_app. destruct (_ <=? _); cbn; lia.
Qed.

(** Without room in the first array, the loop leaves every array as it was. *)
Lemma appends_frame σ s xss l :
  slice_ok σ s -> sl_cap s = sl_len s -> is_Some (σ !! l) -> (appends (σ, s) xss).1 !! l = σ !! l.
Proof.
  intros Hs Hc. revert l.
  cut (forall xss st, slice_ok st.1 st.2 -> (forall l, is_Some (σ !! l) -> st.1 !! l = σ !! l) ->
    sl_cap st.2 = sl_len st.2 \/ σ !! sl_array st.2 = None -> forall l, is_Some (σ !! l) -> (appends st xss).1 !! l = σ !! l).
  { intros H. apply (H xss (σ, s)); [done|done|by left]. }
  clear s Hs Hc xss. induction xss as [|xs xss IH]; intros [σ1 s] Hs Hf Hor l Hl; cbn [fst snd] in *; [by apply Hf|].
  change (appends (σ1, s) (xs :: xss)) with (appends (append σ1 s xs) xss). apply IH; [by apply append_ok| | |done].
  - intros l' Hl'. destruct (decide (l' = sl_array s /\ sl_len s + length xs <= sl_cap s)) as [[-> Hle]|Hn].
    + destruct Hor as [He|He]; [|by rewrite He in Hl'; destruct Hl'].
      assert (xs = []) as -> by (destruct xs; cbn in Hle; [done|lia]). destruct Hs as (a & Ha & Hal & Hle').
      unfold append. cbn [length]. rewrite Nat.add_0_r. destruct (Nat.leb_spec (sl_len s) (sl_cap s)); [|lia]. cbn [fst].
      rewrite lookup_insert_eq. unfold array_of. rewrite Ha. cbn. rewrite take_drop. by rewrite <- Hf, Ha.
    + rewrite append_frame; [by apply Hf|by rewrite Hf|]. destruct (decide (l' = sl_array s)); [right|by left].
      apply not_and_r in Hn as [?|?]; [done|lia].
  - destruct (append_array σ1 s xs Hs) as [[E Hle]|[E _]].
    + rewrite E. destruct Hor as [He|He]; [left|by right].
      assert (xs = []) as -> by (destruct xs; cbn in Hle; [done|lia]).
      unfold append. cbn [length] in *. destruct (Nat.leb_spec (sl_len s + 0) (sl_cap s)); cbn; lia.
    + right. destruct (σ !! sl_array (append σ1 s xs).2) as [v|] eqn:Ev; [|done]. rewrite Hf in E by eauto. congruence.
Qed.

(** With room for everything, the result is the first array. *)
Lemma appends_in_place σ s xss :
  sl_len s + length (concat xss) <= sl_cap s ->
  (appends (σ, s) xss).2 = MkSlice (sl_array s) (sl_len s + length (concat xss)) (sl_cap s).
Proof.
  revert σ s; induction xss as [|xs xss IH]; intros σ s H; cbn [concat] in *.
  { cbn. rewrite Nat.add_0_r. by destruct s. }
  rewrite length_app in H. change (appends (σ, s) (xs :: xss)) with (appends (append σ s xs) xss).
  unfold append. destruct (Nat.leb_spec (sl_len s + length xs) (sl_cap s)); [|lia].
  rewrite IH; cbn [sl_array sl_len sl_cap]; [|lia]. rewrite length_app. f_equal. lia.
Qed.
End slices.
