(* ===== verification/DiscoveryConfig.v ===== *)
(** The configuration and life cycle of discovery: plugins/discovery/config.go,
    manager.go and auth_checker.go, internal/util/wait.go.

    Runtime rules come from annotated ConfigMaps and Secrets.  Informers and
    the YAML decoder are parameters: an informer is the sequence of calls it
    makes.  The rules of a configuration are a Go slice (GoSlice.v), since the
    combined configuration is built by appending to the wired one.  A time is
    in nanoseconds; the zero time is [None]. *)

From Stdlib Require Import ZArith Lia.
From S2P Require Import Prelude Filters Util Leadership Discovery Configuration GoSlice.

(** ** config.go: the resources *)

Definition discoveryAnnotation : string := "wavefront.com/discovery-config".

Definition annotated (annotations : gmap string string) : bool :=
  match annotations !! discoveryAnnotation with Some val => String.eqb val "true" | None => false end.

(** A ConfigMap or a Secret; the values of a Secret are converted to strings.
    [cr_data] is in the order in which the map is visited. *)
Record configResource := MkResource {
  cr_Name : string;
  cr_Annotations : gmap string string;
  cr_data : list (string * string);
}.

(** What an informer calls the handler with: the object, [None] when it has
    another type. *)
Inductive informer_event :=
  | ResourceUpdated (r : option configResource)   (** added or updated *)
  | ResourceDeleted (name : option string).

#[export] Instance Selectors_eq_dec : EqDecision Selectors.
Proof. solve_decision. Defined.
#[export] Instance filter_Config_eq_dec : EqDecision Config.Config.
Proof. solve_decision. Defined.
#[export] Instance CollectionConfig_eq_dec : EqDecision CollectionConfig.
Proof. solve_decision. Defined.
#[export] Instance PluginRest_eq_dec : EqDecision PluginRest.
Proof. solve_decision. Defined.
#[export] Instance Rule_eq_dec : EqDecision Rule.
Proof. solve_decision. Defined.
#[export] Instance PrometheusConfig_eq_dec : EqDecision PrometheusConfig.
Proof. solve_decision. Defined.
#[export] Instance DiscoveryConfig_eq_dec : EqDecision DiscoveryConfig.
Proof. solve_decision. Defined.

Section handler.
(** [discovery.FromYAML] of the content of an entry. *)
Context (from_yaml : string -> result DiscoveryConfig).

Definition load_step (acc : list Rule) (entry : string * string) : result (list Rule) :=
  loadedCfg ← from_yaml entry.2; Ok (acc ++ dc_PluginConfigs loadedCfg).
Definition load (data : list (string * string)) : result (list Rule) := foldM load_step [] data.

(** [updated] and [deleted] on the map of runtime configurations, of which
    only the rules are set. *)
Definition deleted (name : string) (runtimeCfgs : gmap string (list Rule)) : gmap string (list Rule) :=
  match runtimeCfgs !! name with Some _ => delete name runtimeCfgs | None => runtimeCfgs end.

Definition updated (r : configResource) (runtimeCfgs : gmap string (list Rule)) : gmap string (list Rule) :=
  if negb (annotated (cr_Annotations r)) then deleted (cr_Name r) runtimeCfgs
  else match load (cr_data r) with
       | Err _ => runtimeCfgs
       | Ok loaded => <[cr_Name r := loaded]> runtimeCfgs
       end.

Definition handle_event (runtimeCfgs : gmap string (list Rule)) (e : informer_event) : gmap string (list Rule) :=
  match e with
  | ResourceUpdated (Some r) => updated r runtimeCfgs
  | ResourceDeleted (Some name) => deleted name runtimeCfgs
  | _ => runtimeCfgs
  end.
Definition handle_events : list informer_event -> gmap string (list Rule) := foldl handle_event ∅.
End handler.

(** ** config.go: the combined configuration *)

(** The fields that need a value in a rule that nothing has been written to. *)
Definition rule_zero : Rule := MkPlugin "" "" (MkSelectors "" [] ∅ []) "" rest_zero.

Section combine.
Context (grow : nat -> nat -> nat).

Abbreviation store := (gmap positive (list Rule)).

(** A configuration: its fields, and its rules as a slice. *)
Definition config_value : Type := DiscoveryConfig * slice.
Definition value (σ : store) (c : config_value) : DiscoveryConfig := with_plugins (read σ c.2) c.1.

(** The runtime rules in the order of the names of their resources. *)
Definition runtime_rules (runtimeCfgs : gmap string (list Rule)) : list (list Rule) :=
  map (fun k => default [] (runtimeCfgs !! k)) (sorted_keys runtimeCfgs).

(** [combine]; [internal] are the rules of the internal provider, when there
    is one.  [EnableRuntimePlugins] is not copied. *)
Definition combine (wiredCfg : config_value) (runtimeCfgs : gmap string (list Rule)) (internal : option (list Rule))
    (σ : store) : store * config_value :=
  let w := wiredCfg.1 in
  let runCfg := MkDiscovery (dc_DiscoveryInterval w) (dc_AnnotationPrefix w) (dc_AnnotationExcludes w) false
                  (dc_DisableAnnotationDiscovery w) [] [] in
  let st := foldl (fun (st : store * slice) rules =>
      if negb (nil_list rules) then append rule_zero grow st.1 st.2 rules else st) (σ, wiredCfg.2) (runtime_rules runtimeCfgs) in
  let st := match internal with Some rules => append rule_zero grow st.1 st.2 rules | None => st end in
  (st.1, (runCfg, st.2)).

(** ** manager.go: watching for changes *)

(** [NotifyOfChanges]: the first configuration is kept, and at each tick it is
    compared with the current one.  [runtimes] are the runtime configurations
    at the start and at each tick; the result says at which ticks [notify] is
    called. *)
Fixpoint ticks (wiredCfg : config_value) (internal : option (list Rule)) (prevVal : config_value) (σ : store)
    (runtimes : list (gmap string (list Rule))) : list bool :=
  match runtimes with
  | [] => []
  | r :: runtimes' =>
      let '(σ', val) := combine wiredCfg r internal σ in
      negb (bool_decide (value σ' val = value σ' prevVal)) :: ticks wiredCfg internal prevVal σ' runtimes'
  end.
Definition NotifyOfChanges (wiredCfg : config_value) (internal : option (list Rule)) (first : gmap string (list Rule))
    (σ : store) (runtimes : list (gmap string (list Rule))) : list bool :=
  let '(σ', prevVal) := combine wiredCfg first internal σ in ticks wiredCfg internal prevVal σ' runtimes.
End combine.

(** ** manager.go: the discovery manager *)

(** The channels of the handlers of the current run, and the counter of
    running managers. *)
Record manager := MkManager {
  mg_config : option handler_chan;    (** the configuration handler, if it was made *)
  mg_pod : option handler_chan;
  mg_service : option handler_chan;
  mg_stop : handler_chan;
  mg_enabled : Z;
  mg_subscribed : bool;
}.
(** [NewDiscoveryManager]. *)
Definition manager_new : manager := MkManager None None None ChanOpen 0 false.

Definition close_of_closed : string := "close of closed channel".

(** [close(ch)] when [ch] is not nil, and the [stop] of a handler that may not
    have been made. *)
Definition stop_chan (c : handler_chan) : outcome handler_chan :=
  match handler_stop c with Some c' => Done c' | None => Panic close_of_closed end.
Definition stop_handler (h : option handler_chan) : outcome (option handler_chan) :=
  match h with None => Panic nil_pointer | Some c => c' ← stop_chan c; Done (Some c') end.

(** [newConfigHandler]: without a namespace its informers are nil, and
    starting them panics. *)
Definition config_start (namespace file_namespace : string) : outcome handler_chan :=
  if String.eqb namespace "" && String.eqb file_namespace "" then Panic nil_pointer else Done (handler_start ChanNil).

Section manager.
(** [EnableRuntimePlugins], the namespace of the environment and of the file,
    whether pods are watched and whether services can be. *)
Context (runtime : bool) (namespace file_namespace : string) (nodes cluster : bool).

Definition Start (m : manager) : outcome manager :=
  config ← (if runtime then c ← config_start namespace file_namespace; Done (Some c) else Done (mg_config m));
  let pod := if nodes then handler_start ChanNil else ChanNil in
  Done (MkManager config (Some pod) (Some ChanNil) ChanOpen (mg_enabled m + 1)%Z (cluster || mg_subscribed m)).

Definition Stop (m : manager) : outcome manager :=
  config ← match mg_config m with Some c => c' ← stop_chan c; Done (Some c') | None => Done None end;
  pod ← stop_handler (mg_pod m);
  service ← stop_handler (mg_service m);
  stopCh ← (match handler_stop (mg_stop m) with Some c => Done c | None => Panic close_of_closed end);
  Done (MkManager config pod service stopCh (mg_enabled m - 1)%Z false).

Definition Resume (m : manager) : outcome manager :=
  service ← deref_ptr (mg_service m);
  Done (MkManager (mg_config m) (mg_pod m) (Some (handler_start service)) (mg_stop m) (mg_enabled m) (mg_subscribed m)).
Definition Pause (m : manager) : outcome manager :=
  service ← stop_handler (mg_service m);
  Done (MkManager (mg_config m) (mg_pod m) service (mg_stop m) (mg_enabled m) (mg_subscribed m)).

(** The messages of the election, in order. *)
Fixpoint elections (m : manager) (msgs : list bool) : outcome manager :=
  match msgs with
  | [] => Done m
  | isLeader :: msgs' => m' ← (if isLeader then Resume m else Pause m); elections m' msgs'
  end.

(** What happens when new runtime rules are found. *)
Definition restart (m : manager) : outcome manager := m' ← Stop m; Start m'.
End manager.

(** ** auth_checker.go *)

Record AuthChecker := MkChecker {
  hasAccess : bool;
  lastChecked : option Z;
  lastReported : option Z;
}.
Definition checker_new : AuthChecker := MkChecker false None None.

(** [Sub]: the time since the zero time is more than a duration can hold. *)
Definition since (now : Z) (t : option Z) : Z :=
  match t with Some t => (now - t)%Z | None => (2 ^ 63 - 1)%Z end.

(** The readings of the clock of one call, in order. *)
Record clock := MkClock { at_refresh : Z; at_check : Z; at_report : Z; at_reported : Z }.

Section checker.
Context (refreshInterval reportInterval : Z).

Definition reportAccess (t : clock) (c : AuthChecker) : AuthChecker * bool :=
  if hasAccess c then (MkChecker (hasAccess c) (lastChecked c) None, false)
  else if (since (at_report t) (lastReported c) <? reportInterval)%Z then (c, false)
  else (MkChecker (hasAccess c) (lastChecked c) (Some (at_reported t)), true).

(** [CanListSecrets]: the checker, the answer, whether the API was called and
    whether a message was logged.  [review] is what the API answers. *)
Definition CanListSecrets (t : clock) (review : result bool) (c : AuthChecker) : AuthChecker * bool * bool * bool :=
  if negb (refreshInterval <? since (at_refresh t) (lastChecked c))%Z then (c, hasAccess c, false, false)
  else
    let access := match review with Ok allowed => allowed | Err _ => false end in
    let '(c', logged) := reportAccess t (MkChecker access (Some (at_check t)) (lastReported c)) in
    (c', hasAccess c', true, logged).

(** A sequence of calls: for each, the answer, and when the API was called and
    when a message was logged. *)
Fixpoint checks (c : AuthChecker) (calls : list (clock * result bool)) : list (bool * option Z * option Z) :=
  match calls with
  | [] => []
  | (t, review) :: calls' =>
      let '(c', answer, called, logged) := CanListSecrets t review c in
      (answer, if called then Some (at_check t) else None, if logged then Some (at_reported t) else None) :: checks c' calls'
  end.
End checker.

(** ** Runtime configurations: what the events leave *)

Section events.
Context (from_yaml : string -> result DiscoveryConfig).

(** What an event says about the resource [n]: nothing, or the rules it has
    from now on ([Some None]: it has none). *)
Definition says (n : string) (e : informer_event) : option (option (list Rule)) :=
  match e with
  | ResourceUpdated (Some r) =>
      if bool_decide (cr_Name r = n) then
        if annotated (cr_Annotations r) then
          match load from_yaml (cr_data r) with Ok rules => Some (Some rules) | Err _ => None end
        else Some None
      else None
  | ResourceDeleted (Some name) => if bool_decide (name = n) then Some None else None
  | _ => None
  end.

Lemma deleted_lookup name m n : deleted name m !! n = if bool_decide (name = n) then None else m !! n.
Proof.
  unfold deleted. case_bool_decide as E.
  - subst. destruct (m !! n) eqn:El; [by rewrite lookup_delete_eq|done].
  - destruct (m !! name); [by rewrite lookup_delete_ne|done].
Qed.

Lemma handle_event_lookup m e n : handle_event from_yaml m e !! n = default (m !! n) (says n e).
Proof.
  destruct e as [[r|]|[name|]]; cbn [handle_event says]; try done.
  - unfold updated. destruct (annotated (cr_Annotations r)); cbn [negb].
    + destruct (load from_yaml (cr_data r)) as [rules|err]; [|by case_bool_decide].
      case_bool_decide as E; [subst; by rewrite lookup_insert_eq|by rewrite lookup_insert_ne].
    + rewrite deleted_lookup. by case_bool_decide.
  - rewrite deleted_lookup. by case_bool_decide.
Qed.

Lemma handle_events_lookup es m n :
  foldl (handle_event from_yaml) m es !! n = default (m !! n) (last (omap (says n) es)).
Proof.
  induction es as [|e es IH] using rev_ind; [done|]. rewrite foldl_app, omap_app. cbn [foldl omap list_omap].
  rewrite handle_event_lookup, IH. destruct (says n e) as [o|]; cbn; [by rewrite last_snoc|by rewrite app_nil_r].
Qed.
End events.

(** C13: the runtime rules of discovery.  After any sequence of informer events,
    the rules recorded for a resource name are those of the last event about
    that name that says anything: an annotated resource whose entries all load
    sets them, a resource without the annotation or a deletion removes them,
    and a resource that does not load leaves the earlier ones in force; so
    events about different resources can be handled in any order.  ConfigMaps
    and Secrets are told apart by name only: one that is not annotated removes
    the rules of the other. *)
Theorem runtime_configs_spec (from_yaml : string -> result DiscoveryConfig) (es : list informer_event) (n : string) :
  handle_events from_yaml es !! n = default None (last (omap (says from_yaml n) es)).
Proof. unfold handle_events. rewrite handle_events_lookup. by rewrite lookup_empty. Qed.

(** A Secret without the annotation removes the rules of the ConfigMap of the
    same name. *)
Example secret_removes_configmap :
  let from_yaml := fun _ => Ok (with_plugins [rule_zero] discovery_zero) in
  let configmap := ResourceUpdated (Some (MkResource "redis" {[discoveryAnnotation := "true"]} [("rules", "...")])) in
  let secret := ResourceUpdated (Some (MkResource "redis" ∅ [("password", "...")])) in
  handle_events from_yaml [configmap] !! "redis" = Some [rule_zero] /\
  handle_events from_yaml [configmap; secret] !! "redis" = None.
Proof. split; by vm_compute. Qed.

(** ** The combined configuration *)

Section combined.
Context (grow : nat -> nat -> nat).
Abbreviation store := (gmap positive (list Rule)).

Definition all_rules (r : gmap string (list Rule)) (internal : option (list Rule)) : list Rule :=
  concat (runtime_rules r) ++ default [] internal.

Lemma skip_nil (rules : list (list Rule)) st :
  exists xss, foldl (fun (st : store * slice) rules =>
      if negb (nil_list rules) then append rule_zero grow st.1 st.2 rules else st) st rules = appends rule_zero grow st xss /\
    concat xss = concat rules.
Proof.
  revert st; induction rules as [|rs rules IH]; intros st; cbn [foldl]; [by exists []|].
  destruct rs as [|r rs]; cbn [nil_list negb].
  - destruct (IH st) as (xss & E & Ec). exists xss. by split.
  - destruct (IH (append rule_zero grow st.1 st.2 (r :: rs))) as (xss & E & Ec). exists ((r :: rs) :: xss).
    split; [exact E|]. cbn. by rewrite Ec.
Qed.

(** The combined slice is a loop of appends to the wired one. *)
Lemma combine_appends wired r internal σ :
  exists xss, (combine grow wired r internal σ).1 = (appends rule_zero grow (σ, wired.2) xss).1 /\
    (combine grow wired r internal σ).2.2 = (appends rule_zero grow (σ, wired.2) xss).2 /\
    concat xss = all_rules r internal.
Proof.
  unfold combine. destruct (skip_nil (runtime_rules r) (σ, wired.2)) as (xss & -> & Hc). unfold all_rules.
  destruct internal as [rules|]; cbn [fst snd default from_option id].
  - exists (xss ++ [rules]). unfold appends. rewrite foldl_app, concat_app, Hc. cbn. by rewrite app_nil_r.
  - exists xss. by rewrite app_nil_r.
Qed.

Lemma combine_scalars wired r internal σ :
  (combine grow wired r internal σ).2.1 =
  MkDiscovery (dc_DiscoveryInterval wired.1) (dc_AnnotationPrefix wired.1) (dc_AnnotationExcludes wired.1) false
    (dc_DisableAnnotationDiscovery wired.1) [] [].
Proof. done. Qed.

(** The combined configuration as a value. *)
Definition combined (w : DiscoveryConfig) (plugins : list Rule) (r : gmap string (list Rule)) (internal : option (list Rule))
    : DiscoveryConfig :=
  MkDiscovery (dc_DiscoveryInterval w) (dc_AnnotationPrefix w) (dc_AnnotationExcludes w) false
    (dc_DisableAnnotationDiscovery w) (plugins ++ all_rules r internal) [].

Lemma combine_value wired r internal σ :
  slice_ok σ wired.2 ->
  value (combine grow wired r internal σ).1 (combine grow wired r internal σ).2 =
    combined wired.1 (read σ wired.2) r internal /\
  slice_ok (combine grow wired r internal σ).1 (combine grow wired r internal σ).2.2.
Proof.
  intros Hs. unfold value. rewrite combine_scalars. destruct (combine_appends wired r internal σ) as (xss & -> & -> & Hc).
  destruct (appends_read rule_zero grow (σ, wired.2) xss Hs) as [H1 H2]. split; [|done]. rewrite H2, Hc. done.
Qed.

Lemma combine_frame wired r internal σ l :
  slice_ok σ wired.2 -> sl_cap wired.2 = sl_len wired.2 -> is_Some (σ !! l) ->
  (combine grow wired r internal σ).1 !! l = σ !! l.
Proof.
  intros Hs Hc Hl. destruct (combine_appends wired r internal σ) as (xss & -> & _). by apply appends_frame.
Qed.

Lemma combine_dom wired r internal σ l :
  slice_ok σ wired.2 -> is_Some (σ !! l) -> is_Some ((combine grow wired r internal σ).1 !! l).
Proof.
  intros Hs Hl. destruct (combine_appends wired r internal σ) as (xss & -> & _). clear r internal.
  cut (forall st, slice_ok st.1 st.2 -> is_Some (st.1 !! l) -> is_Some ((appends rule_zero grow st xss).1 !! l)).
  { intros H. by apply (H (σ, wired.2)). }
  clear. induction xss as [|xs xss IH]; intros st Hs Hl; [done|]. apply IH; [by apply append_ok|by apply append_dom].
Qed.

Lemma read_same (σ σ' : store) s : σ' !! sl_array s = σ !! sl_array s -> read σ' s = read σ s.
Proof. intros E. unfold read, array_of. by rewrite E. Qed.

Lemma slice_ok_same (σ σ' : store) s : σ' !! sl_array s = σ !! sl_array s -> slice_ok σ s -> slice_ok σ' s.
Proof. intros E (a & Ha & ?). exists a. by rewrite E. Qed.
End combined.

(** Changes of the runtime rules are noticed.  When the wired rules fill
    their array, as the YAML decoder leaves them, every tick compares with the
    configuration of the start: the manager is notified exactly at the ticks at
    which the combined rules differ from those at the start. *)
Theorem changes_noticed (grow : nat -> nat -> nat) (wired : config_value) (internal : option (list Rule))
    (first : gmap string (list Rule)) (σ : gmap positive (list Rule)) (runtimes : list (gmap string (list Rule))) :
  slice_ok σ wired.2 -> sl_cap wired.2 = sl_len wired.2 ->
  NotifyOfChanges grow wired internal first σ runtimes =
    map (fun r => negb (bool_decide (all_rules r internal = all_rules first internal))) runtimes.
Proof.
  intros Hs Hc. unfold NotifyOfChanges.
  destruct (combine_value grow wired first internal σ Hs) as [Hv Hok].
  assert (Hw : (combine grow wired first internal σ).1 !! sl_array wired.2 = σ !! sl_array wired.2).
  { destruct Hs as (a & Ha & Hs'). apply combine_frame; [by exists a|done|by rewrite Ha]. }
  pose proof (slice_ok_same _ _ _ Hw Hs) as Hs0. pose proof (read_same _ _ _ Hw) as Hr0.
  destruct (combine grow wired first internal σ) as [σ0 prev]. cbn [fst snd] in *. rewrite <- Hr0 in Hv. clear Hw Hr0 Hs σ.
  revert σ0 Hs0 Hv Hok; induction runtimes as [|r runtimes IH]; intros σ Hs Hv Hok; [done|]. cbn [ticks map].
  destruct (combine_value grow wired r internal σ Hs) as [Hv1 Hok1].
  assert (Hf : forall l, is_Some (σ !! l) -> (combine grow wired r internal σ).1 !! l = σ !! l)
    by (intros l Hl; by apply combine_frame).
  assert (Hw : (combine grow wired r internal σ).1 !! sl_array wired.2 = σ !! sl_array wired.2).
  { destruct Hs as (a & Ha & _). apply Hf. by rewrite Ha. }
  assert (Hp : (combine grow wired r internal σ).1 !! sl_array prev.2 = σ !! sl_array prev.2).
  { destruct Hok as (a & Ha & _). apply Hf. by rewrite Ha. }
  pose proof (read_same _ _ _ Hw) as Hrw. pose proof (slice_ok_same _ _ _ Hw Hs) as Hs1.
  pose proof (slice_ok_same _ _ _ Hp Hok) as Hokp. pose proof (read_same _ _ _ Hp) as Hrp.
  destruct (combine grow wired r internal σ) as [σ1 val]. cbn [fst snd] in *.
  assert (Hvp : value σ1 prev = value σ prev) by (unfold value; by rewrite Hrp).
  f_equal; [|apply IH; [done|by rewrite Hvp, Hrw|done]].
  rewrite Hvp, Hv, Hv1. f_equal. apply bool_decide_ext. unfold combined. split; [|by intros ->].
  intros [= E]. by apply app_inv_head in E.
Qed.

(** Changes that are missed.  When the array of the wired rules has room
    for the others (as when deprecated rules were appended to it), every
    combined configuration is written to the same place: a change that keeps
    the number of rules is never noticed, whatever the rules. *)
Theorem changes_missed (grow : nat -> nat -> nat) (wired : config_value) (internal : option (list Rule))
    (first : gmap string (list Rule)) (σ : gmap positive (list Rule)) (runtimes : list (gmap string (list Rule))) :
  slice_ok σ wired.2 -> sl_len wired.2 + length (all_rules first internal) <= sl_cap wired.2 ->
  Forall (fun r => length (all_rules r internal) = length (all_rules first internal)) runtimes ->
  NotifyOfChanges grow wired internal first σ runtimes = map (fun _ => false) runtimes.
Proof.
  intros Hs Hc Hl. unfold NotifyOfChanges.
  assert (Hsame : forall r σ, length (all_rules r internal) = length (all_rules first internal) ->
    (combine grow wired r internal σ).2.2 =
      MkSlice (sl_array wired.2) (sl_len wired.2 + length (all_rules first internal)) (sl_cap wired.2)).
  { intros r σ' Hr. destruct (combine_appends grow wired r internal σ') as (xss & _ & -> & Ec).
    rewrite appends_in_place; rewrite Ec, Hr; done. }
  pose proof (Hsame first σ eq_refl) as Hp. pose proof (combine_scalars grow wired first internal σ) as Hp1.
  destruct (combine grow wired first internal σ) as [σ0 prev]. cbn [fst snd] in *. clear Hs σ.
  revert σ0; induction runtimes as [|r runtimes IH]; intros σ; [done|]. cbn [ticks map].
  apply Forall_cons in Hl as [Hr Hl]. pose proof (Hsame r σ Hr) as Hv. pose proof (combine_scalars grow wired r internal σ) as Hv1.
  destruct (combine grow wired r internal σ) as [σ1 val]. cbn [fst snd] in *. f_equal; [|by apply IH].
  assert (val = prev) as -> by (destruct val, prev; cbn in *; congruence).
  by rewrite bool_decide_eq_true_2.
Qed.

Definition named_rule (name : string) : Rule := MkPlugin name "prometheus" (MkSelectors "" ["*"] ∅ []) "" rest_zero.
Definition sample_wired (spare : nat) : gmap positive (list Rule) * slice := make_slice rule_zero ∅ [named_rule "wired"] spare.
Definition sample_runtime (name : string) : gmap string (list Rule) := {["configmap" := [named_rule name]]}.
Definition double (old n : nat) : nat := old + old.

Lemma sample_wired_ok spare : slice_ok (sample_wired spare).1 (sample_wired spare).2.
Proof.
  exists ([named_rule "wired"] ++ replicate spare rule_zero). cbn. rewrite lookup_insert_eq.
  split; [done|]. rewrite length_replicate. lia.
Qed.

Lemma changes_noticed_witness :
  NotifyOfChanges double (discovery_zero, (sample_wired 0).2) None (sample_runtime "a") (sample_wired 0).1
    [sample_runtime "a"; sample_runtime "b"; sample_runtime "a"] = [false; true; false].
Proof.
  etransitivity; [apply changes_noticed; [apply sample_wired_ok|reflexivity]|by vm_compute].
Defined.

Lemma changes_missed_witness :
  NotifyOfChanges double (discovery_zero, (sample_wired 1).2) None (sample_runtime "a") (sample_wired 1).1
    [sample_runtime "a"; sample_runtime "b"] = [false; false].
Proof.
  etransitivity; [apply changes_missed; [apply sample_wired_ok|by vm_compute|by repeat constructor]|reflexivity].
Defined.

(** ** The life cycle *)

Section lifecycle.
Context (runtime : bool) (namespace file_namespace : string) (nodes cluster : bool).

(** A run that [Start] has begun: what [Stop] will close is open. *)
Record running (m : manager) : Prop := {
  run_config : match mg_config m with Some c => c = ChanOpen | None => True end;
  run_pod : exists c, mg_pod m = Some c /\ c <> ChanClosed;
  run_service : is_Some (mg_service m);
  run_stop : mg_stop m = ChanOpen;
}.

Lemma elections_service m c msgs :
  mg_service m = Some c ->
  elections m msgs = match service_run c msgs with
    | Some c' => Done (MkManager (mg_config m) (mg_pod m) (Some c') (mg_stop m) (mg_enabled m) (mg_subscribed m))
    | None => Panic close_of_closed
    end.
Proof.
  revert m c; induction msgs as [|b msgs IH]; intros m c Hm.
  { cbn. rewrite <- Hm. by destruct m. }
  cbn [elections service_run]. destruct b.
  - unfold Resume. rewrite Hm. cbn [deref_ptr mbind outcome_bind]. by rewrite (IH _ (handler_start c)).
  - unfold Pause. rewrite Hm. cbn [stop_handler]. unfold stop_chan.
    destruct (handler_stop c) as [c'|]; cbn [mbind outcome_bind option_bind]; [|done]. by rewrite (IH _ c').
Qed.

Lemma Start_running m :
  match mg_config m with Some _ => runtime = true | None => True end ->
  if runtime && String.eqb namespace "" && String.eqb file_namespace "" then
    Start runtime namespace file_namespace nodes cluster m = Panic nil_pointer
  else exists m', Start runtime namespace file_namespace nodes cluster m = Done m' /\ running m' /\
    mg_service m' = Some ChanNil /\ mg_enabled m' = (mg_enabled m + 1)%Z /\
    match mg_config m' with Some _ => runtime = true | None => True end.
Proof.
  intros Hc. unfold Start, config_start. destruct runtime; cbn [andb].
  - destruct (String.eqb namespace "" && String.eqb file_namespace ""); cbn; [done|].
    eexists. split; [done|]. split_and!; try done. split; cbn; try done. by destruct nodes; eexists.
  - cbn. eexists. split; [done|]. split_and!; try done.
    split; cbn; try done; [|by destruct nodes; eexists]. destruct (mg_config m); done.
Qed.

Lemma Stop_running m c :
  running m -> mg_service m = Some c ->
  match handler_stop c with
  | None => Stop m = Panic close_of_closed
  | Some _ => exists m', Stop m = Done m' /\ mg_enabled m' = (mg_enabled m - 1)%Z /\
      (is_Some (mg_config m') <-> is_Some (mg_config m))
  end.
Proof.
  intros [H1 (p & H2 & Hp) _ H4] Hs. unfold Stop. rewrite H2, Hs, H4.
  destruct (mg_config m) as [c0|]; [subst c0|]; cbn [stop_chan handler_stop mbind outcome_bind stop_handler];
    unfold stop_chan; destruct p; try done; cbn [stop_chan handler_stop mbind outcome_bind];
    destruct (handler_stop c); cbn [mbind outcome_bind]; try done; (eexists; split; [done|]); split; done.
Qed.
End lifecycle.

(** Restarting discovery.  A manager that can find its namespace starts,
    and starting it then works whatever elections it has seen; when the runtime
    rules change it is stopped and started again.  That works exactly when the
    service handler is not stopped already: once the node has been demoted, the
    restart closes a closed channel and the collector crashes.  Without a
    namespace, a manager with runtime rules crashes when it starts. *)
Theorem manager_restart_spec (runtime : bool) (namespace file_namespace : string) (nodes cluster : bool) (msgs : list bool) :
  let start := Start runtime namespace file_namespace nodes cluster in
  if runtime && String.eqb namespace "" && String.eqb file_namespace "" then start manager_new = Panic nil_pointer
  else exists m, start manager_new = Done m /\ mg_enabled m = 1%Z /\
    match service_run ChanNil msgs with
    | None => elections m msgs = Panic close_of_closed
    | Some c => exists m1, elections m msgs = Done m1 /\
        match c with
        | ChanClosed => restart runtime namespace file_namespace nodes cluster m1 = Panic close_of_closed
        | _ => exists m2, restart runtime namespace file_namespace nodes cluster m1 = Done m2 /\ running m2 /\
                 mg_enabled m2 = 1%Z /\ mg_service m2 = Some ChanNil
        end
    end.
Proof.
  intros start. unfold start. pose proof (Start_running runtime namespace file_namespace nodes cluster manager_new I) as H.
  destruct (_ && _) eqn:Ec; [done|]. destruct H as (m & -> & Hm & Hs & He & Hcfg). exists m.
  split_and!; [done|done|]. rewrite (elections_service m ChanNil msgs Hs).
  destruct (service_run ChanNil msgs) as [c|]; [|done]. eexists. split; [done|].
  set (m1 := MkManager _ _ _ _ _ _).
  assert (Hm1 : running m1) by (destruct Hm as [? ? ? ?]; by split).
  pose proof (Stop_running m1 c Hm1 eq_refl) as Hstop. unfold restart.
  assert (Hgo : forall c', handler_stop c = Some c' -> exists m2,
    (m' ← Stop m1; Start runtime namespace file_namespace nodes cluster m') = Done m2 /\ running m2 /\
      mg_enabled m2 = 1%Z /\ mg_service m2 = Some ChanNil).
  { intros c' E. rewrite E in Hstop. destruct Hstop as (m' & -> & He' & Hc'). cbn [mbind outcome_bind].
    pose proof (Start_running runtime namespace file_namespace nodes cluster m') as H. rewrite Ec in H.
    destruct H as (m2 & E2 & Hr2 & Hs2 & He2 & _).
    - destruct (mg_config m') as [x|] eqn:Ex; [|done]. destruct (proj1 Hc' (ex_intro _ x eq_refl)) as [y Hy].
      cbn in Hy. by rewrite Hy in Hcfg.
    - exists m2. split_and!; try done. unfold m1 in He'. cbn in He', He. lia. }
  destruct c; [by eapply Hgo|by eapply Hgo|]. cbn [handler_stop] in Hstop. by rewrite Hstop.
Qed.

(** ** The access checks *)

Section access.
Context (refreshInterval reportInterval : Z).

(** The readings of the clock never go back. *)
Fixpoint clock_runs (from : Z) (calls : list (clock * result bool)) : Prop :=
  match calls with
  | [] => True
  | (t, _) :: calls' =>
      (from <= at_refresh t <= at_check t /\ at_check t <= at_report t <= at_reported t)%Z /\ clock_runs (at_reported t) calls'
  end.

Definition api_calls (l : list (bool * option Z * option Z)) : list Z := omap (fun x => x.1.2) l.
Definition reports (l : list (bool * option Z * option Z)) : list Z := omap (fun x => x.2) l.
Definition granted (review : result bool) : bool := match review with Ok allowed => allowed | Err _ => false end.

(** The answers follow the last review of the API; [last] before the first. *)
Fixpoint answers_follow (last : bool) (results : list (bool * option Z * option Z)) (calls : list (clock * result bool)) : Prop :=
  match results, calls with
  | [], [] => True
  | (answer, called, _) :: results', (_, review) :: calls' =>
      answer = (if called then granted review else last) /\ answers_follow answer results' calls'
  | _, _ => False
  end.

Lemma reportAccess_access t c : hasAccess (reportAccess reportInterval t c).1 = hasAccess c.
Proof. unfold reportAccess. destruct (hasAccess c) eqn:E; [done|]. by destruct (_ <? _)%Z. Qed.

Lemma checks_follow c calls : answers_follow (hasAccess c) (checks refreshInterval reportInterval c calls) calls.
Proof.
  revert c; induction calls as [|[t review] calls IH]; intros c; [done|]. cbn [checks]. unfold CanListSecrets.
  destruct (negb _); [split; [done|apply IH]|].
  set (c0 := MkChecker (match review with Ok allowed => allowed | Err _ => false end) (Some (at_check t)) (lastReported c)).
  pose proof (reportAccess_access t c0) as Hacc.
  destruct (reportAccess reportInterval t c0) as [c1 logged]. cbn [answers_follow fst] in *. split; [exact Hacc|apply IH].
Qed.

Lemma reportAccess_checked t c : lastChecked (reportAccess reportInterval t c).1 = lastChecked c.
Proof. unfold reportAccess. destruct (hasAccess c); [done|]. by destruct (_ <? _)%Z. Qed.

(** [R] from the last time, if there is one, to the first of the list. *)
Definition after (R : Z -> Z -> Prop) (last : option Z) (l : list Z) : Prop :=
  match last, l with Some a, b :: _ => R a b | _, _ => True end.

Lemma Sorted_after R a l : Sorted R l -> after R (Some a) l -> Sorted R (a :: l).
Proof. intros H1 H2. constructor; [done|]. destruct l; by constructor. Qed.

(** The API is asked again only after the refresh interval. *)
Lemma checks_apart c calls from :
  clock_runs from calls ->
  Sorted (fun a b => refreshInterval < b - a)%Z (api_calls (checks refreshInterval reportInterval c calls)) /\
  after (fun a b => refreshInterval < b - a)%Z (lastChecked c)
    (api_calls (checks refreshInterval reportInterval c calls)).
Proof.
  revert c from; induction calls as [|[t review] calls IH]; intros c from Hc; [split; [constructor|by destruct (lastChecked c)]|].
  destruct Hc as [Ht Hc]. cbn [checks]. unfold CanListSecrets. destruct (Z.ltb_spec refreshInterval (since (at_refresh t) (lastChecked c))) as [Hlt|];
    cbn [negb]; [|by eapply IH].
  set (c0 := MkChecker _ (Some (at_check t)) (lastReported c)). pose proof (reportAccess_checked t c0) as Hch.
  destruct (reportAccess reportInterval t c0) as [c1 logged]. cbn [fst] in Hch.
  destruct (IH c1 (at_reported t) Hc) as [H1 H2]. cbn [api_calls omap list_omap fst snd] in *. rewrite Hch in H2. split.
  - by apply Sorted_after.
  - destruct (lastChecked c) as [z|]; [|done]. cbn in Hlt |- *. lia.
Qed.

(** While access is denied, messages are at least the report interval apart. *)
Lemma reports_apart c calls from :
  clock_runs from calls -> Forall (fun x => granted x.2 = false) calls ->
  Sorted (fun a b => reportInterval <= b - a)%Z (reports (checks refreshInterval reportInterval c calls)) /\
  after (fun a b => reportInterval <= b - a)%Z (lastReported c)
    (reports (checks refreshInterval reportInterval c calls)).
Proof.
  revert c from; induction calls as [|[t review] calls IH]; intros c from Hc Hd; [split; [constructor|by destruct (lastReported c)]|].
  destruct Hc as [Ht Hc]. apply Forall_cons in Hd as [Hd Hds]. cbn [snd] in Hd. cbn [checks]. unfold CanListSecrets.
  destruct (_ <? since _ _)%Z; cbn [negb]; [|by eapply IH].
  change (match review with Ok allowed => allowed | Err _ => false end) with (granted review). rewrite Hd.
  unfold reportAccess. cbn [hasAccess lastReported lastChecked].
  destruct (Z.ltb_spec (since (at_report t) (lastReported c)) reportInterval) as [|Hle].
  - exact (IH (MkChecker false (Some (at_check t)) (lastReported c)) _ Hc Hds).
  - destruct (IH (MkChecker false (Some (at_check t)) (Some (at_reported t))) _ Hc Hds) as [H1 H2].
    cbn [reports omap list_omap fst snd lastReported] in *. split.
    + by apply Sorted_after.
    + destruct (lastReported c) as [z|]; [|done]. cbn in Hle |- *. lia.
Qed.
End access.

(** The access checks are throttled.  Over any sequence of calls with a
    clock that does not go back, the first call asks the API, every answer is
    that of the last review made, two reviews are more than the refresh
    interval apart and, while access is denied, two messages are at least the
    report interval apart. *)
Theorem CanListSecrets_throttled (refreshInterval reportInterval from : Z) (calls : list (clock * result bool)) :
  (0 <= refreshInterval < 2 ^ 63 - 1)%Z -> clock_runs from calls ->
  let results := checks refreshInterval reportInterval checker_new calls in
  length results = length calls /\
  match calls with [] => True | (t, _) :: _ => head (api_calls results) = Some (at_check t) end /\
  answers_follow false results calls /\
  StronglySorted (fun a b => refreshInterval < b - a)%Z (api_calls results) /\
  (Forall (fun x => granted x.2 = false) calls ->
     Sorted (fun a b => reportInterval <= b - a)%Z (reports results)).
Proof.
  intros Hr Hc results. split_and!.
  - unfold results. generalize checker_new. clear. induction calls as [|[t review] calls IH]; intros c; [done|].
    cbn [checks]. destruct (CanListSecrets _ _ _ _ _) as [[[c' a] b] l]. cbn. by rewrite IH.
  - destruct calls as [|[t review] calls]; [done|]. unfold results. cbn [checks]. unfold CanListSecrets.
    cbn [lastChecked checker_new since]. rewrite (proj2 (Z.ltb_lt _ _)) by lia. cbn [negb].
    by destruct (reportAccess _ _ _).
  - exact (checks_follow refreshInterval reportInterval checker_new calls).
  - apply Sorted_StronglySorted; [intros a b c; lia|]. by eapply checks_apart.
  - intros Hd. by eapply (reports_apart refreshInterval reportInterval checker_new).
Qed.

Lemma CanListSecrets_throttled_witness :
  let calls := [(MkClock 1 1 1 1, Ok false); (MkClock 5 5 5 5, Ok true); (MkClock 20 20 20 21, Ok true)]%Z in
  clock_runs 0 calls /\ StronglySorted (fun a b => 10 < b - a)%Z (api_calls (checks 10 100 checker_new calls)) /\
  api_calls (checks 10 100 checker_new calls) = [1; 20]%Z.
Proof.
  intros calls. assert (Hc : clock_runs 0 calls) by (cbn; lia). split; [exact Hc|]. split; [|by vm_compute].
  exact (proj1 (proj2 (proj2 (proj2 (CanListSecrets_throttled 10 100 0 calls ltac:(lia) Hc))))).
Defined.
