(* ===== verification/ConfigHandler.v ===== *)
(** The informers of the runtime rules: the constructor and the callbacks of
    plugins/discovery/config.go.  What the callbacks do to the rules is in
    DiscoveryConfig.v, and so is the access checker. *)

From Stdlib Require Import ZArith Lia.
From S2P Require Import Prelude Filters Util Leadership Discovery Configuration DiscoveryConfig.

(** ** The objects *)

Record ConfigMap := MkConfigMap {
  cm_Name : string;
  cm_Annotations : gmap string string;
  cm_Data : list (string * string);       (** in the order in which it is visited *)
}.
Record Secret := MkSecret {
  se_Name : string;
  se_Annotations : gmap string string;
  se_Data : list (string * list ascii);
}.

(** [string(value)] of every entry. *)
Definition convertByteArrayData (data : list (string * list ascii)) : list (string * string) :=
  map (fun '(key, value) => (key, String.string_of_list_ascii value)) data.

(** ** The callbacks: [None] is an object of another type *)

Definition updateConfigMapIfValid (obj : option ConfigMap) : informer_event :=
  ResourceUpdated ((fun c => MkResource (cm_Name c) (cm_Annotations c) (cm_Data c)) <$> obj).
Definition deleteConfigMapIfValid (obj : option ConfigMap) : informer_event := ResourceDeleted (cm_Name <$> obj).
Definition updateSecretIfValid (obj : option Secret) : informer_event :=
  ResourceUpdated ((fun s => MkResource (se_Name s) (se_Annotations s) (convertByteArrayData (se_Data s))) <$> obj).
Definition deleteSecretIfValid (obj : option Secret) : informer_event := ResourceDeleted (se_Name <$> obj).

(** The list function of the secrets: without access nothing is asked for and
    there are none. *)
Definition emptySecretList : list Secret := [].
Definition list_secrets (can_list : bool) (listed : result (list Secret)) : result (list Secret) :=
  if can_list then listed else Ok emptySecretList.

(** ** The constructor *)

Definition readNamespaceFromFile (read : result string) : string :=
  match read with Ok ns => ns | Err _ => "" end.

(** The handler, with the namespace that its informers watch when it has
    informers. *)
Record configHandler := MkHandler {
  ch_wiredCfg : DiscoveryConfig;
  ch_runtimeCfgs : gmap string (list Rule);
  ch_internal : option (list Rule);
  ch_watched : option string;
}.
Definition newConfigHandler (e : env) (read : result string) (cfg : DiscoveryConfig) (internal : option (list Rule))
    : configHandler :=
  let ns := GetNamespaceName e in
  let ns := if String.eqb ns "" then readNamespaceFromFile read else ns in
  MkHandler cfg ∅ internal (if String.eqb ns "" then None else Some ns).

(** [start] and [stop]: running an informer that is nil panics. *)
Definition handler_start (h : configHandler) (c : handler_chan) : outcome handler_chan :=
  match ch_watched h with Some _ => Done (Discovery.handler_start c) | None => Panic nil_pointer end.
Definition handler_stop (c : handler_chan) : option handler_chan := Discovery.handler_stop c.

(** ** Lemmas *)

(** It is what the manager of DiscoveryConfig.v starts. *)
Lemma handler_start_config e read cfg internal :
  handler_start (newConfigHandler e read cfg internal) ChanNil =
  config_start (GetNamespaceName e) (readNamespaceFromFile read).
Proof.
  unfold handler_start, newConfigHandler, config_start. cbn [ch_watched].
  destruct (String.eqb (GetNamespaceName e) "") eqn:E; cbn [andb]; [|by rewrite E].
  by destruct (String.eqb (readNamespaceFromFile read) "").
Qed.

(** An entry of a secret becomes the text of its bytes, under its key. *)
Lemma convert_entry data k s :
  (k, s) ∈ convertByteArrayData data <-> (k, String.list_ascii_of_string s) ∈ data.
Proof.
  unfold convertByteArrayData. rewrite list_elem_of_In, in_map_iff. split.
  - intros ([k' v] & [= <- <-] & Hin). rewrite String.list_ascii_of_string_of_list_ascii. by rewrite list_elem_of_In.
  - intros Hin. exists (k, String.list_ascii_of_string s). by rewrite String.string_of_list_ascii_of_string, <-list_elem_of_In.
Qed.

(** A secret and a config map with the same annotations and texts say the
    same, under the same name: an informer's event does not tell them apart. *)
Lemma secret_as_configmap from_yaml m (s : Secret) :
  handle_event from_yaml m (updateSecretIfValid (Some s)) =
  handle_event from_yaml m (updateConfigMapIfValid (Some (MkConfigMap (se_Name s) (se_Annotations s) (convertByteArrayData (se_Data s))))) /\
  handle_event from_yaml m (deleteSecretIfValid (Some s)) =
  handle_event from_yaml m (deleteConfigMapIfValid (Some (MkConfigMap (se_Name s) (se_Annotations s) []))).
Proof. done. Qed.
