(* ===== verification/DiscoveryQueue.v ===== *)
(** The queue of the discoverer: plugins/discovery/discoverer.go and the
    handlers of pod.go and service.go that feed it.

    The informers' goroutines enqueue resources, one goroutine takes them off
    the channel and updates the endpoints, another one looks at the node, and
    the manager stops the discoverer and deletes all endpoints.  A step of the
    model is what one goroutine does between two points at which another one
    can be seen to run: a change of the wait group, a send, a receive, the
    closing of the channel, an operation under the lock.  [step] computes the
    state after a step: [None] when the goroutine is blocked or is not there,
    a panic when the process dies. *)

From Stdlib Require Import ZArith Lia.
From S2P Require Import Prelude Filters Util Leadership Discovery Configuration Interleaving.

(** ** pod.go and service.go: the calls of the informers *)

(** What an informer calls its handler with: the object, [None] when it is not
    of the type the handler asserts, such as the [DeletedFinalStateUnknown] of
    a deletion that was missed. *)
Inductive resource_event :=
  | PodUpdated (phase : string) (pod : option Resource)     (** added or updated *)
  | PodDeleted (pod : option Resource)
  | ServiceUpdated (service : option Resource)
  | ServiceDeleted (service : option Resource).

(** The resources that a call enqueues. *)
Definition resource_calls (ev : resource_event) : list Resource :=
  match ev with
  | PodUpdated phase (Some pod) => updatePod phase pod
  | PodDeleted (Some pod) => deletePod pod
  | ServiceUpdated (Some service) => updateService service
  | ServiceDeleted (Some service) => deleteService service
  | _ => []
  end.

(** ** discoverer.go: the state *)

(** Where a goroutine is in [enqueue]. *)
Inductive enqueuing := EIdle | EAdded (** to the wait group *) | ESent.

(** A goroutine that enqueues: what it still has to, and what it has sent. *)
Record producer := MkProducer {
  pr_todo : list Resource;
  pr_sent : list Resource;
  pr_at : enqueuing;
}.
(** Where the manager is in stopping the discoverer. *)
Inductive stopping := Running | Waited | Closed | Cleared.

Definition queue_capacity : nat := 1000.
Definition closed_channel : string := "send on closed channel".

Section queue.
Context {R C : Type} `{!EqDecision C} (rest_zero : R).
Context (encoders : gmap string (Resource -> PluginConfig R -> option (string * C))).
Context {IP : Type} (ParseIP : string -> option IP) (IP_String : IP -> string) (en : env).
Abbreviation endpoints := (gmap string (list (Endpoint C))).

(** The operations under the lock, with what they depend on: the visiting
    order of a map, the nodes of the lister. *)
Inductive operation :=
  | OpResource (order : list (string * delegate (R := R))) (resource : Resource)
  | OpNode (nodes : result (list Node)) (plugin : PluginConfig R)
  | OpDeleteAll (order : list (string * list (Endpoint C))).

Definition resource_of (op : operation) : option Resource :=
  match op with OpResource _ r => Some r | _ => None end.

Record discoverer := MkDiscoverer {
  d_producers : list producer;
  d_wg : Z;
  d_queue : list Resource;
  d_current : option Resource;    (** received and not handled yet *)
  d_ended : bool;                 (** the receiving goroutine *)
  d_plugins : list (PluginConfig R);   (** left to [discoverNodeEndpoints] *)
  d_stop : stopping;
  d_creator : endpointCreator (R := R);
  d_endpoints : endpoints;
  d_calls : list (call (C := C));      (** of the endpoint handler *)
  d_log : list operation;              (** the operations so far *)
}.

(** [newDiscoverer], with what the informers are going to enqueue. *)
Definition newDiscoverer (glob_compile : string -> option Glob) (plugins : list (PluginConfig R))
    (excludes : list Selectors) (disableAnnotations : bool) (producers : list (list resource_event)) : discoverer :=
  MkDiscoverer ((fun evs => MkProducer (evs ≫= resource_calls) [] EIdle) <$> producers) 0 [] None false plugins Running
    (MkCreator (makeDelegates glob_compile plugins) disableAnnotations (makeAnnotationExclusions glob_compile excludes))
    ∅ [] [].

Definition closed (d : discoverer) : bool :=
  match d_stop d with Running | Waited => false | Closed | Cleared => true end.

Definition perform (e : endpointCreator (R := R)) (op : operation) (m : endpoints) : endpoints * list (call (C := C)) :=
  match op with
  | OpResource order r => dequeue rest_zero encoders e order r m
  | OpNode nodes plugin =>
      match discoverNodeEndpoint encoders ParseIP IP_String en nodes plugin m with Ok st => st | Err _ => (m, []) end
  | OpDeleteAll order => DeleteAll order m
  end.

Definition with_producer (i : nat) (p : producer) (wg : Z) (queue : list Resource) (d : discoverer) : discoverer :=
  MkDiscoverer (<[i := p]> (d_producers d)) wg queue (d_current d) (d_ended d) (d_plugins d) (d_stop d) (d_creator d)
    (d_endpoints d) (d_calls d) (d_log d).
Definition with_loop (queue : list Resource) (current : option Resource) (ended : bool) (d : discoverer) : discoverer :=
  MkDiscoverer (d_producers d) (d_wg d) queue current ended (d_plugins d) (d_stop d) (d_creator d)
    (d_endpoints d) (d_calls d) (d_log d).
Definition with_stop (s : stopping) (d : discoverer) : discoverer :=
  MkDiscoverer (d_producers d) (d_wg d) (d_queue d) (d_current d) (d_ended d) (d_plugins d) s (d_creator d)
    (d_endpoints d) (d_calls d) (d_log d).
Definition with_plugins (plugins : list (PluginConfig R)) (d : discoverer) : discoverer :=
  MkDiscoverer (d_producers d) (d_wg d) (d_queue d) (d_current d) (d_ended d) plugins (d_stop d) (d_creator d)
    (d_endpoints d) (d_calls d) (d_log d).
(** An operation under the lock. *)
Definition locked (op : operation) (d : discoverer) : discoverer :=
  let st := perform (d_creator d) op (d_endpoints d) in
  MkDiscoverer (d_producers d) (d_wg d) (d_queue d) (d_current d) (d_ended d) (d_plugins d) (d_stop d) (d_creator d)
    st.1 (d_calls d ++ st.2) (d_log d ++ [op]).

(** ** discoverer.go: the goroutines *)

Inductive label :=
  | LAdd (i : nat) | LSend (i : nat) | LDone (i : nat)                        (** [enqueue] of producer [i] *)
  | LReceive | LHandle (order : list (string * delegate (R := R))) | LEnd     (** [dequeue] *)
  | LNode (nodes : result (list Node))                                        (** [discoverNodeEndpoints] *)
  | LWait | LClose                                                            (** [Stop] *)
  | LClear (order : list (string * list (Endpoint C))).                       (** [DeleteAll] *)

Definition enqueue_step (i : nat) (at_ : enqueuing) (d : discoverer) : option (outcome discoverer) :=
  match d_producers d !! i with
  | None => None
  | Some p =>
      match at_, pr_at p, pr_todo p with
      | EIdle, EIdle, _ :: _ =>
          Some (Done (with_producer i (MkProducer (pr_todo p) (pr_sent p) EAdded) (d_wg d + 1) (d_queue d) d))
      | EAdded, EAdded, r :: todo =>
          if closed d then Some (Panic closed_channel)
          else if length (d_queue d) <? queue_capacity
          then Some (Done (with_producer i (MkProducer todo (pr_sent p ++ [r]) ESent) (d_wg d) (d_queue d ++ [r]) d))
          else None
      | ESent, ESent, _ =>
          Some (Done (with_producer i (MkProducer (pr_todo p) (pr_sent p) EIdle) (d_wg d - 1) (d_queue d) d))
      | _, _, _ => None
      end
  end.

(** [dequeue]: the loop takes a resource off the queue, handles it, or ends
    because the channel is closed and empty. *)
Definition receive_step (d : discoverer) : option (outcome discoverer) :=
  match d_current d, d_queue d with
  | None, r :: queue => if d_ended d then None else Some (Done (with_loop queue (Some r) false d))
  | _, _ => None
  end.
Definition handle_step (order : list (string * delegate (R := R))) (d : discoverer) : option (outcome discoverer) :=
  match d_current d with
  | Some r => Some (Done (locked (OpResource order r) (with_loop (d_queue d) None (d_ended d) d)))
  | None => None
  end.
Definition end_step (d : discoverer) : option (outcome discoverer) :=
  match d_current d, d_queue d with
  | None, [] => if closed d && negb (d_ended d) then Some (Done (with_loop [] None true d)) else None
  | _, _ => None
  end.

(** [discoverNodeEndpoints]: the next plugin. *)
Definition node_step (nodes : result (list Node)) (d : discoverer) : option (outcome discoverer) :=
  match d_plugins d with
  | [] => None
  | plugin :: plugins =>
      let d := with_plugins plugins d in
      if String.eqb (sel_ResourceType (pc_Selectors plugin)) (ResourceType_String NodeType)
      then Some (Done (locked (OpNode nodes plugin) d)) else Some (Done d)
  end.

(** [Stop] and then [DeleteAll], as the manager calls them. *)
Definition wait_step (d : discoverer) : option (outcome discoverer) :=
  match d_stop d with
  | Running => if (d_wg d =? 0)%Z then Some (Done (with_stop Waited d)) else None
  | _ => None
  end.
Definition close_step (d : discoverer) : option (outcome discoverer) :=
  match d_stop d with Waited => Some (Done (with_stop Closed d)) | _ => None end.
Definition clear_step (order : list (string * list (Endpoint C))) (d : discoverer) : option (outcome discoverer) :=
  match d_stop d with Closed => Some (Done (with_stop Cleared (locked (OpDeleteAll order) d))) | _ => None end.

Definition step (l : label) (d : discoverer) : option (outcome discoverer) :=
  match l with
  | LAdd i => enqueue_step i EIdle d
  | LSend i => enqueue_step i EAdded d
  | LDone i => enqueue_step i ESent d
  | LReceive => receive_step d
  | LHandle order => handle_step order d
  | LEnd => end_step d
  | LNode nodes => node_step nodes d
  | LWait => wait_step d
  | LClose => close_step d
  | LClear order => clear_step order d
  end.

(** The order of a step visits the map it ranges over. *)
Definition visits_map (l : label) (d : discoverer) : Prop :=
  match l with
  | LHandle order => iterates order (ec_delegates (d_creator d))
  | LClear order => iterates order (d_endpoints d)
  | _ => True
  end.

Inductive discoverer_step : discoverer -> discoverer -> Prop :=
  | discoverer_step_intro l d d' : visits_map l d -> step l d = Some (Done d') -> discoverer_step d d'.

Ltac unfold_step H :=
  cbn [step] in H; unfold receive_step, handle_step, end_step, node_step, wait_step, close_step, clear_step in H.
Ltac goal_step := cbn [step]; unfold receive_step, handle_step, end_step, node_step, wait_step, close_step, clear_step.

(** ** The specification: one operation after the other *)

Definition replay (e : endpointCreator (R := R)) (st : endpoints * list (call (C := C))) (log : list operation)
    : endpoints * list (call (C := C)) :=
  foldl (fun st op => let st' := perform e op st.1 in (st'.1, st.2 ++ st'.2)) st log.

(** What has been sent and not handled. *)
Definition pending (d : discoverer) : list Resource := option_list (d_current d) ++ d_queue d.
Definition busy (p : producer) : Z := match pr_at p with EIdle => 0 | _ => 1 end.

(** What holds of every state, for the resources [starts] of the producers. *)
Record queue_ok (e : endpointCreator (R := R)) (starts : list (list Resource)) (d : discoverer) : Prop := {
  qo_creator : d_creator d = e;
  qo_split : (fun p => pr_sent p ++ pr_todo p) <$> d_producers d = starts;
  qo_merge : interleaving (pr_sent <$> d_producers d) (omap resource_of (d_log d) ++ pending d);
  qo_bound : length (d_queue d) <= queue_capacity;
  qo_wg : d_wg d = zsum busy (d_producers d);
  qo_added : forall i p, d_producers d !! i = Some p -> pr_at p = EAdded -> pr_todo p <> [];
  qo_state : (d_endpoints d, d_calls d) = replay e (∅, []) (d_log d);
  qo_ended : d_ended d = true -> closed d = true /\ pending d = [];
}.

(** ** Lemmas *)

Lemma interleaving_take {A} (ls : list (list A)) i x xs l :
  ls !! i = Some (x :: xs) -> interleaving (<[i := xs]> ls) l -> interleaving ls (x :: l).
Proof.
  intros Hi H. rewrite <-(take_drop_middle ls i (x :: xs) Hi).
  rewrite insert_take_drop in H by (by eapply lookup_lt_Some). by constructor.
Qed.

(** Sending one more value puts it at the end. *)
Lemma interleaving_snoc {A} (ls : list (list A)) l i xs x :
  interleaving ls l -> ls !! i = Some xs -> interleaving (<[i := xs ++ [x]]> ls) (l ++ [x]).
Proof.
  intros H; revert i xs. induction H as [ls Hls|ls1 y ys ls2 l H IH]; intros i xs Hi.
  - pose proof (proj1 (Forall_lookup _ _) Hls i xs Hi) as ->.
    apply (interleaving_take _ i x []); [by apply list_lookup_insert_eq; eapply lookup_lt_Some|].
    rewrite list_insert_insert_eq, list_insert_id by done. by constructor.
  - set (j := length ls1). set (ls := ls1 ++ (y :: ys) :: ls2).
    assert (Hj : ls !! j = Some (y :: ys)) by (apply list_lookup_middle; done).
    assert (E : ls1 ++ ys :: ls2 = <[j := ys]> ls).
    { unfold ls, j. by rewrite insert_app_r_alt, Nat.sub_diag by lia. }
    rewrite E in IH. fold ls in Hi. cbn. destruct (decide (i = j)) as [->|Hne].
    + rewrite Hj in Hi. injection Hi as <-. apply (interleaving_take _ j y (ys ++ [x])).
      * apply list_lookup_insert_eq. by eapply lookup_lt_Some.
      * rewrite list_insert_insert_eq. specialize (IH j ys). rewrite list_insert_insert_eq in IH.
        apply IH, list_lookup_insert_eq. by eapply lookup_lt_Some.
    + apply (interleaving_take _ j y ys); [by rewrite list_lookup_insert_ne|].
      rewrite list_insert_insert_ne by done. apply IH. by rewrite list_lookup_insert_ne.
Qed.

Lemma replay_snoc e st log op :
  replay e st (log ++ [op]) =
  let st1 := replay e st log in let st2 := perform e op st1.1 in (st2.1, st1.2 ++ st2.2).
Proof. unfold replay. by rewrite foldl_app. Qed.

Lemma replay_app e st l1 l2 : replay e st (l1 ++ l2) = replay e (replay e st l1) l2.
Proof. apply foldl_app. Qed.

(** An operation keeps what does not depend on it. *)
Lemma locked_state e op d :
  d_creator d = e -> (d_endpoints d, d_calls d) = replay e (∅, []) (d_log d) ->
  (d_endpoints (locked op d), d_calls (locked op d)) = replay e (∅, []) (d_log (locked op d)).
Proof. intros He H. cbn [d_endpoints d_calls d_log locked]. by rewrite replay_snoc, <-H, He. Qed.

Lemma fmap_insert_id {A B} (f : A -> B) (l : list A) i x y :
  l !! i = Some x -> f y = f x -> f <$> <[i := y]> l = f <$> l.
Proof. intros Hi E. rewrite list_fmap_insert, E. apply list_insert_id. by rewrite list_lookup_fmap, Hi. Qed.

(** A step of an enqueue changes one producer, the group and the queue. *)
Lemma enqueue_step_inv i at_ d d' :
  enqueue_step i at_ d = Some (Done d') ->
  exists p q wg queue, d_producers d !! i = Some p /\ d' = with_producer i q wg queue d /\
    pr_sent q ++ pr_todo q = pr_sent p ++ pr_todo p /\ (pr_at q = EAdded -> pr_todo q <> []) /\
    wg = (d_wg d - busy p + busy q)%Z /\
    (queue = d_queue d /\ pr_sent q = pr_sent p \/
     exists r, queue = d_queue d ++ [r] /\ pr_sent q = pr_sent p ++ [r] /\ length queue <= queue_capacity /\ closed d = false).
Proof.
  unfold enqueue_step. destruct (d_producers d !! i) as [p|] eqn:Ep; [|done]. intros H.
  exists p. destruct at_, (pr_at p) eqn:Ea; try done.
  - destruct (pr_todo p) as [|r todo] eqn:Et; [done|]. injection H as <-. do 3 eexists.
    split_and!; [done|reflexivity|cbn; congruence|done|unfold busy; rewrite Ea; cbn; lia|by left].
  - destruct (pr_todo p) as [|r todo] eqn:Et; [done|]. destruct (closed d) eqn:Ec; [done|].
    destruct (_ <? _)%nat eqn:El; [|done]. injection H as <-. apply Nat.ltb_lt in El. do 3 eexists.
    split_and!; [done|reflexivity|cbn; by rewrite <-app_assoc|done|unfold busy; rewrite Ea; cbn; lia|].
    right. exists r. split_and!; [done|done|rewrite length_app; cbn; lia|done].
  - injection H as <-. do 3 eexists.
    split_and!; [by destruct (pr_todo p)|reflexivity|done|done|unfold busy; rewrite Ea; cbn; lia|by left].
Qed.

Lemma enqueue_step_ok e starts i at_ d d' :
  queue_ok e starts d -> enqueue_step i at_ d = Some (Done d') -> queue_ok e starts d'.
Proof.
  intros H (p & q & wg & queue & Hp & -> & Hs & Ht & -> & Hq)%enqueue_step_inv.
  destruct H as [Hc Hsp Hm Hb Hw Ha Hst He]. split; cbn [d_creator d_producers d_log d_queue d_wg d_endpoints d_calls d_ended with_producer]; try done.
  - rewrite <-Hsp. by apply (fmap_insert_id _ _ _ p).
  - destruct Hq as [[-> Hq]|(r & -> & Hq & _)].
    + by rewrite (fmap_insert_id _ _ _ p).
    + rewrite list_fmap_insert, Hq. unfold pending. cbn. rewrite !app_assoc.
      apply interleaving_snoc; [by rewrite <-app_assoc|]. by rewrite list_lookup_fmap, Hp.
  - by destruct Hq as [[-> _]|(r & -> & _ & Hq & _)].
  - rewrite (zsum_insert busy _ _ p) by done. rewrite Hw. lia.
  - intros j p' Hj. destruct (decide (i = j)) as [<-|Hne].
    + rewrite list_lookup_insert_eq in Hj by (by eapply lookup_lt_Some). by injection Hj as <-.
    + rewrite list_lookup_insert_ne in Hj by done. intros Hat. exact (Ha j p' Hj Hat).
  - intros E. destruct (He E) as [Hcl Hpe]. split; [done|].
    destruct Hq as [[-> _]|(r & _ & _ & _ & Hq)]; [done|congruence].
Qed.

(** The other goroutines leave the producers and the group alone, and never
    add to the queue. *)
Lemma queue_ok_other e starts d d' :
  queue_ok e starts d -> d_creator d' = d_creator d -> d_producers d' = d_producers d -> d_wg d' = d_wg d ->
  omap resource_of (d_log d') ++ pending d' = omap resource_of (d_log d) ++ pending d ->
  length (d_queue d') <= length (d_queue d) ->
  (d_endpoints d', d_calls d') = replay e (∅, []) (d_log d') ->
  (d_ended d' = true -> closed d' = true /\ pending d' = []) -> queue_ok e starts d'.
Proof.
  intros H Hc Hp Hw Hl Hq Hs He. split; try done.
  - rewrite Hc. by apply H.
  - rewrite Hp. by apply H.
  - rewrite Hp, Hl. by apply H.
  - pose proof (qo_bound _ _ _ H). lia.
  - rewrite Hw, Hp. by apply H.
  - rewrite Hp. apply H.
Qed.

Lemma discoverer_step_ok e starts l d d' : queue_ok e starts d -> step l d = Some (Done d') -> queue_ok e starts d'.
Proof.
  intros H Hstep. pose proof (qo_creator _ _ _ H) as Hc. pose proof (qo_state _ _ _ H) as Hs.
  pose proof (qo_ended _ _ _ H) as He. destruct l as [i|i|i| |order| |nodes| | |order]; unfold_step Hstep.
  1,2,3: by eapply enqueue_step_ok.
  - destruct (d_current d) as [r0|] eqn:Ec, (d_queue d) as [|r queue] eqn:Eq; try done. destruct (d_ended d); [done|].
    injection Hstep as <-. apply (queue_ok_other _ _ d); try done; unfold pending; cbn; rewrite ?Ec, ?Eq; cbn; [done|lia].
  - destruct (d_current d) as [r|] eqn:Ec; [|done]. injection Hstep as <-.
    apply (queue_ok_other _ _ d); try done.
    + unfold pending. cbn. rewrite Ec, omap_app. cbn. by rewrite <-app_assoc.
    + by apply (locked_state e (OpResource order r) (with_loop (d_queue d) None (d_ended d) d)).
    + intros E. destruct (He E) as [_ Hp]. unfold pending in Hp. by rewrite Ec in Hp.
  - destruct (d_current d) as [r0|] eqn:Ec, (d_queue d) as [|r queue] eqn:Eq; try done.
    destruct (closed d) eqn:Ecl; [|done]. destruct (d_ended d); [done|]. injection Hstep as <-.
    apply (queue_ok_other _ _ d); try done; unfold pending; cbn; rewrite ?Ec, ?Eq; done.
  - destruct (d_plugins d) as [|plugin plugins]; [done|].
    destruct (String.eqb _ _); injection Hstep as <-; apply (queue_ok_other _ _ d); try done.
    + unfold pending. cbn. rewrite omap_app. cbn. by rewrite app_nil_r.
    + by apply (locked_state e (OpNode nodes plugin) (with_plugins plugins d)).
  - destruct (d_stop d) eqn:Es; try done. destruct (_ =? _)%Z; [|done]. injection Hstep as <-.
    apply (queue_ok_other _ _ d); try done. intros E. destruct (He E) as [Hcl _]. unfold closed in Hcl. by rewrite Es in Hcl.
  - destruct (d_stop d) eqn:Es; try done. injection Hstep as <-.
    apply (queue_ok_other _ _ d); try done. intros E. split; [done|by apply He].
  - destruct (d_stop d) eqn:Es; try done. injection Hstep as <-.
    apply (queue_ok_other _ _ d); try done.
    + unfold pending. cbn. rewrite omap_app. cbn. by rewrite app_nil_r.
    + by apply (locked_state e (OpDeleteAll order) d).
    + intros E. split; [done|by apply He].
Qed.

Lemma steps_ok e starts d d' : queue_ok e starts d -> rtc discoverer_step d d' -> queue_ok e starts d'.
Proof. intros H Hr. revert H. induction Hr as [|d d1 d' [l ? ? _ Hl] _ IH]; intros H; [done|]. apply IH. by eapply discoverer_step_ok. Qed.

(** ** After the endpoints have been deleted *)

(** The calls of the loop that handle what is pending. *)
Lemma loop_drains d :
  closed d = true -> d_ended d = false ->
  exists d', rtc discoverer_step d d' /\ d_ended d' = true /\ d_stop d' = d_stop d /\ d_plugins d' = d_plugins d.
Proof.
  intros Hc He. remember (length (pending d)) as n eqn:En. revert d En Hc He.
  induction n as [n IH] using lt_wf_ind. intros d -> Hc He.
  assert (Hhandle : forall d1 r, d_current d1 = Some r -> d_queue d1 = tail (pending d) -> pending d <> [] ->
    closed d1 = true -> d_ended d1 = false ->
    exists d', rtc discoverer_step d1 d' /\ d_ended d' = true /\ d_stop d' = d_stop d1 /\ d_plugins d' = d_plugins d1).
  { intros d1 r E1 E2 Hne Hc1 He1.
    set (d2 := locked (OpResource (map_to_list (ec_delegates (d_creator d1))) r) (with_loop (d_queue d1) None (d_ended d1) d1)).
    destruct (IH (length (pending d2))) with (d := d2) as (d' & Hr & H1 & H2 & H3); try done.
    - unfold pending at 1. cbn. rewrite E2. destruct (pending d); [done|cbn; lia].
    - exists d'. split_and!; try done. eapply rtc_l; [|exact Hr].
      apply (discoverer_step_intro (LHandle (map_to_list (ec_delegates (d_creator d1))))); [apply iterates_canonical|].
      goal_step. by rewrite E1. }
  destruct (d_current d) as [r|] eqn:Ec.
  - apply (Hhandle d r); try done; unfold pending; by rewrite Ec.
  - destruct (d_queue d) as [|r queue] eqn:Eq.
    + exists (with_loop [] None true d). split_and!; try done. apply rtc_once.
      apply (discoverer_step_intro LEnd); [done|]. goal_step. by rewrite Ec, Eq, Hc, He.
    + destruct (Hhandle (with_loop queue (Some r) false d) r) as (d' & Hr & H1 & H2 & H3); try done.
      { unfold pending. by rewrite Ec, Eq. } { unfold pending. by rewrite Ec, Eq. }
      exists d'. split_and!; try done. eapply rtc_l; [|exact Hr].
      apply (discoverer_step_intro LReceive); [done|]. goal_step. by rewrite Ec, Eq, He.
Qed.

(** A stopped discoverer: what it has done since, and what is left. *)
Definition since_cleared (e : endpointCreator (R := R)) (log0 : list operation) (left : list Resource) (d : discoverer)
    (after : list operation) : Prop :=
  d_stop d = Cleared /\ d_creator d = e /\ d_log d = log0 ++ after /\ omap resource_of after ++ pending d = left /\
  d_endpoints d = (replay e (∅, []) after).1 /\ Forall (fun op => match op with OpDeleteAll _ => False | _ => True end) after.

Lemma replay_endpoints e m c1 c2 log : (replay e (m, c1) log).1 = (replay e (m, c2) log).1.
Proof. revert m c1 c2; induction log as [|op log IH]; intros m c1 c2; [done|apply IH]. Qed.

Lemma since_cleared_snoc e log0 left d d' after op :
  since_cleared e log0 left d after -> d_stop d' = Cleared -> d_creator d' = e -> d_log d' = d_log d ++ [op] ->
  omap resource_of [op] ++ pending d' = pending d -> d_endpoints d' = (perform e op (d_endpoints d)).1 ->
  (match op with OpDeleteAll _ => False | _ => True end) -> since_cleared e log0 left d' (after ++ [op]).
Proof.
  intros (_ & _ & Hl & Hp & Hm & Hf) Hs Hc Hl' Hp' Hm' Hop. unfold since_cleared. split_and!; try done.
  - by rewrite Hl', Hl, <-app_assoc.
  - by rewrite omap_app, <-app_assoc, Hp'.
  - rewrite replay_snoc. cbn. by rewrite Hm', Hm.
  - apply Forall_app. split; [done|]. by repeat constructor.
Qed.

Lemma since_cleared_step e log0 left d d' after :
  since_cleared e log0 left d after -> discoverer_step d d' -> exists after', since_cleared e log0 left d' after'.
Proof.
  intros H Hd. inversion_clear Hd as [l ? ? _ Hstep]. pose proof H as (Hs & Hc & Hl & Hp & Hm & Hf).
  assert (Hcl : closed d = true) by (unfold closed; by rewrite Hs).
  destruct l as [i|i|i| |order| |nodes| | |order]; unfold_step Hstep; rewrite ?Hs in Hstep; try done.
  1,2,3: apply enqueue_step_inv in Hstep as (p & q & wg & queue & _ & -> & _ & _ & _ & [[-> _]|(r & _ & _ & _ & Hq)]);
    [exists after; exact H|congruence].
  - destruct (d_current d) as [r0|] eqn:Ec, (d_queue d) as [|r queue] eqn:Eq; try done. destruct (d_ended d); [done|].
    injection Hstep as <-. exists after. unfold since_cleared in *. unfold pending in *. cbn. rewrite Ec, Eq in Hp. done.
  - destruct (d_current d) as [r|] eqn:Ec; [|done]. injection Hstep as <-. eexists.
    apply (since_cleared_snoc e log0 left d _ after (OpResource order r)); try done;
      unfold pending; cbn; by rewrite ?Hc, ?Ec.
  - destruct (d_current d) as [r0|] eqn:Ec, (d_queue d) as [|r queue] eqn:Eq; try done. rewrite Hcl in Hstep.
    destruct (d_ended d); [done|]. injection Hstep as <-. exists after. unfold since_cleared, pending in *. cbn.
    rewrite Ec, Eq in Hp. done.
  - destruct (d_plugins d) as [|plugin plugins]; [done|]. destruct (String.eqb _ _); injection Hstep as <-.
    + eexists. by apply (since_cleared_snoc e log0 left d _ after (OpNode nodes plugin)); try done; cbn; rewrite ?Hc.
    + exists after. exact H.
Qed.

Lemma since_cleared_steps e log0 left d d' after :
  since_cleared e log0 left d after -> rtc discoverer_step d d' -> exists after', since_cleared e log0 left d' after'.
Proof.
  intros H Hr. revert after H. induction Hr as [|d d1 d' Hd _ IH]; intros after H; [by exists after|].
  destruct (since_cleared_step e log0 left d d1 after H Hd) as [after1 H1]. by apply (IH after1).
Qed.

(** A cleared discoverer to which nothing is left holds nothing. *)
Definition idle (d : discoverer) : Prop :=
  d_stop d = Cleared /\ pending d = [] /\ d_plugins d = [] /\ d_endpoints d = ∅.

Lemma idle_steps d d' : idle d -> rtc discoverer_step d d' -> d_endpoints d' = ∅.
Proof.
  intros H Hr. revert H. induction Hr as [d|d d1 d' Hd _ IH]; intros (Hs & Hp & Hpl & He); [done|].
  inversion_clear Hd as [l ? ? _ Hstep]. apply IH. assert (Hcl : closed d = true) by (unfold closed; by rewrite Hs).
  pose proof Hp as Hp'. unfold pending in Hp'. apply app_nil in Hp' as [Hc Hq].
  destruct (d_current d) eqn:Ec; [done|].
  destruct l as [i|i|i| |order| |nodes| | |order]; unfold_step Hstep; rewrite ?Hs, ?Ec, ?Hq, ?Hpl in Hstep; try done.
  1,2,3: apply enqueue_step_inv in Hstep as (p & q & wg & queue & _ & -> & _ & _ & _ & [[-> _]|(r & _ & _ & _ & Hcl')]);
    [by split_and!|congruence].
  destruct (_ && _); [|done]. injection Hstep as <-. by split_and!.
Qed.

(** ** What is held for a resource name *)

(** The entry of a name after [r] has been handled. *)
Definition entry_of (e : endpointCreator (R := R)) (order : list (string * delegate (R := R))) (r : Resource)
    : option (list (Endpoint C)) :=
  if String.eqb (r_Status r) "delete" then None
  else let eps := discoverEndpoints rest_zero encoders e order r in if nil_list eps then None else Some eps.

Definition node_name : string := ResourceName (MkResource "node" "" (GetNodeName en) "" ∅ ∅ "" []).

Lemma perform_resource e order r m n :
  (perform e (OpResource order r) m).1 !! n = if String.eqb (ResourceName r) n then entry_of e order r else m !! n.
Proof.
  unfold perform, dequeue, entry_of. destruct (String.eqb_spec (ResourceName r) n) as [<-|Hn].
  - destruct (String.eqb _ "delete"); [by apply lookup_delete_eq|]. unfold internalDiscover.
    destruct (nil_list _); [|by case_bool_decide; apply lookup_insert_eq].
    case_bool_decide; apply lookup_delete_eq.
  - destruct (String.eqb _ "delete"); [by apply lookup_delete_ne|]. unfold internalDiscover.
    destruct (nil_list _); case_bool_decide; cbn; rewrite ?lookup_insert_ne by done; by apply lookup_delete_ne.
Qed.

Lemma perform_node e nodes plugin m n : n <> node_name -> (perform e (OpNode nodes plugin) m).1 !! n = m !! n.
Proof.
  intros Hn. unfold perform, discoverNodeEndpoint. destruct nodes as [[|node [|]]|]; try done.
  destruct (GetNodeHostnameAndIP ParseIP node) as [[h ip]|]; [|done].
  destruct (makeEndpoint _ _ plugin); [|done]. cbn. apply lookup_insert_ne. intros E. by apply Hn.
Qed.

Definition named (n : string) (r : Resource) : bool := String.eqb (ResourceName r) n.
Definition no_clear (op : operation) : Prop := match op with OpDeleteAll _ => False | _ => True end.
(** The resources of a log are visited in orders of the delegates. *)
Definition visited (e : endpointCreator (R := R)) (op : operation) : Prop :=
  match op with OpResource order _ => iterates order (ec_delegates e) | _ => True end.

(** The entry of a name is that of the last resource with that name. *)
Lemma replay_lookup e log n :
  n <> node_name -> Forall no_clear log -> Forall (visited e) log ->
  match last (List.filter (named n) (omap resource_of log)) with
  | None => (replay e (∅, []) log).1 !! n = None
  | Some r => exists order, iterates order (ec_delegates e) /\ (replay e (∅, []) log).1 !! n = entry_of e order r
  end.
Proof.
  intros Hn. induction log as [|op log IH] using rev_ind; intros Hc Hv; [done|].
  apply Forall_app in Hc as [Hc Hc1], Hv as [Hv Hv1]. rewrite Forall_singleton in Hc1, Hv1.
  specialize (IH Hc Hv). rewrite replay_snoc, omap_app, List.filter_app. cbv zeta.
  destruct op as [order r|nodes plugin|order]; [| |done].
  - change (omap resource_of [OpResource order r]) with [r]. cbn [fst List.filter]. rewrite perform_resource. change (String.eqb (ResourceName r) n) with (named n r).
    destruct (named n r) eqn:E.
    + rewrite last_snoc. by exists order.
    + by rewrite app_nil_r.
  - change (omap resource_of [OpNode nodes plugin]) with (@nil Resource). cbn [fst List.filter].
    by rewrite app_nil_r, perform_node.
Qed.

(** ** Producers that do not share names *)

Definition names_apart (starts : list (list Resource)) : Prop :=
  forall i j l1 l2 r1 r2, starts !! i = Some l1 -> starts !! j = Some l2 -> r1 ∈ l1 -> r2 ∈ l2 ->
    ResourceName r1 = ResourceName r2 -> i = j.

Lemma interleaving_List_filter {A} (p : A -> bool) ls l :
  interleaving ls l -> interleaving (List.filter p <$> ls) (List.filter p l).
Proof.
  induction 1 as [ls Hls|ls1 x xs ls2 l _ IH].
  - constructor. apply Forall_fmap. eapply Forall_impl; [exact Hls|]. by intros ? ->.
  - rewrite fmap_app, fmap_cons in *. cbn [List.filter]. destruct (p x); [by constructor|done].
Qed.

(** When one producer at most sends anything, it is what is received. *)
Lemma interleaving_alone {A} (ls : list (list A)) l :
  (forall i j x xs y ys, ls !! i = Some (x :: xs) -> ls !! j = Some (y :: ys) -> i = j) ->
  interleaving ls l -> l = concat ls.
Proof.
  intros Hone H. revert Hone. induction H as [ls Hls|ls1 x xs ls2 l H IH]; intros Hone; [by rewrite concat_nils|].
  assert (Hx : (ls1 ++ (x :: xs) :: ls2) !! length ls1 = Some (x :: xs)) by (by apply list_lookup_middle).
  assert (Hnil : concat ls1 = []).
  { apply concat_nils, Forall_lookup. intros i [|y ys] Hi; [done|exfalso].
    assert (i = length ls1) as ->.
    { apply (Hone i (length ls1) y ys x xs); [|done]. rewrite lookup_app_l; [done|by eapply lookup_lt_Some]. }
    apply lookup_lt_Some in Hi. lia. }
  rewrite IH.
  - by rewrite !concat_app, Hnil.
  - intros i j y ys z zs Hi Hj.
    assert (Hback : forall k w ws, (ls1 ++ xs :: ls2) !! k = Some (w :: ws) ->
      exists w' ws', (ls1 ++ (x :: xs) :: ls2) !! k = Some (w' :: ws')).
    { intros k w ws Hk. destruct (decide (k = length ls1)) as [->|Hne]; [by eauto|]. exists w, ws.
      rewrite <-Hk. destruct (decide (k < length ls1)).
      - by rewrite !lookup_app_l by done.
      - rewrite !lookup_app_r by lia. by destruct (k - length ls1) eqn:?; [lia|]. }
    destruct (Hback _ _ _ Hi) as (? & ? & Hi'), (Hback _ _ _ Hj) as (? & ? & Hj'). by eapply Hone.
Qed.

Lemma interleaving_named starts l n :
  names_apart starts -> interleaving starts l -> List.filter (named n) l = List.filter (named n) (concat starts).
Proof.
  intros Ha H%(interleaving_List_filter (named n)). apply interleaving_alone in H.
  - rewrite H. clear. induction starts as [|xs ls IH]; [done|]. cbn. by rewrite List.filter_app, IH.
  - assert (Hin : forall i r rs, (List.filter (named n) <$> starts) !! i = Some (r :: rs) ->
      exists l, starts !! i = Some l /\ r ∈ l /\ ResourceName r = n).
    { intros i r rs Hi. rewrite list_lookup_fmap in Hi. destruct (starts !! i) as [l'|]; [|done].
      exists l'. split; [done|]. injection Hi as Hi. assert (r ∈ List.filter (named n) l') as Hr by (rewrite Hi; left).
      apply list_elem_of_In, List.filter_In in Hr as [Hr Hnr]. apply String.eqb_eq in Hnr. by rewrite list_elem_of_In. }
    intros i j x xs y ys Hi Hj. apply Hin in Hi as (l1 & H1 & Hx & Ex), Hj as (l2 & H2 & Hy & Ey).
    apply (Ha i j l1 l2 x y); try done. congruence.
Qed.

(** ** Reachable states *)

Record reached (e : endpointCreator (R := R)) (starts : list (list Resource)) (d : discoverer) : Prop := {
  re_ok : queue_ok e starts d;
  re_visited : Forall (visited e) (d_log d);
  re_clear : d_stop d <> Cleared -> Forall no_clear (d_log d);
  re_balanced : balanced (d_endpoints d, d_calls d);
}.

(** An operation is a step of Discovery.v. *)
Lemma perform_balanced e op m calls :
  visited e op -> (forall order, op = OpDeleteAll order -> iterates order m) ->
  balanced (m, calls) -> balanced ((perform e op m).1, calls ++ (perform e op m).2).
Proof.
  intros Hv Hi Hb. assert (Hsame : balanced (m, calls ++ [])) by (by rewrite app_nil_r).
  destruct op as [order r|nodes plugin|order]; cbn [perform].
  - apply (discover_step_balanced rest_zero encoders e (m, calls)); [done|]. eapply ds_dequeue; [exact Hv|apply surjective_pairing].
  - destruct (discoverNodeEndpoint _ _ _ _ _ _ _) as [[m' new]|] eqn:E; [|done].
    apply (discover_step_balanced rest_zero encoders e (m, calls)); [done|]. by eapply ds_node.
  - apply (discover_step_balanced rest_zero encoders e (m, calls)); [done|].
    eapply ds_delete_all; [by apply Hi|apply surjective_pairing].
Qed.

(** What a step does to the log: nothing, or one operation. *)
Definition same_log (d d' : discoverer) : Prop :=
  (d_log d', d_endpoints d', d_calls d') = (d_log d, d_endpoints d, d_calls d) /\
  (d_stop d <> Cleared -> d_stop d' <> Cleared) /\ (d_stop d' <> Cleared -> d_stop d <> Cleared).
Definition logs (l : label) (op : operation) (d d' : discoverer) : Prop :=
  d_log d' = d_log d ++ [op] /\ d_endpoints d' = (perform (d_creator d) op (d_endpoints d)).1 /\
  d_calls d' = d_calls d ++ (perform (d_creator d) op (d_endpoints d)).2 /\
  (visits_map l d -> visited (d_creator d) op /\ forall order, op = OpDeleteAll order -> iterates order (d_endpoints d)) /\
  (d_stop d' <> Cleared -> no_clear op /\ d_stop d <> Cleared).

Lemma step_effect l d d' : step l d = Some (Done d') -> same_log d d' \/ exists op, logs l op d d'.
Proof.
  intros Hstep. destruct l as [i|i|i| |order| |nodes| | |order]; unfold_step Hstep.
  1,2,3: left; by apply enqueue_step_inv in Hstep as (p & q & wg & queue & _ & -> & _).
  - left. destruct (d_current d), (d_queue d); try done. destruct (d_ended d); [done|]. by injection Hstep as <-.
  - right. destruct (d_current d) as [r|]; [|done]. injection Hstep as <-. exists (OpResource order r).
    split_and!; [done|done|done|intros Hv; by split|intros Hs; by split].
  - left. destruct (d_current d), (d_queue d); try done. destruct (_ && _); [|done]. by injection Hstep as <-.
  - destruct (d_plugins d) as [|plugin plugins]; [done|].
    destruct (String.eqb _ _); injection Hstep as <-; [right; exists (OpNode nodes plugin)|by left].
    split_and!; [done|done|done|intros Hv; by split|intros Hs; by split].
  - left. destruct (d_stop d) eqn:E; try done. destruct (_ =? _)%Z; [|done]. injection Hstep as <-. unfold same_log. by rewrite E.
  - left. destruct (d_stop d) eqn:E; try done. injection Hstep as <-. unfold same_log. by rewrite E.
  - right. destruct (d_stop d) eqn:E; try done. injection Hstep as <-. exists (OpDeleteAll order).
    unfold logs. cbn [d_log d_endpoints d_calls locked with_stop d_stop]. split_and!; try done.
    intros Hv. split; [done|]. by intros ? [= <-].
Qed.

Lemma reached_step e starts d d' : reached e starts d -> discoverer_step d d' -> reached e starts d'.
Proof.
  intros [Hok Hv Hcl Hb] Hd. inversion_clear Hd as [l ? ? Hvis Hstep].
  assert (Hok' : queue_ok e starts d') by (by eapply discoverer_step_ok). pose proof (qo_creator _ _ _ Hok) as Hc.
  apply step_effect in Hstep as [([= H1 H2 H3] & H4 & H5)|(op & H1 & H2 & H3 & H4 & H5)]; split; rewrite ?H1, ?H2, ?H3; try done.
  - intros Hs. by apply Hcl, H5.
  - destruct (H4 Hvis) as [Hop _]. rewrite Hc in Hop. apply Forall_app. by split; [|apply Forall_singleton].
  - intros Hs. destruct (H5 Hs) as [Hop Hs']. apply Forall_app. split; [by apply Hcl|by apply Forall_singleton].
  - destruct (H4 Hvis) as [Hop Hit]. rewrite Hc in *. by apply perform_balanced.
Qed.

Lemma reached_new glob_compile plugins excludes disable producers d :
  let d0 := newDiscoverer glob_compile plugins excludes disable producers in
  rtc discoverer_step d0 d -> reached (d_creator d0) (mbind resource_calls <$> producers) d.
Proof.
  intros d0 Hr. assert (H0 : reached (d_creator d0) (mbind resource_calls <$> producers) d0).
  { split; [|constructor|constructor|by exists []]. split; try done.
    - unfold d0, newDiscoverer. cbn. rewrite <-list_fmap_compose. by apply list_fmap_ext.
    - constructor. apply Forall_fmap, Forall_fmap, Forall_true. done.
    - cbn. lia.
    - cbn. clear. induction producers as [|evs l IH]; [done|]. cbn. by rewrite <-IH.
    - intros i p Hi. cbn in Hi. rewrite list_lookup_fmap in Hi. destruct (producers !! i); [|done]. by injection Hi as <-. }
  revert H0. generalize (d_creator d0). intros e. induction Hr as [|x y z Hxy _ IH]; intros H0; [done|]. apply IH. by eapply reached_step.
Qed.

(** ** Properties *)

(** C15: the discoverer is serial.  In every interleaving of the informers,
    the goroutine of the queue, the node discovery and the manager: the
    endpoints and the calls of the handler are those of the operations done
    one after the other; the resources are handled in an order that merges
    what each informer enqueued, none is lost or handled twice, and what was
    sent and not handled is on the queue, which holds a thousand at most; the
    wait group counts the informers inside [enqueue]; and the registered
    endpoints are exactly those that are held. *)
Theorem discoverer_serial (glob_compile : string -> option Glob) (plugins : list (PluginConfig R)) (excludes : list Selectors)
    (disable : bool) (producers : list (list resource_event)) (d : discoverer) :
  let d0 := newDiscoverer glob_compile plugins excludes disable producers in
  rtc discoverer_step d0 d ->
  (d_endpoints d, d_calls d) = replay (d_creator d0) (∅, []) (d_log d) /\
  interleaving (pr_sent <$> d_producers d) (omap resource_of (d_log d) ++ pending d) /\
  (fun p => pr_sent p ++ pr_todo p) <$> d_producers d = mbind resource_calls <$> producers /\
  length (d_queue d) <= queue_capacity /\
  d_wg d = zsum busy (d_producers d) /\
  (d_ended d = true -> closed d = true /\ pending d = []) /\
  exists l, registered (d_calls d) [] = Some l /\ l ≡ₚ all_endpoints (d_endpoints d).
Proof. intros d0 [[] _ _ Hb]%reached_new. by split_and!. Qed.

(** C23: discovery converges.  When no two informers enqueue resources of one
    name, every run in which all they enqueue has been handled, and the
    discoverer has not been cleared, ends with the same names held: the entry
    of a name other than the node's is made by the last resource that its
    informer enqueued, whatever the goroutines did in between.  Nothing is
    held for a name whose last resource is a deletion or matches no rule. *)
Theorem discoverer_converges (glob_compile : string -> option Glob) (plugins : list (PluginConfig R)) (excludes : list Selectors)
    (disable : bool) (producers : list (list resource_event)) (d : discoverer) (n : string) :
  let d0 := newDiscoverer glob_compile plugins excludes disable producers in
  let starts := mbind resource_calls <$> producers in
  names_apart starts -> rtc discoverer_step d0 d -> d_stop d <> Cleared ->
  Forall (fun p => pr_todo p = []) (d_producers d) -> pending d = [] -> n <> node_name ->
  match last (List.filter (named n) (concat starts)) with
  | None => d_endpoints d !! n = None
  | Some r => exists order, iterates order (ec_delegates (d_creator d0)) /\
                d_endpoints d !! n = entry_of (d_creator d0) order r
  end.
Proof.
  intros d0 starts Ha Hr Hs Ht Hp Hn. apply reached_new in Hr as [[_ Hsplit Hmerge _ _ _ Hst _] Hv Hc _].
  assert (Hsent : pr_sent <$> d_producers d = starts).
  { etransitivity; [|exact Hsplit]. apply list_fmap_ext. intros i p Hi. rewrite Forall_lookup in Ht. by rewrite (Ht i p Hi), app_nil_r. }
  rewrite Hsent, Hp, app_nil_r in Hmerge. rewrite <-(interleaving_named _ _ n Ha Hmerge).
  pose proof (replay_lookup _ _ n Hn (Hc Hs) Hv) as H. by rewrite <-Hst in H.
Qed.


(** Nothing panics before the channel is closed; afterwards an informer that
    has entered [enqueue] does.  [Stop] closes the channel when nobody is
    inside, and cannot know that nobody will be. *)
Lemma panics_iff e starts d :
  reached e starts d ->
  (exists l m, step l d = Some (Panic m)) <->
  closed d = true /\ exists i p, d_producers d !! i = Some p /\ pr_at p = EAdded.
Proof.
  intros H. split.
  - intros (l & m & Hl). destruct l as [i|i|i| |order| |nodes| | |order]; unfold_step Hl; unfold enqueue_step in Hl;
      repeat case_match; try done. by eauto.
  - intros (Hc & i & p & Hi & Ha). exists (LSend i), closed_channel. cbn. unfold enqueue_step.
    rewrite Hi, Ha. pose proof (qo_added _ _ _ (re_ok _ _ _ H) i p Hi Ha) as Ht.
    destruct (pr_todo p); [done|]. by rewrite Hc.
Qed.

(** Labels with the canonical visiting orders, and runs of them. *)
Definition canonical (l : label) (d : discoverer) : label :=
  match l with
  | LHandle _ => LHandle (map_to_list (ec_delegates (d_creator d)))
  | LClear _ => LClear (map_to_list (d_endpoints d))
  | _ => l
  end.
Definition run_step (o : option discoverer) (l : label) : option discoverer :=
  d ← o; match step (canonical l d) d with Some (Done d') => Some d' | _ => None end.
Definition run (ls : list label) (d : discoverer) : option discoverer := foldl run_step (Some d) ls.

Lemma canonical_visits l d : visits_map (canonical l d) d.
Proof. by destruct l; cbn; try apply iterates_canonical. Qed.

Lemma run_reaches ls d d' : run ls d = Some d' -> rtc discoverer_step d d'.
Proof.
  revert d'. induction ls as [|l ls IH] using rev_ind; intros d'; [intros [= <-]; apply rtc_refl|].
  unfold run. rewrite foldl_app. cbn. fold (run ls d). destruct (run ls d) as [d1|]; [|done]. cbn.
  destruct (step (canonical l d1) d1) as [[d2| |]|] eqn:E; try done. intros [= <-].
  eapply rtc_r; [by apply IH|]. eapply discoverer_step_intro; [apply canonical_visits|exact E].
Qed.
End queue.

(** ** Witnesses *)

Definition sample_plugin : PluginConfig unit := MkPlugin "a" "prometheus" (MkSelectors "pod" ["*"] ∅ []) "" tt.
Definition sample_pod : resource_event := PodUpdated "Running" (Some sample_resource).
Definition sample_start (producers : list (list resource_event)) : discoverer (R := unit) (C := string) :=
  newDiscoverer (fun _ => Some (fun _ => true)) [sample_plugin] [] false producers.
Definition sample_run := run tt sample_encoders (IP := string) Some (fun ip => ip) ∅.
(** One resource is enqueued; the manager stops and clears; then it is handled. *)
Definition sent_and_stopped : list (label (R := unit) (C := string)) := [LAdd 0; LSend 0; LDone 0; LWait; LClose].
Definition handled_after : list (label (R := unit) (C := string)) := [LClear []; LReceive; LHandle []; LEnd].

Abbreviation sample_step := (step tt sample_encoders (IP := string) Some (fun ip => ip) ∅).
Abbreviation sample_steps := (rtc (discoverer_step tt sample_encoders (IP := string) Some (fun ip => ip) ∅)).
Definition ran (ls : list (label (R := unit) (C := string))) : discoverer (R := unit) (C := string) :=
  default (sample_start []) (sample_run ls (sample_start [[sample_pod]])).

Lemma ran_reaches ls : sample_run ls (sample_start [[sample_pod]]) = Some (ran ls) -> sample_steps (sample_start [[sample_pod]]) (ran ls).
Proof. apply run_reaches. Qed.

(** An endpoint is registered after all have been deleted, and the goroutine
    that could delete it has ended. *)
Lemma stopped_discoverer_registers :
  exists d, sample_steps (sample_start [[sample_pod]]) d /\
    d_stop d = Cleared /\ d_ended d = true /\ length (all_endpoints (d_endpoints d)) = 1.
Proof.
  exists (ran (sent_and_stopped ++ handled_after)). split; [apply ran_reaches|split_and!]; by vm_compute.
Qed.

(** An informer that delivers an event after [Stop] has waited crashes the
    process. *)
Lemma late_event_panics :
  exists d, sample_steps (sample_start [[sample_pod]]) d /\ sample_step (LSend 0) d = Some (Panic closed_channel).
Proof. exists (ran [LWait; LAdd 0; LClose]). split; [apply ran_reaches|]; by vm_compute. Qed.

Lemma discoverer_serial_witness :
  let d := ran (sent_and_stopped ++ handled_after) in
  length (d_log d) = 2 /\ exists l, registered (d_calls d) [] = Some l /\ l ≡ₚ all_endpoints (d_endpoints d).
Proof.
  intros d. split; [by vm_compute|].
  apply (discoverer_serial tt sample_encoders (IP := string) Some (fun ip => ip) ∅ (fun _ => Some (fun _ => true))
    [sample_plugin] [] false [[sample_pod]] d).
  apply ran_reaches. by vm_compute.
Defined.

Lemma discoverer_converges_witness :
  exists order, d_endpoints (ran [LAdd 0; LSend 0; LReceive; LDone 0; LHandle []]) !! "default-pod-web" =
    entry_of tt sample_encoders (d_creator (sample_start [])) order sample_resource.
Proof.
  destruct (discoverer_converges tt sample_encoders (IP := string) Some (fun ip => ip) ∅ (fun _ => Some (fun _ => true))
    [sample_plugin] [] false [[sample_pod]] (ran [LAdd 0; LSend 0; LReceive; LDone 0; LHandle []]) "default-pod-web")
    as (order & _ & H).
  - intros [|i] [|j] l1 l2 r1 r2; done.
  - apply ran_reaches. by vm_compute.
  - by vm_compute.
  - apply Forall_singleton. by vm_compute.
  - by vm_compute.
  - by vm_compute.
  - exists order. exact H.
Defined.

(** The state of [LClear] after [sent_and_stopped]. *)
Definition cleared_state : discoverer (R := unit) (C := string) := ran (sent_and_stopped ++ [LClear []]).

