(* ===== verification/Startup.v ===== *)
(** Starting the collector: cmd/wavefront-collector/main.go, internal/agent and
    the construction of the providers in plugins/sources/manager.go.

    Everything that talks to Kubernetes, to the network or to the host is a
    parameter: the results of those calls, in a record.  [log.Fatalf] ends the
    process ([Fatal]); a nil dereference or an index out of range panics
    ([Panic]). *)

From Stdlib Require Import ZArith Lia.
From S2P Require Import Prelude GoFloat Filters Util Leadership Discovery Configuration.

(** ** main.go: defaults and validation *)

Definition or_default (value default : Z) : Z := if (value =? 0)%Z then default else value.

(** [fillDefaults]; [a] is the type of this agent. *)
Definition fillDefaults (a : AgentType) (cfg : CollectorConfig) : CollectorConfig :=
  let d := DiscoveryConf cfg in
  MkCollector (or_default (FlushInterval cfg) (60 * second)) (or_default (DefaultCollectionInterval cfg) (60 * second))
    (or_default (SinkExportDataTimeout cfg) (20 * second)) (EnableDiscovery cfg) (EnableEvents cfg)
    (if String.eqb (ClusterName cfg) "" then "k8s-cluster" else ClusterName cfg) (Sinks cfg) (Sources cfg) (EventsConfig cfg)
    (MkDiscovery (or_default (dc_DiscoveryInterval d) (5 * minute)) (dc_AnnotationPrefix d) (dc_AnnotationExcludes d)
       (dc_EnableRuntimePlugins d) (dc_DisableAnnotationDiscovery d) (dc_PluginConfigs d) (dc_PromConfigs d))
    (OmitBucketSuffix cfg) (Experimental cfg) (ScrapeCluster a).

Definition validateCfg (cfg : CollectorConfig) : option string :=
  if (FlushInterval cfg <? 5 * second)%Z then Some "metric resolution should not be less than 5 seconds"
  else match Sources cfg with
       | None => Some "missing sources"
       | Some s => match SummaryConfig s with
                   | None => Some "kubernetes_source is missing"
                   | Some _ => if nil_list (Sinks cfg) then Some "missing sink" else None
                   end
       end.

(** [read] is the content of the file and [unmarshal] the YAML decoder. *)
Definition loadConfigOrDie (unmarshal : string -> result CollectorConfig) (read : string -> result string) (a : AgentType)
    (file : string) : outcome (option CollectorConfig) :=
  if String.eqb file "" then Done None
  else match FromFile unmarshal "configuration" "configuration file" (read file) with
       | Err e => Fatal ("error parsing configuration: " +:+ e)%string
       | Ok cfg =>
           let cfg := fillDefaults a cfg in
           match validateCfg cfg with
           | Some e => Fatal ("invalid configuration file: " +:+ e)%string
           | None => Done (Some cfg)
           end
       end.

(** [convert] are the flags converted by Configuration.v. *)
Definition convertOrDie (a : AgentType) (convert : outcome (result CollectorConfig)) (cfg : option CollectorConfig)
    : outcome CollectorConfig :=
  match cfg with
  | Some cfg => Done cfg
  | None =>
      r ← convert;
      match r with
      | Err e => Fatal ("error converting flags to config: " +:+ e)%string
      | Ok cfg => Done (fillDefaults a cfg)
      end
  end.

(** [getVersion]; [parse_float] is [strconv.ParseFloat]. *)
Definition getVersion (parse_float : string -> result f64) (version : string) : outcome f64 :=
  match split_on "." version with
  | p0 :: p1 :: p2 :: _ =>
      Done match parse_float (p0 +:+ "." +:+ p1 +:+ p2)%string with Ok f => f | Err _ => f64_zero end
  | _ => Panic "index out of range"
  end.

Definition setInternalSinkProperties (parse_float : string -> result f64) (version_text : string) (cfg : CollectorConfig)
    : outcome CollectorConfig :=
  prefix ← (src ← deref_ptr (Sources cfg);
            Done match StatsConfig src with
                 | Some s => GetStringValue (tr_Prefix (ss_Transforms s)) "kubernetes."
                 | None => ""
                 end);
  version ← getVersion parse_float version_text;
  Done (MkCollector (FlushInterval cfg) (DefaultCollectionInterval cfg) (SinkExportDataTimeout cfg) (EnableDiscovery cfg)
    (EnableEvents cfg) (ClusterName cfg)
    (map (fun s => MkSinkConfig (sk_Transforms s) (sk_Server s) (sk_Token s) (sk_BatchSize s) (sk_MaxBufferSize s)
            (sk_ProxyAddress s) (sk_TestMode s) (ClusterName cfg) version prefix (EnableEvents cfg)) (Sinks cfg))
    (Sources cfg) (EventsConfig cfg) (DiscoveryConf cfg) (OmitBucketSuffix cfg) (Experimental cfg) (cfg_ScrapeCluster cfg)).

Definition calculateCollectionInterval (cfg : CollectorConfig) : outcome Z :=
  src ← deref_ptr (Sources cfg);
  summary ← deref_ptr (SummaryConfig src);
  Done (if (0 <? cl_Interval (su_Collection summary))%Z then cl_Interval (su_Collection summary)
        else DefaultCollectionInterval cfg).

Definition numProcs (maxProcs numCPU : Z) : Z :=
  if (maxProcs <? 1)%Z then (if (numCPU =? 1)%Z then 2 else numCPU)%Z else maxProcs.

(** [preRegister]. *)
Definition preRegister (parse_float : string -> result f64) (version : string) (e : env) (a : AgentType) : outcome f64 :=
  if String.eqb (GetNodeName e) "" && ScrapeOnlyOwnNode a
  then Fatal ("missing environment variable " +:+ NodeNameEnvVar)%string
  else getVersion parse_float version.

(** ** plugins/sources/manager.go: building the providers *)

Section providers.
(** A provider; the constructors of the sources. *)
Context {P : Type}.
Record constructors := MkConstructors {
  NewSummaryProvider : SummarySourceConfig -> result P;
  NewCadvisorProvider : CadvisorSourceConfig -> SummarySourceConfig -> result P;
  NewControlPlaneProvider : ControlPlaneSourceConfig -> SummarySourceConfig -> result P;
  NewSystemdProvider : SystemdSourceConfig -> result P;
  NewStatsProvider : StatsSourceConfig -> result P;
  NewStateProvider : KubernetesStateSourceConfig -> result P;
  NewTelegrafProvider : TelegrafSourceConfig -> result P;
  NewPrometheusProvider : PrometheusSourceConfig -> result P;
}.
Context (new : constructors).

(** A provider and the collection interval and timeout it is configured with. *)
Definition configured : Type := P * CollectionConfig.

Definition appendProvider (slice : list configured) (r : result P) (cfg : CollectionConfig) : list configured :=
  match r with Err _ => slice | Ok provider => slice ++ [(provider, cfg)] end.

Definition append_opt {C} (o : option C) (new : C -> result P) (collection : C -> CollectionConfig)
    (slice : list configured) : list configured :=
  match o with Some cfg => appendProvider slice (new cfg) (collection cfg) | None => slice end.
Definition append_all {C} (l : list C) (new : C -> result P) (collection : C -> CollectionConfig)
    (slice : list configured) : list configured :=
  foldl (fun slice cfg => appendProvider slice (new cfg) (collection cfg)) slice l.

Definition buildProviders (cfg : SourceConfig) : outcome (list configured) :=
  let result := [] in
  let result :=
    match SummaryConfig cfg with
    | None => result
    | Some summary =>
        let result := appendProvider result (NewSummaryProvider new summary) (su_Collection summary) in
        let result := append_opt (CadvisorConfig cfg) (fun c => NewCadvisorProvider new c summary) ca_Collection result in
        append_opt (ControlPlaneConfig cfg) (fun c => NewControlPlaneProvider new c summary) cp_Collection result
    end in
  let result := append_opt (SystemdConfig cfg) (NewSystemdProvider new) sd_Collection result in
  let result := append_opt (StatsConfig cfg) (NewStatsProvider new) ss_Collection result in
  let result := append_opt (StateConfig cfg) (NewStateProvider new) ks_Collection result in
  let result := append_all (TelegrafConfigs cfg) (NewTelegrafProvider new) tg_Collection result in
  let result := append_all (PrometheusConfigs cfg) (NewPrometheusProvider new) ps_Collection result in
  match result with [] => Fatal "No available source to use" | _ => Done result end.
End providers.
Arguments constructors : clear implicits.
Arguments configured : clear implicits.

(** ** main.go: the agent *)

Section agent.
Context {P : Type}.

(** What the calls of the start-up return. *)
Record services := MkServices {
  GetKubeClientConfig : SummarySourceConfig -> result unit;
  NewForConfig : result unit;            (** an error panics *)
  source_constructors : constructors P;
  BuildAll : list WavefrontSinkConfig -> list string;   (** the sinks that could be made *)
  NewSinkManager : list string -> result unit;
  GetPodLister : result unit;
  GetServiceLister : result unit;
  GetNodeLister : result unit;
  NewNamespaceBasedEnricher : result unit;
  NewNodeAutoscalingEnricher : result unit;
  NewPointConverter : SummarySourceConfig -> string -> result unit;
  NewFlushManager : Z -> result unit;
  Subscribe_agent : result unit;
}.

(** The agent: what it runs. *)
Record Agent := MkAgent {
  ag_providers : list (configured P);
  ag_sinks : list string;
  ag_events : bool;        (** whether there is an event router *)
  ag_discovery : bool;     (** whether there is a discovery manager *)
  ag_interval : Z;         (** the interval of the pod enricher *)
  ag_flush : Z;
  ag_leader : bool;        (** whether it takes part in elections *)
}.

(** The client is handed to the state source. *)
Definition set_kube_client (src : SourceConfig) : SourceConfig :=
  MkSources (SummaryConfig src) (CadvisorConfig src) (ControlPlaneConfig src) (PrometheusConfigs src) (TelegrafConfigs src)
    (SystemdConfig src) (StatsConfig src)
    ((fun c => MkState (ks_Transforms c) (ks_Collection c) true) <$> StateConfig src).

Definition or_fatal {A} (what : string) (r : result A) : outcome A :=
  match r with Ok a => Done a | Err e => Fatal (what +:+ e)%string end.

Definition createKubeClientOrDie (s : services) (cfg : SummarySourceConfig) : outcome unit :=
  _ ← or_fatal "Failed to get client config: " (GetKubeClientConfig s cfg);
  match NewForConfig s with Ok u => Done u | Err e => Panic e end.

Definition getPodListerOrDie (s : services) : outcome unit := or_fatal "Failed to create podLister: " (GetPodLister s).
Definition getServiceListerOrDie (s : services) : outcome unit :=
  or_fatal "Failed to create serviceLister: " (GetServiceLister s).
Definition getNodeListerOrDie (s : services) : outcome unit := or_fatal "Failed to create nodeLister: " (GetNodeLister s).

(** The sinks that could be made and their manager. *)
Definition createSinkManagerOrDie (s : services) (cfgs : list WavefrontSinkConfig) : outcome (list string) :=
  let sinkList := BuildAll s cfgs in
  _ ← or_fatal "Failed to create sink manager: " (NewSinkManager s sinkList);
  Done sinkList.

Definition createDiscoveryManagerOrDie (s : services) (cfg : CollectorConfig) : outcome bool :=
  if EnableDiscovery cfg then
    _ ← getServiceListerOrDie s;
    _ ← getNodeListerOrDie s;
    Done true
  else Done false.

(** The processors that can fail to be made, in order; the interval of the
    pod enricher. *)
Definition createDataProcessorsOrDie (s : services) (cluster : string) (cfg : CollectorConfig) : outcome Z :=
  collectionInterval ← calculateCollectionInterval cfg;
  _ ← or_fatal "Failed to create NamespaceBasedEnricher: " (NewNamespaceBasedEnricher s);
  _ ← or_fatal "Failed to create NodeAutoscalingEnricher: " (NewNodeAutoscalingEnricher s);
  src ← deref_ptr (Sources cfg);
  summary ← deref_ptr (SummaryConfig src);
  _ ← or_fatal "Failed to create WavefrontPointConverter: " (NewPointConverter s summary cluster);
  Done collectionInterval.

Definition createAgentOrDie (s : services) (parse_float : string -> result f64) (version : string) (cfg : CollectorConfig)
    : outcome Agent :=
  src ← deref_ptr (Sources cfg);
  summary ← deref_ptr (SummaryConfig src);
  _ ← createKubeClientOrDie s summary;
  let src := set_kube_client src in
  providers ← buildProviders (source_constructors s) src;
  cfg ← setInternalSinkProperties parse_float version (with_sources (fun _ => src) cfg);
  sinks ← createSinkManagerOrDie s (Sinks cfg);
  _ ← getPodListerOrDie s;
  discovery ← createDiscoveryManagerOrDie s cfg;
  interval ← createDataProcessorsOrDie s (ClusterName cfg) cfg;
  _ ← or_fatal "Failed to create main manager: " (NewFlushManager s (FlushInterval cfg));
  _ ← (if cfg_ScrapeCluster cfg then or_fatal "Failed to start leader election: " (Subscribe_agent s) else Done tt);
  Done (MkAgent providers sinks (EnableEvents cfg) discovery interval (FlushInterval cfg) (cfg_ScrapeCluster cfg)).

(** [main], up to waiting; the flags as Configuration.v converts them. *)
Definition main (s : services) (parse_float : string -> result f64) (version : string) (e : env)
    (unmarshal : string -> result CollectorConfig) (unmarshal_discovery : string -> result DiscoveryConfig)
    (read : string -> result string) (opts : CollectorRunOptions) : outcome Agent :=
  _ ← preRegister parse_float version e (o_AgentType opts);
  cfg ← loadConfigOrDie unmarshal read (o_AgentType opts) (o_ConfigFile opts);
  cfg ← convertOrDie (o_AgentType opts) (Convert unmarshal_discovery read opts) cfg;
  createAgentOrDie s parse_float version cfg.

(** The reload of a changed file: [stop] is how stopping the old agent ends. *)
Definition handleCollectorCfg (s : services) (parse_float : string -> result f64) (version : string) (a : AgentType)
    (stop : outcome unit) (cfg : CollectorConfig) : outcome Agent :=
  let cfg := fillDefaults a cfg in
  _ ← stop;
  createAgentOrDie s parse_float version cfg.
End agent.
Arguments services : clear implicits.
Arguments Agent : clear implicits.

(** ** Lemmas *)

Lemma or_default_idem v d : or_default (or_default v d) d = or_default v d.
Proof. unfold or_default. destruct (Z.eqb_spec v 0) as [->|]; [by destruct (Z.eqb_spec d 0)|]. by destruct (Z.eqb_spec v 0). Qed.

Lemma fillDefaults_idem a cfg : fillDefaults a (fillDefaults a cfg) = fillDefaults a cfg.
Proof.
  unfold fillDefaults. cbn. rewrite !or_default_idem. destruct (String.eqb (ClusterName cfg) "") eqn:E; [done|]. by rewrite E.
Qed.

Section providers_proofs.
Context {P : Type} (new : constructors P).

(** The constructors that are called, in order. *)
Definition attempt_opt {C} (o : option C) (new : C -> result P) (collection : C -> CollectionConfig)
    : list (result P * CollectionConfig) :=
  match o with Some c => [(new c, collection c)] | None => [] end.
Definition attempts (cfg : SourceConfig) : list (result P * CollectionConfig) :=
  match SummaryConfig cfg with
  | None => []
  | Some summary =>
      [(NewSummaryProvider new summary, su_Collection summary)] ++
      attempt_opt (CadvisorConfig cfg) (fun c => NewCadvisorProvider new c summary) ca_Collection ++
      attempt_opt (ControlPlaneConfig cfg) (fun c => NewControlPlaneProvider new c summary) cp_Collection
  end ++
  attempt_opt (SystemdConfig cfg) (NewSystemdProvider new) sd_Collection ++
  attempt_opt (StatsConfig cfg) (NewStatsProvider new) ss_Collection ++
  attempt_opt (StateConfig cfg) (NewStateProvider new) ks_Collection ++
  map (fun c => (NewTelegrafProvider new c, tg_Collection c)) (TelegrafConfigs cfg) ++
  map (fun c => (NewPrometheusProvider new c, ps_Collection c)) (PrometheusConfigs cfg).

(** Those that succeed. *)
Definition made (l : list (result P * CollectionConfig)) : list (configured P) :=
  omap (fun '(r, cfg) => match r with Ok p => Some (p, cfg) | Err _ => None end) l.

Lemma appendProvider_made slice r cfg : appendProvider slice r cfg = slice ++ made [(r, cfg)].
Proof. destruct r; cbn; [done|by rewrite app_nil_r]. Qed.

Lemma append_opt_made {C} (o : option C) n collection slice :
  append_opt o n collection slice = slice ++ made (attempt_opt o n collection).
Proof. destruct o; cbn [append_opt attempt_opt]; [apply appendProvider_made|by rewrite app_nil_r]. Qed.

Lemma append_all_made {C} (l : list C) n collection slice :
  append_all l n collection slice = slice ++ made (map (fun c => (n c, collection c)) l).
Proof.
  unfold append_all. revert slice; induction l as [|c l IH]; intros slice; cbn [foldl map]; [by rewrite app_nil_r|].
  rewrite IH, appendProvider_made, <- app_assoc. f_equal. unfold made. by rewrite <- omap_app.
Qed.
End providers_proofs.

(** The providers.  Every configured source is tried, in a fixed order,
    cadvisor and the control plane only beside a summary source; those that
    cannot be made are left out, and the others are configured with the
    interval and timeout of their own section; the start-up ends only when
    none could be made. *)
Theorem buildProviders_spec {P : Type} (new : constructors P) (cfg : SourceConfig) :
  buildProviders new cfg =
    match made (attempts new cfg) with
    | [] => Fatal "No available source to use"
    | l => Done l
    end.
Proof.
  unfold buildProviders, attempts. cbv zeta. rewrite !append_all_made, !append_opt_made. unfold made. rewrite !omap_app.
  destruct (SummaryConfig cfg) as [s|]; [rewrite !append_opt_made, appendProvider_made; unfold made|];
    rewrite ?omap_app, <- !app_assoc; match goal with |- match ?l with _ => _ end = match ?l' with _ => _ end => change l' with l; by destruct l end.
Qed.

Section agent_proofs.
Context {P : Type} (s : services P) (parse_float : string -> result f64).

(** The calls of the start-up that can panic do not: the client can be made,
    and the version has three parts. *)
Definition no_other_panics (version : string) : Prop :=
  NewForConfig s = Ok tt /\ exists v, getVersion parse_float version = Done v.

Definition panics {A} (o : outcome A) : bool := match o with Panic _ => true | _ => false end.

Lemma bind_panics {A B} (o : outcome A) (f : A -> outcome B) :
  panics o = false -> (forall a, o = Done a -> panics (f a) = false) -> panics (o ≫= f) = false.
Proof. destruct o; cbn; [|done|done]. intros _ H. by apply H. Qed.

Lemma or_fatal_panics {A} what (r : result A) : panics (or_fatal what r) = false.
Proof. by destruct r. Qed.

Lemma buildProviders_panics (new : constructors P) src : panics (buildProviders new src) = false.
Proof. unfold buildProviders. cbv zeta. match goal with |- context [match ?l with [] => _ | _ :: _ => Done _ end] => destruct l end; done. Qed.

Ltac no_panic :=
  cbv zeta; repeat first [apply or_fatal_panics | apply buildProviders_panics | done | apply bind_panics | intros ? _ | case_match].

Lemma createDiscoveryManager_panics cfg : panics (createDiscoveryManagerOrDie s cfg) = false.
Proof. unfold createDiscoveryManagerOrDie. destruct (EnableDiscovery cfg); no_panic. Qed.

Lemma createDataProcessors_panics cluster cfg src summary :
  Sources cfg = Some src -> SummaryConfig src = Some summary -> panics (createDataProcessorsOrDie s cluster cfg) = false.
Proof.
  intros Hs Hsum. unfold createDataProcessorsOrDie, calculateCollectionInterval. rewrite Hs. cbn [deref_ptr mbind outcome_bind].
  rewrite Hsum. cbn [deref_ptr mbind outcome_bind]. no_panic.
Qed.

(** The properties of the sinks leave the sources as they are. *)
Lemma setInternalSinkProperties_done version v src cfg :
  getVersion parse_float version = Done v -> Sources cfg = Some src ->
  exists cfg', setInternalSinkProperties parse_float version cfg = Done cfg' /\ Sources cfg' = Some src /\
    FlushInterval cfg' = FlushInterval cfg /\ ClusterName cfg' = ClusterName cfg.
Proof.
  intros Hv Hs. unfold setInternalSinkProperties. rewrite Hs, Hv. cbn. eexists. by split_and!.
Qed.

(** With sources and a summary source no step of the start-up panics. *)
Lemma createAgent_no_panic version cfg src summary :
  no_other_panics version -> Sources cfg = Some src -> SummaryConfig src = Some summary ->
  panics (createAgentOrDie s parse_float version cfg) = false.
Proof.
  intros [Hn [v Hv]] Hs Hsum. unfold createAgentOrDie. rewrite Hs. cbn [deref_ptr mbind outcome_bind].
  rewrite Hsum. cbn [deref_ptr mbind outcome_bind].
  apply bind_panics; [unfold createKubeClientOrDie; rewrite Hn; no_panic|]. intros _ _. cbv zeta.
  apply bind_panics; [apply buildProviders_panics|]. intros providers _.
  destruct (setInternalSinkProperties_done version v (set_kube_client src) (with_sources (fun _ => set_kube_client src) cfg))
    as (cfg' & -> & Hs' & _); [done|cbn; by rewrite Hs|]. cbn [mbind outcome_bind].
  apply bind_panics; [unfold createSinkManagerOrDie; no_panic|]. intros sinks _.
  apply bind_panics; [apply or_fatal_panics|intros _ _].
  apply bind_panics; [apply createDiscoveryManager_panics|]. intros disc _.
  apply bind_panics; [by eapply createDataProcessors_panics|]. no_panic.
Qed.
End agent_proofs.

(** A configuration file, at start-up and when it changes.  At start-up a
    file that loads but has no sources, no summary source, no sink or a flush
    interval below five seconds ends the process with a message, and any other
    builds an agent or ends with a message: nothing panics.  A changed file is
    not validated: without sources or a summary source the reload first stops
    the running agent and then dereferences nil. *)
Theorem reload_not_validated {P : Type} (s : services P) (parse_float : string -> result f64) (version : string)
    (a : AgentType) (unmarshal : string -> result CollectorConfig) (file contents : string) (cfg : CollectorConfig) :
  no_other_panics s parse_float version -> file <> "" -> unmarshal contents = Ok cfg ->
  let start := cfg ← loadConfigOrDie unmarshal (fun _ => Ok contents) a file;
               cfg ← deref_ptr cfg; createAgentOrDie s parse_float version cfg in
  let reload := handleCollectorCfg s parse_float version a (Done tt) cfg in
  panics start = false /\
  match validateCfg (fillDefaults a cfg) with
  | None => start = reload /\ panics reload = false
  | Some e => start = Fatal ("invalid configuration file: " +:+ e)%string
  end /\
  ((src ← Sources cfg; SummaryConfig src) = None -> reload = Panic nil_pointer).
Proof.
  intros Hn Hf Hu start reload. unfold start, reload, loadConfigOrDie, handleCollectorCfg, FromFile, FromYAML.
  apply String.eqb_neq in Hf. rewrite Hf, Hu.
  assert (Hv : validateCfg (fillDefaults a cfg) = None -> exists src summary,
    Sources cfg = Some src /\ SummaryConfig src = Some summary).
  { unfold validateCfg. destruct (_ <? _)%Z; [done|]. cbn [Sources fillDefaults]. destruct (Sources cfg) as [src|]; [|done].
    destruct (SummaryConfig src) as [summary|] eqn:E; [|done]. intros _. by exists src, summary. }
  assert (Hr : (src ← Sources cfg; SummaryConfig src) = None ->
    createAgentOrDie s parse_float version (fillDefaults a cfg) = Panic nil_pointer).
  { unfold createAgentOrDie. cbn [Sources fillDefaults]. destruct (Sources cfg) as [src|]; [|done]. cbn. by intros ->. }
  destruct (validateCfg (fillDefaults a cfg)) as [e|] eqn:Ev; cbn [mbind outcome_bind deref_ptr]; [split_and!; done|].
  destruct (Hv eq_refl) as (src & summary & Hs & Hsum).
  assert (panics (createAgentOrDie s parse_float version (fillDefaults a cfg)) = false) as Hp
    by (eapply createAgent_no_panic; [done|exact Hs|exact Hsum]).
  by split_and!.
Qed.

Definition sample_services : services string := MkServices (fun _ => Ok tt) (Ok tt)
  (MkConstructors (fun _ => Ok "summary") (fun _ _ => Err "") (fun _ _ => Err "") (fun _ => Err "") (fun _ => Ok "stats")
     (fun _ => Err "") (fun _ => Err "") (fun _ => Err ""))
  (map sk_Server) (fun _ => Ok tt) (Ok tt) (Ok tt) (Ok tt) (Ok tt) (Ok tt) (fun _ _ => Ok tt) (fun _ => Ok tt) (Ok tt).
Definition sample_config (summary : option SummarySourceConfig) : CollectorConfig :=
  MkCollector 0 0 0 true false "" [wavefrontSinkOf (sample_uri "wavefront" ∅)]
    (Some (MkSources summary None None [] [] None None None)) events_zero discovery_zero false [] false.

Lemma reload_not_validated_witness :
  handleCollectorCfg sample_services (fun _ => Ok f64_one) "1.2.3" AllAgentType (Done tt) (sample_config None) = Panic nil_pointer.
Proof.
  refine (proj2 (proj2 (reload_not_validated sample_services (fun _ => Ok f64_one) "1.2.3" AllAgentType
    (fun _ => Ok (sample_config None)) "config.yaml" "" (sample_config None) _ _ _)) _); try done.
  split; [done|]. by eexists.
Defined.

(** ** What a running collector has *)

Lemma bind_done {A B} (o : outcome A) (f : A -> outcome B) b :
  o ≫= f = Done b -> exists a, o = Done a /\ f a = Done b.
Proof. destruct o; [|done|done]. intros H. by eexists. Qed.

Section running.
Context {P : Type} (s : services P) (parse_float : string -> result f64) (version : string).

(** The sinks as the agent configures them. *)
Definition agent_sinks (v : f64) (src : SourceConfig) (cfg : CollectorConfig) : list WavefrontSinkConfig :=
  map (fun k => MkSinkConfig (sk_Transforms k) (sk_Server k) (sk_Token k) (sk_BatchSize k) (sk_MaxBufferSize k)
         (sk_ProxyAddress k) (sk_TestMode k) (ClusterName cfg) v
         (match StatsConfig src with Some st => GetStringValue (tr_Prefix (ss_Transforms st)) "kubernetes." | None => "" end)
         (EnableEvents cfg)) (Sinks cfg).

Lemma createAgent_done cfg ag :
  createAgentOrDie s parse_float version cfg = Done ag ->
  exists src summary v, Sources cfg = Some src /\ SummaryConfig src = Some summary /\ getVersion parse_float version = Done v /\
    buildProviders (source_constructors s) (set_kube_client src) = Done (ag_providers ag) /\
    ag_sinks ag = BuildAll s (agent_sinks v src cfg) /\
    ag_events ag = EnableEvents cfg /\ ag_discovery ag = EnableDiscovery cfg /\
    ag_interval ag = (if (0 <? cl_Interval (su_Collection summary))%Z then cl_Interval (su_Collection summary)
                      else DefaultCollectionInterval cfg) /\
    ag_flush ag = FlushInterval cfg /\ ag_leader ag = cfg_ScrapeCluster cfg.
Proof.
  unfold createAgentOrDie. intros H. apply bind_done in H as (src & Hs & H). apply bind_done in H as (summary & Hsum & H).
  destruct (Sources cfg) as [src'|] eqn:Es; [|done]. injection Hs as ->.
  destruct (SummaryConfig src) as [summary'|] eqn:Esum; [|done]. injection Hsum as ->.
  apply bind_done in H as ([] & _ & H). cbv zeta in H. apply bind_done in H as (providers & Hp & H).
  apply bind_done in H as (cfg' & Hc & H). unfold setInternalSinkProperties in Hc. cbn [Sources with_sources] in Hc.
  rewrite Es in Hc. cbn [fmap option_fmap option_map deref_ptr mbind outcome_bind] in Hc.
  destruct (getVersion parse_float version) as [v| |] eqn:Ev; try done. cbn [mbind outcome_bind] in Hc. injection Hc as <-.
  apply bind_done in H as (sinks & Hsinks & H). apply bind_done in Hsinks as (? & _ & Hsinks). injection Hsinks as <-.
  apply bind_done in H as (? & _ & H). apply bind_done in H as (disc & Hd & H). apply bind_done in H as (interval & Hi & H).
  do 2 (apply bind_done in H as (? & _ & H)). injection H as <-. cbn in Hi, Hd. exists src, summary, v.
  split_and!; try done; cbn.
  - unfold createDiscoveryManagerOrDie in Hd. cbn in Hd. destruct (EnableDiscovery cfg); [|by injection Hd].
    apply bind_done in Hd as (? & _ & Hd). apply bind_done in Hd as (? & _ & Hd). by injection Hd.
  - unfold createDataProcessorsOrDie, calculateCollectionInterval in Hi. cbn in Hi. rewrite Esum in Hi. cbn in Hi.
    apply bind_done in Hi as (? & _ & Hi). apply bind_done in Hi as (? & _ & Hi). apply bind_done in Hi as (? & _ & Hi).
    by injection Hi.
Qed.
End running.


Definition sample_summary : SummarySourceConfig :=
  MkSummary transforms_zero collection_zero "" "" "" "" "" "" "".

