(* ===== verification/Options.v ===== *)
(** The command line and the global switches: internal/options/options.go,
    internal/experimental/feature.go, and what
    cmd/wavefront-collector/main.go and internal/agent/agent.go do around the
    agent.

    The flag library cuts the arguments into occurrences of known flags, each
    with its text, in order, or fails; that is a parameter, and so are
    [strconv.ParseInt], [time.ParseDuration] and the URL functions. *)

From Stdlib Require Import ZArith Lia.
From S2P Require Import Prelude GoFloat Filters Util Leadership Discovery Configuration Startup.

(** ** options.go: the flags *)

(** A flag's variable, by the type with which it is registered. *)
Inductive flag_value :=
  | FBool (b : bool)
  | FString (s : string)
  | FInt (z : Z)
  | FDuration (d : Z)
  | FAgent (a : AgentType)
  | FUris (us : list Uri).

(** The flags and their defaults; the second part is deprecated. *)
Definition supported_flags : list (string * flag_value) :=
  [("version", FBool false); ("profile", FBool false); ("daemon", FBool false); ("agent", FAgent AllAgentType);
   ("config-file", FString ""); ("log-level", FString "info"); ("max-procs", FInt 0); ("force-gc", FBool false)].
Definition deprecated_flags : list (string * flag_value) :=
  [("metric-resolution", FDuration (60 * second)); ("source", FUris []); ("sink", FUris []);
   ("sink-export-data-timeout", FDuration (20 * second)); ("enable-discovery", FBool true);
   ("enable-runtime-configs", FBool false); ("discovery-config", FString ""); ("internal-stats-prefix", FString "kubernetes.");
   ("scrape-timeout", FDuration (20 * second)); ("v", FInt 2)].
Definition flags_zero : gmap string flag_value := list_to_map (supported_flags ++ deprecated_flags).

(** [CollectorRunOptions] with the fields that only main reads. *)
Record run_options := MkRunOptions {
  ro_options : CollectorRunOptions;
  ro_Version : bool;
  ro_EnableProfiling : bool;
  ro_LogLevel : string;
  ro_MaxProcs : Z;
  ro_ForceGC : bool;
  ro_ScrapeTimeout : Z;
}.

Definition get_bool (m : gmap string flag_value) (n : string) : bool :=
  match m !! n with Some (FBool b) => b | _ => false end.
Definition get_string (m : gmap string flag_value) (n : string) : string :=
  match m !! n with Some (FString s) => s | _ => "" end.
Definition get_int (m : gmap string flag_value) (n : string) : Z :=
  match m !! n with Some (FInt z) | Some (FDuration z) => z | _ => 0%Z end.
Definition get_uris (m : gmap string flag_value) (n : string) : list Uri :=
  match m !! n with Some (FUris us) => us | _ => [] end.
Definition get_agent (m : gmap string flag_value) : AgentType :=
  match m !! "agent" with Some (FAgent a) => a | _ => AllAgentType end.

(** The variables that the flags write to. *)
Definition options_of (m : gmap string flag_value) : run_options :=
  MkRunOptions
    (MkOptions (get_bool m "daemon") (get_agent m) (get_string m "config-file") (get_int m "metric-resolution")
       (get_uris m "source") (get_uris m "sink") (get_int m "sink-export-data-timeout") (get_bool m "enable-discovery")
       (get_bool m "enable-runtime-configs") (get_string m "discovery-config") (get_string m "internal-stats-prefix"))
    (get_bool m "version") (get_bool m "profile") (get_string m "log-level") (get_int m "max-procs") (get_bool m "force-gc")
    (get_int m "scrape-timeout").

Section parse.
Context (parse_int parse_duration : string -> result Z).
Context (url_Parse : string -> result URL) (ExpandEnv : string -> string).

(** [Set] of a flag's value: the last one counts, uris are appended. *)
Definition set_flag (v : flag_value) (text : string) : result flag_value :=
  match v with
  | FBool _ => match ParseBool text with Some b => Ok (FBool b) | None => Err "invalid boolean" end
  | FString _ => Ok (FString text)
  | FInt _ => z ← parse_int text; Ok (FInt z)
  | FDuration _ => d ← parse_duration text; Ok (FDuration d)
  | FAgent _ => a ← NewAgentType text; Ok (FAgent a)
  | FUris us => us ← Uris_Set url_Parse ExpandEnv us text; Ok (FUris us)
  end.

Definition parse_step (m : gmap string flag_value) (occurrence : string * string) : result (gmap string flag_value) :=
  let '(name, text) := occurrence in
  match m !! name with
  | None => Err ("unknown flag: --" +:+ name)%string
  | Some v => v' ← set_flag v text; Ok (<[name := v']> m)
  end.

(** [CollectorRunOptions.Parse] of the occurrences. *)
Definition Parse (occurrences : result (list (string * string))) : result run_options :=
  occ ← occurrences;
  m ← foldM parse_step flags_zero occ;
  let opts := options_of m in
  opts' ← handleDaemonFlag (fun n => bool_decide (n ∈ occ.*1)) (ro_options opts);
  Ok (MkRunOptions opts' (ro_Version opts) (ro_EnableProfiling opts) (ro_LogLevel opts) (ro_MaxProcs opts) (ro_ForceGC opts)
        (ro_ScrapeTimeout opts)).

(** The function [Parse]: an error ends the process with status 2. *)
Definition Parse_os_args (occurrences : result (list (string * string))) : outcome run_options :=
  match Parse occurrences with Ok opts => Done opts | Err e => Fatal e end.
End parse.

(** ** feature.go *)

(** The features that are enabled. *)
Definition IsEnabled (name : string) (enabled : gmap string bool) : bool := default false (enabled !! name).
Definition EnableFeature (name : string) (enabled : gmap string bool) : gmap string bool := <[name := true]> enabled.
Definition DisableFeature (name : string) (enabled : gmap string bool) : gmap string bool := delete name enabled.
Definition DisableAll (enabled : gmap string bool) : gmap string bool := ∅.
(** What [createAgentOrDie] does with the features of a configuration. *)
Definition configure_features (features : list string) (enabled : gmap string bool) : gmap string bool :=
  foldl (fun m f => EnableFeature f m) (DisableAll enabled) features.

(** ** main.go: the environment and the reload *)

Definition setEnvVar (key val : string) (e : env) : env := <[key := val]> e.
(** [util.ForceGC]. *)
Definition ForceGC : string := "FORCE_GC".
Definition enableForcedGC (enable : bool) (e : env) : env := if enable then setEnvVar ForceGC "true" e else e.
(** Read by the Prometheus source when it names the buckets of histograms. *)
Definition set_omit_suffix (omit : bool) (e : env) : env :=
  setEnvVar "omitBucketSuffix" (if omit then "true" else "false") e.

(** What the watcher hands to the reloader: a configuration, or something
    else, which is ignored. *)
Definition Handle {P} (s : services P) (parse_float : string -> result f64) (version : string) (a : AgentType)
    (stop : outcome unit) (old : Agent P) (cfg : option CollectorConfig) : outcome (Agent P) :=
  match cfg with
  | Some cfg => handleCollectorCfg s parse_float version a stop cfg
  | None => Done old
  end.

(** ** agent.go *)

(** The parts of an agent: the flush manager, and the discovery manager and
    the event router when there are. *)
Inductive part := FlushManager | DiscoveryManager | EventRouter.
#[export] Instance part_eq_dec : EqDecision part.
Proof. solve_decision. Defined.
Inductive agent_call := StartPart (p : part) | StopPart (p : part) | StopProviders.

Definition parts (discovery events : bool) : list part :=
  [FlushManager] ++ (if discovery then [DiscoveryManager] else []) ++ (if events then [EventRouter] else []).
Definition Agent_Start (discovery events : bool) : list agent_call := StartPart <$> parts discovery events.
Definition Agent_Stop (discovery events : bool) : list agent_call := (StopPart <$> parts discovery events) ++ [StopProviders].
(** [NewAgent] followed by [Start], and by a reload with each further
    configuration. *)
Fixpoint agent_life (current : bool * bool) (reloads : list (bool * bool)) : list agent_call :=
  match reloads with
  | [] => []
  | next :: reloads' => Agent_Stop current.1 current.2 ++ Agent_Start next.1 next.2 ++ agent_life next reloads'
  end.

(** The parts that run after a list of calls. *)
Definition running_after (calls : list agent_call) (running : list part) : list part :=
  foldl (fun ps c => match c with
                     | StartPart p => ps ++ [p]
                     | StopPart p => filter (fun q => q <> p) ps
                     | StopProviders => ps
                     end) running calls.

(** ** Lemmas *)

(** The texts given for a flag, in order. *)
Definition texts_of (n : string) (occ : list (string * string)) : list string :=
  (List.filter (fun o => String.eqb o.1 n) occ).*2.

Lemma texts_given n occ : n ∈ occ.*1 <-> texts_of n occ <> [].
Proof.
  unfold texts_of. induction occ as [|[m t] occ IH]; [split; [by intros ?%not_elem_of_nil|done]|].
  cbn [fmap list_fmap fst List.filter]. rewrite elem_of_cons. destruct (String.eqb_spec m n) as [->|Hne]; [split; [done|by left]|].
  change (fmap fst occ) with (occ.*1). rewrite IH. naive_solver.
Qed.

Section parse_proofs.
Context (parse_int parse_duration : string -> result Z).
Context (url_Parse : string -> result URL) (ExpandEnv : string -> string).
Abbreviation set_flag := (set_flag parse_int parse_duration url_Parse ExpandEnv).
Abbreviation parse_step := (parse_step parse_int parse_duration url_Parse ExpandEnv).

(** The flags do not influence each other. *)
Lemma parse_flag occ m m' n v :
  foldM parse_step m occ = Ok m' -> m !! n = Some v ->
  exists v', m' !! n = Some v' /\ foldM set_flag v (texts_of n occ) = Ok v'.
Proof.
  revert m v; induction occ as [|[name text] occ IH]; intros m v; cbn [foldM].
  { intros [= <-] Hn. by exists v. }
  unfold texts_of. cbn [List.filter fst]. intros Hf Hn. destruct (parse_step m (name, text)) as [m1|] eqn:E; [|done].
  cbn in Hf. cbn in E. destruct (m !! name) as [v0|] eqn:Ename; [|done].
  destruct (set_flag v0 text) as [v1|] eqn:Ev; [|done]. injection E as <-.
  destruct (String.eqb_spec name n) as [->|Hne].
  - rewrite Hn in Ename. injection Ename as ->. cbn [fmap list_fmap snd foldM]. rewrite Ev. cbn [mbind result_bind].
    apply (IH _ v1 Hf). by rewrite lookup_insert_eq.
  - apply (IH _ v Hf). by rewrite lookup_insert_ne.
Qed.

(** A flag that is set keeps its type; agent types and texts keep the last. *)
Lemma set_agent texts a v' : foldM set_flag (FAgent a) texts = Ok v' ->
  exists a', v' = FAgent a' /\ match last texts with Some t => NewAgentType t = Ok a' | None => a' = a end.
Proof.
  revert a; induction texts as [|t texts IH]; intros a; cbn [foldM]; [intros [= <-]; by exists a|].
  cbn [Options.set_flag]. destruct (NewAgentType t) as [a1|] eqn:E; [|done]. cbn. intros (a' & -> & H)%IH.
  exists a'. split; [done|]. rewrite last_cons. destruct (last texts); [exact H|by rewrite H].
Qed.

Lemma set_bool texts b v' : foldM set_flag (FBool b) texts = Ok v' ->
  exists b', v' = FBool b' /\ match last texts with Some t => ParseBool t = Some b' | None => b' = b end.
Proof.
  revert b; induction texts as [|t texts IH]; intros b; cbn [foldM]; [intros [= <-]; by exists b|].
  cbn [Options.set_flag]. destruct (ParseBool t) as [b1|] eqn:E; [|done]. cbn. intros (b' & -> & H)%IH.
  exists b'. split; [done|]. rewrite last_cons. destruct (last texts); [exact H|by rewrite H].
Qed.

Lemma set_string texts s v' : foldM set_flag (FString s) texts = Ok v' -> v' = FString (default s (last texts)).
Proof.
  revert s; induction texts as [|t texts IH]; intros s; cbn [foldM]; [by intros [= <-]|].
  cbn [Options.set_flag mbind result_bind]. intros ->%IH. rewrite last_cons. by destruct (last texts).
Qed.

Lemma set_uris texts us v' : foldM set_flag (FUris us) texts = Ok v' ->
  exists new, v' = FUris (us ++ new) /\
    Forall2 (fun t u => Uri_Set url_Parse ExpandEnv (MkUri "" url_zero) t = Ok u) texts new.
Proof.
  revert us; induction texts as [|t texts IH]; intros us; cbn [foldM].
  { intros [= <-]. exists []. by rewrite app_nil_r. }
  cbn [Options.set_flag]. unfold Uris_Set. destruct (Uri_Set _ _ _ t) as [u|] eqn:E; [|done]. cbn. intros (new & -> & H)%IH.
  exists (u :: new). by rewrite <-app_assoc; split; [|constructor].
Qed.

(** Which texts a flag takes does not depend on what it was set to before. *)
Definition takes (v : flag_value) (text : string) : Prop := exists v', set_flag v text = Ok v'.
Definition acceptable (o : string * string) : Prop := exists v, flags_zero !! o.1 = Some v /\ takes v o.2.
Definition same_takes (v v' : flag_value) : Prop := forall text, takes v text <-> takes v' text.

Lemma set_takes v text v' : set_flag v text = Ok v' -> same_takes v v'.
Proof.
  intros H text'. destruct v; cbn in H; unfold Uris_Set in H;
    repeat match goal with
    | H : match ?x with _ => _ end = Ok _ |- _ => destruct x eqn:?; try done
    | H : mbind _ ?x = Ok _ |- _ => destruct x eqn:?; cbn in H; try done
    end; injection H as <-; try done.
  unfold takes. cbn. unfold Uris_Set. destruct (Uri_Set _ _ _ text'); cbn; split; intros []; by eauto.
Qed.

Lemma flags_accepted occ m :
  (forall n, option_Forall2 same_takes (flags_zero !! n) (m !! n)) ->
  (exists m', foldM parse_step m occ = Ok m') <-> Forall acceptable occ.
Proof.
  revert m; induction occ as [|[name text] occ IH]; intros m Hm; cbn [foldM]; [split; [done|by eauto]|].
  rewrite Forall_cons. unfold acceptable at 1. cbn [fst snd]. pose proof (Hm name) as Hn.
  cbn [Options.parse_step]. destruct (m !! name) as [v|]; inversion Hn as [v0 ? Hs E|E]; subst; clear Hn.
  2: { split; [by intros []|]. intros [(v & ? & _) _]. congruence. }
  destruct (set_flag v text) as [v'|] eqn:Ev; cbn [mbind result_bind].
  - rewrite (IH (<[name := v']> m)).
    + split; [|by intros []]. intros H. split; [|done]. exists v0. split; [done|]. apply Hs. by exists v'.
    + intros n. destruct (decide (n = name)) as [->|Hne]; [|by rewrite lookup_insert_ne].
      rewrite lookup_insert_eq, <-E. constructor. intros t. rewrite (Hs t). apply (set_takes _ _ _ Ev).
  - split; [by intros []|]. intros [(w & [= <-] & Ht) _].
    apply Hs in Ht as [x Hx]. congruence.
Qed.

(** What the options are, when they are. *)
Record parsed (occ : list (string * string)) (o : CollectorRunOptions) : Prop := {
  pa_agent : match last (texts_of "daemon" occ) with
             | Some t => exists b, ParseBool t = Some b /\ o_AgentType o = if b then LegacyAgentType else AllAgentType
             | None => match last (texts_of "agent" occ) with
                       | Some t => NewAgentType t = Ok (o_AgentType o)
                       | None => o_AgentType o = AllAgentType
                       end
             end;
  pa_config : o_ConfigFile o = default "" (last (texts_of "config-file" occ));
  pa_sources : Forall2 (fun t u => Uri_Set url_Parse ExpandEnv (MkUri "" url_zero) t = Ok u) (texts_of "source" occ) (o_Sources o);
  pa_sinks : Forall2 (fun t u => Uri_Set url_Parse ExpandEnv (MkUri "" url_zero) t = Ok u) (texts_of "sink" occ) (o_Sinks o);
}.

Lemma Parse_accepts occ :
  (exists opts, Parse parse_int parse_duration url_Parse ExpandEnv (Ok occ) = Ok opts) <->
  Forall acceptable occ /\ ~ ("daemon" ∈ occ.*1 /\ "agent" ∈ occ.*1).
Proof.
  rewrite <-(flags_accepted occ flags_zero) by (intros n; destruct (flags_zero !! n); by constructor).
  unfold Parse. cbn [mbind result_bind]. destruct (foldM _ flags_zero occ) as [m|]; [|naive_solver].
  cbn [mbind result_bind]. cbv zeta. unfold handleDaemonFlag.
  destruct (decide ("daemon" ∈ occ.*1)) as [Ed|Ed], (decide ("agent" ∈ occ.*1)) as [Eg|Eg];
    rewrite ?(bool_decide_eq_true_2 _ Ed), ?(bool_decide_eq_false_2 _ Ed), ?(bool_decide_eq_true_2 _ Eg),
      ?(bool_decide_eq_false_2 _ Eg); cbn [andb mbind result_bind]; naive_solver.
Qed.

Lemma Parse_parsed occ opts :
  Parse parse_int parse_duration url_Parse ExpandEnv (Ok occ) = Ok opts -> parsed occ (ro_options opts).
Proof.
  intros H. unfold Parse in H. cbn [mbind result_bind] in H. destruct (foldM _ flags_zero occ) as [m|] eqn:Em; [|done].
  cbn [mbind result_bind] in H. cbv zeta in H. destruct (handleDaemonFlag _ _) as [o'|] eqn:Eh; [|done].
  cbn [mbind result_bind] in H. injection H as <-. cbv zeta. cbn [ro_options].
  assert (Hflag : forall n v, flags_zero !! n = Some v -> exists v', m !! n = Some v' /\
    foldM set_flag v (texts_of n occ) = Ok v').
  { intros n v. by apply parse_flag. }
  destruct (Hflag "daemon" (FBool false) eq_refl) as (vd & Hd & Hds). apply set_bool in Hds as (b & -> & Hb).
  destruct (Hflag "agent" (FAgent AllAgentType) eq_refl) as (va & Ha & Has). apply set_agent in Has as (a & -> & Hag).
  destruct (Hflag "config-file" (FString "") eq_refl) as (vc & Hc & ->%set_string).
  destruct (Hflag "source" (FUris []) eq_refl) as (vs & Hs & (us & -> & Hus)%set_uris).
  destruct (Hflag "sink" (FUris []) eq_refl) as (vk & Hk & (ks & -> & Hks)%set_uris).
  clear Hflag. set (o := ro_options (options_of m)) in *.
  assert (Hod : o_daemon o = b) by (unfold o; cbn; unfold get_bool; by rewrite Hd).
  assert (Hoa : o_AgentType o = a) by (unfold o; cbn; unfold get_agent; by rewrite Ha).
  assert (Hoc : o_ConfigFile o = default "" (last (texts_of "config-file" occ))) by (unfold o; cbn; unfold get_string; by rewrite Hc).
  assert (Hos : o_Sources o = us) by (unfold o; cbn; unfold get_uris; by rewrite Hs).
  assert (Hok : o_Sinks o = ks) by (unfold o; cbn; unfold get_uris; by rewrite Hk).
  clearbody o. unfold handleDaemonFlag in Eh.
  pose proof (texts_given "daemon" occ) as Htd. pose proof (texts_given "agent" occ) as Hta.
  destruct (decide ("daemon" ∈ occ.*1)) as [Ed|Ed].
  - rewrite (bool_decide_eq_true_2 ("daemon" ∈ occ.*1)) in Eh by done. destruct (decide ("agent" ∈ occ.*1)) as [Eg|Eg].
    { by rewrite (bool_decide_eq_true_2 ("agent" ∈ occ.*1)) in Eh by done. }
    rewrite (bool_decide_eq_false_2 ("agent" ∈ occ.*1)) in Eh by done. injection Eh as <-.
    split; cbn; rewrite ?Hod, ?Hoc, ?Hos, ?Hok; [|done..]. apply Htd in Ed.
    destruct (last (texts_of "daemon" occ)) as [t|] eqn:El; [by exists b|by apply last_None in El].
  - rewrite (bool_decide_eq_false_2 ("daemon" ∈ occ.*1)) in Eh by done. injection Eh as <-.
    split; [rewrite Hoa|rewrite ?Hoc, ?Hos, ?Hok; done..].
    destruct (last (texts_of "daemon" occ)) as [t|] eqn:El; [|by destruct (last (texts_of "agent" occ))].
    exfalso. apply Ed, Htd. by intros E; rewrite E in El.
Qed.
End parse_proofs.

(** ** Properties *)


Definition sample_occurrences : list (string * string) := [("agent", "node"); ("sink", "wavefront:x"); ("agent", "cluster")].
Definition sample_Parse := Parse (fun _ => Err "int") (fun _ => Err "duration") (fun _ => Ok url_zero) (fun s => s).

Definition sample_opts : run_options :=
  match sample_Parse (Ok sample_occurrences) with Ok opts => opts | Err _ => options_of ∅ end.


(** Two versions that share a number. *)
Lemma versions_collide (parse_float : string -> result f64) : getVersion parse_float "1.1.23" = getVersion parse_float "1.12.3".
Proof. done. Qed.

(** Features are those of the last configuration. *)
Lemma configured_features features enabled name :
  IsEnabled name (configure_features features enabled) = bool_decide (name ∈ features).
Proof.
  unfold configure_features, DisableAll. induction features as [|f features IH] using rev_ind; [done|].
  rewrite foldl_app. cbn [foldl]. unfold EnableFeature, IsEnabled in *. destruct (decide (name = f)) as [->|Hne].
  - rewrite lookup_insert_eq, bool_decide_eq_true_2; [done|]. apply elem_of_app. right. by left.
  - rewrite lookup_insert_ne by done. rewrite IH. apply bool_decide_ext. rewrite elem_of_app, list_elem_of_singleton.
    naive_solver.
Qed.

(** Between two reloads exactly the parts of the current agent run. *)
Lemma agent_life_running current reloads :
  running_after (agent_life current reloads) (parts current.1 current.2) =
  parts (default current (last reloads)).1 (default current (last reloads)).2.
Proof.
  assert (Hswap : forall c n : bool * bool, running_after (Agent_Stop c.1 c.2 ++ Agent_Start n.1 n.2) (parts c.1 c.2) = parts n.1 n.2).
  { intros [[] []] [[] []]; by vm_compute. }
  revert current; induction reloads as [|next reloads IH]; intros current; [done|]. cbn [agent_life].
  unfold running_after in *. rewrite app_assoc, foldl_app, Hswap, IH.
  rewrite last_cons. by destruct (last reloads).
Qed.
