(* ===== verification/Stats.v ===== *)
(** The internal statistics source: plugins/sources/stats (stats.go,
    provider.go).

    The registry of go-metrics is third-party code: a scrape sees the list of
    its entries in the order [Each] visits them, each as the numbers its
    methods return.  [DecodeKey] is the library's inverse of the encoding of a
    name and tags; it returns a map of its own. *)

From Stdlib Require Import ZArith Lia.
From S2P Require Import Prelude GoFloat Filters Wf PointGroups Util Leadership Configuration.

(** ** The registry *)

(** A snapshot of a histogram: extremes, mean and the percentiles 0.5, 0.75,
    0.95, 0.99 and 0.999; of a meter: count, one-minute rate and mean rate. *)
Record histo := MkHisto { hi_Min : Z; hi_Max : Z; hi_Mean : f64; hi_p50 : f64; hi_p75 : f64; hi_p95 : f64; hi_p99 : f64; hi_p999 : f64 }.
Record rate := MkRate { ra_Count : Z; ra_Rate1 : f64; ra_RateMean : f64 }.

Inductive registered :=
  | Counter (count : Z)
  | Gauge (value : Z)
  | GaugeFloat64 (value : f64)
  | Timer (h : histo) (r : rate)
  | Histogram (h : histo)
  | Meter (r : rate)
  | OtherMetric.

(** ** stats.go *)

Record internalMetricsSource := MkSource {
  prefix : string;
  tags : tagmap;
  filters : option globFilter;
  source : string;
  zeroFilters : list string;
}.

Definition getDefault (val defaultVal : string) : string := if String.eqb val "" then defaultVal else val.

Definition newInternalMetricsSource (e : env) (prefix : string) (tags : tagmap) (filters : option globFilter)
    : internalMetricsSource :=
  MkSource prefix tags filters (getDefault (GetNodeName e) "wavefront-collector-for-kubernetes")
    ["filtered.count"; "errors.count"; "targets.registered"; "collect.errors"; "points.filtered"; "points.collected"].

Definition combine (prefix name : string) : string := (prefix +:+ "." +:+ name)%string.

Section source.
Context (DecodeKey : string -> string * tagmap) (src : internalMetricsSource).

Definition filterName (name : string) : bool := existsb (fun suffix => has_suffix suffix name) (zeroFilters src).

(** [order] is the order in which the source's tags are visited. *)
Definition buildTags (order : list (string * string)) (tags : tagmap) : tagmap :=
  foldl (fun tags '(k, v) =>
      if negb (String.eqb v "") then match tags !! k with Some _ => tags | None => <[k := v]> tags end else tags) tags order.

(** [point]: the point, or nothing for a zero of an internal count. *)
Definition point (order : list (string * string)) (h : heap) (name : string) (value : f64) (ts : Z) : heap * option wfmetric :=
  let '(name, tags) := DecodeKey name in
  if f64_eqb value f64_zero && filterName name then (h, None)
  else
    let '(h, l) := new_map h (buildTags order tags) in
    (h, Some (MPoint (NewPoint (prefix src +:+ "collector." +:+ replace_char "_" "." name) value ts (source src) (Some l)))).

(** [wf.FilterAppend(src.filters, src.fps, points, src.point(..))]. *)
Definition append_point (order : list (string * string)) (ts : Z) (st : heap * list wfmetric * Z) (nv : string * f64)
    : heap * list wfmetric * Z :=
  let '(h, points, fps) := st in
  let '(h, p) := point order h nv.1 nv.2 ts in
  let '(h, points, n) := FilterAppend (filters src) h points p in (h, points, (fps + n)%Z).

(** Nanoseconds to milliseconds. *)
Definition milli (f : f64) : f64 := f64_div f (f64_of_Z 1000000).

Definition addHisto (name : string) (h : histo) : list (string * f64) :=
  [(combine name "duration.min", milli (f64_of_Z (hi_Min h))); (combine name "duration.max", milli (f64_of_Z (hi_Max h)));
   (combine name "duration.mean", milli (hi_Mean h)); (combine name "duration.median", milli (hi_p50 h));
   (combine name "duration.p75", milli (hi_p75 h)); (combine name "duration.p95", milli (hi_p95 h));
   (combine name "duration.p99", milli (hi_p99 h)); (combine name "duration.p999", milli (hi_p999 h))].
Definition addRate (name : string) (r : rate) : list (string * f64) :=
  [(combine name "rate.count", f64_of_Z (ra_Count r)); (combine name "rate.m1", ra_Rate1 r);
   (combine name "rate.mean", ra_RateMean r)].

(** The names and values of the points of an entry, in the order in which
    they are made. *)
Definition entry_values (name : string) (m : registered) : list (string * f64) :=
  match m with
  | Counter n | Gauge n => [(name, f64_of_Z n)]
  | GaugeFloat64 v => [(name, v)]
  | Timer h r => addHisto name h ++ addRate name r
  | Histogram h => addHisto name h
  | Meter r => addRate name r
  | OtherMetric => []
  end.

(** The points of an entry are gathered in a list of their own, then appended. *)
Definition add_entry (order : list (string * string)) (ts : Z) (st : heap * list wfmetric * Z) (entry : string * registered)
    : heap * list wfmetric * Z :=
  let '(h, points, fps) := st in
  let '(h, new, fps) := foldl (append_point order ts) (h, [], fps) (entry_values entry.1 entry.2) in
  (h, points ++ new, fps).
End source.

(** The tags that are put into the source's map before a scrape. *)
Definition scrape_tags (e : env) (leading : bool) (tags : tagmap) : tagmap :=
  AddK8sTags e (<["installation_method" := GetInstallationMethod e]>
    (<["leading" := if leading then "true" else "false"]> tags)).

(** [internalStats]: the source, whose map of tags has been written, the heap,
    the batch, and the increments of the counters of filtered and collected
    points.  [visit] is the order in which the map of tags is visited. *)
Definition internalStats (DecodeKey : string -> string * tagmap) (e : env) (leading : bool)
    (visit : tagmap -> list (string * string)) (now : Z) (registry : list (string * registered))
    (src : internalMetricsSource) (h : heap) : internalMetricsSource * (heap * list wfmetric * Z) * Z :=
  let tags := scrape_tags e leading (tags src) in
  let src := MkSource (prefix src) tags (filters src) (source src) (zeroFilters src) in
  let '(h, points, fps) := foldl (add_entry DecodeKey src (visit tags) now) (h, [], 0%Z) registry in
  (src, (h, points, fps), Z.of_nat (length points)).

Definition NewInternalStatsProvider (glob_compile : string -> option Glob) (e : env) (cfg : StatsSourceConfig)
    : list internalMetricsSource :=
  [newInternalMetricsSource e (GetStringValue (tr_Prefix (ss_Transforms cfg)) "kubernetes.") (tr_Tags (ss_Transforms cfg))
     (FromConfig glob_compile (tr_Filters (ss_Transforms cfg)))].

(** ** What a scrape reports *)

Section expected.
Context (DecodeKey : string -> string * tagmap) (src : internalMetricsSource) (tags : tagmap) (now : Z).

(** The tags of a point: its own, and those of the source that it has not and
    that are not empty. *)
Definition point_tags (own : tagmap) : tagmap := own ∪ filter (fun '(_, v) => v <> "") tags.

Definition value_groups (nv : string * f64) : list group :=
  let '(name, own) := DecodeKey nv.1 in
  if f64_eqb nv.2 f64_zero && filterName src name then []
  else [MkGroup (Some (point_tags own))
          [MkProto (prefix src +:+ "collector." +:+ replace_char "_" "." name) nv.2 now (source src)]].
Definition registry_groups (registry : list (string * registered)) : list group :=
  (registry ≫= fun e => entry_values e.1 e.2) ≫= value_groups.

Lemma buildTags_eq order own : iterates order tags -> buildTags order own = point_tags own.
Proof.
  intros Ho. pose proof (iterates_NoDup _ _ Ho) as Hnd.
  assert (Hl : forall k, buildTags order own !! k =
    match own !! k with Some v => Some v | None => v ← (list_to_map order : tagmap) !! k; if decide (v = "") then None else Some v end).
  { clear Ho. unfold buildTags. revert own; induction order as [|[k v] order IH]; intros own k0; cbn [foldl].
    { cbn. rewrite lookup_empty. by destruct (own !! k0). }
    apply NoDup_cons in Hnd as [Hk Hnd]. rewrite IH by done. rewrite list_to_map_cons.
    assert (Hnone : (list_to_map order : tagmap) !! k = None) by by apply not_elem_of_list_to_map_1.
    destruct (String.eqb_spec v "") as [->|Hv]; cbn [negb].
    - destruct (decide (k0 = k)) as [->|Hne]; [rewrite lookup_insert_eq, Hnone; by destruct (own !! k)|].
      by rewrite lookup_insert_ne.
    - destruct (own !! k) as [w|] eqn:Ek.
      + destruct (decide (k0 = k)) as [->|Hne]; [by rewrite Ek|]. by rewrite (lookup_insert_ne _ k).
      + destruct (decide (k0 = k)) as [->|Hne].
        * rewrite !lookup_insert_eq, Ek. cbn. by rewrite decide_False.
        * by rewrite !lookup_insert_ne. }
  apply map_eq. intros k. rewrite Hl. unfold point_tags. rewrite lookup_union.
  rewrite (iterates_to_map _ _ Ho), map_lookup_filter. destruct (own !! k) as [w|]; [by destruct (_ ≫= _)|].
  destruct (tags !! k) as [w|]; [|done]. cbn. destruct (decide (w = "")) as [->|Hw].
  - by rewrite option_guard_False by (intros H; by apply H).
  - by rewrite option_guard_True.
Qed.

(** The points of one value, as a step of PointGroups.v. *)
Definition value_gen (h : heap) (nv : string * f64) : heap * list wfmetric :=
  let '(name, own) := DecodeKey nv.1 in
  if f64_eqb nv.2 f64_zero && filterName src name then (h, [])
  else let '(h', l) := new_map h (point_tags own) in
       (h', map (point_at (Some l)) [MkProto (prefix src +:+ "collector." +:+ replace_char "_" "." name) nv.2 now (source src)]).

Lemma value_gen_builds h nv : builds h (value_gen h nv) (value_groups nv).
Proof.
  unfold value_gen, value_groups. destruct (DecodeKey nv.1) as [name own].
  destruct (_ && _); [apply builds_nil|apply builds_new].
Qed.

Lemma append_point_step order st nv :
  iterates order tags -> append_point DecodeKey src order now st nv = scrape_step (filters src) value_gen st nv.
Proof.
  intros Ho. destruct st as [[h points] fps]. unfold append_point, scrape_step, value_gen, point.
  destruct (DecodeKey nv.1) as [name own]. destruct (_ && _); cbn.
  - destruct (filters src); cbn; by rewrite Z.add_0_r.
  - rewrite (buildTags_eq order own Ho). done.
Qed.

(** Appending to an empty list first makes no difference. *)
Lemma append_point_acc order h acc points fps nvs :
  foldl (append_point DecodeKey src order now) (h, acc ++ points, fps) nvs =
  (let '(h', new, fps') := foldl (append_point DecodeKey src order now) (h, points, fps) nvs in (h', acc ++ new, fps')).
Proof.
  revert h points fps; induction nvs as [|nv nvs IH]; intros h points fps; [done|]. cbn [foldl].
  assert (E : append_point DecodeKey src order now (h, acc ++ points, fps) nv =
    (let '(h', new, fps') := append_point DecodeKey src order now (h, points, fps) nv in (h', acc ++ new, fps'))).
  { unfold append_point, FilterAppend. destruct (point _ _ _ _ _ _ _) as [h1 p].
    destruct (Filter _ h1 p) as [[h2 [m|]] n]; [by rewrite app_assoc|done]. }
  rewrite E. destruct (append_point _ _ _ _ (h, points, fps) nv) as [[h1 new] fps1]. apply IH.
Qed.

Lemma registry_loop order registry st :
  iterates order tags ->
  foldl (add_entry DecodeKey src order now) st registry =
  foldl (scrape_step (filters src) value_gen) st (registry ≫= fun e => entry_values e.1 e.2).
Proof.
  intros Ho. revert st; induction registry as [|e registry IH]; intros st; [done|].
  cbn [foldl]. rewrite bind_cons, foldl_app, IH. f_equal. destruct st as [[h points] fps]. unfold add_entry.
  assert (foldl (scrape_step (filters src) value_gen) (h, points, fps) (entry_values e.1 e.2) =
    foldl (append_point DecodeKey src order now) (h, points ++ [], fps) (entry_values e.1 e.2)) as ->.
  { rewrite app_nil_r. generalize (h, points, fps). induction (entry_values e.1 e.2) as [|nv nvs IHn]; intros st; [done|].
    cbn [foldl]. by rewrite IHn, append_point_step. }
  by rewrite append_point_acc.
Qed.
End expected.

(** A scrape of the internal statistics.  Whatever the order in which tags
    are visited, the batch holds, for every entry of the registry in order, its
    points with a value: none for a zero whose name has one of the known
    suffixes; a point's tags are its own, which win, and the non-empty ones of
    the source, which say whether this node leads, how it was installed and
    which Kubernetes it runs on; each point filtered as the metric filter says;
    and the counters of collected and filtered points add up. *)
Theorem internalStats_spec (DecodeKey : string -> string * tagmap) (e : env) (leading : bool)
    (visit : tagmap -> list (string * string)) (now : Z) (registry : list (string * registered))
    (src : internalMetricsSource) (h : heap) :
  (forall m, iterates (visit m) m) ->
  let tags := scrape_tags e leading (tags src) in
  let groups := registry_groups DecodeKey src tags now registry in
  exists h' points,
    internalStats DecodeKey e leading visit now registry src h =
      (MkSource (prefix src) tags (filters src) (source src) (zeroFilters src),
       (h', points, (Z.of_nat (length groups) - Z.of_nat (length points))%Z), Z.of_nat (length points)) /\
    describe h' <$> points = (groups ≫= filter_group (filters src)).
Proof.
  intros Hv t groups. unfold internalStats. fold t.
  set (src' := MkSource (prefix src) t (filters src) (source src) (zeroFilters src)).
  rewrite (registry_loop DecodeKey src' t now (visit t) registry _ (Hv t)).
  destruct (scrape_loop (filters src) (value_gen DecodeKey src' t now) (value_groups DecodeKey src' t now)
    (registry ≫= fun e => entry_values e.1 e.2) h) as (h' & points & E & Hd).
  { intros h0 nv. apply value_gen_builds. }
  change (filters src') with (filters src). rewrite E. exists h', points. split; [|exact Hd]. do 3 f_equal. f_equal.
  unfold groups, registry_groups. change (value_groups DecodeKey src t now) with (value_groups DecodeKey src' t now).
  generalize (registry ≫= fun e => entry_values e.1 e.2). intros l. f_equal. f_equal. f_equal.
  induction l as [|nv l IH]; [done|]. rewrite !bind_cons, bind_app, !length_app, IH. f_equal.
  unfold value_groups. destruct (DecodeKey nv.1). by destruct (_ && _).
Qed.

Lemma internalStats_spec_witness :
  exists h' points, (internalStats (fun k => (k, ∅)) ∅ true map_to_list 0
      [("source.collect.errors", Counter 0); ("leader_count", Gauge 2)] (newInternalMetricsSource ∅ "kubernetes." ∅ None) ∅).1.2
      = (h', points, 0%Z) /\ map dp_name (describe h' <$> points) = ["kubernetes.collector.leader.count"].
Proof.
  destruct (internalStats_spec (fun k => (k, ∅)) ∅ true map_to_list 0
    [("source.collect.errors", Counter 0); ("leader_count", Gauge 2)] (newInternalMetricsSource ∅ "kubernetes." ∅ None) ∅)
    as (h' & points & E & Hd); [intros m; apply iterates_canonical|].
  exists h', points. rewrite E. assert (length points = 1) as Hl.
  { apply (f_equal length) in Hd. rewrite length_fmap in Hd. etransitivity; [exact Hd|by vm_compute]. }
  split; [cbn [fst snd]; rewrite Hl; by vm_compute|]. rewrite Hd. by vm_compute.
Defined.
