(* ===== verification/Events.v ===== *)
(** Events: plugins/events/eventrouter.go, internal/events/types.go and the
    export of events in plugins/sinks/wavefront/wavefront.go.

    The event filter is in Filters.v.  The options of an event are those of the
    Wavefront SDK that the code uses: each sets one annotation.  The informer
    factory of client-go starts an informer once; a stopped informer stays
    stopped.  The sinks run in goroutines of their own and share the event. *)

From Stdlib Require Import ZArith Lia.
From S2P Require Import Prelude GoFloat Filters Wf Util Leadership Discovery Configuration.

(** ** types.go *)

Inductive event_option := OptType (t : string) | OptAnnotate (key value : string).

(** [Tags] is never set. *)
Record Event := MkEvent {
  ev_Message : string;
  ev_Ts : Z;
  ev_Host : string;
  ev_Options : list event_option;
}.

(** What the options make of the annotations. *)
Definition annotate (annotations : tagmap) (o : event_option) : tagmap :=
  match o with OptType t => <["type" := t]> annotations | OptAnnotate k v => <[k := v]> annotations end.
Definition annotations (options : list event_option) : tagmap := foldl annotate ∅ options.

(** ** eventrouter.go: an event *)

(** What is read of a Kubernetes event; the time is [None] when it is not set. *)
Record kube_event := MkKubeEvent {
  ke_Message : string;
  ke_LastTimestamp : option Z;
  ke_Namespace : string;
  ke_Kind : string;
  ke_Name : string;
  ke_Reason : string;
  ke_Component : string;
  ke_Host : string;
  ke_Type : string;
}.

(** [strings.ToLower] on the letters that can make an ASCII word. *)
Definition lower (c : Ascii.ascii) : Ascii.ascii :=
  let n := N_of_ascii c in if (65 <=? n)%N && (n <=? 90)%N then Ascii.ascii_of_N (n + 32) else c.
Fixpoint ToLower (s : string) : string :=
  match s with EmptyString => EmptyString | String c s' => String (lower c) (ToLower s') end.

Definition event_tags (e : kube_event) : tagmap :=
  let ns := if String.eqb (ke_Namespace e) "" then "default" else ke_Namespace e in
  let tags := <["namespace_name" := ns]> (<["kind" := ke_Kind e]> (<["reason" := ke_Reason e]>
                {["component" := ke_Component e]})) in
  if negb (String.eqb (ke_Name e) "") then
    if String.eqb (ToLower (ke_Kind e)) "pod" then <["pod_name" := ke_Name e]> tags
    else <["resource_name" := ke_Name e]> tags
  else tags.

(** [order] is the order in which the tags are visited. *)
Definition newEvent (message : string) (ts : Z) (host : string) (order : list (string * string)) (options : list event_option)
    : Event := MkEvent message ts host (options ++ map (fun kv => OptAnnotate kv.1 kv.2) order).

(** The counters of received, filtered and sent events. *)
Record event_counters := MkCounters { receivedEvents : Z; filteredEvents : Z; sentEvents : Z }.

(** [addEvent]: the event for the sinks, if it gets that far.  An event whose
    time is not set is older than a minute. *)
Definition addEvent (filters : eventFilter) (visit : tagmap -> list (string * string)) (now : Z) (e : option kube_event)
    (c : event_counters) : event_counters * option Event :=
  match e with
  | None => (c, None)
  | Some e =>
      if match ke_LastTimestamp e with Some t => (t <? now - minute)%Z | None => true end then (c, None)
      else
        let tags := event_tags e in
        if negb (event_matches filters tags)
        then (MkCounters (receivedEvents c + 1) (filteredEvents c + 1) (sentEvents c), None)
        else
          let eType := if String.eqb (ke_Type e) "" then "Normal" else ke_Type e in
          (MkCounters (receivedEvents c + 1) (filteredEvents c) (sentEvents c + 1),
           Some (newEvent (ke_Message e) (default 0 (ke_LastTimestamp e)) (ke_Host e) (visit tags) [OptType eType]))
  end%Z.

(** ** eventrouter.go: the life cycle *)

(** The stop channel; whether the factory has started the informer, and
    whether the informer runs. *)
Record router := MkRouter { er_stop : handler_chan; er_started : bool; er_running : bool }.
Definition NewEventRouter : router := MkRouter ChanNil false false.

Definition Resume (er : router) : router :=
  MkRouter (handler_start (er_stop er)) true (if er_started er then er_running er else true).
Definition Pause (er : router) : outcome router :=
  match er_stop er with
  | ChanNil => Done er
  | ChanOpen => Done (MkRouter ChanClosed (er_started er) false)
  | ChanClosed => Panic "close of closed channel"
  end.

(** The messages of the election, in order. *)
Fixpoint router_run (er : router) (msgs : list bool) : outcome router :=
  match msgs with
  | [] => Done er
  | true :: msgs' => router_run (Resume er) msgs'
  | false :: msgs' => er' ← Pause er; router_run er' msgs'
  end.

(** ** wavefront.go: [ExportEvent] of several sinks *)

(** Where a sink is: it has not begun, it has put its annotation into the
    event, or it has sent the event with these annotations. *)
Inductive export_state := Waiting | Annotated | Sent (annotations : tagmap).

(** The shared event and the sinks, each with the name of its cluster.  A sink
    first stores the extended options into the event and then reads the event
    again to send it; other sinks may run in between. *)
Inductive export_step : Event * list (string * export_state) -> Event * list (string * export_state) -> Prop :=
  | step_annotate ev sinks i cluster :
      sinks !! i = Some (cluster, Waiting) ->
      export_step (ev, sinks)
        (MkEvent (ev_Message ev) (ev_Ts ev) (ev_Host ev) (ev_Options ev ++ [OptAnnotate "cluster" cluster]),
         <[i := (cluster, Annotated)]> sinks)
  | step_send ev sinks i cluster :
      sinks !! i = Some (cluster, Annotated) ->
      export_step (ev, sinks) (ev, <[i := (cluster, Sent (annotations (ev_Options ev)))]> sinks).

(** One sink after another, as with a single sink. *)
Definition ExportEvent (cluster : string) (ev : Event) : Event * tagmap :=
  let ev := MkEvent (ev_Message ev) (ev_Ts ev) (ev_Host ev) (ev_Options ev ++ [OptAnnotate "cluster" cluster]) in
  (ev, annotations (ev_Options ev)).

(** ** Lemmas *)

Lemma annotations_snoc options o : annotations (options ++ [o]) = annotate (annotations options) o.
Proof. unfold annotations. by rewrite foldl_app. Qed.

Lemma annotate_all order acc :
  NoDup order.*1 -> foldl annotate acc (map (fun kv => OptAnnotate kv.1 kv.2) order) = list_to_map order ∪ acc.
Proof.
  revert acc; induction order as [|[k v] order IH]; intros acc Hnd; cbn [map foldl annotate fst snd].
  { cbn. by rewrite (left_id_L ∅ (∪)). }
  apply NoDup_cons in Hnd as [Hk Hnd]. rewrite IH by done. rewrite list_to_map_cons. apply map_eq. intros k'.
  rewrite !lookup_union. destruct (decide (k' = k)) as [->|Hne].
  - rewrite !lookup_insert_eq. assert ((list_to_map order : tagmap) !! k = None) as -> by by apply not_elem_of_list_to_map_1.
    by destruct (acc !! k).
  - by rewrite !lookup_insert_ne.
Qed.

Lemma newEvent_annotations message ts host order m t :
  iterates order m -> m !! "type" = None ->
  annotations (ev_Options (newEvent message ts host order [OptType t])) = <["type" := t]> m.
Proof.
  intros Ho Ht. unfold newEvent, annotations. cbn [ev_Options app foldl annotate].
  rewrite annotate_all by (by eapply iterates_NoDup). apply map_eq. intros k. rewrite lookup_union, (iterates_to_map _ _ Ho).
  destruct (decide (k = "type")) as [->|Hne]; [by rewrite Ht, !lookup_insert_eq|].
  rewrite !lookup_insert_ne, lookup_empty by done. by destruct (m !! k).
Qed.

Lemma event_tags_no_type e : event_tags e !! "type" = None.
Proof.
  unfold event_tags. destruct (negb _); [destruct (String.eqb (ToLower _) _)|]; rewrite !lookup_insert_ne by done;
    by rewrite lookup_singleton_ne.
Qed.

(** Which events are exported.  An object that is not an event, and an
    event older than a minute or without a time, is ignored and not counted;
    any other is counted as received, and then, by the event filter on its
    tags, either as filtered or as sent; a sent event has the message, time and
    host of the Kubernetes event, and its annotations are the tags and the
    type, "Normal" when there is none, whatever the order of the tags. *)
Theorem addEvent_spec (filters : eventFilter) (visit : tagmap -> list (string * string)) (now : Z) (e : kube_event)
    (c : event_counters) :
  (forall m, iterates (visit m) m) ->
  addEvent filters visit now None c = (c, None) /\
  let recent := match ke_LastTimestamp e with Some t => (now - minute <=? t)%Z | None => false end in
  (recent = false -> addEvent filters visit now (Some e) c = (c, None)) /\
  (recent = true ->
     let keep := event_matches filters (event_tags e) in
     exists o, addEvent filters visit now (Some e) c =
         (MkCounters (receivedEvents c + 1) (filteredEvents c + if keep then 0 else 1) (sentEvents c + if keep then 1 else 0), o)%Z /\
       if keep then exists ev, o = Some ev /\ ev_Message ev = ke_Message e /\ Some (ev_Ts ev) = ke_LastTimestamp e /\
              ev_Host ev = ke_Host e /\
              annotations (ev_Options ev) = <["type" := if String.eqb (ke_Type e) "" then "Normal" else ke_Type e]> (event_tags e)
       else o = None).
Proof.
  intros Hv. split; [done|]. cbv zeta. unfold addEvent. destruct (ke_LastTimestamp e) as [t|]; [|done].
  rewrite Z.leb_antisym. destruct (t <? now - minute)%Z; cbn [negb]; [done|]. split; [done|]. intros _.
  destruct (event_matches filters (event_tags e)); cbn [negb].
  - eexists. split; [by rewrite Z.add_0_r|]. eexists. split; [done|]. split_and!; try done.
    apply newEvent_annotations; [apply Hv|apply event_tags_no_type].
  - eexists. split; [by rewrite Z.add_0_r|done].
Qed.

Definition sample_event (t : option Z) : kube_event := MkKubeEvent "Started" t "" "Pod" "web" "Started" "kubelet" "node" "".

Lemma addEvent_spec_witness :
  let filters := MkEventFilter None None None None in
  exists ev, (addEvent filters map_to_list (5 * minute)%Z (Some (sample_event (Some (5 * minute)%Z))) (MkCounters 0 0 0)).2 = Some ev /\
    annotations (ev_Options ev) !! "pod_name" = Some "web" /\ annotations (ev_Options ev) !! "type" = Some "Normal".
Proof.
  intros filters.
  destruct (addEvent_spec filters map_to_list (5 * minute)%Z (sample_event (Some (5 * minute)%Z)) (MkCounters 0 0 0))
    as (_ & _ & H); [intros m; apply iterates_canonical|].
  destruct (H eq_refl) as (o & E & ev & -> & _ & _ & _ & Ha). exists ev. rewrite E. split; [done|].
  rewrite Ha. split; by vm_compute.
Defined.

(** ** The life cycle *)

(** The messages end with this node leading, and it has not lost an election
    in between. *)
Fixpoint all_true (msgs : list bool) : bool := match msgs with [] => true | b :: msgs' => b && all_true msgs' end.
Fixpoint first_term (msgs : list bool) : bool :=
  match msgs with [] => false | true :: msgs' => all_true msgs' | false :: msgs' => first_term msgs' end.

Lemma started_run msgs er er' :
  er_started er = true -> er_stop er <> ChanNil -> router_run er msgs = Done er' ->
  er_running er' = (er_running er && all_true msgs).
Proof.
  revert er; induction msgs as [|b msgs IH]; intros er Hs Hc; cbn [router_run all_true].
  { intros [= <-]. by rewrite andb_true_r. }
  destruct b; cbn [andb].
  - intros H. rewrite (IH (Resume er) eq_refl ltac:(discriminate) H). cbn. by rewrite Hs.
  - unfold Pause. destruct (er_stop er); try done. cbn [mbind outcome_bind]. intros H. rewrite (IH (MkRouter ChanClosed (er_started er) false) Hs ltac:(discriminate) H). cbn.
    by rewrite andb_false_r.
Qed.

(** The event router across elections.  As long as it does not panic, it
    watches events exactly when this node leads and has never been demoted:
    the informer is started once, and a demotion stops it for good, so a node
    that is elected again exports no events. *)
Theorem router_deaf_after_demotion (msgs : list bool) (er : router) :
  router_run NewEventRouter msgs = Done er -> er_running er = first_term msgs.
Proof.
  induction msgs as [|b msgs IH]; cbn [router_run first_term]; [by intros [= <-]|].
  destruct b; [|exact IH]. intros H. apply (started_run msgs (Resume NewEventRouter) er) in H; [exact H|done|discriminate].
Qed.

Lemma router_deaf_after_demotion_witness :
  exists er, router_run NewEventRouter [true; false; true] = Done er /\ er_running er = false.
Proof.
  eexists. split; [by vm_compute|]. apply (router_deaf_after_demotion [true; false; true]). by vm_compute.
Defined.

(** ** Sinks that share an event *)

Section sharing.
Context (ev0 : Event) (cluster : string).

(** What every reachable state satisfies when all sinks have one cluster name. *)
Record shared_ok (st : Event * list (string * export_state)) : Prop := {
  so_event : exists n, ev_Options st.1 = ev_Options ev0 ++ replicate n (OptAnnotate "cluster" cluster) /\
    ((exists i, st.2 !! i = Some (cluster, Annotated)) -> 0 < n);
  so_cluster : forall i c s, st.2 !! i = Some (c, s) -> c = cluster;
  so_sent : forall i a, st.2 !! i = Some (cluster, Sent a) -> a = <["cluster" := cluster]> (annotations (ev_Options ev0));
}.

Lemma annotations_repeat n :
  0 < n -> annotations (ev_Options ev0 ++ replicate n (OptAnnotate "cluster" cluster)) =
    <["cluster" := cluster]> (annotations (ev_Options ev0)).
Proof.
  intros Hn. destruct n as [|n]; [lia|]. clear Hn. induction n as [|n IH]; [apply annotations_snoc|].
  rewrite replicate_S_end, app_assoc, annotations_snoc, IH. cbn. by rewrite insert_insert_eq.
Qed.

Lemma shared_step st st' : shared_ok st -> export_step st st' -> shared_ok st'.
Proof.
  intros [(n & He & Hn) Hc Hs] Hstep. destruct Hstep as [ev sinks i c Hi|ev sinks i c Hi]; cbn [fst snd] in *;
    pose proof (Hc _ _ _ Hi) as ->; (split; cbn [fst snd]).
  - exists (S n). split; [|lia]. rewrite replicate_S_end, app_assoc. cbn. by rewrite He.
  - intros j c s Hj. destruct (decide (i = j)) as [->|Hne]; [|rewrite list_lookup_insert_ne in Hj by done; by eapply Hc].
    rewrite list_lookup_insert_eq in Hj by by eapply lookup_lt_Some. by injection Hj as <- <-.
  - intros j a Hj. destruct (decide (i = j)) as [->|Hne]; [|rewrite list_lookup_insert_ne in Hj by done; by eapply Hs].
    by rewrite list_lookup_insert_eq in Hj by by eapply lookup_lt_Some.
  - exists n. split; [done|]. intros _. apply Hn. by exists i.
  - intros j c s Hj. destruct (decide (i = j)) as [->|Hne]; [|rewrite list_lookup_insert_ne in Hj by done; by eapply Hc].
    rewrite list_lookup_insert_eq in Hj by by eapply lookup_lt_Some. by injection Hj as <- <-.
  - intros j a Hj. destruct (decide (i = j)) as [->|Hne]; [|rewrite list_lookup_insert_ne in Hj by done; by eapply Hs].
    rewrite list_lookup_insert_eq in Hj by by eapply lookup_lt_Some. injection Hj as <-. rewrite He. apply annotations_repeat, Hn.
    by exists j.
Qed.
End sharing.



(** With different names a sink can send the other's. *)
Example mixed_clusters :
  let ev := MkEvent "Started" 0 "node" [] in
  exists st, rtc export_step (ev, [("a", Waiting); ("b", Waiting)]) st /\
    st.2 !! 0 = Some ("a", Sent {["cluster" := "b"]}).
Proof.
  intros ev. eexists. split.
  { eapply rtc_l; [by apply (step_annotate ev _ 0)|]. eapply rtc_l; [by apply (step_annotate _ _ 1)|].
    eapply rtc_l; [by apply (step_send _ _ 0)|]. done. }
  by vm_compute.
Qed.
