(* ===== verification/SinkSetup.v ===== *)
(** Making the sinks: the constructor and the heartbeat of
    plugins/sinks/wavefront/wavefront.go, plugins/sinks/factory.go, the tag
    string of testsender.go, and the file watcher of internal/util/watcher.go.

    The senders of the Wavefront SDK are parameters: whether they can be made,
    and what is sent to them. *)

From Stdlib Require Import ZArith Lia.
From S2P Require Import Prelude GoFloat Filters Wf Sink Util Leadership Discovery Configuration.

(** ** wavefront.go: [NewWavefrontSink] *)

(** [strconv.Atoi] of a 64-bit int. *)
Definition Atoi (s : string) : option Z :=
  let '(neg, s') := match s with
                    | String "-" s' => (true, s')
                    | String "+" s' => (false, s')
                    | _ => (false, s)
                    end in
  if String.eqb s' "" then None
  else v ← digits_value s' 0;
       let v := if neg : bool then (- v)%Z else v in
       if decide (in_i64 v) then Some v else None.

(** The client of a sink. *)
Inductive client :=
  | TestClient
  | ProxyClient (host : string) (port : Z)
  | DirectClient (server token : string) (batchSize maxBufferSize : Z).

Section sinks.
(** Whether a sender can be made; the glob library. *)
Context (NewSender : client -> result unit) (glob_compile : string -> option Glob).
(** The order in which the configured tags are visited. *)
Context (visit : tagmap -> list (string * string)).

Definition make_client (cfg : WavefrontSinkConfig) : outcome (result client) :=
  let made c what := match NewSender c with Ok _ => Done (Ok c) | Err e => Done (Err (what +:+ e)%string) end in
  if sk_TestMode cfg then Done (Ok TestClient)
  else if negb (String.eqb (sk_ProxyAddress cfg) "") then
    match split_on ":" (sk_ProxyAddress cfg) with
    | host :: portStr :: _ =>
        match Atoi portStr with
        | None => Done (Err "error parsing proxy port")
        | Some port => made (ProxyClient host port) "error creating proxy sender: "%string
        end
    | _ => Panic "index out of range"
    end
  else if negb (String.eqb (sk_Server cfg) "") then
    if String.eqb (sk_Token cfg) "" then Done (Err "token missing for Wavefront sink")
    else made (DirectClient (sk_Server cfg) (sk_Token cfg) (sk_BatchSize cfg) (sk_MaxBufferSize cfg))
           "error creating direct sender: "%string
  else Done (Err "proxyAddress or server property required for Wavefront sink").

(** The sink and its client; logging and garbage collection are left out. *)
Definition NewWavefrontSink (cfg : WavefrontSinkConfig) : outcome (result (wavefrontSink (F := globFilter) * client)) :=
  c ← make_client cfg;
  Done match c with
       | Err e => Err e
       | Ok c =>
           let t := sk_Transforms cfg in
           Ok (MkSink (GetStringValue (sk_ClusterName cfg) "k8s-cluster")
                 (if negb (String.eqb (tr_Prefix t) "") then trim "." (tr_Prefix t) else "")
                 (visit (tr_Tags t)) (FromConfig glob_compile (tr_Filters t)), c)
       end.

(** ** factory.go *)

Fixpoint build_sinks (cfgs : list WavefrontSinkConfig) : outcome (list (wavefrontSink (F := globFilter) * client)) :=
  match cfgs with
  | [] => Done []
  | cfg :: cfgs' =>
      r ← NewWavefrontSink cfg;
      rest ← build_sinks cfgs';
      Done match r with Ok s => s :: rest | Err _ => rest end
  end.
Definition BuildAll (cfgs : list WavefrontSinkConfig) : outcome (list (wavefrontSink (F := globFilter) * client)) :=
  l ← build_sinks cfgs;
  match l with [] => Fatal "No available sink to use" | _ => Done l end.
End sinks.

(** ** wavefront.go: the heartbeat *)

Definition heartbeat_tags (e : env) (cfg : WavefrontSinkConfig) : tagmap :=
  <["cluster" := sk_ClusterName cfg]> (<["stats_prefix" := GetStringValue (tr_Prefix (sk_Transforms cfg)) "kubernetes."]>
    {["installation_method" := GetInstallationMethod e]}).

(** What is sent at each tick; [envs] are the environments then.  The map of
    tags is kept, so a tag that has been added stays. *)
Definition heartbeat_source (e : env) : string :=
  if String.eqb (GetNodeName e) "" then "wavefront-collector-for-kubernetes" else GetNodeName e.
Fixpoint heartbeat_ticks (e : env) (cfg : WavefrontSinkConfig) (tags : tagmap) (envs : list env) : list sent :=
  match envs with
  | [] => []
  | e' :: envs' =>
      let tags := AddK8sTags e' tags in
      SendMetric "~wavefront.kubernetes.collector.version" (sk_Version cfg) 0 (heartbeat_source e) tags ::
      SendMetric "~wavefront.kubernetes.collector.config.events.enabled"
        (if sk_EventsEnabled cfg then f64_one else f64_zero) 0 (heartbeat_source e) tags ::
      heartbeat_ticks e cfg tags envs'
  end.
Definition emitHeartbeat (e : env) (cfg : WavefrontSinkConfig) (start : env) (envs : list env) : list sent :=
  let tags := AddK8sTags start (heartbeat_tags e cfg) in
  SendMetric "~wavefront.kubernetes.collector.version" (sk_Version cfg) 0 (heartbeat_source e) tags ::
  heartbeat_ticks e cfg tags envs.

(** ** testsender.go *)

Definition orderedTagString (tags : tagmap) : string :=
  foldl (fun tagStr tagName =>
      if negb (String.eqb tagName "cluster")
      then (tagStr +:+ tagName +:+ "=" +:+ String "034" (default "" (tags !! tagName) +:+ String "034" " "))%string
      else tagStr) "" (sorted_keys tags).

(** ** util/watcher.go *)

(** [Watch]: at each tick the time of the file's last change, or the error;
    the result says at which ticks the listener is called.  The first time
    that is read is only remembered. *)
Fixpoint Watch (initial : bool) (modTime : option Z) (stats : list (result Z)) : list bool :=
  match stats with
  | [] => []
  | Err _ :: stats' => false :: Watch initial modTime stats'
  | Ok t :: stats' =>
      if match modTime with Some m => (m <? t)%Z | None => true end
      then negb initial :: Watch false (Some t) stats'
      else false :: Watch initial modTime stats'
  end.

(** ** Properties *)

(** An address of a proxy without a colon. *)
Definition missing_port (cfg : WavefrontSinkConfig) : bool :=
  negb (sk_TestMode cfg) && negb (String.eqb (sk_ProxyAddress cfg) "") &&
  match split_first ":" (sk_ProxyAddress cfg) with (_, None) => true | _ => false end.

Lemma split_on_first sep s :
  match split_first sep s with
  | (a, None) => split_on sep s = [a]
  | (a, Some b) => split_on sep s = a :: split_on sep b
  end.
Proof.
  induction s as [|c s IH]; [done|]. cbn [split_first split_on]. destruct (Ascii.eqb c sep); [done|].
  destruct (split_first sep s) as [a [b|]]; rewrite IH; done.
Qed.

Section build.
Context (NewSender : client -> result unit) (glob_compile : string -> option Glob) (visit : tagmap -> list (string * string)).

(** The client that a configuration asks for, when it is complete. *)
Definition wanted_client (cfg : WavefrontSinkConfig) : option client :=
  if sk_TestMode cfg then Some TestClient
  else if negb (String.eqb (sk_ProxyAddress cfg) "") then
    match split_on ":" (sk_ProxyAddress cfg) with
    | host :: port :: _ => ProxyClient host <$> Atoi port
    | _ => None
    end
  else if negb (String.eqb (sk_Server cfg) "") && negb (String.eqb (sk_Token cfg) "")
  then Some (DirectClient (sk_Server cfg) (sk_Token cfg) (sk_BatchSize cfg) (sk_MaxBufferSize cfg)) else None.

Definition available (c : client) : bool := match c with TestClient => true | _ => is_ok (NewSender c) end.

(** The sink of a configuration, if it can be made. *)
Definition sink_of (cfg : WavefrontSinkConfig) : option (wavefrontSink (F := globFilter) * client) :=
  c ← wanted_client cfg;
  if available c then
    Some (MkSink (GetStringValue (sk_ClusterName cfg) "k8s-cluster") (trim "." (tr_Prefix (sk_Transforms cfg)))
            (visit (tr_Tags (sk_Transforms cfg))) (FromConfig glob_compile (tr_Filters (sk_Transforms cfg))), c)
  else None.

Lemma NewWavefrontSink_eq cfg :
  if missing_port cfg then NewWavefrontSink NewSender glob_compile visit cfg = Panic "index out of range"
  else exists r, NewWavefrontSink NewSender glob_compile visit cfg = Done r /\
    sink_of cfg = match r with Ok s => Some s | Err _ => None end.
Proof.
  assert (Hp : (if negb (String.eqb (tr_Prefix (sk_Transforms cfg)) "") then trim "." (tr_Prefix (sk_Transforms cfg)) else "") =
    trim "." (tr_Prefix (sk_Transforms cfg))) by (by destruct (String.eqb_spec (tr_Prefix (sk_Transforms cfg)) "") as [->|]).
  unfold missing_port, NewWavefrontSink, make_client, sink_of, wanted_client. rewrite Hp. clear Hp.
  destruct (sk_TestMode cfg); cbn [negb andb]; [by eexists|].
  destruct (String.eqb (sk_ProxyAddress cfg) ""); cbn [negb andb].
  - destruct (String.eqb (sk_Server cfg) ""); cbn [negb andb]; [by eexists|].
    destruct (String.eqb (sk_Token cfg) ""); cbn [negb andb]; [by eexists|]. cbn [available mbind option_bind].
    destruct (NewSender _); cbn; by eexists.
  - pose proof (split_on_first ":" (sk_ProxyAddress cfg)) as H. destruct (split_first ":" (sk_ProxyAddress cfg)) as [a [b|]]; rewrite H; [|done].
    pose proof (split_on_first ":" b) as Hb. destruct (split_first ":" b) as [p [q|]]; rewrite Hb;
      (destruct (Atoi p) as [port|]; [|by eexists]); cbn [fmap option_fmap option_map mbind option_bind available];
      destruct (NewSender _); cbn; by eexists.
Qed.
End build.

(** Making the sinks.  A configuration asks for the test client, else for
    the proxy at its address, else for the server with its token; the sinks are
    those of the configurations whose client can be made, in order, each with
    the cluster's name or the default, the prefix without outer dots and the
    tags and filters of its section; without any the process exits.  One
    proxy address without a port makes the whole start-up panic. *)
Theorem BuildAll_spec (NewSender : client -> result unit) (glob_compile : string -> option Glob)
    (visit : tagmap -> list (string * string)) (cfgs : list WavefrontSinkConfig) :
  BuildAll NewSender glob_compile visit cfgs =
    if existsb missing_port cfgs then Panic "index out of range"
    else match omap (sink_of NewSender glob_compile visit) cfgs with
         | [] => Fatal "No available sink to use"
         | l => Done l
         end.
Proof.
  unfold BuildAll.
  assert (H : build_sinks NewSender glob_compile visit cfgs =
    if existsb missing_port cfgs then Panic "index out of range"
    else Done (omap (sink_of NewSender glob_compile visit) cfgs)).
  { induction cfgs as [|cfg cfgs IH]; [done|]. cbn [build_sinks existsb omap list_omap].
    pose proof (NewWavefrontSink_eq NewSender glob_compile visit cfg) as H. destruct (missing_port cfg); cbn [orb].
    - by rewrite H.
    - destruct H as (r & -> & ->). rewrite IH. cbn [mbind outcome_bind]. destruct (existsb missing_port cfgs); [done|].
      cbn. by destruct r. }
  rewrite H. destruct (existsb missing_port cfgs); [done|]. cbn. by destruct (omap _ cfgs).
Qed.

(** The decision of the watcher from everything it has seen. *)
Definition is_change (seen : list (result Z)) (stat : result Z) : bool :=
  match stat with
  | Err _ => false
  | Ok t => existsb is_ok seen && forallb (fun s => match s with Ok u => (u <? t)%Z | Err _ => true end) seen
  end.
Fixpoint changes (seen stats : list (result Z)) : list bool :=
  match stats with [] => [] | s :: stats' => is_change seen s :: changes (seen ++ [s]) stats' end.

(** What the watcher remembers of the files it has seen. *)
Definition remembers (seen : list (result Z)) (modTime : option Z) : Prop :=
  existsb is_ok seen = match modTime with Some _ => true | None => false end /\
  forall t, forallb (fun s => match s with Ok u => (u <? t)%Z | Err _ => true end) seen =
    match modTime with Some m => (m <? t)%Z | None => true end.

Lemma Watch_changes seen modTime stats :
  remembers seen modTime -> Watch (match modTime with Some _ => false | None => true end) modTime stats = changes seen stats.
Proof.
  revert seen modTime; induction stats as [|s stats IH]; intros seen modTime [H1 H2]; [done|]. cbn [Watch changes].
  destruct s as [t|e]; cbn [is_change].
  - rewrite H1, H2. assert (Hnew : forall m, modTime = m -> match m with Some m => (m <? t)%Z | None => true end = true ->
      remembers (seen ++ [Ok t]) (Some t)).
    { intros m <- Hm. split; [rewrite existsb_app; cbn; by rewrite orb_true_r|]. intros t'. rewrite forallb_app, H2. cbn.
      rewrite andb_true_r. destruct modTime as [m|]; [|done]. apply Z.ltb_lt in Hm.
      destruct (Z.ltb_spec m t'), (Z.ltb_spec t t'); try done; lia. }
    destruct modTime as [m|]; cbn [andb negb].
    + destruct (Z.ltb_spec m t) as [Hlt|Hge].
      * f_equal. apply (IH _ (Some t)). by apply (Hnew (Some m) eq_refl), Z.ltb_lt.
      * f_equal. apply (IH _ (Some m)). split; [rewrite existsb_app, H1; done|]. intros t'. rewrite forallb_app, H2. cbn.
        rewrite andb_true_r. destruct (Z.ltb_spec m t'), (Z.ltb_spec t t'); try done; lia.
    + f_equal. apply (IH _ (Some t)). by apply (Hnew None).
  - f_equal. apply IH. split; [rewrite existsb_app, H1; cbn; by rewrite orb_false_r|]. intros t'.
    rewrite forallb_app, H2. cbn. by rewrite andb_true_r.
Qed.

(** C25: the file watcher, which keeps one time and a flag, decides as a watcher
    with full memory would: the listener is called at a tick exactly when the
    file can be read, it could be read at an earlier tick and it has changed
    since every earlier tick.  So a change between the start-up, when the file
    was loaded, and the first tick a minute later is not noticed. *)
Theorem Watch_spec (stats : list (result Z)) : Watch true None stats = changes [] stats.
Proof. by apply (Watch_changes [] None). Qed.
