(* ===== verification/Pipeline.v ===== *)
(** The chain of the namespace, node and cluster aggregators, in the order in
    which cmd/wavefront-collector/main.go (createDataProcessorsOrDie) runs
    them, and what the cluster's entry says about the pods and containers of
    the batch.  The aggregators themselves are those of Aggregators.v. *)

From S2P Require Import Prelude GoFloat Metrics MetricTable Aggregators.

(** Each loop of the three visits the batch in an order of its own. *)
Definition aggregators (visit : nat -> Sets -> list string) (sets : Sets) : result Sets :=
  sets1 ← Process (NewNamespaceAggregator metricsToAggregate) [visit 0 sets; visit 1 sets] sets;
  sets2 ← Process (NewNodeAggregator metricsToAggregateForNode) [visit 2 sets1; visit 3 sets1] sets1;
  Process (NewClusterAggregator metricsToAggregate) [visit 4 sets2; visit 5 sets2] sets2.

(** ** What an aggregator keeps

    The entries of a batch keep all but their values, and the new ones are
    groups of some set. *)
Section grown.
Context (key : Set_ -> option string) (new : Set_ -> option Set_).

Record grown (sets sets' : Sets) : Prop := {
  grown_kept k s : sets !! k = Some s -> exists f, sets' !! k = Some (with_Values f s);
  grown_new k s' : sets' !! k = Some s' -> sets !! k = None ->
    exists s d f, key s = Some k /\ new s = Some d /\ s' = with_Values f d;
}.

Lemma with_Values_id (s : Set_) : with_Values id s = s.
Proof. by destruct s. Qed.

Lemma grown_same sets : grown sets sets.
Proof.
  split; [|intros; congruence]. intros k s Hk. exists id. by rewrite with_Values_id.
Qed.

Lemma grown_compose sets1 sets2 sets3 : grown sets1 sets2 -> grown sets2 sets3 -> grown sets1 sets3.
Proof.
  intros [Hk1 Hn1] [Hk2 Hn2]. split.
  - intros k s [f H1]%Hk1. apply Hk2 in H1 as [f' H2]. exists (fun v => f' (f v)). exact H2.
  - intros k s3 H3 H1. destruct (sets2 !! k) as [s2|] eqn:H2; [|by eapply Hn2].
    destruct (Hn1 _ _ H2 H1) as (s & d & f & ? & ? & ->).
    destruct (Hk2 _ _ H2) as [f' H3']. exists s, d, (fun v => f' (f v)). split_and!; [done|done|].
    rewrite H3 in H3'. by injection H3' as ->.
Qed.
End grown.

Lemma process_step_grown spec `{G : !Grouping spec} sets k sets' :
  process_step spec sets k = Ok sets' -> grown (grp_key (spec := spec)) (grp_new (spec := spec)) sets sets'.
Proof.
  unfold process_step.
  destruct (sets !! k) as [s|] eqn:Hk; [|intros [= <-]; apply grown_same].
  destruct (IsPartOfGroup spec s); cbn; [|intros [= <-]; apply grown_same].
  rewrite grp_group. destruct (grp_key s) as [g|] eqn:Hg; [|intros [= <-]; apply grown_same].
  destruct (match sets !! g with Some gs => Some gs | None => grp_new s end) as [gs|] eqn:Egs;
    [|intros [= <-]; apply grown_same].
  destruct (aggregate _ _ _) as [x|] eqn:Ea; cbn; [|done]. intros [= <-].
  destruct (aggregate_labels _ _ _ _ Ea) as [f ->].
  destruct (aggregateCount_labels s gs (ResourceCountMetric spec)) as [f' ->].
  split.
  - intros k' s' Hk'. destruct (decide (k' = g)) as [->|Hne].
    + rewrite Hk' in Egs. injection Egs as ->. rewrite lookup_insert_eq. by exists (fun v => f (f' v)).
    + rewrite lookup_insert_ne by done. exists id. by rewrite with_Values_id.
  - intros k' s' Hk' Hnone. destruct (decide (k' = g)) as [->|Hne].
    + rewrite Hnone in Egs. rewrite lookup_insert_eq in Hk'. injection Hk' as <-.
      by exists s, gs, (fun v => f (f' v)).
    + rewrite lookup_insert_ne in Hk' by done. congruence.
Qed.

Lemma process_spec_grown spec `{G : !Grouping spec} visits sets sets' :
  process_spec spec visits sets = Ok sets' ->
  grown (grp_key (spec := spec)) (grp_new (spec := spec)) sets sets'.
Proof.
  apply (foldM_inv _ (grown _ _ sets)); [|apply grown_same].
  intros s k s' _ Hg H. eapply grown_compose; [done|by eapply process_step_grown].
Qed.

Section grown_facts.
Context {key : Set_ -> option string} {new : Set_ -> option Set_} {sets sets' : Sets}
  (Hg : grown key new sets sets').

Lemma grown_label k s' : sets' !! k = Some s' ->
  (exists s, sets !! k = Some s /\ Labels s' = Labels s) \/
  (sets !! k = None /\ exists s d, key s = Some k /\ new s = Some d /\ Labels s' = Labels d).
Proof.
  intros Hk'. destruct (sets !! k) as [s|] eqn:Hk.
  - left. exists s. split; [done|]. destruct (grown_kept _ _ _ _ Hg k s Hk) as [f Hf].
    rewrite Hk' in Hf. by injection Hf as ->.
  - right. split; [done|]. destruct (grown_new _ _ _ _ Hg k s' Hk' Hk) as (s & d & f & ? & ? & ->). by exists s, d.
Qed.

Lemma grown_none k : sets !! k = None -> (forall s, key s <> Some k) -> sets' !! k = None.
Proof.
  intros Hk Hkey. destruct (sets' !! k) as [s'|] eqn:E; [|done].
  destruct (grown_new _ _ _ _ Hg k s' E Hk) as (s & _ & _ & Hs & _). by destruct (Hkey s).
Qed.
End grown_facts.

(** ** The batch before the aggregators *)

(** Sources and enrichers make no namespace and no cluster sets, and what
    they put under the key of a set's node is a node. *)
Record scraped (sets : Sets) : Prop := {
  scraped_types k s : sets !! k = Some s -> isType MetricSetTypeNamespace s = false;
  scraped_namespaces k s g : sets !! k = Some s -> namespace_key s = Some g -> sets !! g = None;
  scraped_cluster : sets !! ClusterKey = None;
  scraped_nodes : groups_typed node_key MetricSetTypeNode sets;
}.

Definition namespace_of (s : Set_) : string := get_str (Labels s) (Key LabelNamespaceName).
Definition namespaced (s : Set_) : bool := bool_decide (is_Some (Labels s !! Key LabelNamespaceName)).
Definition pods_of (sets : Sets) : list Set_ := select sets (fun s => isAggregatablePod s && namespaced s).
Definition containers_of (sets : Sets) : list Set_ :=
  select sets (fun s => isAggregatablePodContainer s && namespaced s).
Definition namespaces_of (l : list Set_) : list string := remove_dups (map namespace_of l).

(** The metrics the three aggregators write together. *)
Definition all_metrics : list string := aggregated_metrics (metricsToAggregate ++ metricsToAggregateForNode).

Lemma in_namespace_spec name s : in_namespace name s = true <-> namespaced s = true /\ namespace_of s = name.
Proof.
  unfold in_namespace, namespaced, namespace_of, get_str. rewrite !bool_decide_eq_true.
  destruct (Labels s !! Key LabelNamespaceName) as [n|]; cbn; [|by split; [|intros [[] _]]].
  split; [intros [= ->]; by split|by intros [_ ->]].
Qed.

Lemma select_elem sets p s : s ∈ select sets p <-> exists k, sets !! k = Some s /\ p s = true.
Proof.
  unfold select. rewrite list_elem_of_omap. split.
  - intros (k & _ & H). destruct (sets !! k) as [x|] eqn:E; [|done]. cbn in H.
    destruct (p x) eqn:P; [|done]. injection H as ->. by exists k.
  - intros (k & Hk & P). exists k. split; [apply sorted_keys_elem; by eexists|].
    rewrite Hk. cbn. by rewrite P.
Qed.

(** Selecting by a test and a namespace is filtering by the namespace. *)
Lemma select_namespace sets p name :
  select sets (fun s => p s && in_namespace name s) =
  filter (fun s => namespace_of s = name) (select sets (fun s => p s && namespaced s)).
Proof.
  unfold select. induction (sorted_keys sets) as [|k l IH]; [done|]. cbn [omap list_omap].
  destruct (sets !! k) as [s|]; cbn; [|exact IH]. destruct (p s); cbn; [|exact IH].
  destruct (in_namespace name s) eqn:E.
  - apply in_namespace_spec in E as [-> Hn]. rewrite filter_cons, decide_True by done. by rewrite IH.
  - destruct (namespaced s) eqn:N; [|exact IH]. rewrite filter_cons, decide_False; [exact IH|].
    intros Hn. assert (in_namespace name s = true); [by apply in_namespace_spec|congruence].
Qed.

(** Selected sets, listed by their keys. *)
Lemma select_keys sets p (ks : list string) :
  NoDup ks -> (forall k s, sets !! k = Some s -> p s = true <-> k ∈ ks) ->
  select sets p ≡ₚ omap (fun k => sets !! k) ks.
Proof.
  intros Hnd Hks.
  assert (select sets p = omap (fun k => sets !! k) (filter (fun k => k ∈ ks) (sorted_keys sets))) as ->.
  { unfold select. induction (sorted_keys sets) as [|k l IH]; [done|].
    rewrite filter_cons. destruct (sets !! k) as [s|] eqn:E.
    - specialize (Hks k s E). cbn [omap list_omap]. rewrite E. cbn. destruct (p s) eqn:P.
      + rewrite decide_True by tauto. cbn [omap list_omap]. by rewrite E, IH.
      + rewrite decide_False by (intros ?; by assert (false = true) by tauto). exact IH.
    - cbn [omap list_omap]. rewrite E. cbn. rewrite IH. case_decide; [|done]. cbn. by rewrite E. }
  assert (omap (fun k => sets !! k) ks = omap (fun k => sets !! k) (filter (fun k => is_Some (sets !! k)) ks)) as ->.
  { clear. induction ks as [|k l IH]; [done|]. rewrite filter_cons. case_decide as H.
    - cbn [omap list_omap]. by rewrite IH.
    - cbn [omap list_omap]. destruct (sets !! k); [by destruct H; eexists|exact IH]. }
  apply omap_Permutation, NoDup_Permutation; [apply NoDup_filter, sorted_keys_NoDup|by apply NoDup_filter|].
  intros k. rewrite !list_elem_of_filter, sorted_keys_elem. tauto.
Qed.

(** ** The namespaces a batch gets *)

Section stage1.
Context (sets sets1 : Sets) (Hs : scraped sets) (Hg : grown namespace_key namespace_new sets sets1).

Lemma stage1_typed k s : sets1 !! k = Some s ->
  (isType MetricSetTypeNamespace s = true <-> sets !! k = None /\ exists name, k = NamespaceKey name).
Proof.
  intros Hk. destruct (grown_label Hg k s Hk) as [(s0 & H0 & Hl)|(Hnone & s0 & d & Hkey & Hnew & Hl)].
  - unfold isType. rewrite Hl. fold (isType MetricSetTypeNamespace s0). rewrite (scraped_types _ Hs k s0 H0).
    split; [done|]. intros [? _]. congruence.
  - unfold namespace_key, namespace_new in *. destruct (Labels s0 !! Key LabelNamespaceName) as [n|]; [|done].
    injection Hkey as <-. injection Hnew as <-. unfold isType. rewrite Hl.
    split; [by split; [|exists n]|done].
Qed.

Lemma stage1_cluster : sets1 !! ClusterKey = None.
Proof.
  apply (grown_none Hg); [apply scraped_cluster; done|]. intros s. unfold namespace_key.
  by destruct (Labels s !! _).
Qed.

Lemma stage1_nodes k s : sets1 !! k = Some s -> node_key s <> None ->
  exists s0, sets !! k = Some s0 /\ Labels s = Labels s0.
Proof.
  intros Hk Hnode. destruct (grown_label Hg k s Hk) as [?|(Hnone & s0 & d & Hkey & Hnew & Hl)]; [done|].
  destruct Hnode. unfold node_key. rewrite Hl. unfold namespace_new in Hnew.
  destruct (Labels s0 !! Key LabelNamespaceName); [|done]. by injection Hnew as <-.
Qed.

Lemma stage1_node_types : groups_typed node_key MetricSetTypeNode sets1.
Proof.
  intros k s g gs Hk Hg0 Hgs.
  destruct (stage1_nodes k s Hk ltac:(congruence)) as (s0 & H0 & Hl).
  destruct (grown_label Hg _ _ Hgs) as [(gs0 & Hgs0 & ->)|(_ & s1 & d & Hkey & _)].
  - apply (scraped_nodes _ Hs k s0 g gs0 H0); [|done]. unfold node_key in *. by rewrite <- Hl.
  - unfold namespace_key in Hkey. unfold node_key in Hg0. repeat case_match; naive_solver.
Qed.
End stage1.

(** ** The three stages *)

Lemma typed_groups_not spec `{G : !Grouping spec} (kind : Set_ -> bool) sets type :
  groups_typed (grp_key (spec := spec)) type sets ->
  (forall s, get_str (Labels s) (Key LabelMetricSetType) = type -> kind s = false) ->
  groups_not spec kind sets.
Proof. intros Hty Hkind k s g gs Hk _ Hkey Hgs. apply Hkind. by apply (Hty k s g gs). Qed.

Lemma all_metrics_namespace : aggregated_metrics metricsToAggregate ⊆ all_metrics.
Proof. by apply (bool_decide_unpack _). Qed.
Lemma all_metrics_node : aggregated_metrics metricsToAggregateForNode ⊆ all_metrics.
Proof. by apply (bool_decide_unpack _). Qed.

Abbreviation ns_spec1 := (pod_spec metricsToAggregate namespaceGroup).
Abbreviation ns_spec2 := (container_spec namespaceGroup).
Abbreviation namespace_report :=
  (group_report (pod_spec metricsToAggregate namespaceGroup) (container_spec namespaceGroup) true).

Lemma namespace_stage v1 v2 sets :
  scraped sets -> batch_ints all_metrics sets -> valid_visits sets v1 -> valid_visits sets v2 ->
  exists sets1, Process (NewNamespaceAggregator metricsToAggregate) [v1; v2] sets = Ok sets1 /\
    batch_ints all_metrics sets1 /\ grown namespace_key namespace_new sets sets1 /\
    forall name, sets !! NamespaceKey name = None -> namespace_report None
      (filter (fun s => namespace_of s = name) (pods_of sets))
      (filter (fun s => namespace_of s = name) (containers_of sets)) (sets1 !! NamespaceKey name).
Proof.
  intros Hs Hints Hv1 Hv2.
  assert (Hty : groups_typed namespace_key MetricSetTypeNamespace sets).
  { intros k s g gs Hk Hkey Hgs. by rewrite (scraped_namespaces _ Hs k s g Hk Hkey) in Hgs. }
  assert (Hnot : forall b, b <> MetricSetTypeNamespace ->
            groups_not ns_spec1 (isType b) sets /\ groups_not ns_spec2 (isType b) sets).
  { intros b Hb. split; apply (typed_groups_not _ _ _ MetricSetTypeNamespace);
      try done; intros s E; by apply (isType_other _ _ _ E). }
  destruct (pair_report ns_spec1 ns_spec2 (namespace_new_kind metricsToAggregate)
    true eq_refl eq_refl eq_refl ltac:(by apply (bool_decide_unpack _))
    all_metrics "namespace" v1 v2 sets)
    as (mid & sets1 & H1 & H2 & HP & Hints' & _ & Hrep);
    [exact all_metrics_namespace|by apply (Hnot MetricSetTypePod)|by apply (Hnot MetricSetTypePodContainer)
    |by apply (Hnot MetricSetTypePodContainer)|done|done|done|].
  exists sets1. split_and!; [exact HP|done| |].
  - eapply grown_compose; [exact (process_spec_grown _ _ _ _ H1)|exact (process_spec_grown _ _ _ _ H2)].
  - intros name Hnone. specialize (Hrep (NamespaceKey name)). rewrite Hnone in Hrep.
    rewrite !group_members_select in Hrep. unfold pods_of, containers_of. rewrite <- !select_namespace.
    rewrite (select_ext sets _ (fun s => isAggregatablePod s && in_namespace name s)) in Hrep
      by (intros s; cbn; by rewrite <- namespace_key_spec).
    rewrite (select_ext sets (fun s => IsPartOfGroup (container_spec _) s && _)
      (fun s => isAggregatablePodContainer s && in_namespace name s)) in Hrep
      by (intros s; cbn; by rewrite <- namespace_key_spec).
    exact Hrep.
Qed.

Lemma node_grown_typed sets1 mid :
  grown node_key (fun _ => None) sets1 mid -> groups_typed node_key MetricSetTypeNode sets1 ->
  groups_typed node_key MetricSetTypeNode mid.
Proof.
  intros Hg Hty k s g gs Hk Hkey Hgs.
  destruct (grown_label Hg _ _ Hk) as [(s0 & H0 & Hl)|(_ & s0 & d & _ & ? & _)]; [|done].
  destruct (grown_label Hg _ _ Hgs) as [(gs0 & Hgs0 & Hgl)|(_ & ? & d & _ & ? & _)]; [|done].
  rewrite Hgl. apply (Hty k s0 g gs0); [done| |done]. unfold node_key in *. by rewrite <- Hl.
Qed.

Lemma node_stage v1 v2 sets1 :
  groups_typed node_key MetricSetTypeNode sets1 -> batch_ints all_metrics sets1 ->
  valid_visits sets1 v1 -> valid_visits sets1 v2 ->
  exists sets2, Process (NewNodeAggregator metricsToAggregateForNode) [v1; v2] sets1 = Ok sets2 /\
    batch_ints all_metrics sets2 /\ grown node_key (fun _ => None) sets1 sets2 /\
    forall k s, isType MetricSetTypeNamespace s = true -> sets2 !! k = Some s <-> sets1 !! k = Some s.
Proof.
  intros Hty Hints Hv1 Hv2. set (sp1 := pod_spec metricsToAggregateForNode nodeGroup).
  set (sp2 := container_spec nodeGroup).
  assert (Hnot : forall m b, groups_typed node_key MetricSetTypeNode m -> b <> MetricSetTypeNode ->
            groups_not sp1 (isType b) m /\ groups_not sp2 (isType b) m).
  { intros m b Hm Hb. split; apply (typed_groups_not _ _ _ MetricSetTypeNode);
      try done; intros s E; by apply (isType_other _ _ _ E). }
  destruct (pair_report sp1 sp2 (node_new_kind metricsToAggregateForNode)
    false eq_refl eq_refl eq_refl ltac:(by apply (bool_decide_unpack _))
    all_metrics "node" v1 v2 sets1)
    as (mid & sets2 & H1 & H2 & HP & Hints' & Hsep & _);
    [exact all_metrics_node|by apply (Hnot _ MetricSetTypePod)|by apply (Hnot _ MetricSetTypePodContainer)
    |by apply (Hnot _ MetricSetTypePodContainer)|done|done|done|].
  pose proof (process_spec_grown _ _ _ _ H1 : grown node_key (fun _ => None) _ _) as G1.
  pose proof (process_spec_grown _ _ _ _ H2 : grown node_key (fun _ => None) _ _) as G2.
  exists sets2. split_and!; [exact HP|done|by eapply grown_compose|].
  assert (Hnew1 : forall s d, grp_new (spec := sp1) s = Some d -> isType MetricSetTypeNamespace d = false) by done.
  assert (Hnew2 : forall s d, grp_new (spec := sp2) s = Some d -> isType MetricSetTypeNamespace d = false) by done.
  intros k s Hk.
  rewrite (process_spec_frame sp2 (isType MetricSetTypeNamespace) (fun _ _ => eq_refl)
    Hnew2 v2 mid sets2 Hsep ltac:(apply Hnot; [by eapply node_grown_typed|done]) H2 k s Hk).
  apply (process_spec_frame sp1 (isType MetricSetTypeNamespace) (fun _ _ => eq_refl)
    Hnew1 v1 sets1 mid ltac:(by apply (Hnot _ MetricSetTypePod)) ltac:(by apply Hnot) H1 k s Hk).
Qed.

Lemma cluster_stage v1 v2 sets2 :
  sets2 !! ClusterKey = None -> batch_ints all_metrics sets2 ->
  valid_visits sets2 v1 -> valid_visits sets2 v2 ->
  exists sets', Process (NewClusterAggregator metricsToAggregate) [v1; v2] sets2 = Ok sets' /\
    let namespaces := select sets2 (isType MetricSetTypeNamespace) in
    group_report (cluster_pod_spec metricsToAggregate) cluster_container_spec true
      None namespaces namespaces (sets' !! ClusterKey).
Proof.
  intros Hnone Hints Hv1 Hv2.
  destruct (pair_report (cluster_pod_spec metricsToAggregate) cluster_container_spec
    (cluster_new_kind metricsToAggregate)
    true eq_refl eq_refl eq_refl ltac:(by apply (bool_decide_unpack _))
    all_metrics "cluster" v1 v2 sets2)
    as (_ & sets' & _ & _ & HP & _ & _ & Hrep); [exact all_metrics_namespace| | | |done|done|done|].
  1-3: intros k s g gs _ _ [= <-] Hgs; congruence.
  exists sets'. split; [exact HP|]. specialize (Hrep ClusterKey).
  rewrite !group_members_select, Hnone in Hrep.
  rewrite (select_ext sets2 _ (isType MetricSetTypeNamespace)) in Hrep
    by (intros s; by rewrite andb_true_r).
  rewrite (select_ext sets2 (fun s => IsPartOfGroup cluster_container_spec s && _)
    (isType MetricSetTypeNamespace)) in Hrep by (intros s; by rewrite andb_true_r).
  exact Hrep.
Qed.

(** ** From the namespaces back to the pods *)

(** The namespaces of [l'] that have nothing in [l]. *)
Definition lacking (l l' : list Set_) : list string := list_difference (namespaces_of l') (namespaces_of l).

Lemma namespaces_of_elem l name : name ∈ namespaces_of l <-> filter (fun s => namespace_of s = name) l <> [].
Proof.
  unfold namespaces_of. rewrite elem_of_remove_dups, list_elem_of_fmap. split.
  - intros (s & -> & Hs) Hnil.
    assert (s ∈ filter (fun x => namespace_of x = namespace_of s) l) as Hin by by apply list_elem_of_filter.
    rewrite Hnil in Hin. by apply not_elem_of_nil in Hin.
  - destruct (filter _ l) as [|s f] eqn:E; [done|]. intros _.
    assert (s ∈ filter (fun x => namespace_of x = name) l) as [<- ?]%list_elem_of_filter by (rewrite E; by left).
    by exists s.
Qed.

Section reports.
Context (sets sets1 sets2 : Sets) (Hs : scraped sets) (Hg : grown namespace_key namespace_new sets sets1).
Abbreviation pods := (pods_of sets).
Abbreviation containers := (containers_of sets).
Abbreviation inside name := (filter (fun s => namespace_of s = name)).
Context (Hrep : forall name, sets !! NamespaceKey name = None ->
  namespace_report None (inside name pods) (inside name containers) (sets1 !! NamespaceKey name)).
Context (Hframe : forall k s, isType MetricSetTypeNamespace s = true -> sets2 !! k = Some s <-> sets1 !! k = Some s).

Definition names : list string := remove_dups (namespaces_of pods ++ namespaces_of containers).

Lemma names_elem name : name ∈ names <-> name ∈ namespaces_of pods \/ name ∈ namespaces_of containers.
Proof. unfold names. by rewrite elem_of_remove_dups, elem_of_app. Qed.

(** No namespace of a member had an entry. *)
Lemma names_fresh name : name ∈ names -> sets !! NamespaceKey name = None.
Proof.
  intros Hin%names_elem.
  assert (exists k s, sets !! k = Some s /\ namespaced s = true /\ namespace_of s = name) as (k & s & Hk & Hn & <-).
  { unfold namespaces_of, pods_of, containers_of in Hin. rewrite !elem_of_remove_dups, !list_elem_of_fmap in Hin.
    destruct Hin as [(s & -> & (k & Hk & [_ Hn]%andb_prop)%select_elem)|(s & -> & (k & Hk & [_ Hn]%andb_prop)%select_elem)];
      by exists k, s. }
  apply (scraped_namespaces _ Hs k s _ Hk). unfold namespace_key, namespaced, namespace_of, get_str in *.
  apply bool_decide_eq_true in Hn as [n ->]. done.
Qed.

Lemma names_entry name :
  sets !! NamespaceKey name = None -> is_Some (sets1 !! NamespaceKey name) <-> name ∈ names.
Proof.
  intros Hnone. rewrite names_elem, !namespaces_of_elem, (report_exists _ _ _ _ _ _ _ (Hrep name Hnone)).
  split; [by intros [[]|[_ ?]]|by right].
Qed.

Lemma names_sets2 name : name ∈ names -> exists s,
  sets1 !! NamespaceKey name = Some s /\ sets2 !! NamespaceKey name = Some s /\ isType MetricSetTypeNamespace s = true.
Proof.
  intros Hin. pose proof (names_fresh name Hin) as Hnone.
  destruct (proj2 (names_entry name Hnone) Hin) as [s E]. exists s.
  assert (isType MetricSetTypeNamespace s = true) as Hty
    by (apply (stage1_typed sets sets1 Hs Hg _ _ E); by split; [|exists name]).
  split_and!; [done| |done]. by apply Hframe.
Qed.

Lemma namespaces_perm :
  select sets2 (isType MetricSetTypeNamespace) ≡ₚ omap (fun k => sets2 !! k) (map NamespaceKey names).
Proof.
  apply select_keys.
  - apply NoDup_fmap; [|apply NoDup_remove_dups]. intros a b H. by apply str_app_inj_l in H.
  - intros k s Hk. rewrite list_elem_of_fmap. split.
    + intros Hty. apply Hframe in Hk; [|done].
      destruct (proj1 (stage1_typed sets sets1 Hs Hg _ _ Hk) Hty) as [Hnone [name ->]].
      exists name. split; [done|]. apply names_entry; [done|by eexists].
    + intros (name & -> & Hin). destruct (names_sets2 name Hin) as (s' & _ & E & Hty). congruence.
Qed.

Lemma zsum_namespaces (f : Set_ -> Z) :
  zsum f (select sets2 (isType MetricSetTypeNamespace)) =
  zsum (fun name => match sets1 !! NamespaceKey name with Some s => f s | None => 0%Z end) names.
Proof.
  rewrite namespaces_perm, zsum_omap, zsum_map.
  apply zsum_ext. intros name Hin. by destruct (names_sets2 name Hin) as (s & -> & -> & _).
Qed.

Lemma namespaces_exist :
  select sets2 (isType MetricSetTypeNamespace) <> [] <-> pods <> [] \/ containers <> [].
Proof.
  assert (Hnames : names = [] <-> pods = [] /\ containers = []).
  { split.
    - intros E. assert (Hno : forall name, name ∉ names) by (rewrite E; intros ?; apply not_elem_of_nil).
      split; [destruct pods as [|s l] eqn:El|destruct containers as [|s l] eqn:El]; try done;
        destruct (Hno (namespace_of s)); apply names_elem; rewrite !namespaces_of_elem, El;
        [left|right]; rewrite filter_cons, decide_True by done; done.
    - intros [E1 E2]. unfold names. by rewrite E1, E2. }
  assert (Hsel : select sets2 (isType MetricSetTypeNamespace) = [] <-> names = []).
  { split; intros E; pose proof namespaces_perm as Hp; rewrite E in Hp.
    - destruct names as [|name l] eqn:En; [done|]. exfalso.
      assert (Hin : name ∈ names) by (rewrite En; by left).
      destruct (names_sets2 name Hin) as (s & _ & Hn & _).
      apply Permutation_nil_l in Hp. cbn in Hp. by rewrite Hn in Hp.
    - by apply Permutation_nil_r in Hp. }
  destruct pods, containers; naive_solver.
Qed.

Lemma namespace_total (f h : Set_ -> Z) (extra : string -> Z) l :
  (forall name, name ∈ namespaces_of l -> name ∈ names) ->
  (forall name s, name ∈ names -> sets1 !! NamespaceKey name = Some s ->
     f s = wrap64 (zsum h (inside name l) + extra name)) ->
  wrap64 (zsum f (select sets2 (isType MetricSetTypeNamespace))) = wrap64 (zsum h l + zsum extra names).
Proof.
  intros Hl Hf. rewrite zsum_namespaces.
  rewrite (zsum_ext _ (fun name => wrap64 (zsum h (inside name l) + extra name)%Z) names).
  - rewrite (zsum_wrap (fun name => (zsum h (inside name l) + extra name)%Z) names), zsum_add.
    by rewrite (zsum_group h namespace_of l names);
      [|apply NoDup_remove_dups|intros s ?; apply Hl, elem_of_remove_dups, list_elem_of_fmap; by exists s].
  - intros name Hin. destruct (names_sets2 name Hin) as (s & E & _ & _). rewrite E. by apply Hf.
Qed.

(** A namespace's count, for the cluster: that of its members, or one. *)
Lemma entry_count (c : string) l name s :
  sets1 !! NamespaceKey name = Some s ->
  int_at c s = wrap64 (0 + zsum (src_count c) (inside name l)) ->
  (inside name l <> [] -> is_Some (opt_value c (Some s))) -> (inside name l = [] -> opt_value c (Some s) = None) ->
  src_count c s = wrap64 (zsum (src_count c) (inside name l) + if decide (name ∉ namespaces_of l) then 1 else 0).
Proof.
  intros Hk Hint Hsome Hnone. unfold src_count at 1. cbn in Hsome, Hnone.
  destruct (decide (name ∉ namespaces_of l)) as [E|E]; rewrite namespaces_of_elem in E.
  - destruct (decide (inside name l = [])) as [Hnil|]; [|done]. by rewrite (Hnone Hnil), Hnil.
  - destruct (decide (inside name l = [])) as [Hnil|Hne]; [by destruct E; intros []|].
    rewrite Z.add_0_r. unfold int_at in Hint. destruct (Hsome Hne) as [v Hv]. rewrite Hv in *. by rewrite Hint.
Qed.

Lemma count_lacking l l' : (forall name, name ∈ names <-> name ∈ namespaces_of l \/ name ∈ namespaces_of l') ->
  zsum (fun name => if decide (name ∉ namespaces_of l) then 1 else 0)%Z names = Z.of_nat (length (lacking l l')).
Proof.
  intros Hn. rewrite zsum_count. f_equal. apply Permutation_length, NoDup_Permutation.
  - apply NoDup_filter, NoDup_remove_dups.
  - apply NoDup_list_difference, NoDup_remove_dups.
  - intros name. unfold lacking. rewrite list_elem_of_filter, list_elem_of_difference, Hn. tauto.
Qed.

(** What the namespaces say of a count, for the cluster. *)
Lemma namespace_counts (c : string) l l' :
  (forall name, name ∈ names <-> name ∈ namespaces_of l \/ name ∈ namespaces_of l') ->
  (forall name s, name ∈ names -> sets1 !! NamespaceKey name = Some s ->
     int_at c s = wrap64 (0 + zsum (src_count c) (inside name l)) /\
     (inside name l <> [] -> is_Some (opt_value c (Some s))) /\
     (inside name l = [] -> opt_value c (Some s) = None)) ->
  wrap64 (zsum (src_count c) (select sets2 (isType MetricSetTypeNamespace))) =
  wrap64 (zsum (src_count c) l + Z.of_nat (length (lacking l l'))).
Proof.
  intros Hnames Hns. rewrite <- (count_lacking l l' Hnames). apply namespace_total.
  - intros name ?. apply Hnames. by left.
  - intros name s Hin Hname. destruct (Hns name s Hin Hname) as (? & ? & ?). by apply (entry_count c l name s).
Qed.
End reports.

(** ** The cluster *)

(** The three stages of a run: what the namespaces report of the pods and
    containers, that they are still there after the nodes, and what the
    cluster reports of them. *)
Record stages (visit : nat -> Sets -> list string) (sets sets1 sets2 sets' : Sets) : Prop := {
  st_run : aggregators visit sets = Ok sets';
  st_grown : grown namespace_key namespace_new sets sets1;
  st_namespaces name : sets !! NamespaceKey name = None -> namespace_report None
    (filter (fun s => namespace_of s = name) (pods_of sets))
    (filter (fun s => namespace_of s = name) (containers_of sets)) (sets1 !! NamespaceKey name);
  st_nodes k s : isType MetricSetTypeNamespace s = true -> sets2 !! k = Some s <-> sets1 !! k = Some s;
  st_cluster : group_report (cluster_pod_spec metricsToAggregate) cluster_container_spec true None
    (select sets2 (isType MetricSetTypeNamespace)) (select sets2 (isType MetricSetTypeNamespace)) (sets' !! ClusterKey);
}.

Lemma aggregators_stages visit sets :
  scraped sets -> batch_ints all_metrics sets -> (forall i s, valid_visits s (visit i s)) ->
  exists sets1 sets2 sets', stages visit sets sets1 sets2 sets'.
Proof.
  intros Hs Hints Hv.
  destruct (namespace_stage (visit 0 sets) (visit 1 sets) sets) as (sets1 & P1 & I1 & G1 & R1); [done..|].
  destruct (node_stage (visit 2 sets1) (visit 3 sets1) sets1) as (sets2 & P2 & I2 & G2 & F2);
    [by eapply stage1_node_types|done..|].
  destruct (cluster_stage (visit 4 sets2) (visit 5 sets2) sets2) as (sets' & P3 & R3); [|done..|].
  { apply (grown_none G2); [by eapply stage1_cluster|]. intros s. unfold node_key. by case_match. }
  exists sets1, sets2, sets'. split; try done.
  unfold aggregators. rewrite P1. cbn [mbind result_bind]. rewrite P2. exact P3.
Qed.

(** The cluster exists when there are pods or containers, and sums the pods. *)
Lemma stages_sums visit sets sets1 sets2 sets' :
  scraped sets -> stages visit sets sets1 sets2 sets' ->
  (is_Some (sets' !! ClusterKey) <-> pods_of sets <> [] \/ containers_of sets <> []) /\
  forall n, n ∈ metricsToAggregate -> opt_int n (sets' !! ClusterKey) = wrap64 (zsum (int_at n) (pods_of sets)).
Proof.
  intros Hs [_ G1 R1 F2 R3].
  assert (Hex : is_Some (sets' !! ClusterKey) <-> pods_of sets <> [] \/ containers_of sets <> []).
  { etransitivity; [apply (report_exists _ _ _ _ _ _ _ R3)|].
    etransitivity; [|exact (namespaces_exist sets sets1 sets2 Hs G1 R1 F2)].
    split; [by intros [[]|[_ [?|?]]]|by intros ?; right; split; [|left]]. }
  split; [done|]. intros n Hn. destruct (decide (is_Some (sets' !! ClusterKey))) as [Hc|Hnone].
  2:{ assert (pods_of sets = []) as -> by (destruct (pods_of sets); [done|]; destruct Hnone; by apply Hex; left).
      destruct (sets' !! ClusterKey); [by destruct Hnone; eexists|done]. }
  rewrite (report_sum _ _ _ _ _ _ _ R3 n Hc Hn). cbn [opt_int]. rewrite Z.add_0_l.
  rewrite (namespace_total sets sets1 sets2 Hs G1 R1 F2 _ (int_at n) (fun _ => 0%Z) (pods_of sets)).
  - rewrite (zsum_zero (fun _ => 0%Z)) by done. f_equal; lia.
  - intros name ?. apply names_elem. by left.
  - intros name s Hin Hname. pose proof (report_sum _ _ _ _ _ _ _ (R1 name (names_fresh sets Hs name Hin)) n) as H.
    rewrite Hname in H. cbn [opt_int] in H. rewrite H by done. by rewrite Z.add_0_r.
Qed.

(** C3: the three aggregators one after the other.  On a scraped batch of
    integer metrics, whatever the orders in which their six loops visit it,
    they succeed, and what the cluster's entry says depends on the pods and
    containers alone: it exists when some running pod or some container that
    is not terminated has a namespace, and each of its sums is the 64-bit sum
    over the running pods with a namespace.  Its counts are those of the pods
    and containers plus one for every namespace that has some of the other
    kind and none of that kind: a namespace whose pods all finished but which
    still has a container that is not marked terminated adds a pod that does
    not exist. *)
Theorem cluster_of_pods (visit : nat -> Sets -> list string) (sets : Sets) :
  scraped sets -> batch_ints all_metrics sets -> (forall i s, valid_visits s (visit i s)) ->
  let pods := pods_of sets in
  let containers := containers_of sets in
  exists sets', aggregators visit sets = Ok sets' /\
    let cluster := sets' !! ClusterKey in
    (is_Some cluster <-> pods <> [] \/ containers <> []) /\
    (forall n, n ∈ metricsToAggregate -> opt_int n cluster = wrap64 (zsum (int_at n) pods)) /\
    opt_int (md_Name MetricPodCount) cluster =
      wrap64 (zsum (src_count (md_Name MetricPodCount)) pods + Z.of_nat (length (lacking pods containers))) /\
    opt_int (md_Name MetricPodContainerCount) cluster =
      wrap64 (zsum (src_count (md_Name MetricPodContainerCount)) containers + Z.of_nat (length (lacking containers pods))).
Proof.
  intros Hs Hints Hv pods containers. destruct (aggregators_stages visit sets Hs Hints Hv) as (sets1 & sets2 & sets' & H).
  destruct (stages_sums visit sets sets1 sets2 sets' Hs H) as [Hex Hsum]. destruct H as [HP G1 R1 F2 R3].
  exists sets'. split; [done|]. intros cluster. fold cluster in Hex, Hsum, R3. clearbody cluster. split; [done|].
  split; [done|]. destruct (decide (is_Some cluster)) as [Hc|Hnone].
  2:{ assert (pods = [] /\ containers = []) as [Hp Hn].
      { clear -Hex Hnone. subst pods containers. destruct (pods_of sets); [destruct (containers_of sets); [done|]|];
          destruct Hnone; apply Hex; [by right|by left]. }
      rewrite Hp, Hn. destruct cluster; [by destruct Hnone; eexists|]. done. }
  pose proof (fun name => names_elem sets name) as Hnames. split.
  - etransitivity; [exact (report_count1 _ _ _ _ _ _ _ R3 Hc)|]. cbn [opt_int]. rewrite Z.add_0_l.
    apply (namespace_counts sets sets1 sets2 Hs G1 R1 F2); [exact Hnames|].
    intros name s Hin Hname. pose proof (R1 name (names_fresh sets Hs name Hin)) as H. rewrite Hname in H.
    split_and!; [by apply (report_count1 _ _ _ _ _ _ _ H)|by apply (report_counted1 _ _ _ _ _ _ _ H)|
      by apply (report_uncounted1 _ _ _ _ _ _ _ H)].
  - etransitivity; [exact (report_count2 _ _ _ _ _ _ _ R3 Hc)|]. cbn [opt_int]. rewrite Z.add_0_l.
    apply (namespace_counts sets sets1 sets2 Hs G1 R1 F2); [intros name; rewrite Hnames; tauto|].
    intros name s Hin Hname. pose proof (R1 name (names_fresh sets Hs name Hin)) as H. rewrite Hname in H.
    split_and!; [by apply (report_count2 _ _ _ _ _ _ _ H)|by apply (report_counted2 _ _ _ _ _ _ _ H)|
      by apply (report_uncounted2 _ _ _ _ _ _ _ H)].
Qed.


(** The sample batch of Aggregators.v beside a namespace whose only pod has
    finished and left a container behind. *)
Definition leftover_container : Set_ :=
  set_of ∅ (<[Key LabelNamespaceName := "ns2"]> {[Key LabelMetricSetType := MetricSetTypePodContainer]}).
Definition leftover_batch : Sets := <[PodContainerKey "ns2" "done" "c" := leftover_container]> sample_batch.

Lemma leftover_scraped : scraped leftover_batch.
Proof.
  split; [| |done|].
  - intros k s Hk. unfold leftover_batch, sample_batch in Hk. each_entry; done.
  - intros k s g Hk Hg. unfold leftover_batch, sample_batch in Hk.
    each_entry; cbn in Hg; try discriminate Hg; injection Hg as <-; by vm_compute.
  - intros k s g gs Hk Hg Hgs. unfold leftover_batch, sample_batch in Hk.
    each_entry; cbn in Hg; try discriminate Hg; injection Hg as <-; vm_compute in Hgs;
      injection Hgs as <-; done.
Qed.

Lemma leftover_ints ms : batch_ints ms leftover_batch.
Proof. intros k s Hk n v _ Hv. unfold leftover_batch, sample_batch in Hk. each_entry; cbn in Hv; each_entry; done. Qed.

Lemma sorted_visits (s : Sets) : valid_visits s (sorted_keys s).
Proof. split; [apply sorted_keys_NoDup|]. intros k Hk. by apply sorted_keys_elem. Qed.

(** Two pods run, one container lives on: the cluster reports three pods. *)
Lemma cluster_of_pods_witness :
  exists sets', aggregators (fun _ => sorted_keys) leftover_batch = Ok sets' /\
  opt_int (md_Name MetricCpuRequest) (sets' !! ClusterKey) = 12%Z /\
  length (pods_of leftover_batch) = 2 /\ opt_int (md_Name MetricPodCount) (sets' !! ClusterKey) = 3%Z.
Proof.
  destruct (cluster_of_pods (fun _ => sorted_keys) leftover_batch leftover_scraped (leftover_ints _)
    (fun _ => sorted_visits)) as (sets' & HP & _ & Hsum & Hpods & _).
  exists sets'. split; [exact HP|]. split_and!.
  - rewrite Hsum; [by vm_compute|by apply (bool_decide_unpack _)].
  - by vm_compute.
  - rewrite Hpods. by vm_compute.
Defined.
