(* ===== verification/ClusterTotals.v ===== *)
(** The pod aggregator and then the three aggregators of Pipeline.v, in the
    order in which cmd/wavefront-collector/main.go (createDataProcessorsOrDie)
    runs them: what the cluster's entry says in terms of the containers that
    were scraped. *)

From Stdlib Require Import ZArith Lia.
From S2P Require Import Prelude GoFloat Filters Metrics MetricTable Aggregators PodAggregator Pipeline.

(** The four aggregators; [visits] and [ord] are the orders of the first. *)
Definition all_aggregators (ord : string -> gmap string Value -> list (string * Value)) (visits : list string)
    (visit : nat -> Sets -> list string) (sets : Sets) : result Sets :=
  sets' ← PodAggregator_Process ord visits sets; aggregators visit sets'.

(** ** What the pod aggregator keeps *)

Lemma value_step_values pk pod req mv pod' req' :
  value_step pk (pod, req) mv = Ok (pod', req') -> exists f, pod' = with_Values f pod.
Proof.
  unfold value_step. destruct mv as [n v]. intros H. repeat case_match; try done; injection H as <- _;
    first [by eexists|exists id; by rewrite with_Values_id].
Qed.

Lemma value_loop_values pk l pod req pod' req' :
  foldM (value_step pk) (pod, req) l = Ok (pod', req') -> exists f, pod' = with_Values f pod.
Proof.
  intros H. apply (foldM_inv (value_step pk) (fun st => exists f, st.1 = with_Values f pod)) in H; [done| |].
  - intros [p r] mv [p' r'] _ [f Hf] Hs. cbn in *. apply value_step_values in Hs as [g ->]. subst p. by exists (fun v => g (f v)).
  - exists id. by rewrite with_Values_id.
Qed.

Section frame.
Context (ord : string -> gmap string Value -> list (string * Value)) (sets0 : Sets).

(** The key of the pod of some container. *)
Definition is_pod_key (k : string) : Prop := exists k0 s, sets0 !! k0 = Some s /\ container_pod s = Some k.

Record framed (st : pod_state) : Prop := {
  fr_kept k s : sets0 !! k = Some s -> exists f, pa_sets st !! k = Some (with_Values f s);
  fr_dom k : is_Some (pa_sets st !! k) -> is_Some (sets0 !! k);
  fr_new k p : pa_newPods st !! k = Some p -> sets0 !! k = None /\
    exists k0 s f, sets0 !! k0 = Some s /\ container_pod s = Some k /\ p = with_Values f (podMetricSet (Labels s));
  fr_same k : ~ is_pod_key k -> pa_sets st !! k = sets0 !! k;
}.

Lemma framed_init : framed (MkPodState sets0 ∅ ∅).
Proof.
  split; cbn; [|done|done|done]. intros k s ->. exists id. by rewrite with_Values_id.
Qed.

Lemma container_step_framed st key st' : framed st -> container_step ord st key = Ok st' -> framed st'.
Proof.
  intros [Hk Hd Hn Hs] H. unfold container_step in H.
  destruct (pa_sets st !! key) as [s|] eqn:Es; [|injection H as <-; by split].
  destruct (container_pod s) as [pk|] eqn:Epk; [|injection H as <-; by split].
  destruct (Hd key ltac:(by eexists)) as [s0 Hs0]. destruct (Hk key s0 Hs0) as [f0 Hf0]. rewrite Es in Hf0. injection Hf0 as ->.
  assert (Hpk : is_pod_key pk) by (by exists key, s0).
  destruct (pa_sets st !! pk) as [pod|] eqn:Epod.
  - destruct (foldM _ _ _) as [[pod' req']|] eqn:E; [|done]. injection H as <-. apply value_loop_values in E as [g ->].
    split; cbn.
    + intros k s Hks. destruct (decide (k = pk)) as [->|Hne]; [|by rewrite lookup_insert_ne; [apply Hk|]].
      rewrite lookup_insert_eq. destruct (Hk pk s Hks) as [f Hf]. rewrite Epod in Hf. injection Hf as ->.
      by exists (fun v => g (f v)).
    + intros k [x Hx]. destruct (decide (k = pk)) as [->|Hne]; [by apply Hd; eexists|].
      rewrite lookup_insert_ne in Hx by done. by apply Hd; eexists.
    + exact Hn.
    + intros k Hk'. rewrite lookup_insert_ne; [by apply Hs|]. by intros ->.
  - destruct (foldM _ _ _) as [[pod' req']|] eqn:E; [|done]. injection H as <-. apply value_loop_values in E as [g ->].
    split; cbn; [exact Hk|exact Hd| |exact Hs].
    intros k p. destruct (decide (k = pk)) as [->|Hne]; [|rewrite lookup_insert_ne by done; apply Hn].
    rewrite lookup_insert_eq. intros [= <-]. split.
    + apply eq_None_not_Some. intros [x Hx]. destruct (Hk pk x Hx) as [f Hf]. congruence.
    + destruct (pa_newPods st !! pk) as [p|] eqn:Ep; cbn.
      * destruct (Hn pk p Ep) as (_ & k0 & s1 & f & ? & ? & ->). by exists k0, s1, (fun v => g (f v)).
      * by exists key, s0, g.
Qed.

Lemma PodAggregator_framed visits sets' :
  PodAggregator_Process ord visits sets0 = Ok sets' -> exists st, framed st /\ sets' = copy_into (pa_sets st) (pa_newPods st).
Proof.
  unfold PodAggregator_Process. intros (st & Hst & [= <-])%result_bind_ok. exists st. split; [|done].
  revert Hst. apply (foldM_inv _ framed); [|apply framed_init]. intros s k s' _. apply container_step_framed.
Qed.

(** Existing sets keep all but their values, pods that are missing are made
    from their containers, and what is no pod of a container is unchanged. *)
Record pod_frame (sets' : Sets) : Prop := {
  pf_kept k s : sets0 !! k = Some s -> exists f, sets' !! k = Some (with_Values f s);
  pf_new k p : sets' !! k = Some p -> sets0 !! k = None ->
    exists k0 s f, sets0 !! k0 = Some s /\ container_pod s = Some k /\ p = with_Values f (podMetricSet (Labels s));
  pf_same k : ~ is_pod_key k -> sets' !! k = sets0 !! k;
}.

Lemma PodAggregator_frame visits sets' : PodAggregator_Process ord visits sets0 = Ok sets' -> pod_frame sets'.
Proof.
  intros (st & [Hk Hd Hn Hs] & ->)%PodAggregator_framed. unfold copy_into. split.
  - intros k s Hks. destruct (Hk k s Hks) as [f Hf]. exists f. rewrite lookup_union_r; [done|].
    apply eq_None_not_Some. intros [p Hp]. destruct (Hn k p Hp). congruence.
  - intros k s' Hs' Hnone. apply lookup_union_Some_raw in Hs' as [Hp|[_ Hp]]; [by apply Hn|].
    destruct (Hd k ltac:(by eexists)). congruence.
  - intros k Hk'. rewrite lookup_union_r; [by apply Hs|]. apply eq_None_not_Some. intros [p Hp].
    destruct (Hn k p Hp) as (_ & k0 & s & _ & H1 & H2 & _). apply Hk'. by exists k0, s.
Qed.
End frame.

(** ** The labels of a new pod *)

Lemma populate_lookup (labels : gmap string string) ls (m : gmap string string) k :
  foldl (fun new l => match labels !! Key l with Some val => <[Key l := val]> new | None => new end) m ls !! k =
  if bool_decide (k ∈ Key <$> ls) then match labels !! k with Some v => Some v | None => m !! k end else m !! k.
Proof.
  revert m; induction ls as [|l ls IH]; intros m; [done|]. cbn [foldl]. rewrite IH, fmap_cons.
  assert (E : (match labels !! Key l with Some val => <[Key l := val]> m | None => m end) !! k =
    if bool_decide (k = Key l) then match labels !! k with Some v => Some v | None => m !! k end else m !! k).
  { destruct (decide (k = Key l)) as [->|Hk].
    - rewrite bool_decide_eq_true_2 by done. by destruct (labels !! Key l); rewrite ?lookup_insert_eq.
    - rewrite bool_decide_eq_false_2 by done. by destruct (labels !! Key l); rewrite ?lookup_insert_ne. }
  rewrite E. destruct (decide (k ∈ Key <$> ls)) as [Hin|Hin].
  - rewrite (bool_decide_eq_true_2 _ Hin), (bool_decide_eq_true_2 (k ∈ Key l :: _)) by (by right).
    case_bool_decide; by destruct (labels !! k).
  - rewrite (bool_decide_eq_false_2 _ Hin). apply (f_equal2 (fun (b : bool) x => if b then x else m !! k)); [|done].
    apply bool_decide_ext. rewrite elem_of_cons. tauto.
Qed.

Lemma podMetricSet_lookup labels k :
  Labels (podMetricSet labels) !! k =
  if bool_decide (k ∈ Key <$> LabelsToPopulate)
  then match labels !! k with Some v => Some v | None => ({[Key LabelMetricSetType := MetricSetTypePod]} : gmap string string) !! k end
  else ({[Key LabelMetricSetType := MetricSetTypePod]} : gmap string string) !! k.
Proof. apply populate_lookup. Qed.

Lemma podMetricSet_type labels : get_str (Labels (podMetricSet labels)) (Key LabelMetricSetType) = MetricSetTypePod.
Proof. unfold get_str. rewrite podMetricSet_lookup. by rewrite bool_decide_eq_false_2 by by apply (bool_decide_unpack _). Qed.

Lemma podMetricSet_namespace labels :
  Labels (podMetricSet labels) !! Key LabelNamespaceName = labels !! Key LabelNamespaceName.
Proof.
  rewrite podMetricSet_lookup. rewrite bool_decide_eq_true_2 by by apply (bool_decide_unpack _).
  by destruct (labels !! Key LabelNamespaceName).
Qed.

Lemma podMetricSet_node labels f : node_key (with_Values f (podMetricSet labels)) = None.
Proof.
  unfold node_key. cbn [Labels with_Values]. unfold get_str. rewrite podMetricSet_lookup.
  by rewrite bool_decide_eq_false_2 by by apply (bool_decide_unpack _).
Qed.

(** ** Batches that the enrichers have been through *)

(** A scraped batch whose containers report integer metrics of the names
    [names], none of which is a suffix of another; a set under the key of a
    container's pod is a pod, and those keys are no namespace's. *)
Record enriched (names : list string) (sets : Sets) : Prop := {
  en_scraped : scraped sets;
  en_ints : batch_ints all_metrics sets;
  en_names : all_metrics ⊆ names /\ md_Name MetricPodPhase ∈ names;
  en_suffix : suffix_free names;
  en_values k s n v : sets !! k = Some s -> is_Some (container_pod s) -> Values s !! n = Some v ->
    n ∈ names /\ n <> md_Name MetricPodPhase /\ ValueType v = ValueInt64 /\ in_i64 (IntValue v);
  en_pods k s pk p : sets !! k = Some s -> container_pod s = Some pk -> sets !! pk = Some p -> isType MetricSetTypePod p = true;
  en_apart k s pk k' s' : sets !! k = Some s -> container_pod s = Some pk -> sets !! k' = Some s' -> namespace_key s' <> Some pk;
}.

(** The running pods that have a namespace, by their keys. *)
Definition pod_keys (sets : Sets) : list string :=
  filter (fun k => match sets !! k with Some s => isAggregatablePod s && namespaced s | None => false end = true) (sorted_keys sets).

(** What a pod amounts to: its own value, or the sum of its containers'. *)
Definition pod_total (n : string) (sets : Sets) (k : string) : Z :=
  match value_of n (sets !! k) with
  | Some v => IntValue v
  | None => wrap64 (zsum (int_at n) (containers_in sets k))
  end.

Lemma container_pod_key s pk : container_pod s = Some pk ->
  isType MetricSetTypePodContainer s = true /\ exists ns n, pk = PodKey ns n.
Proof.
  unfold container_pod, isType, get_str. case_bool_decide as E; [|done]. rewrite E. intros H.
  split; [done|]. repeat case_match; try done. injection H as <-. by eexists _, _.
Qed.

Lemma isType_pod_container s : isType MetricSetTypePod s = true -> isType MetricSetTypePodContainer s = false.
Proof. unfold isType. by intros ->%String.eqb_eq. Qed.

Lemma value_of_set m s : value_of m (Some s) = Values s !! m.
Proof. done. Qed.

Section stage0.
Context (names : list string) (sets sets' : Sets) (He : enriched names sets) (Hf : pod_frame sets sets').
(** What PodAggregator.v shows of the values. *)
Context (Hvalues : forall k m, m ∈ names ->
  let M := containers_in sets k in
  let before := value_of m (sets !! k) in
  let after := value_of m (sets' !! k) in
  (m ∈ skippedMetrics -> after = before) /\ (forall v, before = Some v -> after = Some v) /\
  (before = None -> ~ has_metric m M -> after = None) /\
  (before = None -> m ∉ skippedMetrics -> has_metric m M ->
     exists v, after = Some v /\ ValueType v = ValueInt64 /\ IntValue v = wrap64 (zsum (int_at m) M))).

Lemma has_metric_dec m M : has_metric m M \/ ~ has_metric m M.
Proof.
  destruct (decide (Exists (fun s : Set_ => is_Some (Values s !! m)) M)) as [H|H]; rewrite Exists_exists in H; [by left|by right].
Qed.

Lemma stage0_set k s' : sets' !! k = Some s' ->
  (exists s, sets !! k = Some s /\ Labels s' = Labels s /\ LabeledValues s' = LabeledValues s) \/
  (sets !! k = None /\ exists k0 c f, sets !! k0 = Some c /\ container_pod c = Some k /\ s' = with_Values f (podMetricSet (Labels c))).
Proof.
  intros Hk. destruct (sets !! k) as [s|] eqn:E; [left|right].
  - exists s. destruct (pf_kept _ _ Hf k s E) as [f Hf']. rewrite Hk in Hf'. by injection Hf' as ->.
  - split; [done|]. by apply (pf_new _ _ Hf).
Qed.

Lemma stage0_fresh g :
  sets !! g = None -> (forall k s, sets !! k = Some s -> container_pod s <> Some g) -> sets' !! g = None.
Proof.
  intros Hg Hno. destruct (sets' !! g) as [s'|] eqn:E; [|done].
  destruct (pf_new _ _ Hf g s' E Hg) as (k0 & c & _ & Hc & Hpk & _). by destruct (Hno k0 c Hc).
Qed.

Lemma stage0_scraped : scraped sets'.
Proof.
  pose proof (en_scraped _ _ He) as Hs. split.
  - intros k s' Hk. destruct (stage0_set k s' Hk) as [(s & Hsk & Hl & _)|(_ & k0 & c & f & Hc & _ & ->)].
    + unfold isType. rewrite Hl. by apply (scraped_types _ Hs k s).
    + by apply (isType_other _ MetricSetTypePod); [apply podMetricSet_type|].
  - intros k s' g Hk Hg.
    assert (exists k0 s0, sets !! k0 = Some s0 /\ namespace_key s0 = Some g) as (k0 & s0 & Hk0 & Hg0).
    { destruct (stage0_set k s' Hk) as [(s & Hsk & Hl & _)|(_ & k0 & c & f & Hc & _ & ->)].
      - exists k, s. split; [done|]. unfold namespace_key in *. by rewrite <-Hl.
      - exists k0, c. split; [done|]. unfold namespace_key in *. cbn [Labels with_Values] in Hg.
        by rewrite podMetricSet_namespace in Hg. }
    apply stage0_fresh; [by apply (scraped_namespaces _ Hs k0 s0)|]. intros k1 s1 Hk1 Hpk.
    by apply (en_apart _ _ He k1 s1 g k0 s0).
  - apply stage0_fresh; [by apply scraped_cluster|]. intros k s _ (_ & ns & n & E)%container_pod_key.
    by unfold PodKey in E.
  - intros k s' g gs Hk Hg Hgs. destruct (stage0_set k s' Hk) as [(s & Hsk & Hl & _)|(_ & k0 & c & f & _ & _ & ->)].
    2:{ by rewrite podMetricSet_node in Hg. }
    assert (Hg0 : node_key s = Some g) by (unfold node_key in *; by rewrite <-Hl).
    destruct (stage0_set g gs Hgs) as [(s0 & H0 & -> & _)|(_ & k0 & c & f & _ & Hpk & _)].
    + by apply (scraped_nodes _ Hs k s g s0).
    + apply container_pod_key in Hpk as (_ & ns & n & ->). unfold node_key in Hg0. by case_match.
Qed.

Lemma stage0_ints : batch_ints all_metrics sets'.
Proof.
  intros k s' Hk n v Hn Hv. assert (Hn' : n ∈ names) by (by apply (en_names _ _ He)).
  destruct (Hvalues k n Hn') as (Hskip & Hkept & Hnone & Hsum). rewrite Hk in *. cbn in Hskip, Hkept, Hnone, Hsum.
  destruct (value_of n (sets !! k)) as [v0|] eqn:E.
  - specialize (Hkept v0 eq_refl). rewrite Hv in Hkept. injection Hkept as ->.
    destruct (sets !! k) as [s|] eqn:Es; [|done]. by apply (en_ints _ _ He k s Es n v0).
  - destruct (has_metric_dec n (containers_in sets k)) as [Hh|Hh]; [|specialize (Hnone eq_refl Hh); congruence].
    destruct (decide (n ∈ skippedMetrics)) as [Hs|Hs]; [specialize (Hskip Hs); congruence|].
    destruct (Hsum eq_refl Hs Hh) as (v' & Hv' & Ht & Hi). rewrite Hv in Hv'. injection Hv' as ->.
    split; [done|]. rewrite Hi. apply wrap64_range.
Qed.

(** No container reports the phase of a pod. *)
Lemma stage0_phase k : value_of (md_Name MetricPodPhase) (sets' !! k) = value_of (md_Name MetricPodPhase) (sets !! k).
Proof.
  destruct (Hvalues k (md_Name MetricPodPhase)) as (_ & Hkept & Hnone & _); [by apply (en_names _ _ He)|].
  destruct (value_of _ (sets !! k)) as [v|]; [by apply Hkept|]. apply Hnone; [done|].
  intros (s & (k0 & Hk0 & Hp)%select_elem & [v Hv]). apply bool_decide_eq_true in Hp.
  by destruct (en_values _ _ He k0 s _ v Hk0 ltac:(by eexists) Hv) as (_ & ? & _).
Qed.

Lemma stage0_pods k s' : sets' !! k = Some s' -> isAggregatablePod s' && namespaced s' = true <-> k ∈ pod_keys sets.
Proof.
  intros Hk. pose proof (stage0_phase k) as Hph. rewrite Hk, value_of_set in Hph.
  unfold pod_keys. rewrite list_elem_of_filter, sorted_keys_elem.
  destruct (stage0_set k s' Hk) as [(s & Hs & Hl & Hlv)|(Hnone & k0 & c & f & _ & _ & ->)].
  - rewrite Hs in *. assert (isAggregatablePod s' && namespaced s' = isAggregatablePod s && namespaced s) as ->.
    { unfold isAggregatablePod, isType, podTakesUpResources, namespaced, FindLabels. rewrite value_of_set in Hph. by rewrite Hl, Hlv, Hph. }
    split; [by split|by intros []].
  - rewrite Hnone in *. split; [|by intros []]. unfold isAggregatablePod, podTakesUpResources, FindLabels.
    rewrite Hph. cbn. by rewrite andb_false_r.
Qed.

Lemma stage0_total n k : n ∈ names -> n ∉ skippedMetrics -> opt_int n (sets' !! k) = pod_total n sets k.
Proof.
  intros Hn Hs. destruct (Hvalues k n Hn) as (_ & Hkept & Hnone & Hsum). cbv zeta in *. unfold pod_total.
  assert (Ho : forall o, opt_int n o = match value_of n o with Some v => IntValue v | None => 0%Z end) by (by intros []).
  rewrite Ho. destruct (value_of n (sets !! k)) as [v|] eqn:E; [by rewrite (Hkept v)|].
  destruct (has_metric_dec n (containers_in sets k)) as [Hh|Hh].
  - by destruct (Hsum eq_refl Hs Hh) as (v & -> & _ & ->).
  - rewrite Hnone by done. rewrite (zsum_ext _ (fun _ => 0%Z)).
    + by rewrite zsum_zero by done.
    + intros s Hin. unfold int_at. destruct (Values s !! n) eqn:Ev; [|done]. destruct Hh. exists s. by rewrite Ev.
Qed.

Lemma stage0_perm : pods_of sets' ≡ₚ omap (fun k => sets' !! k) (pod_keys sets).
Proof. apply select_keys; [apply NoDup_filter, sorted_keys_NoDup|exact stage0_pods]. Qed.

Lemma stage0_sum n : n ∈ names -> n ∉ skippedMetrics ->
  zsum (int_at n) (pods_of sets') = zsum (pod_total n sets) (pod_keys sets).
Proof.
  intros Hn Hs. rewrite (zsum_perm _ _ _ stage0_perm), zsum_omap. apply zsum_ext. intros k _.
  rewrite <-(stage0_total n k Hn Hs). by destruct (sets' !! k).
Qed.

Lemma stage0_pods_exist : pods_of sets' <> [] <-> pod_keys sets <> [].
Proof.
  rewrite (nonempty_perm _ _ stage0_perm). destruct (pod_keys sets) as [|k l] eqn:E; [done|].
  assert (Hk : k ∈ pod_keys sets) by (rewrite E; by left).
  unfold pod_keys in Hk. rewrite list_elem_of_filter in Hk. destruct Hk as [Hk _].
  destruct (sets !! k) as [s|] eqn:Es; [|done]. destruct (pf_kept _ _ Hf k s Es) as [f Hs]. cbn. by rewrite Hs.
Qed.

(** Containers are no pods: they are unchanged. *)
Lemma stage0_container k s : isType MetricSetTypePodContainer s = true -> sets' !! k = Some s <-> sets !! k = Some s.
Proof.
  intros Hty.
  assert (Hnot : forall s0, isType MetricSetTypePodContainer s0 = true -> sets !! k = Some s0 -> ~ is_pod_key sets k).
  { intros s0 Ht Hk (k0 & c & Hc & Hpk). pose proof (en_pods _ _ He k0 c k s0 Hc Hpk Hk) as H.
    apply isType_pod_container in H. congruence. }
  split; intros Hk.
  - destruct (stage0_set k s Hk) as [(s0 & H0 & Hl & _)|(_ & k0 & c & f & _ & _ & ->)].
    + rewrite <-(pf_same _ _ Hf k); [done|]. apply (Hnot s0); [|done]. unfold isType in *. by rewrite <-Hl.
    + unfold isType in Hty. cbn [Labels with_Values] in Hty. by rewrite podMetricSet_type in Hty.
  - rewrite (pf_same _ _ Hf k); [done|]. by apply (Hnot s).
Qed.

Lemma stage0_containers_exist : Pipeline.containers_of sets' <> [] <-> Pipeline.containers_of sets <> [].
Proof.
  assert (H : forall (l : list Set_), l <> [] <-> exists s, s ∈ l).
  { intros [|s l]; [split; [done|by intros [s ?%not_elem_of_nil]]|]. split; [intros _; exists s; by left|done]. }
  rewrite !H. split; intros (s & (k & Hk & Hp)%select_elem); exists s; apply select_elem; exists k; (split; [|done]);
    apply andb_prop in Hp as [[Ht _]%andb_prop _]; by apply (stage0_container k s Ht).
Qed.
End stage0.

(** The pod aggregator on such a batch. *)
Lemma enriched_totals (ord : string -> gmap string Value -> list (string * Value)) visits names sets :
  (forall k m, iterates (ord k m) m) -> valid_visits sets visits -> enriched names sets ->
  exists sets', PodAggregator_Process ord visits sets = Ok sets' /\ pod_frame sets sets' /\
    forall k m, m ∈ names ->
      let M := containers_in sets k in
      let before := value_of m (sets !! k) in
      let after := value_of m (sets' !! k) in
      (m ∈ skippedMetrics -> after = before) /\ (forall v, before = Some v -> after = Some v) /\
      (before = None -> ~ has_metric m M -> after = None) /\
      (before = None -> m ∉ skippedMetrics -> has_metric m M ->
         exists v, after = Some v /\ ValueType v = ValueInt64 /\ IntValue v = wrap64 (zsum (int_at m) M)).
Proof.
  intros Hord Hv He.
  destruct (pod_cells ord visits sets names Hord Hv (en_suffix _ _ He)) as (sets' & H & Hall).
  - intros k s n v Hk Hs Hn. by destruct (en_values _ _ He k s n v Hk Hs Hn) as (? & _ & ? & ?).
  - intros k s pk p Hk Hpk Hp. pose proof (en_pods _ _ He k s pk p Hk Hpk Hp) as Ht.
    destruct (container_pod p) as [pk'|] eqn:E; [|done]. apply container_pod_key in E as [E _].
    apply isType_pod_container in Ht. congruence.
  - exists sets'. split_and!; [done|by eapply PodAggregator_frame|]. intros k m Hm M before after.
    destruct (Hall k) as (M' & Hperm & _ & Hc). unfold after. rewrite (Hc m Hm). apply cells_closed; [done|].
    apply containers_ints. intros k' s n v Hk Hs Hn. by destruct (en_values _ _ He k' s n v Hk Hs Hn) as (_ & _ & ? & ?).
Qed.

(** ** Property *)


(** ** Witness *)

(** A test for [suffix_free]. *)
Definition suffix_freeb (names : list string) : bool :=
  forallb (fun n => forallb (fun m => implb (has_suffix n m) (String.eqb n m)) names) names.

Lemma suffix_freeb_ok names : suffix_freeb names = true -> suffix_free names.
Proof.
  intros H n m p Hn Hm ->. unfold suffix_freeb in H. rewrite forallb_forall in H.
  apply list_elem_of_In in Hn, Hm. specialize (H n Hn). rewrite forallb_forall in H. specialize (H _ Hm).
  rewrite has_suffix_app in H. cbn in H.
  apply String.eqb_eq, (f_equal String.length) in H. rewrite str_length_app in H. destruct p; [done|cbn in H; lia].
Qed.

Definition cpu_container (pod : string) (cpu : Z) : Set_ :=
  set_of {[md_Name MetricCpuRequest := intValue cpu]}
    (<[Key LabelPodName := pod]> (<[Key LabelNamespaceName := "ns1"]>
      {[Key LabelMetricSetType := MetricSetTypePodContainer]})).
Definition plain_pod : Set_ :=
  add_labeled (MkLabeledValue (md_Name MetricPodPhase) {["phase" := "Running"]} (intValue 2))
    (set_of ∅ (<[Key LabelNamespaceName := "ns1"]> {[Key LabelMetricSetType := MetricSetTypePod]})).
(** A pod whose containers request 2 and 3, one that says 7 itself, and a
    container whose pod is missing. *)
Definition enriched_batch : Sets :=
  <[PodKey "ns1" "a" := plain_pod]> (<[PodKey "ns1" "b" := sample_pod "b" "n1" 7]>
  (<[PodContainerKey "ns1" "a" "c1" := cpu_container "a" 2]> (<[PodContainerKey "ns1" "a" "c2" := cpu_container "a" 3]>
  {[PodContainerKey "ns1" "d" "c" := cpu_container "d" 100]}))).

Lemma enriched_sample : enriched (all_metrics ++ [md_Name MetricPodPhase]) enriched_batch.
Proof.
  split.
  - split; [| |done|].
    + intros k s Hk. unfold enriched_batch in Hk. each_entry; done.
    + intros k s g Hk Hg. unfold enriched_batch in Hk. each_entry; cbn in Hg; try discriminate Hg; injection Hg as <-; by vm_compute.
    + intros k s g gs Hk Hg Hgs. unfold enriched_batch in Hk. each_entry; cbn in Hg; try discriminate Hg;
        injection Hg as <-; vm_compute in Hgs; done.
  - intros k s Hk n v _ Hv. unfold enriched_batch in Hk. each_entry; cbn in Hv; each_entry; done.
  - split; [by apply (bool_decide_unpack _)|by apply (bool_decide_unpack _)].
  - by apply suffix_freeb_ok.
  - intros k s n v Hk _ Hv. unfold enriched_batch in Hk. each_entry; cbn in Hv; each_entry;
      (split_and!; [by apply (bool_decide_unpack _)|done|done|done]).
  - intros k s pk p Hk Hpk Hp.
    assert (H : match enriched_batch !! pk with Some p => isType MetricSetTypePod p | None => true end = true).
    { clear p Hp. revert pk Hpk. unfold enriched_batch in Hk. each_entry; intros pk Hpk; vm_compute in Hpk;
        first [discriminate Hpk|injection Hpk as <-; vm_compute; reflexivity]. }
    by rewrite Hp in H.
  - intros k s pk k' s' Hk Hpk Hk' Hns.
    assert (pk = NamespaceKey "ns1") as ->.
    { clear Hk Hpk. unfold enriched_batch in Hk'. each_entry; vm_compute in Hns; first [discriminate Hns|by injection Hns as <-]. }
    clear Hk' Hns. unfold enriched_batch in Hk. each_entry; vm_compute in Hpk; discriminate Hpk.
Qed.

