(* ===== verification/Clients.v ===== *)
(** How the collector reaches the API server and the kubelets:
    internal/httputil, internal/kubernetes and
    plugins/sources/summary/kubelet.

    Reading files, loading certificates and kubeconfig files, parsing URLs and
    decoding JSON are parameters, and so are the in-cluster configuration of
    client-go and the quoting of [%q].  Header maps are shared by reference, so
    requests point into a store of headers. *)

From S2P Require Import Prelude Util Utf8 Configuration SinkSetup.

(** ** internal/httputil/client.go *)

(** A header map by canonical names, and the maps there are. *)
Abbreviation header := (gmap string (list string)).
Abbreviation headers := (gmap positive header).

Section http.
Context {Cert : Type} (ReadFile : string -> result string) (LoadX509KeyPair : string -> string -> result Cert)
  (Quote : string -> string).

Record tls_config := MkTlsConfig {
  t_InsecureSkipVerify : bool;
  t_RootCAs : option string;  (** the PEM text of the pool *)
  t_ServerName : string;
  t_Certificates : list Cert;
}.

Definition NewTLSConfig (cfg : TLSConfig) : result tls_config :=
  roots ← (if String.eqb (tls_CAFile cfg) "" then Ok None
           else match ReadFile (tls_CAFile cfg) with
                | Err e => Err ("unable to use specified CA cert " +:+ tls_CAFile cfg +:+ ": " +:+ e)%string
                | Ok caCert => Ok (Some caCert)
                end);
  certs ← (match String.eqb (tls_CertFile cfg) "", String.eqb (tls_KeyFile cfg) "" with
           | false, true => Err ("client cert file " +:+ Quote (tls_CertFile cfg) +:+ " specified without client key file")%string
           | true, false => Err ("client key file " +:+ Quote (tls_KeyFile cfg) +:+ " specified without client cert file")%string
           | false, false =>
               match LoadX509KeyPair (tls_CertFile cfg) (tls_KeyFile cfg) with
               | Err e => Err ("unable to use specified client cert (" +:+ tls_CertFile cfg +:+ ") & key ("
                               +:+ tls_KeyFile cfg +:+ "): " +:+ e)%string
               | Ok cert => Ok [cert]
               end
           | true, true => Ok []
           end);
  Ok (MkTlsConfig (tls_InsecureSkipVerify cfg) roots (tls_ServerName cfg) certs).

Record http_transport := MkTransport {
  tp_Proxy : option string;
  tp_MaxIdleConns : Z;
  tp_MaxIdleConnsPerHost : Z;
  tp_DisableKeepAlives : bool;
  tp_TLSClientConfig : tls_config;
  tp_DisableCompression : bool;
  tp_IdleConnTimeout : Z;
}.

(** [http.RoundTripper] and its two decorators. *)
Inductive round_tripper :=
  | Transport (t : http_transport)
  | bearerTokenRoundTripper (token : string) (rt : round_tripper)
  | bearerTokenFileRoundTripper (bearerFile : string) (rt : round_tripper).

Definition NewRoundTripper (cfg : ClientConfig) : result round_tripper :=
  tlsConfig ← NewTLSConfig (hc_TLSConfig cfg);
  let rt := Transport (MkTransport (hc_ProxyURL cfg) 20000 1000 false tlsConfig true (5 * minute)) in
  Ok (if negb (String.eqb (hc_BearerToken cfg) "") then bearerTokenRoundTripper (hc_BearerToken cfg) rt
      else if negb (String.eqb (hc_BearerTokenFile cfg) "")
      then bearerTokenFileRoundTripper (hc_BearerTokenFile cfg) rt else rt).

Record http_client := MkClient { c_Transport : round_tripper; c_Timeout : Z }.
Definition NewClient (cfg : ClientConfig) : result http_client :=
  rt ← NewRoundTripper cfg; Ok (MkClient rt 0).

(** A request points to its headers. *)
Record request := MkRequest { rq_URL : string; rq_Header : positive }.

Definition Header_Get (h : header) (k : string) : string := hd "" (default [] (h !! k)).
Definition header_of (σ : headers) (r : request) : header := default ∅ (σ !! rq_Header r).

Definition cloneRequest (σ : headers) (r : request) : headers * request :=
  let l := fresh (dom σ) in (<[l := header_of σ r]> σ, MkRequest (rq_URL r) l).

Definition set_authorization (σ : headers) (r : request) (token : string) : headers * request :=
  let '(σ, r) := cloneRequest σ r in
  (<[rq_Header r := <["Authorization" := [("Bearer " +:+ token)%string]]> (header_of σ r)]> σ, r).

(** httputil/parser.go: [FromYAML], with the YAML library as a parameter. *)
Definition http_FromYAML (UnmarshalStrict : string -> result ClientConfig) (contents : string) : result ClientConfig :=
  match UnmarshalStrict contents with
  | Err err => Err ("unable to parse http configuration: " +:+ err)%string
  | Ok cfg => Ok cfg
  end.

(** The headers afterwards and the request the transport is given. *)
Fixpoint RoundTrip (rt : round_tripper) (σ : headers) (r : request) : headers * result request :=
  match rt with
  | Transport _ => (σ, Ok r)
  | bearerTokenRoundTripper token rt =>
      let '(σ, r) := if String.eqb (Header_Get (header_of σ r) "Authorization") ""
                     then set_authorization σ r token else (σ, r) in
      RoundTrip rt σ r
  | bearerTokenFileRoundTripper bearerFile rt =>
      if String.eqb (Header_Get (header_of σ r) "Authorization") "" then
        match ReadFile bearerFile with
        | Err e => (σ, Err ("unable to read bearer token file " +:+ bearerFile +:+ ": " +:+ e)%string)
        | Ok b => let '(σ, r) := set_authorization σ r (TrimSpace b) in RoundTrip rt σ r
        end
      else RoundTrip rt σ r
  end.
End http.
Arguments tls_config : clear implicits.
Arguments http_transport : clear implicits.
Arguments round_tripper : clear implicits.
Arguments http_client : clear implicits.

(** ** internal/kubernetes/configs.go *)

(** [rest.Config], as far as the collector sets or reads it. *)
Record rest_config := MkRest_ {
  rc_Host : string;
  rc_GroupVersion : option string;
  rc_ContentType : string;
  rc_BearerToken : string;
  rc_BearerTokenFile : string;
  rc_Insecure : bool;
  rc_CAFile : string;
  rc_CertFile : string;
  rc_KeyFile : string;
  rc_ServerName : string;
  rc_CAData : string;
}.
Definition with_Host (host : string) (c : rest_config) : rest_config :=
  MkRest_ host (rc_GroupVersion c) (rc_ContentType c) (rc_BearerToken c) (rc_BearerTokenFile c) (rc_Insecure c)
    (rc_CAFile c) (rc_CertFile c) (rc_KeyFile c) (rc_ServerName c) (rc_CAData c).
Definition with_version (c : rest_config) : rest_config :=
  MkRest_ (rc_Host c) (Some "v1") (rc_ContentType c) (rc_BearerToken c) (rc_BearerTokenFile c) (rc_Insecure c)
    (rc_CAFile c) (rc_CertFile c) (rc_KeyFile c) (rc_ServerName c) (rc_CAData c).
Definition with_insecure (insecure : bool) (c : rest_config) : rest_config :=
  MkRest_ (rc_Host c) (rc_GroupVersion c) (rc_ContentType c) (rc_BearerToken c) (rc_BearerTokenFile c) insecure
    (if insecure then "" else rc_CAFile c) (rc_CertFile c) (rc_KeyFile c) (rc_ServerName c) (rc_CAData c).
Definition with_token (token : string) (c : rest_config) : rest_config :=
  MkRest_ (rc_Host c) (rc_GroupVersion c) (rc_ContentType c) token (rc_BearerTokenFile c) (rc_Insecure c)
    (rc_CAFile c) (rc_CertFile c) (rc_KeyFile c) (rc_ServerName c) (rc_CAData c).
Definition with_content (c : rest_config) : rest_config :=
  MkRest_ (rc_Host c) (rc_GroupVersion c) "application/vnd.kubernetes.protobuf" (rc_BearerToken c) (rc_BearerTokenFile c)
    (rc_Insecure c) (rc_CAFile c) (rc_CertFile c) (rc_KeyFile c) (rc_ServerName c) (rc_CAData c).

(** A string setting that is a boolean or not set. *)
Definition bool_setting (default_ : bool) (s : string) : result bool :=
  if String.eqb s "" then Ok default_
  else match ParseBool s with
       | Some b => Ok b
       | None => Err ("strconv.ParseBool: parsing " +:+ s +:+ ": invalid syntax")%string
       end.

Section kubernetes.
(** The scheme and host of a URL, the configuration of the pod, that of a
    kubeconfig file and the contents of the service account's token. *)
Context (url_Parse : string -> result (string * string)) (InClusterConfig : result rest_config)
  (load_kubeconfig : string -> result rest_config) (service_account_token : result string).

(** The server and whether its certificate goes unverified. *)
Definition getConfigOverridesFromConfig (cfg : SummarySourceConfig) : result (string * bool) :=
  server ← (if String.eqb (su_URL cfg) "" then Ok ""
            else '(scheme, host) ← url_Parse (su_URL cfg);
                 Ok (if negb (String.eqb scheme "") && negb (String.eqb host "")
                     then (scheme +:+ "://" +:+ host)%string else ""));
  insecure ← bool_setting false (su_Insecure cfg);
  Ok (server, insecure).

Definition base_config (cfg : SummarySourceConfig) (server : string) (insecure inCluster : bool) : result rest_config :=
  if inCluster then
    c ← InClusterConfig;
    let c := if negb (String.eqb server "") then with_Host server c else c in
    Ok (with_insecure insecure (with_version c))
  else if negb (String.eqb (su_Auth cfg) "") then load_kubeconfig (su_Auth cfg)
  else Ok (with_version (MkRest_ server None "" "" "" insecure "" "" "" "" "")).

Definition GetKubeClientConfig (cfg : SummarySourceConfig) : result rest_config :=
  '(server, insecure) ← getConfigOverridesFromConfig cfg;
  inClusterConfig ← bool_setting true (su_InClusterConfig cfg);
  kubeConfig ← base_config cfg server insecure inClusterConfig;
  if String.eqb (rc_Host kubeConfig) "" then Err "invalid kubernetes master url specified"
  else
    useServiceAccount ← bool_setting false (su_UseServiceAccount cfg);
    let kubeConfig := if useServiceAccount : bool
                      then match service_account_token with Ok contents => with_token contents kubeConfig | Err _ => kubeConfig end
                      else kubeConfig in
    Ok (with_content kubeConfig).

(** ** plugins/sources/summary/kubelet/configs.go and transport.go *)

Record KubeletClientConfig := MkKubelet {
  kc_Port : Z;  (** a [uint] of 64 bits *)
  kc_EnableHttps : bool;
  kc_TLS : rest_config;  (** only its [TLSClientConfig] is read *)
  kc_BearerToken : string;
}.

Definition GetKubeConfigs (cfg : SummarySourceConfig) : result (rest_config * KubeletClientConfig) :=
  kubeConfig ← GetKubeClientConfig cfg;
  kubeletPort ← (if String.eqb (su_KubeletPort cfg) "" then Ok 10255%Z
                 else match Atoi (su_KubeletPort cfg) with
                      | Some p => Ok p
                      | None => Err ("strconv.Atoi: parsing " +:+ su_KubeletPort cfg)%string
                      end);
  kubeletHttps ← bool_setting false (su_KubeletHttps cfg);
  Ok (kubeConfig, MkKubelet (wrapu64 kubeletPort) kubeletHttps kubeConfig (rc_BearerToken kubeConfig)).
End kubernetes.

Definition kubelet_Scheme (c : KubeletClientConfig) : string := if kc_EnableHttps c then "https" else "http".

Record kubelet_url := MkUrl { ku_Scheme : string; ku_Host : string; ku_Path : string }.
Definition BaseURL {IP} (IP_String : IP -> string) (c : KubeletClientConfig) (ip : IP) (path : string) : kubelet_url :=
  MkUrl (kubelet_Scheme c) (IP_String ip +:+ ":" +:+ sprint_int (kc_Port c))%string path.
(** [url.String] of such a URL, whose path needs no escaping. *)
Definition kubelet_url_String (u : kubelet_url) : string := (ku_Scheme u +:+ "://" +:+ ku_Host u +:+ ku_Path u)%string.

(** [transport.Config] of client-go. *)
Record transport_config := MkTransportConfig {
  tc_CAFile : string; tc_CAData : string; tc_CertFile : string; tc_KeyFile : string;
  tc_Insecure : bool; tc_BearerToken : string;
}.
Definition HasCA (caFile caData : string) : bool := negb (String.eqb caFile "") || negb (String.eqb caData "").
Definition transportConfig (c : KubeletClientConfig) : transport_config :=
  let t := kc_TLS c in
  MkTransportConfig (rc_CAFile t) (rc_CAData t) (rc_CertFile t) (rc_KeyFile t)
    (kc_EnableHttps c && negb (HasCA (rc_CAFile t) (rc_CAData t)))
    (if kc_EnableHttps c then kc_BearerToken c else "").

(** ** kubelet_client.go *)

(** What [client.Do] and [ioutil.ReadAll] give. *)
Inductive http_response :=
  | NoResponse (err : string)
  | Response (StatusCode : Z) (Status : string) (Body : result string).

Definition missing_role : string :=
  "Missing ClusterRole resource nodes/stats or nodes/proxy, see https://docs.wavefront.com/kubernetes.html#kubernetes-manual-install".

(** [Terminate] outside of tests: the message is written and the process ends. *)
Definition Terminate {A} (message : string) : outcome A := Fatal message.

Definition postRequestAndGetValue {V} (Quote : string -> string) (Unmarshal : string -> result V)
    (url : string) (response : http_response) : outcome (result V) :=
  match response with
  | NoResponse err => Done (Err err)
  | Response _ _ (Err e) => Done (Err ("failed to read response body - " +:+ e)%string)
  | Response code status (Ok body) =>
      if (code =? 404)%Z then Done (Err (Quote url +:+ " not found")%string)
      else if (code =? 403)%Z then Terminate missing_role
      else if negb (code =? 200)%Z
      then Done (Err ("request failed - " +:+ Quote status +:+ ", response: " +:+ Quote body)%string)
      else match Unmarshal body with
           | Ok v => Done (Ok v)
           | Err e => Done (Err ("failed to parse output. Response: " +:+ Quote body +:+ ". Error: " +:+ e)%string)
           end
  end.

Definition GetSummary {IP V} (IP_String : IP -> string) (Quote : string -> string) (Unmarshal : string -> result V)
    (Do : string -> http_response) (config : KubeletClientConfig) (ip : IP) : outcome (result V) :=
  let u := kubelet_url_String (BaseURL IP_String config ip "/stats/summary/") in
  postRequestAndGetValue Quote Unmarshal u (Do u).

(** [sampleContainerStats] and [parseStat], over containers with statistics [S]. *)
Definition sampleContainerStats {S} (stats : list S) : list S :=
  match last stats with Some s => [s] | None => [] end.
Record container_info {S : Type} := MkInfo { ci_Name : string; ci_Aliases : list string; ci_Stats : list S }.
Arguments container_info : clear implicits.
Definition parseStat {S} (c : container_info S) : container_info S :=
  MkInfo S (match ci_Aliases c with a :: _ => a | [] => ci_Name c end) (ci_Aliases c) (sampleContainerStats (ci_Stats c)).

(** ** Authorization *)

Section authorization.
Context {Cert : Type} (ReadFile : string -> result string) (LoadX509KeyPair : string -> string -> result Cert)
  (Quote : string -> string).

(** The token a client adds to a request with headers [h]. *)
Definition added_token (cfg : ClientConfig) (h : header) : option string :=
  if negb (String.eqb (Header_Get h "Authorization") "") then None
  else if negb (String.eqb (hc_BearerToken cfg) "") then Some (hc_BearerToken cfg)
  else if negb (String.eqb (hc_BearerTokenFile cfg) "") then
    match ReadFile (hc_BearerTokenFile cfg) with Ok b => Some (TrimSpace b) | Err _ => None end
  else None.

Lemma set_authorization_spec σ r token h : σ !! rq_Header r = Some h ->
  exists σ' r', set_authorization σ r token = (σ', r') /\ σ ⊆ σ' /\ rq_URL r' = rq_URL r /\
    σ' !! rq_Header r' = Some (<["Authorization" := [("Bearer " +:+ token)%string]]> h).
Proof.
  intros Hr. unfold set_authorization, cloneRequest. set (l := fresh (dom σ)).
  assert (Hl : σ !! l = None) by (apply not_elem_of_dom, is_fresh).
  assert (Hh : header_of σ r = h) by (unfold header_of; by rewrite Hr). rewrite Hh.
  assert (Hc : header_of (<[l := h]> σ) (MkRequest (rq_URL r) l) = h)
    by (unfold header_of; cbn [rq_Header]; by rewrite lookup_insert_eq). rewrite Hc.
  do 2 eexists. split; [reflexivity|]. cbn [rq_URL rq_Header]. split_and!; [|done|by rewrite lookup_insert_eq].
  rewrite insert_insert_eq. by apply insert_subseteq.
Qed.

(** The token of a request.  A client built from a configuration sends a
    request that has an Authorization header as it is; to any other it adds
    the configured token, or that of the token file, read and trimmed at each
    request, to a copy of the headers: no header map the caller knows is
    changed.  Only a token file that cannot be read makes it fail. *)
Theorem authorization_spec (cfg : ClientConfig) (rt : round_tripper Cert) (σ : headers) (r : request) (h : header) :
  NewRoundTripper ReadFile LoadX509KeyPair Quote cfg = Ok rt -> σ !! rq_Header r = Some h ->
  let '(σ', out) := RoundTrip ReadFile rt σ r in
  σ ⊆ σ' /\
  match out with
  | Ok r' => rq_URL r' = rq_URL r /\
      σ' !! rq_Header r' = Some (match added_token cfg h with
                                 | Some token => <["Authorization" := [("Bearer " +:+ token)%string]]> h
                                 | None => h
                                 end)
  | Err _ => Header_Get h "Authorization" = "" /\ hc_BearerToken cfg = "" /\ is_ok (ReadFile (hc_BearerTokenFile cfg)) = false
  end.
Proof.
  intros Hrt Hr. unfold NewRoundTripper in Hrt. apply result_bind_ok in Hrt as (tls & _ & [= <-]).
  assert (Hh : header_of σ r = h) by (unfold header_of; by rewrite Hr). unfold added_token.
  destruct (String.eqb_spec (hc_BearerToken cfg) "") as [Ht|Ht]; cbn [negb].
  - destruct (String.eqb (hc_BearerTokenFile cfg) ""); cbn [negb RoundTrip].
    { split; [done|]. split; [done|]. by destruct (String.eqb _ ""). }
    rewrite Hh. destruct (String.eqb_spec (Header_Get h "Authorization") "") as [Ha|Ha]; cbn [negb]; [|done].
    destruct (ReadFile (hc_BearerTokenFile cfg)) as [b|e]; [|done].
    destruct (set_authorization_spec σ r (TrimSpace b) h Hr) as (σ' & r' & -> & ? & ? & ?). done.
  - cbn [RoundTrip]. rewrite Hh. destruct (String.eqb (Header_Get h "Authorization") ""); cbn [negb]; [|done].
    destruct (set_authorization_spec σ r (hc_BearerToken cfg) h Hr) as (σ' & r' & -> & ? & ? & ?). done.
Qed.
End authorization.

Lemma authorization_spec_witness :
  let cfg := MkClientConfig "token" "" None tls_zero in
  let σ := {[1%positive := {["Accept" := ["text/plain"]]}]} : headers in
  exists rt, NewRoundTripper (Cert := unit) (fun _ => Ok "abc") (fun _ _ => Err "") id cfg = Ok rt /\
    σ ⊆ (RoundTrip (fun _ => Ok "abc") rt σ (MkRequest "http://h" 1)).1.
Proof.
  intros cfg σ. eexists. split; [reflexivity|].
  pose proof (authorization_spec (Cert := unit) (fun _ => Ok "abc") (fun _ _ => Err "") id cfg _ σ (MkRequest "http://h" 1)
    {["Accept" := ["text/plain"]]} eq_refl eq_refl) as H. revert H.
  match goal with |- (let '(_, _) := ?x in _) -> _ ⊆ ?y.1 => change y with x; destruct x as [σ' out] end.
  by intros [? _].
Defined.

(** When the TLS configuration of a client can be made, and what it holds. *)
Theorem NewTLSConfig_spec {Cert : Type} (ReadFile : string -> result string)
    (LoadX509KeyPair : string -> string -> result Cert) (Quote : string -> string) (cfg : TLSConfig) :
  let ca_ok := String.eqb (tls_CAFile cfg) "" || is_ok (ReadFile (tls_CAFile cfg)) in
  let pair_ok := match String.eqb (tls_CertFile cfg) "", String.eqb (tls_KeyFile cfg) "" with
                 | true, true => true
                 | false, false => is_ok (LoadX509KeyPair (tls_CertFile cfg) (tls_KeyFile cfg))
                 | _, _ => false
                 end in
  match NewTLSConfig ReadFile LoadX509KeyPair Quote cfg with
  | Ok t => ca_ok = true /\ pair_ok = true /\ t_InsecureSkipVerify t = tls_InsecureSkipVerify cfg /\
      t_ServerName t = tls_ServerName cfg /\
      (t_RootCAs t = None <-> tls_CAFile cfg = "") /\
      (forall pem, t_RootCAs t = Some pem -> ReadFile (tls_CAFile cfg) = Ok pem) /\
      (t_Certificates t = [] <-> tls_CertFile cfg = "")
  | Err _ => ca_ok && pair_ok = false
  end.
Proof.
  intros ca_ok pair_ok. unfold NewTLSConfig, ca_ok, pair_ok.
  destruct (String.eqb_spec (tls_CAFile cfg) "") as [Hca|Hca]; [|destruct (ReadFile (tls_CAFile cfg)) as [pem|e]; [|done]];
    cbn [mbind result_bind orb andb is_ok];
    (destruct (String.eqb_spec (tls_CertFile cfg) "") as [Hc|Hc], (String.eqb_spec (tls_KeyFile cfg) "") as [Hk|Hk];
      [|done|done|destruct (LoadX509KeyPair _ _) as [cert|e]; [|done]]);
    cbn [mbind result_bind is_ok t_InsecureSkipVerify t_ServerName t_RootCAs t_Certificates];
    split_and!; naive_solver.
Qed.

(** ** Reaching the kubelets *)

Lemma bool_setting_ok d s b : bool_setting d s = Ok b ->
  (s = "" /\ b = d) \/ (s <> "" /\ ParseBool s = Some b).
Proof.
  unfold bool_setting. destruct (String.eqb_spec s "") as [->|Hs]; [intros [= ->]; by left|].
  destruct (ParseBool s); [intros [= ->]; by right|done].
Qed.

Section kubelet.
Context (url_Parse : string -> result (string * string)) (InClusterConfig : result rest_config)
  (load_kubeconfig : string -> result rest_config) (service_account_token : result string).
Abbreviation client_config := (GetKubeClientConfig url_Parse InClusterConfig load_kubeconfig service_account_token).
Abbreviation kube_configs := (GetKubeConfigs url_Parse InClusterConfig load_kubeconfig service_account_token).

(** The configuration for the API server.  In the cluster, the one of the
    pod, with the server of the section's URL when it has a scheme and a host,
    and without its authority when certificates go unverified; outside, with a
    kubeconfig file, that of the file alone: the URL and the insecure flag of
    the section are then ignored; without one, the section's server and flag
    and nothing else.  The host is never empty, and a readable service
    account token replaces the configured one when that is asked for. *)
Theorem GetKubeClientConfig_spec (cfg : SummarySourceConfig) (c : rest_config) :
  client_config cfg = Ok c ->
  exists server insecure inCluster account base,
    getConfigOverridesFromConfig url_Parse cfg = Ok (server, insecure) /\
    bool_setting true (su_InClusterConfig cfg) = Ok inCluster /\
    bool_setting false (su_UseServiceAccount cfg) = Ok account /\
    rc_Host c <> "" /\ rc_ContentType c = "application/vnd.kubernetes.protobuf" /\
    rc_Host c = rc_Host base /\ rc_Insecure c = rc_Insecure base /\ rc_CAFile c = rc_CAFile base /\
    rc_CAData c = rc_CAData base /\
    rc_BearerToken c = (match account, service_account_token with true, Ok t => t | _, _ => rc_BearerToken base end) /\
    if inCluster : bool then
      exists pod, InClusterConfig = Ok pod /\ rc_Host base = (if String.eqb server "" then rc_Host pod else server) /\
        rc_Insecure base = insecure /\ rc_CAFile base = (if insecure then "" else rc_CAFile pod)
    else if String.eqb (su_Auth cfg) "" then rc_Host base = server /\ rc_Insecure base = insecure /\ rc_CAFile base = ""
    else load_kubeconfig (su_Auth cfg) = Ok base.
Proof.
  unfold GetKubeClientConfig. intros H.
  apply result_bind_ok in H as ([server insecure] & Ho & H). cbn beta iota in H.
  apply result_bind_ok in H as (inCluster & Hi & H). apply result_bind_ok in H as (base & Hb & H).
  destruct (String.eqb_spec (rc_Host base) "") as [|Hne]; [done|].
  apply result_bind_ok in H as (account & Ha & [= <-]).
  exists server, insecure, inCluster, account, base. split_and!; try done.
  1-6: by destruct account; [destruct service_account_token|].
  unfold base_config in Hb. destruct inCluster; cbn [negb] in Hb.
  - apply result_bind_ok in Hb as (pod & -> & [= <-]). exists pod.
    destruct (String.eqb server ""); by destruct insecure.
  - destruct (String.eqb (su_Auth cfg) ""); [by injection Hb as <-|done].
Qed.

(** C29: talking to the kubelets.  With the configuration that comes out, the
    requests go to the port of the section, or 10255, taken modulo 2^64 (so a
    negative port is accepted and becomes a huge one); they use TLS exactly
    when the section says so, and the token is sent only then.  A certificate
    goes unverified exactly when TLS is used without an authority: the
    insecure flag matters in the cluster alone, where it drops the pod's
    authority file. *)
Theorem kubelet_access_spec {IP : Type} (IP_String : IP -> string) (cfg : SummarySourceConfig)
    (c : rest_config) (k : KubeletClientConfig) (ip : IP) (path : string) :
  kube_configs cfg = Ok (c, k) ->
  let url := BaseURL IP_String k ip path in
  let tls := transportConfig k in
  client_config cfg = Ok c /\
  (exists https, bool_setting false (su_KubeletHttps cfg) = Ok https /\
     ku_Scheme url = (if https : bool then "https" else "http") /\
     tc_BearerToken tls = (if https then rc_BearerToken c else "") /\
     (tc_Insecure tls = true <-> https = true /\ rc_CAFile c = "" /\ rc_CAData c = "")) /\
  (exists port, ku_Host url = (IP_String ip +:+ ":" +:+ sprint_int port)%string /\ in_u64 port /\
     (su_KubeletPort cfg = "" -> port = 10255%Z) /\
     (su_KubeletPort cfg <> "" -> exists p, Atoi (su_KubeletPort cfg) = Some p /\ port = wrapu64 p)).
Proof.
  unfold GetKubeConfigs. intros H.
  apply result_bind_ok in H as (c0 & Hc & H). apply result_bind_ok in H as (port & Hp & H).
  apply result_bind_ok in H as (https & Hh & [= <- <-]). cbn zeta. split; [done|]. split.
  - exists https. split; [done|]. cbn. unfold kubelet_Scheme. cbn. split_and!; try done.
    unfold HasCA. rewrite andb_true_iff, negb_true_iff, orb_false_iff, !negb_false_iff, !String.eqb_eq. tauto.
  - exists (wrapu64 port). split; [done|]. split; [apply wrapu64_range|].
    destruct (String.eqb_spec (su_KubeletPort cfg) "") as [E|E].
    + injection Hp as <-. split; [done|]. by intros [].
    + split; [done|]. intros _. destruct (Atoi (su_KubeletPort cfg)) as [p|]; [|done]. injection Hp as ->. by exists port.
Qed.
End kubelet.

Definition sample_summary (port : string) : SummarySourceConfig :=
  MkSummary transforms_zero collection_zero "" port "true" "" "true" "true" "".
Definition sample_pod_config : rest_config :=
  MkRest_ "https://10.0.0.1" None "" "pod-token" "" false "/ca.crt" "" "" "" "".

Lemma GetKubeClientConfig_spec_witness :
  exists c, GetKubeClientConfig (fun _ => Err "") (Ok sample_pod_config) (fun _ => Err "") (Ok "account") (sample_summary "") = Ok c /\
    rc_BearerToken c = "account" /\ rc_Host c <> "".
Proof.
  eexists. split; [reflexivity|].
  destruct (GetKubeClientConfig_spec (fun _ => Err "") (Ok sample_pod_config) (fun _ => Err "") (Ok "account")
    (sample_summary "") _ eq_refl) as (server & insecure & inCluster & account & base & _ & _ & Ha & Hne & _ & _ & _ & _ & _ & Ht & _).
  split; [|done]. rewrite Ht. vm_compute in Ha. by injection Ha as <-.
Defined.

(** A negative port is not refused. *)
Lemma kubelet_access_spec_witness :
  exists c k, GetKubeConfigs (fun _ => Err "") (Ok sample_pod_config) (fun _ => Err "") (Ok "account") (sample_summary "-1") = Ok (c, k) /\
    ku_Host (BaseURL (fun s : string => s) k "10.0.0.7" "/stats/summary/") = "10.0.0.7:18446744073709551615" /\
    tc_BearerToken (transportConfig k) = "account" /\ tc_Insecure (transportConfig k) = true.
Proof.
  do 2 eexists. split; [reflexivity|].
  destruct (kubelet_access_spec (fun _ => Err "") (Ok sample_pod_config) (fun _ => Err "") (Ok "account")
    (fun s : string => s) (sample_summary "-1") _ _ "10.0.0.7" "/stats/summary/" eq_refl)
    as (_ & (https & Hh & _ & Ht & Hi) & (port & Hu & _ & _ & Hp)).
  vm_compute in Hh. injection Hh as <-. split_and!.
  - rewrite Hu. destruct (Hp ltac:(done)) as (p & Ha & ->). vm_compute in Ha. injection Ha as <-. by vm_compute.
  - rewrite Ht. by vm_compute.
  - apply Hi. split_and!; reflexivity.
Defined.

(** Asking a kubelet for its statistics.  The result is the decoded body
    exactly when the answer is 200 and the body is read and decodes; a 403
    whose body is read ends the process, telling which permission is missing;
    anything else is an error. *)
Theorem GetSummary_spec {IP V : Type} (IP_String : IP -> string) (Quote : string -> string)
    (Unmarshal : string -> result V) (Do : string -> http_response) (config : KubeletClientConfig) (ip : IP) :
  let answer := Do (kubelet_Scheme config +:+ "://" +:+ IP_String ip +:+ ":" +:+ sprint_int (kc_Port config) +:+ "/stats/summary/")%string in
  let out := GetSummary IP_String Quote Unmarshal Do config ip in
  (forall v, out = Done (Ok v) <-> exists status body, answer = Response 200 status (Ok body) /\ Unmarshal body = Ok v) /\
  (forall e, out = Fatal e <-> e = missing_role /\ exists status body, answer = Response 403 status (Ok body)) /\
  (forall e, out <> Panic e).
Proof.
  intros answer out. unfold out, GetSummary.
  replace (Do (kubelet_url_String _)) with answer
    by (unfold answer, kubelet_url_String, BaseURL; cbn; by rewrite !str_app_assoc).
  unfold postRequestAndGetValue. destruct answer as [err|code status [body|e]].
  1,3: split_and!; [intros v|intros e'|done]; split; try done; try (by intros (? & ? & ? & ?)); by intros (_ & ? & ? & ?).
  destruct (Z.eqb_spec code 404) as [->|H404]; [|destruct (Z.eqb_spec code 403) as [->|H403]].
  - split_and!; [intros v|intros e'|done]; split; try done; try (by intros (? & ? & ? & ?)); by intros (_ & ? & ? & ?).
  - split_and!; [intros v|intros e'|done]; split; try done; try (by intros (? & ? & ? & ?)).
    + intros [= <-]. eauto.
    + by intros [-> _].
  - destruct (Z.eqb_spec code 200) as [->|H200]; cbn [negb].
    + destruct (Unmarshal body) as [w|err] eqn:E.
      * split_and!; [intros v|intros e'|done]; split; try done; try (by intros (_ & ? & ? & ?)).
        -- intros [= <-]. eauto.
        -- intros (? & ? & [= <- <-] & ?). congruence.
      * split_and!; [intros v|intros e'|done]; split; try done; try (by intros (_ & ? & ? & ?)).
        intros (? & ? & [= <- <-] & ?). congruence.
    + split_and!; [intros v|intros e'|done]; split; try done; [intros (? & ? & ? & ?)|intros (_ & ? & ? & ?)]; congruence.
Qed.
