(* ===== verification/NodeSources.v ===== *)
(** The sources made of Prometheus pages of the cluster itself: the Prometheus
    provider (plugins/sources/prometheus/prometheus.go and
    lookup_instances.go), the cadvisor pages of the kubelets
    (plugins/sources/cadvisor) and the control plane
    (plugins/sources/controlplane), with the error decorator of
    internal/metrics.

    URLs are parsed and printed by parameters, as in Configuration.v; the
    endpoints and nodes of the API are parameters too. *)

From S2P Require Import Prelude Filters Util Leadership Discovery Wf MetricReader Prometheus Configuration Clients.

(** ** internal/metrics/error_decorator.go *)

(** The errors of a scrape, and a source as the scrape sees it: what it gives
    for an answer of the network. *)
Inductive scrape_error :=
  | HTTPError (MetricsURL Status : string) (StatusCode : Z)
  | OtherError (msg : string).
Definition Error (err : scrape_error) : string :=
  match err with
  | HTTPError url status _ => "error retrieving prometheus metrics from " +:+ url +:+ " (http status " +:+ status +:+ ")"
  | OtherError msg => msg
  end.

Record Source (W B : Type) := MkSource {
  src_Name : string;
  src_AutoDiscovered : bool;
  src_Scrape : W -> option B * option scrape_error;
}.
Arguments MkSource {_ _} _ _ _.
Arguments src_Name {_ _} _.
Arguments src_AutoDiscovered {_ _} _.
Arguments src_Scrape {_ _} _ _.

Definition NewErrorDecorator {W B} (src : Source W B) (errFunc : option scrape_error -> option scrape_error) : Source W B :=
  MkSource (src_Name src) (src_AutoDiscovered src)
    (fun w => let '(dataBatch, err) := src_Scrape src w in (dataBatch, errFunc err)).

(** transform_permission_error.go of plugins/sources/cadvisor. *)
Definition TransformPermissionError (err : option scrape_error) : option scrape_error :=
  match err with
  | Some (HTTPError url status code as httpErr) =>
      if (code =? 401)%Z || (code =? 403)%Z
      then Some (OtherError ("missing nodes/metrics permission in the collector's cluster role: " +:+ Error httpErr)%string)
      else err
  | _ => err
  end.

(** ** prometheus.go and lookup_instances.go *)

(** [matchNSName] is [^([^\.]+).([^\.]+)\.svc].  Its first dot matches any
    character: when the text before the first dot of the host is followed by
    [.svc], the expression gives up the last two characters before it. *)
Definition last_two (a : string) : option (string * string) :=
  let n := String.length a in
  if decide (3 <= n) then
    let c := String.substring (n - 2) 1 a in
    if String.eqb c (String "010" "") then None
    else Some (String.substring 0 (n - 2) a, String.substring (n - 1) 1 a)
  else None.
Definition matchNSName (host : string) : option (string * string) :=
  match split_first "." host with
  | (a, Some r) =>
      match split_first "." r with
      | (b, Some r2) =>
          if negb (String.eqb a "") && negb (String.eqb b "") && has_prefix "svc" r2 then Some (a, b)
          else if has_prefix "svc" r then last_two a else None
      | (_, None) => if has_prefix "svc" r then last_two a else None
      end
  | (_, None) => None
  end.

(** [Endpoints namespace name]. *)
Definition InstancesFromEndpoints (Endpoints : string -> string -> result (list EndpointSubset)) (host : string)
    : result (list Instance_) :=
  match matchNSName host with
  | None => Err "host is not a kubernetes service"
  | Some (name, namespace) => subsets ← Endpoints namespace name; instancesFromEndpoints subsets
  end.

Section prometheus.
Context {U Cert : Type} (ParseRequestURI : string -> result U) (url_Host : U -> string) (with_url_host : string -> U -> U)
  (url_String : U -> string).
Context (ReadFile : string -> result string) (LoadX509KeyPair : string -> string -> result Cert)
  (Quote : string -> string) (glob_compile : string -> option Glob) (EncodeKey : string -> tagmap -> string) (e : env).

Record prometheusMetricsSource := MkPromMetrics {
  px_metricsURL : string;
  px_prefix : string;
  px_source : string;
  px_tags : tagmap;
  px_filters : option globFilter;
  px_client : http_client Cert;
  px_internalMetricsNames : list string;
  px_autoDiscovered : bool;
  px_omitBucketSuffix : bool;
}.

Definition api_service_ca : string := "/var/run/secrets/kubernetes.io/serviceaccount/ca.crt".

(** The configuration of the client, which differs for the API service. *)
Definition client_config (metricsURL : string) (cfg : ClientConfig) : ClientConfig :=
  let tls := hc_TLSConfig cfg in
  if contains "kubernetes.default.svc.cluster.local" metricsURL && String.eqb (tls_CAFile tls) "" then
    MkClientConfig (hc_BearerTokenFile cfg) (hc_BearerToken cfg) (hc_ProxyURL cfg)
      (MkTLS api_service_ca (tls_CertFile tls) (tls_KeyFile tls) (tls_ServerName tls) true)
  else cfg.
Definition httpClient (metricsURL : string) (cfg : ClientConfig) : result (http_client Cert) :=
  client ← NewClient ReadFile LoadX509KeyPair Quote (client_config metricsURL cfg);
  Ok (MkClient (c_Transport client) (30 * second)).

Definition NewPrometheusMetricsSource (metricsURL prefix source discovered : string) (tags : tagmap)
    (filters : option globFilter) (httpCfg : ClientConfig) : result prometheusMetricsSource :=
  client ← httpClient metricsURL httpCfg;
  let pt := extractTags tags discovered metricsURL in
  Ok (MkPromMetrics metricsURL prefix source tags filters client
        [EncodeKey "target.points.collected" pt; EncodeKey "target.collect.errors" pt]
        (negb (String.eqb discovered "")) (default false (ParseBool (get_str e "omitBucketSuffix")))).

Definition source_Name (s : prometheusMetricsSource) : string := ("prometheus_source: " +:+ px_metricsURL s)%string.
(** [Cleanup]: the counters still registered. *)
Definition source_Cleanup (s : prometheusMetricsSource) (registry : gset string) : gset string :=
  registry ∖ list_to_set (px_internalMetricsNames s).

Record prometheusProvider := MkPromProvider {
  pp_name : string;
  pp_useLeaderElection : bool;
  pp_URL : U;
  pp_lookupInstances : string -> result (list Instance_);
  pp_buildSource : U -> option tagmap -> result prometheusMetricsSource;
}.

Definition NewPrometheusProvider (cfg : PrometheusSourceConfig) (lookupInstances : string -> result (list Instance_))
    : result prometheusProvider :=
  let t := ps_Transforms cfg in
  let source := GetStringValue (GetStringValue (tr_Source t) (GetNodeName e)) "prom_source" in
  let discovered := GetStringValue (ps_Discovered cfg) "" in
  metricsURL ← ParseRequestURI (ps_URL cfg);
  Ok (MkPromProvider (provider_name (ps_Name cfg) (ps_URL cfg))
        (uses_leader_election (ps_UseLeaderElection cfg) discovered) metricsURL lookupInstances
        (fun url tags => NewPrometheusMetricsSource (url_String url) (tr_Prefix t) source discovered
                           (source_tags (tr_Tags t) tags) (FromConfig glob_compile (tr_Filters t)) (ps_HTTPClientConfig cfg))).

Definition provider_sources (leading : bool) (p : prometheusProvider) : list prometheusMetricsSource :=
  GetMetricsSources (pp_lookupInstances p) (fun host => pp_buildSource p (with_url_host host (pp_URL p)))
    (pp_useLeaderElection p) leading (url_Host (pp_URL p)).

(** [factory.Build]: the provider and the interval and timeout it is given. *)
Definition Build (cfg : PrometheusSourceConfig) : result (prometheusProvider * CollectionConfig) :=
  p ← NewPrometheusProvider cfg InstanceFromHost; Ok (p, ps_Collection cfg).

(** ** plugins/sources/cadvisor *)

Section cadvisor.
Context {IP K : Type} (ParseIP : string -> option IP).

Definition cAdvisorEndpoint : string := "/metrics/cadvisor".

(** The loop of [GenerateURLs], with its [break]. *)
Fixpoint generate_loop (myNode : string) (scrapeOwnNode : bool) (kubeletURL : IP -> string -> K) (nodes : list Node)
    (urls : list K) : result (list K) :=
  match nodes with
  | [] => Ok urls
  | node :: nodes' =>
      '(_, ip) ← GetNodeHostnameAndIP ParseIP node;
      let url := kubeletURL ip cAdvisorEndpoint in
      if scrapeOwnNode then
        if String.eqb (node_Name node) myNode then Ok (urls ++ [url])
        else generate_loop myNode scrapeOwnNode kubeletURL nodes' urls
      else generate_loop myNode scrapeOwnNode kubeletURL nodes' (urls ++ [url])
  end.
Definition GenerateURLs (nodeList : result (list Node)) (myNode : string) (scrapeOwnNode : bool)
    (kubeletURL : IP -> string -> K) : result (list K) :=
  nodes ← nodeList; generate_loop myNode scrapeOwnNode kubeletURL nodes [].

Definition generateHTTPCfg (c : rest_config) : ClientConfig :=
  MkClientConfig (rc_BearerTokenFile c) (rc_BearerToken c) None
    (MkTLS (rc_CAFile c) (rc_CertFile c) (rc_KeyFile c) (rc_ServerName c) (rc_Insecure c)).

Definition generatePrometheusSource (cfg : CadvisorSourceConfig) (promURL : string) (restConfig : rest_config)
    : result prometheusMetricsSource :=
  let t := ca_Transforms cfg in
  NewPrometheusMetricsSource promURL (tr_Prefix t) (tr_Source t) "" (tr_Tags t)
    (FromConfig glob_compile (tr_Filters t)) (generateHTTPCfg restConfig).

(** [GetMetricsSources] of the provider; every source is decorated with
    [TransformPermissionError]. *)
Definition cadvisor_sources (K_String : K -> string) (a : AgentType) (nodeList : result (list Node))
    (kubeletURL : IP -> string -> K) (cfg : CadvisorSourceConfig) (kubeConfig : rest_config) : list prometheusMetricsSource :=
  if negb (ScrapeAnyNodes a) then []
  else match GenerateURLs nodeList (GetNodeName e) (ScrapeOnlyOwnNode a) kubeletURL with
       | Err _ => []
       | Ok urls =>
           match foldM (fun sources url => s ← generatePrometheusSource cfg (K_String url) kubeConfig; Ok (sources ++ [s])) [] urls with
           | Ok sources => sources
           | Err _ => []
           end
       end.
End cadvisor.

(** ** plugins/sources/controlplane *)

Definition cp_metricsURL : string := "https://kubernetes.default.svc/metrics".
Definition cp_metricsSource : string := "control_plane_source".
Definition jitterTime : Z := 40 * second.
Definition cp_metricsPrefix : string := "kubernetes.controlplane.".

Definition createPrometheusSourceConfig (name : string) (httpClientConfig : ClientConfig) (metricAllowList : list string)
    (metricTagAllowList : gmap string (list string)) (collectionInterval : Z) : PrometheusSourceConfig :=
  MkPromSource
    (MkTransforms cp_metricsSource cp_metricsPrefix ∅
       (Config.MkConfig metricAllowList [] metricTagAllowList ∅ [] [] [] [] ∅ ∅))
    (MkCollection collectionInterval 0) cp_metricsURL httpClientConfig "" name true.

Definition prefixed (names : list string) : list string := map (fun n => (cp_metricsPrefix +:+ n)%string) names.
Definition etcd_metrics : list string := prefixed
  ["etcd.request.duration.seconds.bucket"; "etcd.request.duration.seconds"; "etcd.db.total.size.in.bytes.gauge";
   "workqueue.adds.total.counter"; "workqueue.queue.duration.seconds.bucket"; "workqueue.queue.duration.seconds"].
Definition apiserver_metrics : list string := prefixed
  ["apiserver.request.duration.seconds.bucket"; "apiserver.request.duration.seconds"; "apiserver.request.total.counter";
   "apiserver.storage.objects.gauge"].
Definition apiServerTagAllowList : gmap string (list string) :=
  {["resource" := ["customresourcedefinitions"; "namespaces"; "lease"; "nodes"; "pods"; "tokenreviews"; "subjectaccessreviews"]]}.

(** [buildPromConfigs]; an error is logged and leaves no configuration. *)
Definition buildPromConfigs (interval : Z) (kubeConfigs : result rest_config) : list PrometheusSourceConfig :=
  match kubeConfigs with
  | Err _ => []
  | Ok kubeConfig =>
      let httpClientConfig := generateHTTPCfg kubeConfig in
      [createPrometheusSourceConfig "etcd-workqueue" httpClientConfig etcd_metrics ∅ (interval + jitterTime)%Z;
       createPrometheusSourceConfig "apiserver" httpClientConfig apiserver_metrics apiServerTagAllowList interval]
  end.

Definition controlplane_NewProvider (Endpoints : string -> string -> result (list EndpointSubset)) (interval : Z)
    (kubeConfigs : result rest_config) : result (list prometheusProvider) :=
  foldM (fun providers promCfg =>
           match NewPrometheusProvider promCfg (InstancesFromEndpoints Endpoints) with
           | Ok p => Ok (providers ++ [p])
           | Err msg => Err ("error building prometheus sources for control plane: " +:+ msg)%string
           end) [] (buildPromConfigs interval kubeConfigs).
Definition controlplane_sources (leading : bool) (providers : list prometheusProvider) : list prometheusMetricsSource :=
  providers ≫= provider_sources leading.

Definition controlplane_DiscoveryPluginConfigs (a : AgentType) (interval timeout : Z) : list Rule :=
  if negb (ScrapeAnyNodes a) then []
  else [MkPlugin "coredns-discovery-controlplane" "prometheus"
          (MkSelectors "" ["*coredns:*"] {["k8s-app" := ["kube-dns"]]} []) "9153"
          (MkRest "http" "/metrics" "" "" cp_metricsPrefix ∅ ""
             (Config.MkConfig (prefixed ["coredns.dns.request.duration.seconds.bucket"; "coredns.dns.responses.total.counter"])
                [] ∅ ∅ [] [] [] [] ∅ ∅)
             (MkCollection interval timeout) true)].
End prometheus.

(** ** Lemmas *)

(** A service's name and namespace are found in its DNS name. *)
Lemma matchNSName_service name namespace rest :
  str_free "." name = true -> str_free "." namespace = true -> name <> "" -> namespace <> "" ->
  matchNSName (name +:+ "." +:+ namespace +:+ ".svc" +:+ rest)%string = Some (name, namespace).
Proof.
  intros Hn Hs Hn' Hs'. unfold matchNSName.
  change ("." +:+ namespace +:+ ".svc" +:+ rest)%string with (String "." (namespace +:+ String "." ("svc" +:+ rest)))%string.
  rewrite split_first_free by done. rewrite split_first_free by done.
  apply String.eqb_neq in Hn', Hs'. by rewrite Hn', Hs'.
Qed.

(** The dot that is not escaped: no namespace, and yet a match. *)
Example matchNSName_loose : matchNSName "abcdef.svc" = Some ("abcd", "f").
Proof. by vm_compute. Qed.

Lemma foldM_snoc {A B} (f : A -> result B) l acc :
  foldM (fun bs a => b ← f a; Ok (bs ++ [b])) acc l =
  match foldM (fun bs a => b ← f a; Ok (bs ++ [b])) [] l with Ok bs => Ok (acc ++ bs) | Err e => Err e end.
Proof.
  revert acc; induction l as [|a l IH]; intros acc; cbn [foldM].
  - by rewrite app_nil_r.
  - destruct (f a) as [b|e]; cbn [mbind result_bind]; [|done]. rewrite (IH (acc ++ [b])), (IH ([] ++ [b])).
    destruct (foldM _ [] l); [|done]. by rewrite <- app_assoc.
Qed.

Section prometheus_spec.
Context {U Cert : Type} (ParseRequestURI : string -> result U) (url_Host : U -> string) (with_url_host : string -> U -> U)
  (url_String : U -> string).
Context (ReadFile : string -> result string) (LoadX509KeyPair : string -> string -> result Cert)
  (Quote : string -> string) (glob_compile : string -> option Glob) (EncodeKey : string -> tagmap -> string) (e : env).
Abbreviation new_source := (NewPrometheusMetricsSource ReadFile LoadX509KeyPair Quote EncodeKey e).
Abbreviation new_provider := (NewPrometheusProvider ParseRequestURI url_String ReadFile LoadX509KeyPair Quote glob_compile EncodeKey e).
Abbreviation sources_of := (provider_sources url_Host with_url_host).

(** A client can be made for every page. *)
Definition client_ok (cfg : ClientConfig) : Prop :=
  forall url, is_ok (httpClient ReadFile LoadX509KeyPair Quote url cfg) = true.

Lemma new_source_ok cfg url prefix source discovered tags filters :
  client_ok cfg -> exists s, new_source url prefix source discovered tags filters cfg = Ok s /\
    px_metricsURL s = url /\ px_prefix s = prefix /\ px_source s = source /\ px_tags s = tags /\ px_filters s = filters /\
    px_autoDiscovered s = negb (String.eqb discovered "").
Proof.
  intros H. specialize (H url). unfold NewPrometheusMetricsSource.
  destruct (httpClient _ _ _ url cfg) as [c|]; [|done]. by eexists.
Qed.

(** What the sources of a provider are, page by page. *)
Definition source_for (cfg : PrometheusSourceConfig) (url : U) (i : Instance_) (s : prometheusMetricsSource (Cert := Cert)) : Prop :=
  let t := ps_Transforms cfg in
  px_metricsURL s = url_String (with_url_host (i_Host i) url) /\ px_prefix s = tr_Prefix t /\
  px_source s = GetStringValue (GetStringValue (tr_Source t) (GetNodeName e)) "prom_source" /\
  px_tags s = source_tags (tr_Tags t) (i_Tags i) /\ px_filters s = FromConfig glob_compile (tr_Filters t) /\
  px_autoDiscovered s = negb (String.eqb (ps_Discovered cfg) "").

Lemma GetStringValue_empty s : GetStringValue s "" = s.
Proof. unfold GetStringValue. by destruct (String.eqb_spec s "") as [->|]. Qed.

(** The sources of a Prometheus provider.  The provider is made exactly
    when its URL parses; it has one source for each instance behind the URL's
    host, in order, scraping that instance with the configured prefix, source,
    filters and tags, over which the instance's own tags win; and none while
    another node leads, when the source is not discovered or asks for
    leadership. *)
Lemma prometheus_provider_spec (cfg : PrometheusSourceConfig) (lookup : string -> result (list Instance_)) :
  client_ok (ps_HTTPClientConfig cfg) ->
  match ParseRequestURI (ps_URL cfg) with
  | Err msg => new_provider cfg lookup = Err msg
  | Ok url => exists p, new_provider cfg lookup = Ok p /\
      pp_name p = provider_name (ps_Name cfg) (ps_URL cfg) /\
      forall leading,
        let active := leading || negb (ps_UseLeaderElection cfg || String.eqb (ps_Discovered cfg) "") in
        match lookup (url_Host url) with
        | Ok instances => Forall2 (source_for cfg url) (if active then instances else []) (sources_of leading p)
        | Err _ => sources_of leading p = []
        end
  end.
Proof.
  intros Hc. unfold NewPrometheusProvider. destruct (ParseRequestURI (ps_URL cfg)) as [url|]; [|done].
  eexists. split; [reflexivity|]. split; [done|]. intros leading. cbv zeta.
  unfold provider_sources, GetMetricsSources. cbn [pp_lookupInstances pp_buildSource pp_useLeaderElection pp_URL].
  unfold uses_leader_election. rewrite !GetStringValue_empty.
  replace (_ && negb leading) with
    (negb (leading || negb (ps_UseLeaderElection cfg || String.eqb (ps_Discovered cfg) ""))) by
    (by destruct leading, (ps_UseLeaderElection cfg), (String.eqb (ps_Discovered cfg) "")).
  destruct (leading || negb (ps_UseLeaderElection cfg || String.eqb (ps_Discovered cfg) "")); cbn [negb].
  - destruct (lookup (url_Host url)) as [instances|]; [|done].
    induction instances as [|i l IH]; [constructor|]. cbn [omap list_omap].
    destruct (new_source_ok (ps_HTTPClientConfig cfg) (url_String (with_url_host (i_Host i) url)) (tr_Prefix (ps_Transforms cfg))
      (GetStringValue (GetStringValue (tr_Source (ps_Transforms cfg)) (GetNodeName e)) "prom_source") (ps_Discovered cfg)
      (source_tags (tr_Tags (ps_Transforms cfg)) (i_Tags i)) (FromConfig glob_compile (tr_Filters (ps_Transforms cfg))) Hc)
      as (s & -> & H). constructor; [exact H|exact IH].
  - by destruct (lookup (url_Host url)).
Qed.

(** ** cadvisor *)

Section cadvisor_spec.
Context {IP K : Type} (ParseIP : string -> option IP).

Definition address_of (node : Node) : option IP :=
  match GetNodeHostnameAndIP ParseIP node with Ok (_, ip) => Some ip | Err _ => None end.

(** The nodes looked at, and those whose page is scraped. *)
Fixpoint upto (myNode : string) (nodes : list Node) : list Node :=
  match nodes with
  | [] => []
  | n :: nodes' => if String.eqb (node_Name n) myNode then [n] else n :: upto myNode nodes'
  end.
Definition looked_at (own : bool) (myNode : string) (nodes : list Node) : list Node :=
  if own then upto myNode nodes else nodes.
Definition scraped_nodes (own : bool) (myNode : string) (nodes : list Node) : list Node :=
  if own then List.filter (fun n => String.eqb (node_Name n) myNode) (upto myNode nodes) else nodes.

Lemma generate_loop_spec myNode own (kubeletURL : IP -> string -> K) nodes urls :
  match generate_loop ParseIP myNode own kubeletURL nodes urls with
  | Ok us => forallb (fun n => match address_of n with Some _ => true | None => false end) (looked_at own myNode nodes) = true /\
      us = urls ++ omap (fun n => (fun ip => kubeletURL ip cAdvisorEndpoint) <$> address_of n) (scraped_nodes own myNode nodes)
  | Err _ => forallb (fun n => match address_of n with Some _ => true | None => false end) (looked_at own myNode nodes) = false
  end.
Proof.
  revert urls; induction nodes as [|n nodes IH]; intros urls; cbn [generate_loop].
  { unfold looked_at, scraped_nodes. destruct own; cbn; by rewrite app_nil_r. }
  assert (Ha : address_of n = match GetNodeHostnameAndIP ParseIP n with Ok (_, ip) => Some ip | Err _ => None end) by done.
  destruct (GetNodeHostnameAndIP ParseIP n) as [[name ip]|msg]; cbn [mbind result_bind].
  2:{ unfold looked_at. destruct own; cbn [upto]; [destruct (String.eqb _ _)|]; cbn [forallb]; by rewrite Ha. }
  destruct own; [destruct (String.eqb_spec (node_Name n) myNode) as [E|E]|].
  - unfold looked_at, scraped_nodes. cbn [upto]. apply String.eqb_eq in E. rewrite E. cbn. rewrite E, Ha. cbn. by rewrite Ha.
  - specialize (IH urls). unfold looked_at, scraped_nodes in *. cbn [upto]. apply String.eqb_neq in E. rewrite E.
    cbn [forallb List.filter]. by rewrite E, Ha.
  - specialize (IH (urls ++ [kubeletURL ip cAdvisorEndpoint])). unfold looked_at, scraped_nodes in *.
    cbn [forallb omap list_omap]. rewrite Ha. cbn. by rewrite <- app_assoc in IH.
Qed.

Lemma cadvisor_loop (K_String : K -> string) cfg kube urls :
  client_ok (generateHTTPCfg kube) ->
  exists l, foldM (fun sources url =>
      s ← generatePrometheusSource ReadFile LoadX509KeyPair Quote glob_compile EncodeKey e cfg (K_String url) kube;
      Ok (sources ++ [s])) [] urls = Ok l /\
    Forall2 (fun url s => px_metricsURL s = K_String url /\ px_prefix s = tr_Prefix (ca_Transforms cfg) /\
      px_source s = tr_Source (ca_Transforms cfg) /\ px_tags s = tr_Tags (ca_Transforms cfg) /\ px_autoDiscovered s = false) urls l.
Proof.
  intros Hc. induction urls as [|u urls (l & Hl & HF)]; [by exists []|].
  destruct (new_source_ok (generateHTTPCfg kube) (K_String u) (tr_Prefix (ca_Transforms cfg)) (tr_Source (ca_Transforms cfg)) ""
    (tr_Tags (ca_Transforms cfg)) (FromConfig glob_compile (tr_Filters (ca_Transforms cfg))) Hc)
    as (s & Hs & H1 & H2 & H3 & H4 & _ & H5).
  cbn [foldM]. unfold generatePrometheusSource at 2. cbn beta zeta. rewrite Hs. cbn [mbind result_bind app].
  rewrite foldM_snoc, Hl. exists (s :: l). split; [done|]. by constructor.
Qed.

(** The cadvisor sources.  An agent that scrapes nodes has one source for
    the page of each node, or of its own node alone; but a single node that is
    not ready or has no address, even one that is not this agent's and is
    only listed before it, leaves it without any.  An agent of the cluster
    has none. *)
Theorem cadvisor_sources_spec (K_String : K -> string) (a : AgentType) (nodes : list Node)
    (kubeletURL : IP -> string -> K) (cfg : CadvisorSourceConfig) (kube : rest_config) :
  client_ok (generateHTTPCfg kube) ->
  let my := GetNodeName e in
  let own := ScrapeOnlyOwnNode a in
  let all_addressed := forallb (fun n => match address_of n with Some _ => true | None => false end) (looked_at own my nodes) in
  let pages := omap (fun n => (fun ip => kubeletURL ip cAdvisorEndpoint) <$> address_of n) (scraped_nodes own my nodes) in
  Forall2 (fun url s => px_metricsURL s = K_String url /\ px_prefix s = tr_Prefix (ca_Transforms cfg) /\
      px_source s = tr_Source (ca_Transforms cfg) /\ px_tags s = tr_Tags (ca_Transforms cfg) /\ px_autoDiscovered s = false)
    (if ScrapeAnyNodes a && all_addressed then pages else [])
    (cadvisor_sources ReadFile LoadX509KeyPair Quote glob_compile EncodeKey e ParseIP K_String a (Ok nodes) kubeletURL cfg kube).
Proof.
  intros Hc my own all_addressed pages. unfold cadvisor_sources.
  destruct (ScrapeAnyNodes a); cbn [negb andb]; [|constructor].
  unfold GenerateURLs. cbn [mbind result_bind]. pose proof (generate_loop_spec my own kubeletURL nodes []) as H.
  fold my own. destruct (generate_loop ParseIP my own kubeletURL nodes []) as [us|msg].
  - destruct H as [Hall ->]. unfold all_addressed. rewrite Hall.
    destruct (cadvisor_loop K_String cfg kube pages Hc) as (l & Hl & HF). unfold pages in *. cbn [app].
    by rewrite Hl.
  - unfold all_addressed. rewrite H. constructor.
Qed.
End cadvisor_spec.

(** ** The control plane *)

(** The control plane.  When the configuration for the API server can be
    had, there are two providers, and while this node leads each of them has
    a source for every instance behind the API service, whose metrics are
    the allowed ones alone; while another node leads there are none.
    Otherwise there are never any, and no error says so. *)
Theorem controlplane_spec (Endpoints : string -> string -> result (list EndpointSubset)) (interval : Z)
    (kube : result rest_config) (url : U) :
  ParseRequestURI cp_metricsURL = Ok url -> url_Host url = "kubernetes.default.svc" ->
  (forall c, kube = Ok c -> client_ok (generateHTTPCfg c)) ->
  exists ps, controlplane_NewProvider ParseRequestURI url_String ReadFile LoadX509KeyPair Quote glob_compile EncodeKey e
      Endpoints interval kube = Ok ps /\
    match kube with
    | Err _ => ps = []
    | Ok c =>
        map pp_name ps = ["prometheus_metrics_provider: etcd-workqueue"; "prometheus_metrics_provider: apiserver"] /\
        controlplane_sources url_Host with_url_host false ps = [] /\
        forall instances, (subsets ← Endpoints "default" "kubernetes"; instancesFromEndpoints subsets) = Ok instances ->
          Forall2 (fun '(allowed, tags, i) s =>
              px_metricsURL s = url_String (with_url_host (i_Host i) url) /\ px_tags s = default ∅ (i_Tags i) /\
              px_prefix s = cp_metricsPrefix /\ px_source s = cp_metricsSource /\
              px_filters s = FromConfig glob_compile (Config.MkConfig allowed [] tags ∅ [] [] [] [] ∅ ∅))
            (map (fun i => (etcd_metrics, ∅, i)) instances ++ map (fun i => (apiserver_metrics, apiServerTagAllowList, i)) instances)
            (controlplane_sources url_Host with_url_host true ps)
    end.
Proof.
  intros Hu Hh Hc. destruct kube as [c|msg]; [|by exists []]. specialize (Hc c eq_refl).
  set (lookup := InstancesFromEndpoints Endpoints). set (http := generateHTTPCfg c) in *.
  set (cfg1 := createPrometheusSourceConfig "etcd-workqueue" http etcd_metrics ∅ (interval + jitterTime)%Z).
  set (cfg2 := createPrometheusSourceConfig "apiserver" http apiserver_metrics apiServerTagAllowList interval).
  pose proof (prometheus_provider_spec cfg1 lookup Hc) as H1. pose proof (prometheus_provider_spec cfg2 lookup Hc) as H2.
  cbn [ps_URL cfg1 cfg2 createPrometheusSourceConfig] in H1, H2. rewrite Hu in H1, H2.
  destruct H1 as (p1 & E1 & N1 & S1), H2 as (p2 & E2 & N2 & S2). exists [p1; p2]. split.
  { unfold controlplane_NewProvider, buildPromConfigs. cbn [foldM]. fold lookup http cfg1 cfg2.
    rewrite E1. cbn [mbind result_bind]. by rewrite E2. }
  split; [cbn [map]; by rewrite N1, N2|].
  assert (Hl : lookup (url_Host url) = subsets ← Endpoints "default" "kubernetes"; instancesFromEndpoints subsets).
  { unfold lookup, InstancesFromEndpoints. rewrite Hh. done. }
  assert (Hs : forall leading, controlplane_sources url_Host with_url_host leading [p1; p2] =
            sources_of leading p1 ++ sources_of leading p2)
    by (intros leading; unfold controlplane_sources; cbn [mbind list_bind]; by rewrite app_nil_r).
  rewrite !Hs. split.
  - specialize (S1 false). specialize (S2 false). cbn zeta in S1, S2.
    destruct (lookup (url_Host url)) as [instances|]; [|by rewrite S1, S2].
    apply Forall2_nil_inv_l in S1, S2. by rewrite S1, S2.
  - intros instances HI. specialize (S1 true). specialize (S2 true). cbn zeta in S1, S2. rewrite Hl, HI in S1, S2.
    assert (Htags : forall i, source_tags ∅ (i_Tags i) = default ∅ (i_Tags i)).
    { intros i. unfold source_tags, copy_into. by rewrite !map_union_empty. }
    apply Forall2_app; apply Forall2_fmap_l.
    + eapply Forall2_impl; [exact S1|]. intros i s (A & B & C & D & F & _). cbn in *. by rewrite <- Htags.
    + eapply Forall2_impl; [exact S2|]. intros i s (A & B & C & D & F & _). cbn in *. by rewrite <- Htags.
Qed.
End prometheus_spec.

(** ** Concrete instances *)

(** URLs as they are written, cut at the slashes. *)
Definition split_url (s : string) : result string :=
  match split_on "/" s with [_; _; host; _] => Ok host | _ => Err "invalid URI" end.
Definition print_url (host : string) : string := "https://" +:+ host +:+ "/metrics".
Definition one_node (name ip : string) (ready : bool) : Node :=
  MkNode name ∅ [MkCondition "Ready" (if ready then "True" else "False")] [MkAddress "InternalIP" ip] ∅ ∅.
Definition insecure_config : rest_config := MkRest_ "https://kube" None "" "" "" true "" "" "" "" "".

Lemma insecure_client_ok : client_ok (Cert := unit) (fun _ => Ok "pem") (fun _ _ => Err "") id (generateHTTPCfg insecure_config).
Proof. intros url. unfold httpClient, client_config. by destruct (contains _ url). Qed.

Lemma controlplane_spec_witness :
  let Endpoints := fun ns name : string => if String.eqb name "kubernetes" && String.eqb ns "default"
                     then Ok [MkSubset ["127.0.0.1"; "127.0.0.2"] [MkEndpointPort "https" 6443]] else Err "not found" in
  exists ps, controlplane_NewProvider (Cert := unit) split_url print_url (fun _ => Ok "pem") (fun _ _ => Err "") id (fun _ => None)
      (fun k _ => k) ∅ Endpoints (60 * second) (Ok insecure_config) = Ok ps /\
    map px_metricsURL (controlplane_sources id (fun h _ => h) true ps) =
      ["https://127.0.0.1:6443/metrics"; "https://127.0.0.2:6443/metrics";
       "https://127.0.0.1:6443/metrics"; "https://127.0.0.2:6443/metrics"].
Proof.
  intros Endpoints.
  destruct (controlplane_spec (Cert := unit) split_url id (fun h _ => h) print_url (fun _ => Ok "pem") (fun _ _ => Err "") id
    (fun _ => None) (fun k _ => k) ∅ Endpoints (60 * second)%Z (Ok insecure_config)
    "kubernetes.default.svc" eq_refl eq_refl) as (ps & E & _ & _ & H).
  - intros c [= <-]. apply insecure_client_ok.
  - exists ps. split; [exact E|].
    specialize (H [instance_at "127.0.0.1" 6443; instance_at "127.0.0.2" 6443] ltac:(by vm_compute)).
    revert H. generalize (controlplane_sources (U := string) (Cert := unit) id (fun h _ => h) true ps) as l. intros l H. cbn [map app] in H.
    repeat match goal with H : Forall2 _ (_ :: _) _ |- _ =>
      let s := fresh "s" in let tl := fresh "l" in let Hs := fresh "Hs" in let Hl := fresh "Hl" in
      apply Forall2_cons_inv_l in H as (s & tl & [Hs _] & Hl & ->) end.
    match goal with H : Forall2 _ [] _ |- _ => apply Forall2_nil_inv_l in H as -> end. cbn [map].
    repeat match goal with H : px_metricsURL _ = _ |- _ => rewrite H; clear H end. by vm_compute.
Defined.

(** The page of this agent's node is not scraped because another node is not
    ready. *)
Lemma cadvisor_sources_spec_witness :
  cadvisor_sources (Cert := unit) (fun _ => Ok "pem") (fun _ _ => Err "") id (fun _ => None) (fun k _ => k)
    {["POD_NODE_NAME" := "mine"]} Some id LegacyAgentType (Ok [one_node "other" "10.0.0.1" false; one_node "mine" "10.0.0.2" true])
    (fun ip path => "https://" +:+ ip +:+ path)%string (MkCadvisor transforms_zero collection_zero) insecure_config = [] /\
  map px_metricsURL (cadvisor_sources (Cert := unit) (fun _ => Ok "pem") (fun _ _ => Err "") id (fun _ => None) (fun k _ => k)
    {["POD_NODE_NAME" := "mine"]} Some id LegacyAgentType (Ok [one_node "mine" "10.0.0.2" true; one_node "other" "10.0.0.1" false])
    (fun ip path => "https://" +:+ ip +:+ path)%string (MkCadvisor transforms_zero collection_zero) insecure_config)
  = ["https://10.0.0.2/metrics/cadvisor"].
Proof.
  split.
  - pose proof (cadvisor_sources_spec (Cert := unit) (fun _ => Ok "pem") (fun _ _ => Err "") id (fun _ => None)
      (fun k _ => k) {["POD_NODE_NAME" := "mine"]} Some id LegacyAgentType [one_node "other" "10.0.0.1" false; one_node "mine" "10.0.0.2" true]
      (fun ip path => "https://" +:+ ip +:+ path)%string (MkCadvisor transforms_zero collection_zero) insecure_config insecure_client_ok) as H.
    cbv zeta in H. match type of H with Forall2 _ ?l _ => replace l with (@nil string) in H by by vm_compute end.
    by apply Forall2_nil_inv_l in H.
  - pose proof (cadvisor_sources_spec (Cert := unit) (fun _ => Ok "pem") (fun _ _ => Err "") id (fun _ => None)
      (fun k _ => k) {["POD_NODE_NAME" := "mine"]} Some id LegacyAgentType [one_node "mine" "10.0.0.2" true; one_node "other" "10.0.0.1" false]
      (fun ip path => "https://" +:+ ip +:+ path)%string (MkCadvisor transforms_zero collection_zero) insecure_config insecure_client_ok) as H.
    cbv zeta in H. match type of H with Forall2 _ ?l _ =>
      replace l with ["https://10.0.0.2/metrics/cadvisor"] in H by by vm_compute end.
    apply Forall2_cons_inv_l in H as (s & l & [Hs _] & Hl & E). rewrite E.
    apply Forall2_nil_inv_l in Hl as ->. cbn [map]. by rewrite Hs.
Defined.

(** The errors of a cadvisor scrape.  Decorating a source changes neither
    its name nor what it gives; an error stays an error and no error appears,
    and only for the answers 401 and 403 does its text change, which then
    names the missing permission before the text it had. *)
Theorem permission_errors_spec {W B : Type} (src : Source W B) (w : W) :
  let dec := NewErrorDecorator src TransformPermissionError in
  src_Name dec = src_Name src /\ src_AutoDiscovered dec = src_AutoDiscovered src /\
  (src_Scrape dec w).1 = (src_Scrape src w).1 /\
  (option_map Error (src_Scrape dec w).2 =
     match (src_Scrape src w).2 with
     | Some err =>
         Some match err with
              | HTTPError _ _ code => if decide (code ∈ [401; 403])%Z
                  then "missing nodes/metrics permission in the collector's cluster role: " +:+ Error err else Error err
              | OtherError msg => msg
              end
     | None => None
     end)%string.
Proof.
  cbn. destruct (src_Scrape src w) as [b [[url status code|msg]|]]; cbn; split_and!; try done.
  destruct (Z.eqb_spec code 401) as [->|H1]; [done|]. destruct (Z.eqb_spec code 403) as [->|H2]; [done|].
  cbn [orb]. rewrite decide_False; [done|]. set_solver.
Qed.
