(* ===== verification/Flush.v ===== *)
(** The agent's life: internal/agent/agent.go, the loop of
    plugins/manager/manager.go and the reloader of
    cmd/wavefront-collector/main.go.

    A flush manager runs a loop that starts one goroutine for each tick; the
    goroutines overlap when a flush takes longer than the interval, and go on
    after the manager is stopped.  What one flush does to the batches it takes
    is [push] of SourceManager.v; here a flush is what it takes and how it
    ends, and the subject is what happens to the batches in every
    interleaving.  The batches wait in the source manager, which all agents
    share. *)

From S2P Require Import Prelude.

Section flush.
Context {B : Type}.

Inductive loop := Running | Stopped.
(** Whether the loop of a manager runs, and how often its sink was stopped. *)
Record flush_manager := MkFlush { fm_loop : loop; fm_sink_stops : nat }.
(** [NewFlushManager] followed by [Start]. *)
Definition started : flush_manager := MkFlush Running 0.
(** What the loop does when it receives from [stopChan]. *)
Definition stop_loop (m : flush_manager) : flush_manager := MkFlush Stopped (S (fm_sink_stops m)).

(** A goroutine of [push]: started, or with the batches it took. *)
Inductive push_state := Spawned | Taken (batches : list B).

(** One manager per agent so far, the last being the current one, the
    goroutines with their manager, and where the batches are. *)
Record agent_state := MkAgents {
  managers : list flush_manager;
  pushes : list (nat * push_state);
  waiting : list B;
  exported : list (nat * list B);
  dropped : list B;
  collected : list B;  (** every batch so far *)
}.
Definition first_agent : agent_state := MkAgents [started] [] [] [] [] [].

Inductive push_step : agent_state -> agent_state -> Prop :=
  | push_take s pre i post :
      pushes s = pre ++ (i, Spawned) :: post ->
      push_step s (MkAgents (managers s) (pre ++ (i, Taken (waiting s)) :: post) [] (exported s) (dropped s) (collected s))
  | push_export s pre i bs post :
      pushes s = pre ++ (i, Taken bs) :: post ->
      push_step s (MkAgents (managers s) (pre ++ post) (waiting s) (exported s ++ [(i, bs)]) (dropped s) (collected s))
  | push_fail s pre i bs post :  (** a processor returns an error *)
      pushes s = pre ++ (i, Taken bs) :: post ->
      push_step s (MkAgents (managers s) (pre ++ post) (waiting s) (exported s) (dropped s ++ bs) (collected s)).

Inductive agent_step : agent_state -> agent_state -> Prop :=
  | agent_collect s b :
      agent_step s (MkAgents (managers s) (pushes s) (waiting s ++ [b]) (exported s) (dropped s) (collected s ++ [b]))
  | agent_tick s i n :
      managers s !! i = Some (MkFlush Running n) ->
      agent_step s (MkAgents (managers s) (pushes s ++ [(i, Spawned)]) (waiting s) (exported s) (dropped s) (collected s))
  | agent_push s s' : push_step s s' -> agent_step s s'
  | agent_Stop s i n :  (** [Stop] returns once the loop has received *)
      managers s !! i = Some (MkFlush Running n) ->
      agent_step s (MkAgents (<[i := stop_loop (MkFlush Running n)]> (managers s)) (pushes s) (waiting s) (exported s)
                      (dropped s) (collected s))
  | agent_reload s ms n :  (** [handleCollectorCfg], after [Stop]: a new agent *)
      managers s = ms ++ [MkFlush Stopped n] ->
      agent_step s (MkAgents (managers s ++ [started]) (pushes s) (waiting s) (exported s) (dropped s) (collected s)).

Definition taken (p : nat * push_state) : list B := match p.2 with Spawned => [] | Taken bs => bs end.

(** How far the goroutines are from their end. *)
Definition work (s : agent_state) : nat :=
  sum_list_with (fun p => match p.2 with Spawned => 2 | Taken _ => 1 end) (pushes s).

Lemma push_step_work s s' : push_step s s' -> work s' < work s.
Proof.
  destruct 1 as [s pre i post E|s pre i bs post E|s pre i bs post E]; unfold work; rewrite E; cbn [pushes];
    rewrite !sum_list_with_app; cbn; lia.
Qed.

Lemma push_step_enabled s : pushes s <> [] -> exists s', push_step s s'.
Proof.
  destruct (pushes s) as [|[i [|bs]] l] eqn:E; [done|..]; intros _; eexists;
    [by apply (push_take s [] i l)|by apply (push_export s [] i bs l)].
Qed.

Lemma push_step_managers s s' : push_step s s' -> managers s' = managers s /\ collected s' = collected s.
Proof. by destruct 1. Qed.

(** Where the batches are. *)
Definition batches_of (s : agent_state) : list B :=
  waiting s ++ (pushes s ≫= taken) ++ (exported s ≫= snd) ++ dropped s.

Lemma push_step_batches s s' : push_step s s' -> batches_of s' ≡ₚ batches_of s.
Proof.
  destruct 1 as [s pre i post E|s pre i bs post E|s pre i bs post E]; unfold batches_of;
    cbn [waiting pushes exported dropped]; rewrite E, !bind_app; cbn; rewrite ?app_nil_r; solve_Permutation.
Qed.

Lemma push_steps_batches s s' : rtc push_step s s' -> batches_of s' ≡ₚ batches_of s.
Proof.
  induction 1 as [|s1 s2 s3 H _ IH]; [done|]. etransitivity; [exact IH|by apply push_step_batches].
Qed.

(** The managers: all but the last are stopped, and a sink is stopped when
    its manager is, once. *)
Definition manager_good (m : flush_manager) : Prop :=
  fm_sink_stops m = match fm_loop m with Running => 0 | Stopped => 1 end.
Record agent_inv (s : agent_state) : Prop := {
  inv_batches : batches_of s ≡ₚ collected s;
  inv_managers : Forall manager_good (managers s);
  inv_one i m : managers s !! i = Some m -> fm_loop m = Running -> i = pred (length (managers s));
  inv_pushes : Forall (fun p => p.1 < length (managers s)) (pushes s);
}.

Lemma push_step_pushes s s' (P : nat -> Prop) : push_step s s' ->
  Forall (fun p => P p.1) (pushes s) -> Forall (fun p => P p.1) (pushes s').
Proof.
  destruct 1 as [s pre i post E|s pre i bs post E|s pre i bs post E]; cbn [pushes]; rewrite E, !Forall_app, !Forall_cons;
    naive_solver.
Qed.

Lemma agent_step_inv s s' : agent_inv s -> agent_step s s' -> agent_inv s'.
Proof.
  intros [Hb Hm Ho Hp]. destruct 1 as [s b|s i n Hi|s s' Hs|s i n Hi|s ms n Hms].
  - split; [|done|done|done]. cbn [collected]. etransitivity; [|apply Permutation_app_tail, Hb]. unfold batches_of.
    cbn [waiting pushes exported dropped]. solve_Permutation.
  - split; [|done|done|].
    + unfold batches_of in *. cbn [waiting pushes exported dropped collected].
      rewrite bind_app. cbn [mbind list_bind taken snd]. by rewrite !app_nil_r.
    + cbn [pushes managers]. apply Forall_app. split; [done|]. apply Forall_singleton. cbn. by eapply lookup_lt_Some.
  - destruct (push_step_managers s s' Hs) as [Em Ec]. split; rewrite ?Em, ?Ec; [|done|done|].
    + by rewrite push_step_batches.
    + by apply (push_step_pushes s s' (fun i => i < length (managers s))).
  - split; cbn [managers pushes]; [done| | |by rewrite length_insert].
    + apply Forall_insert; [done|]. unfold manager_good, stop_loop. cbn.
      eapply Forall_lookup_1 in Hm; [|exact Hi]. cbn in Hm. by rewrite Hm.
    + intros j m. rewrite length_insert. destruct (decide (j = i)) as [->|Hne].
      * rewrite list_lookup_insert_eq by by eapply lookup_lt_Some. by intros [= <-].
      * rewrite list_lookup_insert_ne by done. apply Ho.
  - split; cbn [managers pushes]; [done| | |].
    + apply Forall_app. split; [done|]. by apply Forall_singleton.
    + intros j m Hj Hr. rewrite length_app. cbn [length].
      apply lookup_app_Some in Hj as [Hj|[Hlen Hj]].
      * exfalso. pose proof (Ho j m Hj Hr) as E. rewrite Hms, length_app in E. cbn in E.
        rewrite Hms in Hj. rewrite lookup_app_r in Hj by lia. replace (j - length ms) with 0 in Hj by lia.
        by injection Hj as <-.
      * apply list_lookup_singleton_Some in Hj as [Hj _]. lia.
    + eapply Forall_impl; [exact Hp|]. cbn. intros x Hx. rewrite length_app. lia.
Qed.

Lemma first_agent_inv : agent_inv first_agent.
Proof.
  split; [done|by apply Forall_singleton| |constructor].
  intros i m Hi _. cbn in *. by apply list_lookup_singleton_Some in Hi as [-> _].
Qed.

Lemma steps_inv s s' : rtc agent_step s s' -> agent_inv s -> agent_inv s'.
Proof. induction 1 as [|s1 s2 s3 H _ IH]; [done|]. intros H1. apply IH. by eapply agent_step_inv. Qed.

End flush.

