(* ===== verification/LineGrammar.v ===== *)
(** The grammar of the lines the test proxy receives:
    internal/testproxy/metrics/metric_grammar.peg.go, generated from
    metric_grammar.peg.

    A rule reads runes and yields tokens; when it fails, the generated code
    resets the position and the token index, so a rule is a function that
    returns what it read or nothing.  Only the tokens that [Execute] acts on
    are kept (captured texts and actions); those of the other rules serve the
    printing of syntax trees.  The text of a parse error, which is only logged,
    is left out.  The loops of the generated code end because every round
    reads a rune: the number of runes left is fuel enough ([many_eq]). *)

From Stdlib Require Import ZArith Lia.
From S2P Require Import Prelude Utf8.

Inductive token :=
  | PegText (text : list Z)
  | Action0 | Action1 | Action2 | Action3 | Action4 | Action5 | Action6.

Definition rule := list Z -> option (list token * list Z).

(** ** What rules are made of *)

Definition sat (f : Z -> bool) : rule := fun s =>
  match s with c :: s' => if f c then Some ([], s') else None | [] => None end.
Definition char (c : Z) : rule := sat (Z.eqb c).
Definition matchDot : rule := sat (fun _ => true).
Definition add (t : token) : rule := fun s => Some ([t], s).
Definition empty : rule := fun s => Some ([], s).
Definition seq (p q : rule) : rule := fun s =>
  match p s with
  | Some (t1, s1) => match q s1 with Some (t2, s2) => Some (t1 ++ t2, s2) | None => None end
  | None => None
  end.
Definition seqs (ps : list rule) : rule := foldr seq empty ps.
Definition alt (p q : rule) : rule := fun s => match p s with Some r => Some r | None => q s end.
Definition opt (p : rule) : rule := alt p empty.
(** [!p] *)
Definition unless (p : rule) : rule := fun s => match p s with Some _ => None | None => Some ([], s) end.
(** [<p>]: the text between the two positions. *)
Definition capture (p : rule) : rule := fun s =>
  match p s with
  | Some (t, s') => Some (t ++ [PegText (take (length s - length s') s)], s')
  | None => None
  end.
Fixpoint many_fuel (n : nat) (p : rule) (s : list Z) : list token * list Z :=
  match n with
  | O => ([], s)
  | S n => match p s with
           | Some (t, s') => let '(t', s'') := many_fuel n p s' in (t ++ t', s'')
           | None => ([], s)
           end
  end.
Definition many (p : rule) : rule := fun s => Some (many_fuel (S (length s)) p s).
Definition plus (p : rule) : rule := seq p (many p).

(** ** The rules *)

Definition digit (c : Z) : bool := in_range 48 57 c.
Definition alnum (c : Z) : bool := digit c || in_range 65 90 c || in_range 97 122 c.
Definition one_of (l : list Z) (c : Z) : bool := existsb (Z.eqb c) l.

(** The runes of the grammar by their numbers: the quote, the backslash, the
    space, the increment sign and the tilde have names. *)
Definition quote : Z := 34.
Definition backslash : Z := 92.
Definition space : Z := 32.
Definition increment : Z := 8710.
Definition tilde : Z := 126.

Definition DIGIT : rule := sat digit.
Definition ALNUM : rule := sat alnum.

Definition metricName_text : rule :=
  seqs [opt (char increment); opt (char tilde); plus (alt ALNUM (sat (one_of [44; 47; 46; 95; 45; 126]%Z)))].
Definition metricName : rule :=
  seqs [alt (seqs [char quote; capture metricName_text; char quote]) (capture metricName_text); add Action6].

Definition metricValue : rule :=
  seqs [capture (seqs [opt (char 45); plus DIGIT; opt (seqs [char 46; plus DIGIT])]); add Action5].

Definition timestamp : rule :=
  seqs [capture (seqs (replicate 10 DIGIT ++ [opt (seqs [DIGIT; DIGIT; DIGIT]); opt (seqs [DIGIT; DIGIT; DIGIT])]));
        add Action4].

Definition tagName : rule :=
  seqs [alt (seqs [char quote; capture (plus (alt ALNUM (sat (one_of [46; 95; 45; 47]%Z)))); char quote])
            (capture (plus (alt ALNUM (sat (one_of [46; 95; 45]%Z)))));
        add Action2].
Definition tagValue_char : rule := alt (seqs [char backslash; char quote]) (seqs [unless (char quote); matchDot]).
Definition tagValue : rule := seqs [char quote; capture (plus tagValue_char); char quote; add Action3].
Definition tag : rule := seqs [tagName; char 61; tagValue].
Definition tags : rule := seqs [add Action1; tag; many (seqs [char space; tag])].

Definition histogramValue : rule := seqs [char 35; plus DIGIT; char space; metricValue].
Definition histogramValues : rule := seqs [histogramValue; many (seqs [char space; histogramValue])].
Definition aggregationInterval : rule := seqs [char 33; sat (one_of [68; 72; 77]%Z); add Action0].

Definition optional_timestamp : rule := opt (seqs [char space; timestamp]).
Definition metric_grammar : rule :=
  alt (seqs [aggregationInterval; optional_timestamp; char space; histogramValues; char space; metricName; char space;
             tags; unless matchDot])
      (seqs [metricName; char space; metricValue; optional_timestamp; char space; tags; unless matchDot]).

(** ** Executing the tokens *)

Record MetricGrammar := MkMetricGrammar {
  Histogram : bool;
  Name : string;
  Value : string;
  Timestamp : string;
  Tags : gmap string string;
  currentTag : string;
}.

Definition execute_token (st : MetricGrammar * string) (t : token) : MetricGrammar * string :=
  let '(MkMetricGrammar h n v ts tags cur, text) := st in
  match t with
  | PegText rs => (MkMetricGrammar h n v ts tags cur, string_of rs)
  | Action0 => (MkMetricGrammar true n v ts tags cur, text)
  | Action1 => (MkMetricGrammar h n v ts ∅ cur, text)
  | Action2 => (MkMetricGrammar h n v ts tags text, text)
  | Action3 => (MkMetricGrammar h n v ts (<[cur := text]> tags) cur, text)
  | Action4 => (MkMetricGrammar h n v text tags cur, text)
  | Action5 => (MkMetricGrammar h n text ts tags cur, text)
  | Action6 => (MkMetricGrammar h text v ts tags cur, text)
  end.
Definition new_grammar : MetricGrammar := MkMetricGrammar false "" "" "" ∅ "".
Definition Execute (tokens : list token) : MetricGrammar := (foldl execute_token (new_grammar, "") tokens).1.

Definition Parse (line : string) : result MetricGrammar :=
  match metric_grammar (runes line) with
  | Some (tokens, _) => Ok (Execute tokens)
  | None => Err "parse error"
  end.

(** The examples of metric_test.go. *)
Definition q : string := String (Ascii.ascii_of_nat 34) "".
Example parse_histogram :
  is_ok (Parse ("!M 1493773500 #20 30 #10 5 request.latency source=" +:+ q +:+ "appServer1" +:+ q +:+ " region=" +:+ q
    +:+ "us-west" +:+ q)) = true.
Proof. by vm_compute. Qed.
Example parse_metric :
  Parse ("system.cpu.loadavg.1m 0.03 1382754475 source=" +:+ q +:+ "test1.wavefront.com" +:+ q) =
  Ok (MkMetricGrammar false "system.cpu.loadavg.1m" "0.03" "1382754475" {["source" := "test1.wavefront.com"]} "source").
Proof. by vm_compute. Qed.

(** ** Loops end *)

Definition consumes (p : rule) : Prop := forall s t s', p s = Some (t, s') -> (length s' < length s)%nat.

Lemma many_fuel_enough p n m s :
  consumes p -> (length s < n)%nat -> (length s < m)%nat -> many_fuel n p s = many_fuel m p s.
Proof.
  intros Hp. revert m s; induction n as [|n IH]; intros [|m] s Hn Hm; [lia..|]. cbn.
  destruct (p s) as [[t s']|] eqn:E; [|done]. apply Hp in E. rewrite (IH m s') by lia. done.
Qed.

(** The loop is what the grammar says: another round or nothing. *)
Lemma many_eq p s :
  consumes p -> many p s = match p s with
                           | Some (t, s') => match many p s' with Some (t', s'') => Some (t ++ t', s'') | None => None end
                           | None => Some ([], s)
                           end.
Proof.
  intros Hp. unfold many at 1. cbn [many_fuel]. destruct (p s) as [[t s']|] eqn:E; [|done].
  apply Hp in E. rewrite (many_fuel_enough p (length s) (S (length s')) s') by (lia || done).
  unfold many. by destruct (many_fuel _ p s').
Qed.

Lemma consumes_sat f : consumes (sat f).
Proof. intros [|c s] t s'; cbn; [done|]. destruct (f c); [|done]. intros [= <- <-]. lia. Qed.

(** ** Runs of runes of a class *)

(** A rule that reads one rune of a class and yields nothing. *)
Definition class (p : rule) (f : Z -> bool) : Prop := forall s, p s = sat f s.
Definition stops (f : Z -> bool) (r : list Z) : Prop := match r with [] => True | c :: _ => f c = false end.

Lemma class_sat f : class (sat f) f.
Proof. done. Qed.
Lemma class_alt p q f g : class p f -> class q g -> class (alt p q) (fun c => f c || g c).
Proof.
  intros Hp Hq s. unfold alt. rewrite Hp, Hq. destruct s as [|c s]; cbn; [done|]. by destruct (f c), (g c).
Qed.
Lemma class_consumes p f : class p f -> consumes p.
Proof. intros Hp s t s' H. rewrite Hp in H. by eapply consumes_sat. Qed.

Lemma many_class p f xs r : class p f -> forallb f xs = true -> stops f r -> many p (xs ++ r) = Some ([], r).
Proof.
  intros Hp. induction xs as [|x xs IH]; intros Hxs Hr; rewrite many_eq by (by eapply class_consumes); rewrite Hp.
  - destruct r as [|c r]; cbn; [done|]. cbn in Hr. by rewrite Hr.
  - cbn [forallb] in Hxs. apply andb_prop in Hxs as [Hx Hxs]. cbn [app sat]. rewrite Hx. by rewrite IH.
Qed.

Lemma plus_class p f xs r :
  class p f -> xs <> [] -> forallb f xs = true -> stops f r -> plus p (xs ++ r) = Some ([], r).
Proof.
  intros Hp Hne Hxs Hr. destruct xs as [|x xs]; [done|]. cbn in Hxs. apply andb_prop in Hxs as [Hx Hxs].
  unfold plus, seq. rewrite Hp. cbn [app sat]. by rewrite Hx, (many_class p f).
Qed.

Lemma capture_text p t xs r : p (xs ++ r) = Some (t, r) -> capture p (xs ++ r) = Some (t ++ [PegText xs], r).
Proof.
  intros H. unfold capture. rewrite H. do 4 f_equal. rewrite length_app.
  replace (length xs + length r - length r)%nat with (length xs) by lia. by rewrite take_app_length.
Qed.

Lemma seqs_cons p ps s :
  seqs (p :: ps) s = match p s with
                     | Some (t1, s1) => match seqs ps s1 with Some (t2, s2) => Some (t1 ++ t2, s2) | None => None end
                     | None => None
                     end.
Proof. done. Qed.

(** [s] without its first rune when that is [c]. *)
Definition strip (c : Z) (s : list Z) : list Z :=
  match s with c' :: s' => if (c =? c')%Z then s' else s | [] => [] end.
Lemma opt_char c s : opt (char c) s = Some ([], strip c s).
Proof. unfold opt, alt, char, empty. destruct s as [|c' s]; cbn; [done|]. by destruct (c =? c')%Z. Qed.
Lemma char_eq c s : char c (c :: s) = Some ([], s).
Proof. cbn. by rewrite Z.eqb_refl. Qed.
Lemma char_ne c c' s : c <> c' -> char c (c' :: s) = None.
Proof. intros H%Z.eqb_neq. cbn. by rewrite H. Qed.
Lemma strip_ne c c' s : c <> c' -> strip c (c' :: s) = c' :: s.
Proof. intros H%Z.eqb_neq. cbn. by rewrite H. Qed.
Lemma strip_app c s r : s <> [] -> strip c (s ++ r) = strip c s ++ r.
Proof. intros H. destruct s as [|c' s]; [done|]. cbn. by destruct (c =? c')%Z. Qed.
Lemma strip_nonempty c s : strip c s <> [] -> s <> [].
Proof. intros H ->. by apply H. Qed.

(** ** Names *)

Definition name_char (c : Z) : bool := alnum c || one_of [44; 47; 46; 95; 45; 126]%Z c.
Definition valid_name (n : list Z) : Prop :=
  strip tilde (strip increment n) <> [] /\ forallb name_char (strip tilde (strip increment n)) = true.

Lemma metricName_text_ok n r : valid_name n -> stops name_char r -> metricName_text (n ++ r) = Some ([], r).
Proof.
  intros [Hne Hc] Hr. unfold metricName_text. rewrite !seqs_cons, opt_char.
  pose proof (strip_nonempty _ _ Hne) as Hne1. pose proof (strip_nonempty _ _ Hne1) as Hne2.
  rewrite strip_app by done. rewrite seqs_cons, opt_char, strip_app by done.
  rewrite seqs_cons, (plus_class _ name_char); [done|by apply class_alt|done..].
Qed.

(** What a name may start with. *)
Lemma name_start n c s : valid_name n -> n = c :: s -> c = increment \/ c = tilde \/ name_char c = true.
Proof.
  intros [_ Hc] ->. destruct (Z.eq_dec increment c) as [|Hi]; [by left|]. rewrite strip_ne in Hc by done.
  destruct (Z.eq_dec tilde c) as [|Ht]; [by right; left|]. rewrite strip_ne in Hc by done.
  cbn [forallb] in Hc. apply andb_prop in Hc as [Hc _]. auto.
Qed.

Lemma name_char_not c : name_char c = true -> c <> quote /\ c <> 33%Z /\ c <> space /\ c <> 61%Z.
Proof.
  unfold name_char, alnum, digit, one_of, quote, space. cbn.
  rewrite !orb_true_iff, !in_range_true, !Z.eqb_eq. lia.
Qed.

Lemma name_first n : valid_name n -> exists c s, n = c :: s /\ c <> quote /\ c <> 33%Z.
Proof.
  intros Hn. destruct n as [|c s]; [by destruct Hn|]. exists c, s. split; [done|].
  destruct (name_start _ _ _ Hn eq_refl) as [->|[->|H]]; [done|done|]. by apply name_char_not in H as (? & ? & _).
Qed.

(** A text in quotes or not. *)
Definition put (quoted : bool) (n : list Z) : list Z := if quoted then quote :: n ++ [quote] else n.

Lemma quoted_app n r : put true n ++ r = quote :: n ++ quote :: r.
Proof. cbn. by rewrite <- app_assoc. Qed.

Lemma metricName_ok quoted n r :
  valid_name n -> stops name_char r -> metricName (put quoted n ++ r) = Some ([PegText n; Action6], r).
Proof.
  intros Hn Hr. unfold metricName. rewrite !seqs_cons. unfold alt. destruct quoted.
  - rewrite quoted_app, seqs_cons, char_eq, seqs_cons.
    rewrite (capture_text _ []) by (by apply metricName_text_ok). by rewrite seqs_cons, char_eq.
  - cbn [put]. destruct (name_first n Hn) as (c & s & -> & Hq & _).
    cbn [app]. rewrite seqs_cons, char_ne by done.
    change (c :: s ++ r) with ((c :: s) ++ r). by rewrite (capture_text _ []) by (by apply metricName_text_ok).
Qed.

(** ** Rules do not give runes back *)

Definition shrinks (p : rule) : Prop := forall s t s', p s = Some (t, s') -> (length s' <= length s)%nat.

Create HintDb shrinks.

Lemma shrinks_sat f : shrinks (sat f).
Proof. intros s t s' H. apply Nat.lt_le_incl. by eapply consumes_sat. Qed.
Lemma shrinks_add a : shrinks (add a).
Proof. by intros s t s' [= <- <-]. Qed.
Lemma shrinks_empty : shrinks empty.
Proof. by intros s t s' [= <- <-]. Qed.
Lemma shrinks_seq p q : shrinks p -> shrinks q -> shrinks (seq p q).
Proof.
  intros Hp Hq s t s'. unfold seq. destruct (p s) as [[t1 s1]|] eqn:E1; [|done].
  destruct (q s1) as [[t2 s2]|] eqn:E2; [|done]. intros [= <- <-]. apply Hp in E1. apply Hq in E2. lia.
Qed.
Lemma shrinks_alt p q : shrinks p -> shrinks q -> shrinks (alt p q).
Proof.
  intros Hp Hq s t s'. unfold alt. destruct (p s) as [[t1 s1]|] eqn:E; [|apply Hq].
  intros [= <- <-]. by apply Hp in E.
Qed.
Lemma shrinks_unless p : shrinks (unless p).
Proof. intros s t s'. unfold unless. destruct (p s); [done|]. by intros [= <- <-]. Qed.
Lemma shrinks_capture p : shrinks p -> shrinks (capture p).
Proof.
  intros Hp s t s'. unfold capture. destruct (p s) as [[t1 s1]|] eqn:E; [|done]. intros [= <- <-]. by apply Hp in E.
Qed.
Lemma shrinks_many p : shrinks p -> shrinks (many p).
Proof.
  intros Hp s t s'. unfold many. generalize (S (length s)) as n. intros n. revert s t s'.
  induction n as [|n IH]; intros s t s'; cbn; [by intros [= <- <-]|].
  destruct (p s) as [[t1 s1]|] eqn:E; [|by intros [= <- <-]]. destruct (many_fuel n p s1) as [t2 s2] eqn:E2.
  intros [= <- <-]. apply Hp in E. specialize (IH s1 t2 s2). rewrite E2 in IH. specialize (IH eq_refl). lia.
Qed.
#[export] Hint Resolve shrinks_sat shrinks_add shrinks_empty shrinks_seq shrinks_alt shrinks_unless shrinks_capture
  shrinks_many : shrinks.
Ltac shrinks := unfold tag, tags, tagName, tagValue, tagValue_char, plus, opt, seqs, char, matchDot, ALNUM, DIGIT; cbn [foldr];
  auto 20 with shrinks.

Lemma consumes_seq p q : consumes p -> shrinks q -> consumes (seq p q).
Proof.
  intros Hp Hq s t s'. unfold seq. destruct (p s) as [[t1 s1]|] eqn:E1; [|done].
  destruct (q s1) as [[t2 s2]|] eqn:E2; [|done]. intros [= <- <-]. apply Hp in E1. apply Hq in E2. lia.
Qed.

(** ** Values and timestamps *)

Definition digits (ds : list Z) : Prop := ds <> [] /\ forallb digit ds = true.

Lemma digit_range c : digit c = true <-> (48 <= c <= 57)%Z.
Proof. apply in_range_true. Qed.

(** A sign, digits, and perhaps a point and digits. *)
Definition valid_value (v : list Z) : Prop :=
  exists sign ints frac, v = sign ++ ints ++ frac /\ (sign = [] \/ sign = [45%Z]) /\ digits ints /\
    (frac = [] \/ exists ds, frac = 46%Z :: ds /\ digits ds).

Lemma plus_digits ds r : digits ds -> stops digit r -> plus DIGIT (ds ++ r) = Some ([], r).
Proof. intros [Hne Hd]. by apply plus_class. Qed.

Lemma metricValue_ok v r :
  valid_value v -> metricValue (v ++ space :: r) = Some ([PegText v; Action5], space :: r).
Proof.
  intros (sign & ints & frac & -> & Hs & Hi & Hf). unfold metricValue. rewrite seqs_cons.
  rewrite (capture_text _ []); [done|]. rewrite <- !app_assoc, seqs_cons, opt_char.
  assert (strip 45 (sign ++ ints ++ frac ++ space :: r) = ints ++ frac ++ space :: r) as ->.
  { destruct Hi as [Hne Hd]. destruct Hs as [->| ->]; [|done]. destruct ints as [|c ints]; [done|].
    cbn [forallb] in Hd. apply andb_prop in Hd as [Hc%digit_range _]. cbn [app]. apply strip_ne. lia. }
  assert (stops digit (frac ++ space :: r)) as Hstop by (by destruct Hf as [->|(ds & -> & _)]).
  rewrite seqs_cons, plus_digits by done. rewrite seqs_cons.
  destruct Hf as [->|(ds & -> & Hd)]; [done|]. unfold opt, alt. cbn [app].
  by rewrite seqs_cons, char_eq, seqs_cons, plus_digits.
Qed.

(** Ten, thirteen or sixteen digits. *)
Definition valid_timestamp (ts : list Z) : Prop :=
  forallb digit ts = true /\ (length ts = 10 \/ length ts = 13 \/ length ts = 16)%nat.

Lemma some_digits n ps ds r :
  length ds = n -> forallb digit ds = true -> seqs (replicate n DIGIT ++ ps) (ds ++ r) = seqs ps r.
Proof.
  revert ds; induction n as [|n IH]; intros [|d ds] Hlen Hd; try done. cbn [replicate app].
  cbn [forallb] in Hd. apply andb_prop in Hd as [Hd0 Hd]. rewrite seqs_cons. unfold DIGIT at 1, sat at 1. rewrite Hd0.
  rewrite IH by (done || by injection Hlen). by destruct (seqs ps r) as [[]|].
Qed.

Definition three_digits : rule := opt (seqs [DIGIT; DIGIT; DIGIT]).
Lemma three_digits_none r : stops digit r -> three_digits r = Some ([], r).
Proof.
  intros H. unfold three_digits, opt, alt. rewrite seqs_cons. destruct r as [|c r]; cbn; [done|]. cbn in H. by rewrite H.
Qed.
Lemma three_digits_some ds r : length ds = 3%nat -> forallb digit ds = true -> three_digits (ds ++ r) = Some ([], r).
Proof.
  intros Hl Hd. unfold three_digits, opt, alt. change [DIGIT; DIGIT; DIGIT] with (replicate 3 DIGIT ++ []).
  by rewrite some_digits.
Qed.

Lemma timestamp_ok ts r : valid_timestamp ts -> stops digit r -> timestamp (ts ++ r) = Some ([PegText ts; Action4], r).
Proof.
  intros [Hd Hlen] Hr. unfold timestamp. rewrite seqs_cons, (capture_text _ []); [done|].
  fold three_digits. rewrite <- (take_drop 10 ts) in Hd |- *. rewrite forallb_app in Hd. apply andb_prop in Hd as [H1 H2].
  rewrite <- app_assoc, some_digits; [|rewrite length_take; lia|done].
  assert (length (drop 10 ts) = length ts - 10)%nat as Hl by apply length_drop.
  revert H2 Hl. generalize (drop 10 ts) as u. intros u H2 Hl. rewrite seqs_cons.
  destruct Hlen as [Hn|[Hn|Hn]]; rewrite Hn in Hl; cbn in Hl.
  - destruct u; [|done]. by rewrite three_digits_none, seqs_cons, three_digits_none.
  - by rewrite three_digits_some, seqs_cons, three_digits_none.
  - rewrite <- (take_drop 3 u) in H2 |- *. rewrite forallb_app in H2. apply andb_prop in H2 as [H2 H3].
    rewrite <- app_assoc, three_digits_some by (done || rewrite length_take; lia).
    by rewrite seqs_cons, three_digits_some by (done || rewrite length_drop; lia).
Qed.

Lemma timestamp_none r : stops digit r -> timestamp r = None.
Proof.
  intros H. unfold timestamp. rewrite seqs_cons. unfold capture. cbn [replicate app]. rewrite seqs_cons.
  destruct r as [|c r]; cbn; [done|]. cbn in H. by rewrite H.
Qed.

Lemma timestamp_given ts r :
  valid_timestamp ts -> optional_timestamp (space :: ts ++ space :: r) = Some ([PegText ts; Action4], space :: r).
Proof.
  intros H. unfold optional_timestamp, opt, alt. by rewrite seqs_cons, char_eq, seqs_cons, timestamp_ok.
Qed.

Lemma timestamp_absent r : stops digit r -> optional_timestamp (space :: r) = Some ([], space :: r).
Proof.
  intros H. unfold optional_timestamp, opt, alt. by rewrite seqs_cons, char_eq, seqs_cons, timestamp_none.
Qed.

(** ** Tags *)

Definition tag_char (quoted : bool) (c : Z) : bool :=
  alnum c || one_of (if quoted then [46; 95; 45; 47]%Z else [46; 95; 45]%Z) c.
Definition valid_tag_name (quoted : bool) (n : list Z) : Prop := n <> [] /\ forallb (tag_char quoted) n = true.

Lemma tag_char_not quoted c : tag_char quoted c = true -> c <> quote /\ c <> 61%Z.
Proof.
  unfold tag_char, alnum, digit, one_of, quote. destruct quoted; cbn;
    rewrite !orb_true_iff, !in_range_true, !Z.eqb_eq; lia.
Qed.

Lemma tagName_ok quoted n r :
  valid_tag_name quoted n -> tagName (put quoted n ++ 61%Z :: r) = Some ([PegText n; Action2], 61%Z :: r).
Proof.
  intros [Hne Hc]. unfold tagName. rewrite !seqs_cons. unfold alt at 1. destruct quoted.
  - rewrite quoted_app, seqs_cons, char_eq, seqs_cons. rewrite (capture_text _ []); [by rewrite seqs_cons, char_eq|].
    apply (plus_class _ (tag_char true)); [by apply class_alt|done|done|done].
  - cbn [put]. destruct n as [|c n]; [done|]. pose proof Hc as Hc0. cbn [forallb] in Hc0.
    apply andb_prop in Hc0 as [[Hq _]%tag_char_not _]. cbn [app]. rewrite seqs_cons, char_ne by done.
    change (c :: n ++ 61%Z :: r) with ((c :: n) ++ 61%Z :: r). rewrite (capture_text _ []); [done|].
    apply (plus_class _ (tag_char false)); [by apply class_alt|done|done|done].
Qed.

(** Every quote of a tag value is escaped, and it does not end in a backslash
    that would escape the closing quote. *)
Fixpoint escaped (v : list Z) : bool :=
  match v with
  | [] => true
  | c :: v' =>
      if (c =? quote)%Z then false
      else if (c =? backslash)%Z then
        match v' with
        | [] => false
        | c2 :: v2 => if (c2 =? quote)%Z then escaped v2 else escaped v'
        end
      else escaped v'
  end.
Definition valid_tag_value (v : list Z) : Prop := v <> [] /\ escaped v = true.

Lemma tagValue_char_pair s : tagValue_char (backslash :: quote :: s) = Some ([], s).
Proof. unfold tagValue_char, alt. by rewrite !seqs_cons, char_eq, seqs_cons, char_eq. Qed.
Lemma tagValue_char_one c s :
  c <> quote -> (c = backslash -> stops (Z.eqb quote) s) -> tagValue_char (c :: s) = Some ([], s).
Proof.
  intros Hq Hb. unfold tagValue_char, alt. rewrite !seqs_cons.
  assert (unless (char quote) (c :: s) = Some ([], c :: s)) as -> by (unfold unless; by rewrite char_ne).
  destruct (Z.eq_dec backslash c) as [<-|Hne]; [|by rewrite char_ne].
  rewrite char_eq, seqs_cons. specialize (Hb eq_refl). destruct s as [|c2 s]; [done|]. cbn in Hb. cbn. by rewrite Hb.
Qed.
Lemma consumes_tagValue_char : consumes tagValue_char.
Proof.
  intros s t s'. unfold tagValue_char, alt. destruct (seqs [char backslash; char quote] s) as [[t1 s1]|] eqn:E.
  - intros [= <- <-]. revert E. apply (consumes_seq _ _ (consumes_sat _)). shrinks.
  - destruct s as [|c s]; [done|]. rewrite seqs_cons. unfold unless. destruct (char quote (c :: s)); [done|].
    cbn. intros [= <- <-]. lia.
Qed.

Lemma escaped_step v r :
  v <> [] -> escaped v = true -> exists v', (length v' < length v)%nat /\ escaped v' = true /\
    tagValue_char (v ++ quote :: r) = Some ([], v' ++ quote :: r).
Proof.
  destruct v as [|c v]; [done|]. intros _. cbn [escaped]. destruct (Z.eqb_spec c quote) as [|Hq]; [done|].
  destruct (Z.eqb_spec c backslash) as [->|Hb].
  - destruct v as [|c2 v]; [done|]. destruct (Z.eqb_spec c2 quote) as [->|Hq2]; intros H.
    + exists v. split_and!; [cbn; lia|done|]. apply tagValue_char_pair.
    + exists (c2 :: v). split_and!; [cbn; lia|done|]. apply (tagValue_char_one backslash); [done|]. intros _.
      unfold stops; cbn [app]. apply Z.eqb_neq. congruence.
  - intros H. exists v. split_and!; [cbn; lia|done|]. by apply (tagValue_char_one c).
Qed.

Lemma many_tagValue v r : escaped v = true -> many tagValue_char (v ++ quote :: r) = Some ([], quote :: r).
Proof.
  induction v as [v IH] using (induction_ltof1 _ (@length Z)); intros He. rewrite many_eq by apply consumes_tagValue_char.
  destruct (decide (v = [])) as [->|Hne]; [done|].
  destruct (escaped_step v r Hne He) as (v' & Hlt & He' & ->). by rewrite IH.
Qed.

Lemma tagValue_ok v r :
  valid_tag_value v -> tagValue (quote :: v ++ quote :: r) = Some ([PegText v; Action3], r).
Proof.
  intros [Hne He]. unfold tagValue. rewrite seqs_cons, char_eq, seqs_cons. rewrite (capture_text _ []).
  - by rewrite seqs_cons, char_eq.
  - destruct (escaped_step v r Hne He) as (v' & _ & He' & E). unfold plus, seq. rewrite E. by rewrite many_tagValue.
Qed.

(** ** Printing lines *)

Record line_tag := MkLineTag { lt_quoted : bool; lt_name : list Z; lt_value : list Z }.
Record line := MkLine {
  l_quoted : bool;
  l_name : list Z;
  l_value : list Z;
  l_timestamp : list Z;  (** empty when there is none *)
  l_tags : list line_tag;
}.

Definition print_tag (t : line_tag) : list Z :=
  put (lt_quoted t) (lt_name t) ++ 61%Z :: quote :: lt_value t ++ [quote].
Definition print_tags (ts : list line_tag) : list Z :=
  match ts with [] => [] | t :: ts => print_tag t ++ concat (map (fun t => space :: print_tag t) ts) end.
Definition print_line (l : line) : list Z :=
  put (l_quoted l) (l_name l) ++ space :: l_value l ++
  (match l_timestamp l with [] => [] | ts => space :: ts end) ++ space :: print_tags (l_tags l).

Definition valid_tag (t : line_tag) : Prop := valid_tag_name (lt_quoted t) (lt_name t) /\ valid_tag_value (lt_value t).

(** Without a timestamp the first tag must not look like the start of one. *)
Record valid_line (l : line) : Prop := {
  vl_name : valid_name (l_name l);
  vl_value : valid_value (l_value l);
  vl_timestamp : valid_timestamp (l_timestamp l) \/ (l_timestamp l = [] /\ stops digit (print_tags (l_tags l)));
  vl_tags : l_tags l <> [];
  vl_tag : Forall valid_tag (l_tags l);
}.

Definition tag_tokens (t : line_tag) : list token := [PegText (lt_name t); Action2; PegText (lt_value t); Action3].
Definition line_tokens (l : line) : list token :=
  [PegText (l_name l); Action6; PegText (l_value l); Action5] ++
  (match l_timestamp l with [] => [] | ts => [PegText ts; Action4] end) ++
  Action1 :: concat (map tag_tokens (l_tags l)).

Lemma tag_ok t r : valid_tag t -> tag (print_tag t ++ r) = Some (tag_tokens t, r).
Proof.
  intros [Hn Hv]. unfold tag, print_tag. rewrite <- app_assoc. cbn [app]. rewrite <- app_assoc. cbn [app].
  by rewrite seqs_cons, tagName_ok, seqs_cons, char_eq, seqs_cons, tagValue_ok.
Qed.

Lemma space_tag_ok t r : valid_tag t -> seqs [char space; tag] (space :: print_tag t ++ r) = Some (tag_tokens t, r).
Proof. intros Ht. rewrite seqs_cons, char_eq, seqs_cons, tag_ok by done. done. Qed.

Lemma more_tags_ok ts :
  Forall valid_tag ts ->
  many (seqs [char space; tag]) (concat (map (fun t => space :: print_tag t) ts)) = Some (concat (map tag_tokens ts), []).
Proof.
  induction 1 as [|t ts Ht _ IH]; rewrite many_eq
    by (apply consumes_seq; [apply consumes_sat|shrinks]).
  - done.
  - cbn [map concat app]. by rewrite space_tag_ok, IH.
Qed.

Lemma tags_ok ts :
  ts <> [] -> Forall valid_tag ts -> tags (print_tags ts) = Some (Action1 :: concat (map tag_tokens ts), []).
Proof.
  intros Hne Ht. destruct ts as [|t ts]; [done|]. apply Forall_cons in Ht as [Ht Hts]. unfold tags. cbn [print_tags].
  rewrite seqs_cons. unfold add at 1. rewrite seqs_cons, tag_ok, seqs_cons, more_tags_ok by done.
  cbn. by rewrite app_nil_r.
Qed.

Lemma tail_ok ts :
  ts <> [] -> Forall valid_tag ts ->
  seqs [char space; tags; unless matchDot] (space :: print_tags ts) = Some (Action1 :: concat (map tag_tokens ts), []).
Proof. intros Hne Ht. rewrite seqs_cons, char_eq, seqs_cons, tags_ok by done. cbn. by rewrite app_nil_r. Qed.

(** The grammar reads a printed line back. *)
Lemma grammar_ok l : valid_line l -> metric_grammar (print_line l) = Some (line_tokens l, []).
Proof.
  intros [Hn Hv Hts Hne Ht]. unfold metric_grammar, alt.
  assert (Hfirst : forall ps, seqs (aggregationInterval :: ps) (print_line l) = None).
  { intros ps. rewrite seqs_cons. unfold aggregationInterval. rewrite seqs_cons. unfold print_line.
    destruct (l_quoted l); [done|]. destruct (name_first _ Hn) as (c & s & -> & _ & Hc). cbn [put app].
    by rewrite char_ne. }
  rewrite Hfirst. unfold print_line. rewrite seqs_cons, metricName_ok by done.
  rewrite seqs_cons, char_eq, seqs_cons.
  assert (Hvalue : forall r, metricValue (l_value l ++ space :: r) = Some ([PegText (l_value l); Action5], space :: r))
    by (intros; by apply metricValue_ok).
  unfold line_tokens. destruct Hts as [Hts|[-> Hstop]].
  - assert (l_timestamp l <> []) as Hne' by (intros E; rewrite E in Hts; destruct Hts as [_ [?|[?|?]]]; done).
    destruct (l_timestamp l) as [|d ds] eqn:Ets; [done|]. rewrite <- Ets in *.
    cbn [app]. rewrite Hvalue, seqs_cons, timestamp_given by done. by rewrite tail_ok.
  - cbn [app]. rewrite Hvalue, seqs_cons, timestamp_absent by done. by rewrite tail_ok.
Qed.

(** ** Reading a line back *)

Definition set_tag (m : gmap string string) (t : line_tag) : gmap string string :=
  <[string_of (lt_name t) := string_of (lt_value t)]> m.
Definition last_tag (cur : string) (ts : list line_tag) : string :=
  match last ts with Some t => string_of (lt_name t) | None => cur end.

(** What a line says; of several tags of one name the last counts. *)
Definition meaning (l : line) : MetricGrammar :=
  MkMetricGrammar false (string_of (l_name l)) (string_of (l_value l)) (string_of (l_timestamp l))
    (foldl set_tag ∅ (l_tags l)) (last_tag "" (l_tags l)).

Lemma execute_tags ts h n v time m cur text :
  (foldl execute_token (MkMetricGrammar h n v time m cur, text) (concat (map tag_tokens ts))).1 =
    MkMetricGrammar h n v time (foldl set_tag m ts) (last_tag cur ts).
Proof.
  revert m cur text; induction ts as [|t ts IH]; intros m cur text; [done|].
  cbn [map concat tag_tokens app foldl execute_token]. rewrite IH. unfold set_tag, last_tag.
  rewrite last_cons. by destruct (last ts).
Qed.

Lemma execute_line l : Execute (line_tokens l) = meaning l.
Proof.
  unfold Execute, line_tokens, meaning, new_grammar. rewrite !foldl_app. cbn [foldl execute_token].
  destruct (l_timestamp l); cbn [foldl execute_token]; by rewrite execute_tags.
Qed.

(** The text of a line, as a sender writes it. *)
Definition print (l : line) : string := string_of (print_line l).

(** The parser reads every well-formed line back: escapes are kept as they
    are written. *)
Lemma Parse_print l :
  valid_line l -> Forall (fun r => valid_rune r = true) (print_line l) -> Parse (print l) = Ok (meaning l).
Proof.
  intros Hl Hr. unfold Parse, print. rewrite runes_string_of, grammar_ok by done. by rewrite execute_line.
Qed.

Lemma print_nonempty l : Forall (fun r => valid_rune r = true) (print_line l) -> print l <> "".
Proof.
  intros Hr E. apply runes_string_of in Hr. unfold print in E. rewrite E in Hr. unfold print_line, put in Hr.
  by destruct (l_quoted l), (l_name l).
Qed.

Definition ascii_runes (s : string) : list Z := map byte (String.list_ascii_of_string s).

(** A delta counter with a quoted name and a tag value that holds a quote. *)
Definition sample_line : line :=
  MkLine true (increment :: ascii_runes "http.requests") (ascii_runes "-12.5") (ascii_runes "1382754475")
    [MkLineTag false (ascii_runes "source") (ascii_runes "web" ++ [backslash; quote; 233%Z]);
     MkLineTag true (ascii_runes "k8s/pod") (ascii_runes "a b")].

Lemma sample_line_valid : valid_line sample_line.
Proof.
  split.
  - split; [by vm_compute|by vm_compute].
  - exists [45%Z], (ascii_runes "12"), (ascii_runes ".5"). split_and!; [done|by right|by split|].
    right. exists (ascii_runes "5"). by split; [|split].
  - left. split; [by vm_compute|by left].
  - done.
  - repeat constructor; try done; by vm_compute.
Qed.
