(* ===== verification/MetricDiff.v ===== *)
(** The metrics side of the test proxy: internal/testproxy/metrics
    (metric.go, metric_store.go, diff.go) and the metric handlers of
    internal/testproxy/handlers/handlers.go.

    The diff gives every metric a key made by the first expectation it meets
    and compares the two sets of keys.  The glob library and [strconv.Quote]
    are parameters; lines are parsed by the grammar of LineGrammar.v.  A keyer that cannot be built
    (a glob that does not compile) panics: the constructors return a result.
    The visiting orders of the key maps are the argument [ord]. *)

From S2P Require Import Prelude Utf8 LineGrammar.

Record Metric := MkMetric {
  m_Name : string;
  m_Value : string;
  m_Timestamp : string;
  m_Tags : gmap string string;
}.

#[export] Instance Metric_eq_dec : EqDecision Metric.
Proof. solve_decision. Defined.

(** ** The diff: diff.go *)

Definition keyer := Metric -> bool * string.

(** [strings.TrimPrefix(name, "!")] and [strings.Replace(s, c, "", 1)]. *)
Definition trim_bang (name : string) : string := if has_prefix "!" name then str_drop 1 name else name.
Fixpoint remove_first (c : Ascii.ascii) (s : string) : string :=
  match s with
  | EmptyString => EmptyString
  | String a s' => if Ascii.eqb a c then s' else String a (remove_first c s')
  end.

Fixpoint composite_loop (keyers : list keyer) (m : Metric) (keys : list string) : bool * string :=
  match keyers with
  | [] => (true, join " " keys)
  | k :: keyers' =>
      let '(matched, key) := k m in
      if matched then composite_loop keyers' m (keys ++ [key]) else (false, "")
  end.
Definition compositeKey (keyers : list keyer) : keyer := fun m => composite_loop keyers m [].

Definition nameKey (expected : string) : keyer := fun m => (String.eqb (m_Name m) expected, m_Name m).
Definition valueKey (expected : string) : keyer := fun m => (String.eqb (m_Value m) expected, m_Value m).
Definition timestampKey (expected : string) : keyer :=
  fun m => (String.eqb (m_Timestamp m) expected, m_Timestamp m).

Definition tagNameKey (name : string) : keyer :=
  let key := trim_bang name in
  if has_prefix "!" name
  then fun m => (negb (bool_decide (is_Some (m_Tags m !! key))), (key +:+ "!=*")%string)
  else fun m => (bool_decide (is_Some (m_Tags m !! key)), (key +:+ "=*")%string).

Section diff.
Context (Quote : string -> string) (Compile : string -> option (string -> bool)).
Context (ord : gmap string Metric -> list (string * Metric)).

Definition fullTagKey (name value : string) : result keyer :=
  let key := trim_bang name in
  let adjusted c (m : Metric) :=
    if (0 <? String.length (get_str (m_Tags m) key))%nat then key else remove_first c key in
  if has_prefix "!" name then
    Ok (fun m => (negb (String.eqb (get_str (m_Tags m) (adjusted "!"%char m)) value),
                  (key +:+ "!=" +:+ Quote (get_str (m_Tags m) key))%string))
  else if has_prefix "~" name then
    match Compile value with
    | None => Err "panic: glob.MustCompile"
    | Some g => Ok (fun m => (g (get_str (m_Tags m) (adjusted "~"%char m)),
                              (key +:+ "≅" +:+ Quote value)%string))
    end
  else Ok (fun m => (String.eqb (get_str (m_Tags m) key) value,
                     (key +:+ "=" +:+ Quote (get_str (m_Tags m) key))%string)).

Definition tag_keyer (tags : gmap string string) (name : string) : result keyer :=
  if String.eqb (get_str tags name) "" then Ok (tagNameKey name) else fullTagKey name (get_str tags name).

Definition tagsKey (tags : gmap string string) : result keyer :=
  keyers ← foldM (fun keyers name => k ← tag_keyer tags name; Ok (keyers ++ [k])) [] (sorted_keys tags);
  Ok (compositeKey keyers).

Definition metricKeyer (m : Metric) : result keyer :=
  let keyers := [nameKey (m_Name m)] in
  let keyers := keyers ++ if String.eqb (m_Value m) "" then [] else [valueKey (m_Value m)] in
  let keyers := keyers ++ if String.eqb (m_Timestamp m) "" then [] else [timestampKey (m_Timestamp m)] in
  k ← tagsKey (m_Tags m);
  Ok (compositeKey (keyers ++ [k])).

Definition metricKeyers (expected : list Metric) : result (gmap string (list keyer)) :=
  foldM (fun keyersByMetric m =>
           k ← metricKeyer m;
           Ok (<[m_Name m := default [] (keyersByMetric !! m_Name m) ++ [k]]> keyersByMetric))
    ∅ expected.

(** The key of the first keyer that matches. *)
Fixpoint first_key (keyers : list keyer) (m : Metric) : option string :=
  match keyers with
  | [] => None
  | k :: keyers' => let '(matched, key) := k m in if matched then Some key else first_key keyers' m
  end.

Definition key_step (keyers : gmap string (list keyer)) (keyMap : gmap string Metric) (m : Metric)
    : result (gmap string Metric) :=
  match first_key (default [] (keyers !! m_Name m)) m with
  | Some key => Ok (<[key := m]> keyMap)
  | None => k ← metricKeyer m; Ok (<[(k m).2 := m]> keyMap)
  end.
Definition metricKeyMap (metrics : list Metric) (keyers : gmap string (list keyer))
    : result (gmap string Metric) := foldM (key_step keyers) ∅ metrics.

Definition only_in (a b : gmap string Metric) : list Metric :=
  omap (fun x => match b !! x.1 with Some _ => None | None => a !! x.1 end) (ord a).
Definition disjunct (a b : gmap string Metric) : list Metric * list Metric := (only_in a b, only_in b a).
Definition intersect (a b : gmap string Metric) : list Metric := omap (fun x => b !! x.1) (ord a).

Record Diff := MkDiff { Missing : list Metric; Extra : list Metric; Unwanted : list Metric }.

Definition DiffMetrics (expected excluded actual : list Metric) : result Diff :=
  expectedKeyers ← metricKeyers expected;
  expectedKeyMap ← metricKeyMap expected expectedKeyers;
  actualKeyMap ← metricKeyMap actual expectedKeyers;
  let '(missing, extra) := disjunct expectedKeyMap actualKeyMap in
  excludedKeyers ← metricKeyers excluded;
  excludedKeyMap ← metricKeyMap excluded excludedKeyers;
  actualExcludedKeyMap ← metricKeyMap actual excludedKeyers;
  Ok (MkDiff missing extra (intersect excludedKeyMap actualExcludedKeyMap)).
End diff.

(** ** The store and the incoming metrics: metric_store.go, metric.go *)

(** [None]: the line is a histogram. *)
Definition ParseMetric (line : string) : result (option Metric) :=
  g ← Parse line; Ok (if Histogram g then None else Some (MkMetric (Name g) (Value g) (Timestamp g) (Tags g))).

Record MetricStore := MkMetricStore { s_metrics : list Metric; s_badMetrics : list string }.
Definition NewMetricStore : MetricStore := MkMetricStore [] [].
Definition Metrics (s : MetricStore) : list Metric := s_metrics s.
Definition BadMetrics (s : MetricStore) : list string := s_badMetrics s.
Definition LogMetric (m : Metric) (s : MetricStore) : MetricStore :=
  MkMetricStore (s_metrics s ++ [m]) (s_badMetrics s).
Definition LogBadMetric (line : string) (s : MetricStore) : MetricStore :=
  MkMetricStore (s_metrics s) (s_badMetrics s ++ [line]).

Definition incoming_line (s : MetricStore) (line : string) : MetricStore :=
  if String.eqb line "" then s
  else match ParseMetric line with
       | Err _ => LogBadMetric line s
       | Ok None => s
       | Ok (Some m) => if (20 <? size (m_Tags m))%nat then s else LogMetric m s
       end.
(** [lines]: what the scanner yields of the connection. *)
Definition HandleIncomingMetrics (s : MetricStore) (lines : list string) : MetricStore := foldl incoming_line s lines.

(** ** The control handlers: handlers.go *)

Inductive body :=
  | NoBody
  | BadMetricsBody (l : list string)
  | MetricsBody (l : list Metric)
  | ErrorBody (msg : string)
  | DiffBody (d : Diff).
Record response := MkResponse { r_status : Z; r_body : body }.

Definition DumpMetricsHandler (s : MetricStore) (method : string) : response :=
  if negb (String.eqb method "GET") then MkResponse 405 NoBody
  else match BadMetrics s with
       | [] => MkResponse 200 (MetricsBody (Metrics s))
       | bad => MkResponse 422 (BadMetricsBody bad)
       end.

(** The expected and the excluded metrics of the lines of a request; decoding
    the text [null] yields no metric and no error. *)
Definition diff_line (decodeMetric : string -> result (option Metric))
    (acc : list (option Metric) * list (option Metric)) (line : string)
    : result (list (option Metric) * list (option Metric)) :=
  if String.eqb line "" then Ok acc
  else if has_prefix "~" line
  then m ← decodeMetric (str_drop 1 line); Ok (acc.1, acc.2 ++ [m])
  else m ← decodeMetric line; Ok (acc.1 ++ [m], acc.2).

(** A missing metric is dereferenced. *)
Definition deref_all (l : list (option Metric)) : result (list Metric) :=
  foldM (fun acc m => match m with Some m => Ok (acc ++ [m]) | None => Err "panic: nil metric" end) [] l.

(** [lines] and [scanErr]: what the scanner yields of the body; an error of
    the result is a panic of the handler. *)
Definition DiffMetricsHandler (Quote : string -> string) (Compile : string -> option (string -> bool))
    (ord : gmap string Metric -> list (string * Metric)) (decodeMetric : string -> result (option Metric))
    (s : MetricStore) (method : string) (lines : list string) (scanErr : option string) : result response :=
  if negb (String.eqb method "POST") then Ok (MkResponse 405 NoBody)
  else match BadMetrics s with
       | [] =>
           match foldM (diff_line decodeMetric) ([], []) lines with
           | Err e => Ok (MkResponse 400 (ErrorBody e))
           | Ok (expected, excluded) =>
               match scanErr with
               | Some e => Ok (MkResponse 400 (ErrorBody e))
               | None =>
                   expected ← deref_all expected;
                   excluded ← deref_all excluded;
                   d ← DiffMetrics Quote Compile ord expected excluded (Metrics s);
                   Ok (MkResponse 200 (DiffBody d))
               end
           end
       | bad => Ok (MkResponse 422 (BadMetricsBody bad))
       end.

(** ** What the keyers of a plain expectation do *)

(** No tag name asks for a negation or a pattern. *)
Definition plain (m : Metric) : bool :=
  forallb (fun t => negb (has_prefix "!" t) && negb (has_prefix "~" t)) (sorted_keys (m_Tags m)).

(** Metric [m] has the tag as the expectation [tags] wants it. *)
Definition tag_met (tags : gmap string string) (m : Metric) (t : string) : bool :=
  if String.eqb (get_str tags t) "" then bool_decide (is_Some (m_Tags m !! t))
  else String.eqb (get_str (m_Tags m) t) (get_str tags t).

(** Metric [m] is one that [e] expects. *)
Definition agrees (e m : Metric) : bool :=
  String.eqb (m_Name m) (m_Name e) &&
  (String.eqb (m_Value e) "" || String.eqb (m_Value m) (m_Value e)) &&
  (String.eqb (m_Timestamp e) "" || String.eqb (m_Timestamp m) (m_Timestamp e)) &&
  forallb (tag_met (m_Tags e) m) (sorted_keys (m_Tags e)).

Section proofs.
Context (Quote : string -> string) (Compile : string -> option (string -> bool)).
Abbreviation metricKeyer := (metricKeyer Quote Compile).

Definition tag_text (tags : gmap string string) (t : string) : string :=
  (t +:+ (if String.eqb (get_str tags t) "" then "=*" else "=" +:+ Quote (get_str tags t)))%string.
Definition texts (e : Metric) : list string :=
  [m_Name e] ++ (if String.eqb (m_Value e) "" then [] else [m_Value e]) ++
  (if String.eqb (m_Timestamp e) "" then [] else [m_Timestamp e]) ++
  [join " " (map (tag_text (m_Tags e)) (sorted_keys (m_Tags e)))].
Definition text (e : Metric) : string := join " " (texts e).

(** Keyer [k] says yes to what passes the test and then gives the text. *)
Definition keyer_is (k : keyer) (pt : (Metric -> bool) * string) : Prop :=
  forall m, if pt.1 m then k m = (true, pt.2) else (k m).1 = false.

Lemma composite_is ks pts :
  Forall2 keyer_is ks pts ->
  forall m, compositeKey ks m =
    if forallb (fun pt => pt.1 m) pts then (true, join " " (map snd pts)) else (false, "").
Proof.
  intros H m. unfold compositeKey. change (map snd pts) with ([] ++ map snd pts).
  generalize (@nil string) as keys. induction H as [|k [p t] ks pts Hk _ IH]; intros keys; cbn.
  - by rewrite app_nil_r.
  - specialize (Hk m). cbn in Hk. destruct (p m); cbn; [rewrite Hk|by destruct (k m) as [b ?]; cbn in Hk; subst].
    rewrite IH. by rewrite <- app_assoc.
Qed.

Lemma forallb_map {A B} (f : A -> B) (p : B -> bool) l : forallb p (map f l) = forallb (fun a => p (f a)) l.
Proof. induction l as [|a l IH]; cbn; [done|]. by rewrite IH. Qed.

Lemma tag_keyer_is tags t :
  has_prefix "!" t = false -> has_prefix "~" t = false ->
  exists k, tag_keyer Quote Compile tags t = Ok k /\ keyer_is k (fun m => tag_met tags m t, tag_text tags t).
Proof.
  intros H1 H2. unfold tag_keyer, tagNameKey, fullTagKey, trim_bang, keyer_is, tag_met, tag_text. rewrite H1, H2.
  destruct (String.eqb_spec (get_str tags t) ""); cbn [fst snd]; (eexists; split; [reflexivity|]); intros m; cbn beta.
  - by case_bool_decide.
  - destruct (String.eqb_spec (get_str (m_Tags m) t) (get_str tags t)) as [E|E]; [by rewrite E|done].
Qed.

Lemma tagsKey_is tags :
  forallb (fun t => negb (has_prefix "!" t) && negb (has_prefix "~" t)) (sorted_keys tags) = true ->
  exists k, tagsKey Quote Compile tags = Ok k /\
    keyer_is k (fun m => forallb (tag_met tags m) (sorted_keys tags), join " " (map (tag_text tags) (sorted_keys tags))).
Proof.
  intros Hp. unfold tagsKey.
  assert (Hl : forall l ks pts, forallb (fun t => negb (has_prefix "!" t) && negb (has_prefix "~" t)) l = true ->
    Forall2 keyer_is ks pts -> exists ks',
      foldM (fun keyers name => k ← tag_keyer Quote Compile tags name; Ok (keyers ++ [k])) ks l = Ok ks' /\
      Forall2 keyer_is ks' (pts ++ map (fun t => (fun m => tag_met tags m t, tag_text tags t)) l)).
  { induction l as [|t l IH]; intros ks pts Hl Hk; cbn; [exists ks; by rewrite app_nil_r|].
    cbn in Hl. apply andb_prop in Hl as [[H1 H2]%andb_prop Hl]. apply negb_true_iff in H1, H2.
    destruct (tag_keyer_is tags t H1 H2) as (k & -> & Hkt). cbn.
    destruct (IH (ks ++ [k]) (pts ++ [(fun m => tag_met tags m t, tag_text tags t)])) as (ks' & E & H); [done| |].
    { apply Forall2_app; [done|]. by constructor. }
    exists ks'. split; [done|]. by rewrite <- app_assoc in H. }
  destruct (Hl (sorted_keys tags) [] [] Hp) as (ks & -> & H); [constructor|]. cbn.
  eexists; split; [reflexivity|]. intros m. cbn [fst snd]. rewrite (composite_is _ _ H). cbn [app].
  rewrite forallb_map, map_map. cbn. destruct (forallb (tag_met tags m) (sorted_keys tags)); done.
Qed.

Lemma metricKeyer_plain e :
  plain e = true -> exists k, metricKeyer e = Ok k /\
    forall m, k m = if agrees e m then (true, text e) else (false, "").
Proof.
  intros Hp. unfold MetricDiff.metricKeyer. destruct (tagsKey_is (m_Tags e) Hp) as (k & -> & Hk). cbn [mbind result_bind].
  eexists; split; [reflexivity|]. intros m.
  set (pts := [(fun m => String.eqb (m_Name m) (m_Name e), m_Name e)] ++
    (if String.eqb (m_Value e) "" then [] else [(fun m => String.eqb (m_Value m) (m_Value e), m_Value e)]) ++
    (if String.eqb (m_Timestamp e) "" then [] else [(fun m => String.eqb (m_Timestamp m) (m_Timestamp e), m_Timestamp e)]) ++
    [(fun m => forallb (tag_met (m_Tags e) m) (sorted_keys (m_Tags e)),
      join " " (map (tag_text (m_Tags e)) (sorted_keys (m_Tags e))))]).
  assert (Hs : forall (f : Metric -> string) x, keyer_is (fun m => (String.eqb (f m) x, f m)) (fun m => String.eqb (f m) x, x)).
  { intros f x m'. cbn. by destruct (String.eqb_spec (f m') x) as [->|]. }
  rewrite (composite_is _ pts).
  - unfold pts, agrees, text, texts. cbn [app forallb map fst snd].
    destruct (String.eqb (m_Value e) ""), (String.eqb (m_Timestamp e) ""); cbn [app forallb map fst snd orb];
      by rewrite ?andb_true_r, ?andb_assoc.
  - unfold pts. rewrite <- !app_assoc. repeat apply Forall2_app;
      [|by case_match; repeat constructor; try apply Hs..|]; by repeat constructor; try apply Hs.
Qed.

Lemma agrees_refl e : agrees e e = true.
Proof.
  unfold agrees. rewrite !String.eqb_refl, !orb_true_r. cbn. apply forallb_forall. intros t Ht%list_elem_of_In.
  unfold tag_met. rewrite String.eqb_refl. destruct (String.eqb _ _); [|done].
  apply bool_decide_eq_true_2. by apply sorted_keys_elem in Ht.
Qed.

(** ** The key maps *)

(** The first of the expectations that [m] meets, and the key of [m]. *)
Definition claim (E : list Metric) (m : Metric) : option Metric := List.find (fun e => agrees e m) E.
Definition key (E : list Metric) (m : Metric) : string := text (default m (claim E m)).
Abbreviation all_plain := (Forall (fun m => plain m = true)).

Lemma agrees_name e m : agrees e m = true -> m_Name m = m_Name e.
Proof. unfold agrees. intros [[[H _]%andb_prop _]%andb_prop _]%andb_prop. by apply String.eqb_eq. Qed.

Lemma claim_snoc E e m :
  claim (E ++ [e]) m = match claim E m with Some x => Some x | None => if agrees e m then Some e else None end.
Proof. unfold claim. induction E as [|x E IH]; cbn; [done|]. by destruct (agrees x m). Qed.

Lemma claim_agrees E e m : claim E m = Some e -> e ∈ E /\ agrees e m = true.
Proof. intros H. apply List.find_some in H as [H1 H2]. by split; [apply list_elem_of_In|]. Qed.

Lemma claim_none E m : claim E m = None <-> forall e, e ∈ E -> agrees e m = false.
Proof.
  split.
  - intros H e He. apply (List.find_none _ _ H). by apply list_elem_of_In.
  - intros H. unfold claim. destruct (List.find _ E) as [e|] eqn:Ef; [|done].
    apply List.find_some in Ef as [He Ha]. rewrite H in Ha; [done|by apply list_elem_of_In].
Qed.

Lemma first_key_snoc ks k m :
  first_key (ks ++ [k]) m =
    match first_key ks m with Some x => Some x | None => if (k m).1 then Some (k m).2 else None end.
Proof. induction ks as [|k' ks IH]; cbn; [by destruct (k m) as [[] ?]|]. by destruct (k' m) as [[] ?]. Qed.

Lemma metricKeyers_plain E :
  all_plain E -> exists ks, metricKeyers Quote Compile E = Ok ks /\
    forall m, first_key (default [] (ks !! m_Name m)) m = text <$> claim E m.
Proof.
  unfold metricKeyers. induction E as [|e E IH] using rev_ind; intros Hp; [by exists ∅|].
  apply Forall_app in Hp as [HE [He _]%Forall_cons_1]. destruct (IH HE) as (ks & Hks & Hf).
  destruct (metricKeyer_plain e He) as (k & Hk & Hkm).
  rewrite foldM_app, Hks. cbn. rewrite Hk. cbn. eexists; split; [reflexivity|]. intros m.
  rewrite claim_snoc. destruct (decide (m_Name m = m_Name e)) as [En|En].
  - rewrite En, lookup_insert_eq. cbn. rewrite first_key_snoc, <- En, Hf, Hkm.
    destruct (claim E m); [done|]. by destruct (agrees e m).
  - rewrite lookup_insert_ne, Hf by congruence. destruct (claim E m); [done|].
    by destruct (agrees e m) eqn:Ea; [apply agrees_name in Ea|].
Qed.

(** The keys of the map are those of the metrics, the entries metrics of their key. *)
Definition key_map_of (E A : list Metric) (km : gmap string Metric) : Prop :=
  (forall m, m ∈ A -> is_Some (km !! key E m)) /\
  forall t m, km !! t = Some m -> m ∈ A /\ key E m = t.

Lemma metricKeyMap_plain E A ks :
  (forall m, first_key (default [] (ks !! m_Name m)) m = text <$> claim E m) -> all_plain A ->
  exists km, metricKeyMap Quote Compile A ks = Ok km /\ key_map_of E A km.
Proof.
  intros Hf. unfold metricKeyMap. induction A as [|a A IH] using rev_ind; intros Hp.
  { exists ∅. split; [done|]. split; [by intros m ?%not_elem_of_nil|by intros t m]. }
  apply Forall_app in Hp as [HA [Ha _]%Forall_cons_1]. destruct (IH HA) as (km & Hkm & Hin & Hout).
  assert (Hstep : key_step Quote Compile ks km a = Ok (<[key E a := a]> km)).
  { unfold key_step, key. rewrite Hf. destruct (claim E a); [done|]. cbn.
    destruct (metricKeyer_plain a Ha) as (k & -> & Hk). cbn. by rewrite Hk, agrees_refl. }
  rewrite foldM_app, Hkm. cbn. rewrite Hstep. eexists; split; [reflexivity|]. split.
  - intros m [Hm|Hm%list_elem_of_singleton]%elem_of_app; apply lookup_insert_is_Some';
      [right; by apply Hin|left; by subst].
  - intros t m. rewrite elem_of_app. intros [[<- <-]|[_ Hm]]%lookup_insert_Some.
    + split; [right; by left|done].
    + destruct (Hout t m Hm). by split; [left|].
Qed.
End proofs.

(** ** Properties of the diff *)

Section separate.
Context (Quote : string -> string) (E A : list Metric).
Abbreviation text := (text Quote).
Abbreviation key := (key Quote E).

(** Different metrics have different key texts; no expectation meets another. *)
Definition distinct_texts : Prop := forall x y, x ∈ E ++ A -> y ∈ E ++ A -> text x = text y -> x = y.
Definition separate : Prop := forall e e', e ∈ E -> e' ∈ E -> agrees e e' = true -> e = e'.
Context (Htexts : distinct_texts) (Hsep : separate).

Lemma text_eq x y : x ∈ E \/ x ∈ A -> y ∈ E \/ y ∈ A -> text x = text y -> x = y.
Proof. intros Hx Hy. apply Htexts; by apply elem_of_app. Qed.

Lemma key_expected e : e ∈ E -> key e = text e.
Proof.
  intros He. unfold MetricDiff.key. destruct (claim E e) as [e'|] eqn:Ec; [|done].
  apply claim_agrees in Ec as [He' Ha]. by rewrite (Hsep e' e He' He Ha).
Qed.

Lemma key_actual m e : m ∈ A -> e ∈ E -> key m = text e <-> claim E m = Some e.
Proof.
  intros Hm He. unfold MetricDiff.key. destruct (claim E m) as [e'|] eqn:Ec; cbn.
  - destruct (claim_agrees _ _ _ Ec) as [He' _]. split; [|by intros [= ->]].
    intros H. f_equal. apply text_eq; auto.
  - split; [|done]. intros H. apply text_eq in H as ->; [|auto..].
    rewrite claim_none in Ec. specialize (Ec e He). by rewrite agrees_refl in Ec.
Qed.

Lemma key_extra m m' : m ∈ A -> m' ∈ A -> claim E m = None -> key m' = key m -> m' = m.
Proof.
  intros Hm Hm' Ec H. destruct (claim E m') as [e|] eqn:Ec'.
  - destruct (claim_agrees _ _ _ Ec') as [He _]. apply (key_actual m' e Hm' He) in Ec' as Ek.
    rewrite Ek in H. symmetry in H. apply (key_actual m e Hm He) in H. congruence.
  - unfold MetricDiff.key in H. rewrite Ec, Ec' in H. apply text_eq in H; auto.
Qed.
End separate.

Section lookups.
Context (ord : gmap string Metric -> list (string * Metric)) (Hord : forall m, iterates (ord m) m).

Lemma only_in_elem a b x : x ∈ only_in ord a b <-> exists t, a !! t = Some x /\ b !! t = None.
Proof.
  unfold only_in. rewrite list_elem_of_omap. split.
  - intros ([t y] & _ & H). cbn in H. exists t. by destruct (b !! t).
  - intros (t & Ha & Hb). exists (t, x). cbn. rewrite Hb. split; [|done]. by apply (iterates_elem _ _ _ _ (Hord a)).
Qed.

Lemma intersect_elem a b x : x ∈ intersect ord a b <-> exists t, is_Some (a !! t) /\ b !! t = Some x.
Proof.
  unfold intersect. rewrite list_elem_of_omap. split.
  - intros ([t y] & Hin & H). cbn in H. exists t. apply (iterates_elem _ _ _ _ (Hord a)) in Hin. by split; [eexists|].
  - intros (t & [y Ha] & Hb). exists (t, y). split; [|done]. by apply (iterates_elem _ _ _ _ (Hord a)).
Qed.
End lookups.

(** The metrics of one map whose keys the other lacks, from the expected to
    the received and back. *)
Section sides.
Context (Quote : string -> string) (E A : list Metric) (km am : gmap string Metric).
Context (Htexts : distinct_texts Quote E A) (Hsep : separate E).
Context (Hkm : key_map_of Quote E E km) (Ham : key_map_of Quote E A am).

Lemma expected_at e : e ∈ E -> km !! text Quote e = Some e.
Proof.
  intros He. destruct Hkm as [Hin Hout]. destruct (Hin e He) as [e' Hm].
  rewrite (key_expected Quote E Hsep e He) in Hm. destruct (Hout _ _ Hm) as [He' Hk].
  rewrite (key_expected Quote E Hsep e' He') in Hk. rewrite Hm. f_equal. eapply text_eq; eauto.
Qed.

Lemma expected_key t e : km !! t = Some e -> e ∈ E /\ t = text Quote e.
Proof.
  intros H. destruct (proj2 Hkm t e H) as [He <-]. by rewrite (key_expected Quote E Hsep e He).
Qed.

Lemma received_at e : e ∈ E -> am !! text Quote e = None <-> forall m, m ∈ A -> claim E m <> Some e.
Proof.
  intros He. destruct Ham as [Hin Hout]. split.
  - intros Hn m Hm Hc. apply (key_actual Quote E A Htexts m e Hm He) in Hc. destruct (Hin m Hm). congruence.
  - intros Hno. destruct (am !! _) as [m|] eqn:Em; [|done]. destruct (Hout _ _ Em) as [Hm Hk].
    by apply (key_actual Quote E A Htexts m e Hm He) in Hk; destruct (Hno m Hm).
Qed.

Lemma missing_iff e : (exists t, km !! t = Some e /\ am !! t = None) <->
  e ∈ E /\ forall m, m ∈ A -> claim E m <> Some e.
Proof.
  split.
  - intros (t & Hk & Hn). destruct (expected_key t e Hk) as [He ->]. by rewrite received_at in Hn.
  - intros [He Hno]. exists (text Quote e). by rewrite expected_at, received_at.
Qed.

Lemma extra_iff m : (exists t, am !! t = Some m /\ km !! t = None) <->
  m ∈ A /\ forall e, e ∈ E -> agrees e m = false.
Proof.
  destruct Ham as [Hin Hout]. rewrite <- claim_none. split.
  - intros (t & Hm & Hn). destruct (Hout t m Hm) as [HmA <-]. split; [done|].
    destruct (claim E m) as [e|] eqn:Ec; [|done]. destruct (claim_agrees _ _ _ Ec) as [He _].
    apply (key_actual Quote E A Htexts m e HmA He) in Ec. rewrite Ec, expected_at in Hn by done. done.
  - intros [Hm Hc]. exists (key Quote E m). destruct (Hin m Hm) as [m' Hm']. destruct (Hout _ _ Hm') as [HmA Hk].
    apply (key_extra Quote E A Htexts m m' Hm HmA Hc) in Hk as ->. split; [done|].
    destruct (km !! _) as [e|] eqn:Ee; [|done]. destruct (expected_key _ _ Ee) as [He Ht].
    apply (key_actual Quote E A Htexts m e Hm He) in Ht. congruence.
Qed.

Lemma common_claim t m : is_Some (km !! t) -> am !! t = Some m -> m ∈ A /\ exists e, claim E m = Some e.
Proof.
  intros [e He] Hm. destruct (expected_key t e He) as [HeE ->]. destruct (proj2 Ham _ _ Hm) as [HmA Hk].
  split; [done|]. exists e. by apply (key_actual Quote E A Htexts m e HmA HeE).
Qed.

Lemma claimed_common m e : m ∈ A -> claim E m = Some e -> exists t m', is_Some (km !! t) /\ am !! t = Some m'.
Proof.
  intros Hm Hc. destruct (claim_agrees _ _ _ Hc) as [He _]. destruct (proj1 Ham m Hm) as [m' Hm'].
  apply (key_actual Quote E A Htexts m e Hm He) in Hc. rewrite Hc in Hm'.
  exists (text Quote e), m'. split; [|done]. rewrite expected_at by done. by eexists.
Qed.
End sides.

(** C38: What the diff reports when no tag name asks for a negation or a pattern,
    different metrics have different key texts and no expectation meets
    another: missing are the expectations that no received metric meets
    first; extra are the received metrics that meet none, and all of them;
    unwanted are received metrics that meet an exclusion, and there is one as
    soon as a received metric meets one.  A received metric that meets several
    expectations counts for the first alone. *)
Theorem DiffMetrics_spec (Quote : string -> string) (Compile : string -> option (string -> bool))
    (ord : gmap string Metric -> list (string * Metric)) (expected excluded actual : list Metric) :
  (forall m, iterates (ord m) m) ->
  Forall (fun m => plain m = true) (expected ++ excluded ++ actual) ->
  distinct_texts Quote expected actual -> separate expected ->
  distinct_texts Quote excluded actual -> separate excluded ->
  exists d, DiffMetrics Quote Compile ord expected excluded actual = Ok d /\
    (forall e, e ∈ Missing d <-> e ∈ expected /\ forall m, m ∈ actual -> claim expected m <> Some e) /\
    (forall m, m ∈ Extra d <-> m ∈ actual /\ forall e, e ∈ expected -> agrees e m = false) /\
    (forall m, m ∈ Unwanted d -> m ∈ actual /\ exists x, x ∈ excluded /\ agrees x m = true) /\
    (Unwanted d = [] <-> forall x m, x ∈ excluded -> m ∈ actual -> agrees x m = false).
Proof.
  intros Hord [HE [HX HA]%Forall_app]%Forall_app Ht Hs Htx Hsx. unfold DiffMetrics.
  destruct (metricKeyers_plain Quote Compile expected HE) as (ks & -> & Hks). cbn.
  destruct (metricKeyMap_plain Quote Compile expected expected ks Hks HE) as (km & -> & Hin & Hout). cbn.
  destruct (metricKeyMap_plain Quote Compile expected actual ks Hks HA) as (am & -> & Ain & Aout). cbn.
  destruct (metricKeyers_plain Quote Compile excluded HX) as (kx & -> & Hkx). cbn.
  destruct (metricKeyMap_plain Quote Compile excluded excluded kx Hkx HX) as (xm & -> & Xin & Xout). cbn.
  destruct (metricKeyMap_plain Quote Compile excluded actual kx Hkx HA) as (bm & -> & Bin & Bout). cbn.
  eexists; split; [reflexivity|]. cbn [Missing Extra Unwanted]. split_and!.
  - intros e. rewrite only_in_elem by done. by apply (missing_iff Quote expected actual).
  - intros m. rewrite only_in_elem by done. by apply (extra_iff Quote expected actual).
  - intros m (t & Ht' & Hm)%intersect_elem; [|done].
    edestruct (common_claim Quote excluded actual xm bm) as [? [x Hx]]; [done..|].
    split; [done|]. exists x. by apply claim_agrees.
  - split.
    + intros Hn x m Hx Hm. destruct (agrees x m) eqn:Ea; [|done]. destruct (claim excluded m) as [y|] eqn:Ec.
      2:{ rewrite claim_none in Ec. by rewrite (Ec x Hx) in Ea. }
      edestruct (claimed_common Quote excluded actual xm bm) as (t & m' & H1 & H2); [done..|].
      assert (m' ∈ intersect ord xm bm) as Hin' by (apply intersect_elem; [done|by exists t]).
      rewrite Hn in Hin'. by apply not_elem_of_nil in Hin'.
    + intros Hno. destruct (intersect ord xm bm) as [|m l] eqn:El; [done|exfalso].
      assert (m ∈ intersect ord xm bm) as (t & H1 & H2)%intersect_elem by (rewrite El; by left); [|done].
      edestruct (common_claim Quote excluded actual xm bm) as [Hm [x Hx]]; [done..|].
      destruct (claim_agrees _ _ _ Hx) as [HxX Ha]. by rewrite (Hno x m HxX Hm) in Ha.
Qed.

(** Concrete metrics; quoting puts quotes around a text. *)
Definition sample_quote (s : string) : string :=
  let q := String (Ascii.ascii_of_nat 34) "" in (q +:+ s +:+ q)%string.
Definition metric (name value ts : string) (tags : list (string * string)) : Metric :=
  MkMetric name value ts (list_to_map tags).
Definition sample_diff (g : string -> option (string -> bool)) :=
  DiffMetrics sample_quote g map_to_list.

Lemma distinct_texts_check Quote E A : NoDup (map (text Quote) (E ++ A)) -> distinct_texts Quote E A.
Proof.
  intros Hnd x y [i Hi]%list_elem_of_lookup [j Hj]%list_elem_of_lookup Ht.
  assert (i = j) as ->; [|congruence]. apply (NoDup_lookup _ i j (text Quote x) Hnd).
  - change (map ?f ?l) with (f <$> l). by rewrite list_lookup_fmap, Hi.
  - change (map ?f ?l) with (f <$> l). by rewrite list_lookup_fmap, Hj, Ht.
Qed.

Lemma separate_check E :
  forallb (fun e => forallb (fun e' => negb (agrees e e') || bool_decide (e = e')) E) E = true -> separate E.
Proof.
  intros H e e' He He' Ha. rewrite forallb_forall in H. apply list_elem_of_In, H in He.
  rewrite forallb_forall in He. apply list_elem_of_In, He in He'. rewrite Ha in He'.
  by apply bool_decide_eq_true_1 in He'.
Qed.

Definition sample_expected : list Metric :=
  [metric "up" "1" "" [("cluster", "")]; metric "cpu" "" "" [("pod", "a")]].
Definition sample_excluded : list Metric := [metric "secret" "" "" []].
Definition sample_actual : list Metric :=
  [metric "up" "1" "7" [("cluster", "c")]; metric "cpu" "3" "7" [("pod", "b")]; metric "secret" "1" "7" []].

Lemma samples_plain : Forall (fun m => plain m = true) (sample_expected ++ sample_excluded ++ sample_actual).
Proof. unfold sample_expected, sample_excluded, sample_actual. cbn [app]. repeat (constructor; [by vm_compute|]). constructor. Qed.
Lemma samples_told_apart : distinct_texts sample_quote sample_expected sample_actual /\
  distinct_texts sample_quote sample_excluded sample_actual /\ separate sample_expected /\ separate sample_excluded.
Proof.
  split_and!; (apply distinct_texts_check; apply (bool_decide_unpack _)) || apply separate_check; by vm_compute.
Qed.
Lemma sample_agrees : agrees (metric "secret" "" "" []) (metric "secret" "1" "7" []) = true.
Proof. by vm_compute. Qed.

Lemma DiffMetrics_spec_witness :
  exists d, sample_diff (fun _ => None) sample_expected sample_excluded sample_actual = Ok d /\
    (forall e, e ∈ Missing d <-> e ∈ sample_expected /\ forall m, m ∈ sample_actual -> claim sample_expected m <> Some e) /\
    Unwanted d <> [].
Proof.
  destruct samples_told_apart as (H1 & H2 & H3 & H4).
  destruct (DiffMetrics_spec sample_quote (fun _ => None) map_to_list sample_expected sample_excluded sample_actual
    iterates_canonical samples_plain H1 H3 H2 H4) as (d & E & Hm & _ & _ & Hu).
  exists d. split; [exact E|]. split; [exact Hm|]. intros Hn. rewrite Hu in Hn.
  specialize (Hn (metric "secret" "" "" []) (metric "secret" "1" "7" []) ltac:(by left) ltac:(by right; right; left)).
  by rewrite sample_agrees in Hn.
Defined.

(** An expected tag that should differ from a value is never met by a metric
    that has the tag: the key holds the metric's own value. *)
Lemma negation_never_met :
  let e := metric "cpu" "" "" [("!pod", "x")] in
  let m := metric "cpu" "3" "7" [("pod", "y")] in
  sample_diff (fun _ => None) [e] [] [m] = Ok (MkDiff [e] [m] []).
Proof. by vm_compute. Qed.

(** A general expectation hides a later special one, which nothing meets. *)
Lemma shadowed_expectation :
  let general := metric "cpu" "" "" [] in
  let special := metric "cpu" "5" "" [] in
  let m := metric "cpu" "7" "" [] in
  agrees special m = false /\
  sample_diff (fun _ => None) [general; special] [] [m] = Ok (MkDiff [] [] []).
Proof. by vm_compute. Qed.

(** Values and timestamps are not told apart in a key. *)
Lemma value_taken_for_timestamp :
  let value := metric "cpu" "5" "" [] in
  let time := metric "cpu" "" "5" [] in
  let m := metric "cpu" "5" "9" [] in
  agrees time m = false /\ sample_diff (fun _ => None) [value; time] [] [m] = Ok (MkDiff [] [] []).
Proof. by vm_compute. Qed.

(** A pattern that does not match its own text is never met. *)
Lemma pattern_not_its_own_match :
  let glob p := Some (fun s => if String.eqb p "[ab]" then String.eqb s "a" || String.eqb s "b" else String.eqb p s) in
  let e := metric "cpu" "" "" [("~pod", "[ab]")] in
  let m := metric "cpu" "3" "7" [("pod", "a")] in
  sample_diff glob [e] [] [m] = Ok (MkDiff [e] [m] []).
Proof. by vm_compute. Qed.

(** ** Properties of the store and the handlers *)

Definition accepted (line : string) : option Metric :=
  if String.eqb line "" then None
  else match ParseMetric line with
       | Ok (Some m) => if (20 <? size (m_Tags m))%nat then None else Some m
       | _ => None
       end.
Definition unreadable (line : string) : bool :=
  negb (String.eqb line "") && negb (is_ok (Parse line)).

(** What lines do to the store: the readable ones with at most twenty tags are
    kept, the unreadable ones are reported, in order.  The lines of several
    connections arrive in some interleaving, so this is all there is to say. *)
Lemma incoming_spec s lines :
  HandleIncomingMetrics s lines =
    MkMetricStore (s_metrics s ++ omap accepted lines) (s_badMetrics s ++ List.filter unreadable lines).
Proof.
  unfold HandleIncomingMetrics. revert s; induction lines as [|line lines IH]; intros [ms bad]; cbn.
  { by rewrite !app_nil_r. }
  rewrite IH. unfold incoming_line, accepted, unreadable, ParseMetric.
  destruct (String.eqb line ""); [done|]. destruct (Parse line) as [g|e]; cbn; [|by rewrite <- app_assoc].
  destruct (Histogram g); [done|]. case_match; cbn; [done|]. by rewrite <- app_assoc.
Qed.

(** The tag limit holds of everything stored. *)
Lemma stored_tags lines :
  Forall (fun m => (size (m_Tags m) <= 20)%nat) (Metrics (HandleIncomingMetrics NewMetricStore lines)).
Proof.
  rewrite incoming_spec. cbn. apply Forall_forall. intros m (line & _ & H)%list_elem_of_omap.
  unfold accepted in H. destruct (String.eqb line ""); [done|].
  destruct (ParseMetric line) as [[m'|]|]; [|done..].
  destruct (Nat.ltb_spec 20 (size (m_Tags m'))); [done|]. injection H as <-. lia.
Qed.

(** The metric that a line means, when the store takes it. *)
Definition line_metric (l : line) : option Metric :=
  let g := meaning l in
  if (20 <? size (Tags g))%nat then None else Some (MkMetric (Name g) (Value g) (Timestamp g) (Tags g)).

Lemma printed_accepted l :
  valid_line l -> Forall (fun r => valid_rune r = true) (print_line l) ->
  accepted (print l) = line_metric l /\ unreadable (print l) = false.
Proof.
  intros Hl Hr. unfold accepted, unreadable, ParseMetric, line_metric. rewrite Parse_print by done.
  destruct (String.eqb_spec (print l) "") as [E|_]; [by apply print_nonempty in E|done].
Qed.

(** C30: The test proxy reads metric lines back: when every line that arrives
    is printed from a name, a value, a timestamp (of ten, thirteen or sixteen
    digits, or none) and tags that the format allows, with names in quotes or
    not and with escaped quotes in tag values, the store ends with exactly the metrics
    printed, in order, less those with more than twenty tags, and reports no
    bad line. *)
Theorem incoming_printed (ls : list line) (s : MetricStore) :
  Forall valid_line ls -> Forall (fun l => Forall (fun r => valid_rune r = true) (print_line l)) ls ->
  HandleIncomingMetrics s (map print ls) = MkMetricStore (s_metrics s ++ omap line_metric ls) (s_badMetrics s).
Proof.
  intros Hl Hr. rewrite incoming_spec. f_equal.
  - f_equal. induction Hl as [|l ls Hl _ IH]; [done|]. apply Forall_cons in Hr as [Hr Hrs].
    cbn [map omap list_omap]. rewrite (proj1 (printed_accepted l Hl Hr)), IH by done. done.
  - rewrite <- (app_nil_r (s_badMetrics s)) at 2. f_equal. induction Hl as [|l ls Hl _ IH]; [done|].
    apply Forall_cons in Hr as [Hr Hrs]. cbn [map List.filter]. rewrite (proj2 (printed_accepted l Hl Hr)). by apply IH.
Qed.

Lemma incoming_printed_witness :
  valid_line sample_line /\
  HandleIncomingMetrics NewMetricStore (map print [sample_line]) = MkMetricStore (omap line_metric [sample_line]) [].
Proof.
  split; [exact sample_line_valid|]. apply (incoming_printed [sample_line] NewMetricStore).
  - constructor; [exact sample_line_valid|constructor].
  - by repeat constructor.
Defined.

Section diff_handler.
Context (decodeMetric : string -> result (option Metric)).

Definition option_list {A} (o : option A) : list A := match o with Some a => [a] | None => [] end.

(** The lines of a request that decode, with and without the mark. *)
Definition expected_line (line : string) : option Metric :=
  if String.eqb line "" || has_prefix "~" line then None
  else match decodeMetric line with Ok m => m | Err _ => None end.
Definition excluded_line (line : string) : option Metric :=
  if String.eqb line "" || negb (has_prefix "~" line) then None
  else match decodeMetric (str_drop 1 line) with Ok m => m | Err _ => None end.
Definition decodes (line : string) : bool :=
  String.eqb line "" ||
  match decodeMetric (if has_prefix "~" line then str_drop 1 line else line) with Ok (Some _) => true | _ => false end.

Lemma diff_line_ok line e x :
  decodes line = true ->
  diff_line decodeMetric (Some <$> e, Some <$> x) line =
    Ok (Some <$> (e ++ option_list (expected_line line)), Some <$> (x ++ option_list (excluded_line line))).
Proof.
  unfold diff_line, decodes, expected_line, excluded_line. rewrite !fmap_app.
  destruct (String.eqb line ""), (has_prefix "~" line); cbn; try (destruct (decodeMetric _) as [[m|]|]; cbn);
    try done; by rewrite !app_nil_r.
Qed.

Lemma diff_lines lines e x :
  forallb decodes lines = true ->
  foldM (diff_line decodeMetric) (Some <$> e, Some <$> x) lines =
    Ok (Some <$> (e ++ omap expected_line lines), Some <$> (x ++ omap excluded_line lines)).
Proof.
  revert e x; induction lines as [|line lines IH]; intros e x; cbn [forallb foldM].
  { cbn. by rewrite !app_nil_r. }
  intros [H1 H2]%andb_prop. rewrite diff_line_ok by done. cbn [mbind result_bind].
  rewrite IH by done. rewrite <- !app_assoc. cbn [omap list_omap].
  by destruct (expected_line line), (excluded_line line).
Qed.

Lemma deref_all_some l : deref_all (Some <$> l) = Ok l.
Proof.
  unfold deref_all.
  match goal with |- foldM ?f _ _ = _ => assert (H : forall acc, foldM f acc (Some <$> l) = Ok (acc ++ l)) end; [|apply H].
  induction l as [|m l IH]; intros acc; cbn; [by rewrite app_nil_r|]. rewrite IH. by rewrite <- app_assoc.
Qed.

(** The answer to a request whose lines all decode: refused unless posted,
    the bad metrics when there are any, else the difference between what its
    lines ask for and what has been stored. *)
Lemma DiffMetricsHandler_spec Quote Compile ord s method lines :
  forallb decodes lines = true ->
  DiffMetricsHandler Quote Compile ord decodeMetric s method lines None =
    if negb (String.eqb method "POST") then Ok (MkResponse 405 NoBody)
    else if decide (BadMetrics s = []) then
      d ← DiffMetrics Quote Compile ord (omap expected_line lines) (omap excluded_line lines) (Metrics s);
      Ok (MkResponse 200 (DiffBody d))
    else Ok (MkResponse 422 (BadMetricsBody (BadMetrics s))).
Proof.
  intros Hl. unfold DiffMetricsHandler. destruct (String.eqb method "POST"); cbn [negb]; [|done].
  destruct (BadMetrics s); [|done]. pose proof (diff_lines lines [] [] Hl) as E. cbn in E.
  rewrite E.
  by rewrite !deref_all_some.
Qed.
End diff_handler.
