(* ===== verification/LogVerifier.v ===== *)
(** The logs side of the test proxy: internal/testproxy/logs (logs.go,
    results.go), the log handlers of internal/testproxy/handlers/handlers.go
    and the settings of cmd/test-proxy/main.go.

    A log line is what [json.Unmarshal] gives: an object or something else.
    The values the verifier tells apart are nil, a string and the rest.  The
    asserted type [map[string]interface{}] panics on a line that is no object.

    The results are shared by all requests, each of its methods holds the lock,
    and nothing the verifier does depends on what they hold: a handler is the
    list of the calls it makes on them, with a flag that is false when it
    panicked after the last one.  Requests that run at the same time interleave
    their calls.  Decoding is a parameter, and so are the visiting orders of
    maps. *)

From Stdlib Require Import ZArith Lia.
From S2P Require Import Prelude Interleaving.

Inductive tag_value :=
  | TagNil
  | TagString (s : string)
  | TagOther.

Inductive log_line :=
  | LogObject (tags : gmap string tag_value)
  | LogOther.

(** ** The results: results.go *)

(** The verdicts are -1 before the first request, then 1, and 0 for good. *)
Record Results := MkResults {
  HasValidFormat : Z;
  HasValidTags : Z;
  MissingExpectedTagsMap : gset string;
  MissingExpectedTagsCount : Z;
  EmptyExpectedTagsMap : gset string;
  EmptyExpectedTagsCount : Z;
  UnexpectedAllowedLogs : list log_line;
  UnexpectedAllowedLogsCount : Z;
  UnexpectedDeniedTagsMap : gset string;
  UnexpectedDeniedTagsCount : Z;
  ReceivedLogCount : Z;
}.

Definition NewLogResults : Results := MkResults (-1) (-1) ∅ 0 ∅ 0 [] 0 ∅ 0 0.

Definition verdict (old : Z) (isValid : bool) : Z :=
  if (old =? 0)%Z then old else if isValid then 1%Z else 0%Z.

(** The methods of the results. *)
Inductive op :=
  | SetHasValidFormat (isValid : bool)
  | SetHasValidTags (isValid : bool)
  | AddMissingExpectedTag (missingTag : string)
  | AddEmptyExpectedTag (emptyTag : string)
  | AddUnexpectedAllowedLog (unexpectedLog : log_line)
  | AddUnexpectedDeniedTag (unexpectedDeniedTag : string)
  | IncrementMissingExpectedTagsCount
  | IncrementEmptyExpectedTagsCount
  | IncrementUnexpectedAllowedLogsCount
  | IncrementUnexpectedDeniedTagsCount
  | AddReceivedCount (count : nat).

Definition apply_op (r : Results) (o : op) : Results :=
  let '(MkResults f t mm mc em ec al ac dm dc n) := r in
  match o with
  | SetHasValidFormat b => MkResults (verdict f b) t mm mc em ec al ac dm dc n
  | SetHasValidTags b => MkResults f (verdict t b) mm mc em ec al ac dm dc n
  | AddMissingExpectedTag x => MkResults f t ({[x]} ∪ mm) mc em ec al ac dm dc n
  | AddEmptyExpectedTag x => MkResults f t mm mc ({[x]} ∪ em) ec al ac dm dc n
  | AddUnexpectedAllowedLog l => MkResults f t mm mc em ec (al ++ [l]) ac dm dc n
  | AddUnexpectedDeniedTag x => MkResults f t mm mc em ec al ac ({[x]} ∪ dm) dc n
  | IncrementMissingExpectedTagsCount => MkResults f t mm (mc + 1) em ec al ac dm dc n
  | IncrementEmptyExpectedTagsCount => MkResults f t mm mc em (ec + 1) al ac dm dc n
  | IncrementUnexpectedAllowedLogsCount => MkResults f t mm mc em ec al (ac + 1) dm dc n
  | IncrementUnexpectedDeniedTagsCount => MkResults f t mm mc em ec al ac dm (dc + 1) n
  | AddReceivedCount k => MkResults f t mm mc em ec al ac dm dc (n + Z.of_nat k)
  end.
Definition apply_ops (r : Results) (l : list op) : Results := foldl apply_op r l.

(** ** The verifier: logs.go *)

Record LogVerifier := MkLogVerifier {
  expectedTags : list string;
  allowListFilteredTags : gmap string (list string);
  denyListFilteredTags : gmap string (list string);
}.

(** [json.Unmarshal] of an array: the lines or an error.  The decoder of JSON
    lines: the successive results of [Decode] while there is [More]. *)
Section formats.
Context (unmarshal : string -> result (list log_line)) (decoded : string -> list (result log_line)).

(** The lines, [None] when there is something wrong. *)
Definition array_lines (data : string) : option (list log_line) :=
  match data with
  | EmptyString => None
  | String a _ =>
      if negb (Ascii.eqb a "["%char) then None
      else match unmarshal data with
           | Err _ | Ok [] => None
           | Ok lines => Some lines
           end
  end.
Definition VerifyJsonArrayFormat (data : string) : list op * list log_line :=
  match array_lines data with
  | None => ([SetHasValidFormat false], [])
  | Some lines => ([AddReceivedCount (length lines); SetHasValidFormat true], lines)
  end.

(** How the loop over a text of JSON lines ends. *)
Inductive decoding := Decoded (lines : list log_line) | Malformed | DecodePanics.

Fixpoint decode_loop (results : list (result log_line)) (logLines : list log_line) : decoding :=
  match results with
  | [] => Decoded logLines
  | Err _ :: _ => Malformed
  | Ok LogOther :: _ => DecodePanics
  | Ok (LogObject tags) :: results' =>
      if decide (tags = ∅) then Malformed else decode_loop results' (logLines ++ [LogObject tags])
  end.

Definition lines_decoding (line : string) : decoding :=
  match line with
  | EmptyString => Malformed
  | String a _ => if negb (Ascii.eqb a "{"%char) then Malformed else decode_loop (decoded line) []
  end.
Definition VerifyJsonLinesFormat (line : string) : list op * list log_line * bool :=
  match lines_decoding line with
  | Malformed => ([SetHasValidFormat false], [], true)
  | DecodePanics => ([], [], false)
  | Decoded lines => ([SetHasValidFormat true; AddReceivedCount (length lines)], lines, true)
  end.
End formats.

(** A loop over log lines with the calls and the verdict so far; it stops at a
    line that is no object. *)
Fixpoint each_line (f : list op * bool -> gmap string tag_value -> list op * bool) (st : list op * bool)
    (lines : list log_line) : list op * bool * bool :=
  match lines with
  | [] => (st, true)
  | LogOther :: _ => (st, false)
  | LogObject tags :: lines' => each_line f (f st tags) lines'
  end.
(** The verdict is recorded unless the loop panicked. *)
Definition conclude (out : list op * bool * bool) : list op * bool :=
  let '(ops, valid, ok) := out in if ok : bool then (ops ++ [SetHasValidTags valid], true) else (ops, false).

Definition expected_tag (logTags : gmap string tag_value) (st : list op * bool) (expectedTag : string)
    : list op * bool :=
  let '(ops, valid) := st in
  match logTags !! expectedTag with
  | Some TagNil | Some (TagString EmptyString) =>
      (ops ++ [AddEmptyExpectedTag expectedTag; IncrementEmptyExpectedTagsCount], false)
  | Some _ => (ops, valid)
  | None => (ops ++ [AddMissingExpectedTag expectedTag; IncrementMissingExpectedTagsCount], false)
  end.
Definition ValidateExpectedTags (v : LogVerifier) (lines : list log_line) : list op * bool :=
  conclude (each_line (fun st tags => foldl (expected_tag tags) st (expectedTags v)) ([], true) lines).

Section orders.
Context (tag_order : gmap string tag_value -> list (string * tag_value)).
Context (deny_order : gmap string (list string) -> list (string * list string)).

(** The comparison of an interface with a string. *)
Definition tag_is (tagVal : tag_value) (val : string) : bool :=
  match tagVal with TagString s => String.eqb s val | _ => false end.

(** One pass of the loop over the tags of a line, and over the allowed values. *)
Definition allowed_tag (v : LogVerifier) (foundAllowedTag : bool) (kv : string * tag_value) : bool :=
  if foundAllowedTag then foundAllowedTag
  else match allowListFilteredTags v !! kv.1 with
       | Some allowedVals => existsb (tag_is kv.2) allowedVals
       | None => false
       end.
Definition allowed_line (v : LogVerifier) (st : list op * bool) (tags : gmap string tag_value) : list op * bool :=
  let '(ops, valid) := st in
  let foundAllowedTag := foldl (allowed_tag v) false (tag_order tags) in
  (if foundAllowedTag then ops
   else ops ++ [AddUnexpectedAllowedLog (LogObject tags); IncrementUnexpectedAllowedLogsCount],
   valid && foundAllowedTag).
Definition ValidateAllowedTags (v : LogVerifier) (lines : list log_line) : list op * bool :=
  conclude (each_line (allowed_line v) ([], true) lines).

Definition denied_value (key : string) (tagVal : tag_value) (st : list op * bool) (denyVal : string)
    : list op * bool :=
  if tag_is tagVal denyVal
  then (st.1 ++ [AddUnexpectedDeniedTag (key +:+ ":" +:+ denyVal)%string; IncrementUnexpectedDeniedTagsCount], false)
  else st.
Definition denied_key (tags : gmap string tag_value) (st : list op * bool) (e : string * list string) : list op * bool :=
  match tags !! e.1 with
  | Some tagVal => foldl (denied_value e.1 tagVal) st e.2
  | None => st
  end.
Definition denied_line (v : LogVerifier) (st : list op * bool) (tags : gmap string tag_value) : list op * bool :=
  foldl (denied_key tags) st (deny_order (denyListFilteredTags v)).
Definition ValidateDeniedTags (v : LogVerifier) (lines : list log_line) : list op * bool :=
  conclude (each_line (denied_line v) ([], true) lines).

(** ** The handlers: handlers.go *)

(** [a] and then, unless it panicked, [b]. *)
Definition and_then (a b : list op * bool) : list op * bool :=
  if a.2 then (a.1 ++ b.1, b.2) else a.

(** What both handlers do with the lines. *)
Definition validate (v : LogVerifier) (logLines : list log_line) : list op * bool :=
  match logLines with
  | [] => ([], true)
  | _ => and_then (ValidateExpectedTags v logLines)
           (and_then (ValidateAllowedTags v logLines) (ValidateDeniedTags v logLines))
  end.
Definition LogJsonArrayHandler (unmarshal : string -> result (list log_line)) (v : LogVerifier) (data : string)
    : list op * bool :=
  let '(ops, logLines) := VerifyJsonArrayFormat unmarshal data in and_then (ops, true) (validate v logLines).
Definition LogJsonLinesHandler (decoded : string -> list (result log_line)) (v : LogVerifier) (data : string)
    : list op * bool :=
  let '(ops, logLines, ok) := VerifyJsonLinesFormat decoded data in and_then (ops, ok) (validate v logLines).
End orders.

(** [LogAssertionHandler]: the status and the results it answers with. *)
Definition LogAssertionHandler (r : Results) (method : string) : Z * option Results :=
  if negb (String.eqb method "GET") then (405%Z, None)
  else if (ReceivedLogCount r =? 0)%Z then (204%Z, None) else (200%Z, Some r).

(** ** The settings of cmd/test-proxy/main.go *)

Definition proxy_verifier : LogVerifier :=
  MkLogVerifier
    ["user_defined_tag"; "service"; "application"; "source"; "cluster"; "timestamp"; "pod_name"; "container_name";
     "namespace_name"; "pod_id"; "container_id"; "integration"]
    {["namespace_name" := ["kube-system"; "observability-system"]]}
    {["container_name" := ["kube-apiserver"]]}.

(** ** What a request says *)

(** How a line fares: expected tags that are absent or empty, an allowed tag,
    denied values. *)
Definition lacks (tags : gmap string tag_value) (t : string) : bool := bool_decide (tags !! t = None).
Definition blank (tags : gmap string tag_value) (t : string) : bool :=
  match tags !! t with Some TagNil | Some (TagString EmptyString) => true | _ => false end.
Definition allowed (v : LogVerifier) (tags : gmap string tag_value) : bool :=
  bool_decide (map_Exists (fun t val => existsb (tag_is val) (default [] (allowListFilteredTags v !! t)) = true) tags).
Definition denied (v : LogVerifier) (tags : gmap string tag_value) : bool :=
  bool_decide (map_Exists (fun t vals => existsb (tag_is (default TagNil (tags !! t))) vals = true) (denyListFilteredTags v)).
Definition fine (v : LogVerifier) (tags : gmap string tag_value) : bool :=
  forallb (fun t => negb (lacks tags t) && negb (blank tags t)) (expectedTags v) && allowed v tags && negb (denied v tags).

Section requests.
Context (tag_order : gmap string tag_value -> list (string * tag_value)) (Htags : forall m, iterates (tag_order m) m).
Context (deny_order : gmap string (list string) -> list (string * list string)) (Hdeny : forall m, iterates (deny_order m) m).
Context (v : LogVerifier).

Definition expected_ops (tags : gmap string tag_value) : list op :=
  concat (map (fun t =>
    if lacks tags t then [AddMissingExpectedTag t; IncrementMissingExpectedTagsCount]
    else if blank tags t then [AddEmptyExpectedTag t; IncrementEmptyExpectedTagsCount] else []) (expectedTags v)).
Definition present (tags : gmap string tag_value) : bool :=
  forallb (fun t => negb (lacks tags t) && negb (blank tags t)) (expectedTags v).

Lemma expected_tag_eq tags st t :
  expected_tag tags st t =
    (st.1 ++ (if lacks tags t then [AddMissingExpectedTag t; IncrementMissingExpectedTagsCount]
              else if blank tags t then [AddEmptyExpectedTag t; IncrementEmptyExpectedTagsCount] else []),
     st.2 && (negb (lacks tags t) && negb (blank tags t))).
Proof.
  destruct st as [ops valid]. unfold expected_tag, lacks, blank. cbn [fst snd].
  destruct (tags !! t) as [[|[|a s]|]|]; cbn; by rewrite ?app_nil_r, ?andb_true_r, ?andb_false_r.
Qed.

(** A loop that appends calls and conjoins verdicts. *)
Lemma collect_loop {A} (f : list op * bool -> A -> list op * bool) (g : A -> list op) (ok : A -> bool) l st :
  (forall st a, f st a = (st.1 ++ g a, st.2 && ok a)) ->
  foldl f st l = (st.1 ++ concat (map g l), st.2 && forallb ok l).
Proof.
  intros Hf. revert st; induction l as [|a l IH]; intros [ops b]; cbn.
  { by rewrite app_nil_r, andb_true_r. }
  rewrite IH, Hf. cbn. by rewrite <- app_assoc, andb_assoc.
Qed.

Lemma expected_line_eq st tags :
  foldl (expected_tag tags) st (expectedTags v) = (st.1 ++ expected_ops tags, st.2 && present tags).
Proof. apply collect_loop. apply expected_tag_eq. Qed.

Definition allowed_ops (tags : gmap string tag_value) : list op :=
  if allowed v tags then [] else [AddUnexpectedAllowedLog (LogObject tags); IncrementUnexpectedAllowedLogsCount].

Lemma allowed_loop l b :
  foldl (allowed_tag v) b l =
    b || existsb (fun kv => existsb (tag_is kv.2) (default [] (allowListFilteredTags v !! kv.1))) l.
Proof.
  revert b; induction l as [|kv l IH]; intros b; cbn; [by rewrite orb_false_r|].
  rewrite IH. unfold allowed_tag. destruct b; [done|]. cbn. by destruct (allowListFilteredTags v !! kv.1).
Qed.

Lemma allowed_line_eq st tags :
  allowed_line tag_order v st tags = (st.1 ++ allowed_ops tags, st.2 && allowed v tags).
Proof.
  destruct st as [ops valid]. unfold allowed_line, allowed_ops. rewrite allowed_loop. cbn [orb fst snd].
  assert (existsb (fun kv => existsb (tag_is kv.2) (default [] (allowListFilteredTags v !! kv.1))) (tag_order tags)
    = allowed v tags) as ->.
  { apply eq_true_iff_eq. unfold allowed. rewrite existsb_exists, bool_decide_eq_true. split.
    - intros ([t val] & Hin & H). apply list_elem_of_In, (iterates_elem _ _ _ _ (Htags tags)) in Hin.
      by exists t, val.
    - intros (t & val & Ht & H). exists (t, val). split; [|done].
      by apply list_elem_of_In, (iterates_elem _ _ _ _ (Htags tags)). }
  by destruct (allowed v tags); rewrite ?app_nil_r.
Qed.

Definition denied_ops_of (tags : gmap string tag_value) (e : string * list string) : list op :=
  match tags !! e.1 with
  | Some val => concat (map (fun d => if tag_is val d then
      [AddUnexpectedDeniedTag (e.1 +:+ ":" +:+ d)%string; IncrementUnexpectedDeniedTagsCount] else []) e.2)
  | None => []
  end.
Definition denied_ops (tags : gmap string tag_value) : list op :=
  concat (map (denied_ops_of tags) (deny_order (denyListFilteredTags v))).
Definition denied_by (tags : gmap string tag_value) (e : string * list string) : bool :=
  match tags !! e.1 with Some val => existsb (tag_is val) e.2 | None => false end.

Lemma forallb_negb {A} (p : A -> bool) l : forallb (fun a => negb (p a)) l = negb (existsb p l).
Proof. induction l as [|a l IH]; cbn; [done|]. by rewrite IH, negb_orb. Qed.

Lemma existsb_tag_nil vals : existsb (tag_is TagNil) vals = false.
Proof. by induction vals. Qed.

Lemma denied_line_eq st tags :
  denied_line deny_order v st tags = (st.1 ++ denied_ops tags, st.2 && negb (denied v tags)).
Proof.
  unfold denied_line. rewrite (collect_loop _ (denied_ops_of tags) (fun e => negb (denied_by tags e))).
  - f_equal. f_equal. rewrite forallb_negb. f_equal. apply eq_true_iff_eq. unfold denied.
    rewrite existsb_exists, bool_decide_eq_true. split.
    + intros ([t vals] & Hin & H). apply list_elem_of_In, (iterates_elem _ _ _ _ (Hdeny _)) in Hin.
      exists t, vals. split; [done|]. unfold denied_by in H. cbn in H. by destruct (tags !! t).
    + intros (t & vals & Ht & H). exists (t, vals).
      split; [by apply list_elem_of_In, (iterates_elem _ _ _ _ (Hdeny _))|]. unfold denied_by. cbn.
      destruct (tags !! t); [done|]. by rewrite existsb_tag_nil in H.
  - intros st' [t vals]. unfold denied_key, denied_ops_of, denied_by. cbn [fst snd].
    destruct (tags !! t) as [val|]; [|by destruct st'; rewrite app_nil_r, andb_true_r].
    rewrite <- forallb_negb. apply collect_loop. intros [ops b] d. unfold denied_value. cbn [fst snd].
    destruct (tag_is val d); by rewrite ?app_nil_r, ?andb_true_r, ?andb_false_r.
Qed.

Definition line_tags (l : log_line) : option (gmap string tag_value) :=
  match l with LogObject tags => Some tags | LogOther => None end.

Lemma each_line_ok f g ok lines st :
  (forall st tags, f st tags = (st.1 ++ g tags, st.2 && ok tags)) ->
  (each_line f st lines).2 = true ->
  each_line f st lines =
    (st.1 ++ concat (map g (omap line_tags lines)), st.2 && forallb ok (omap line_tags lines), true) /\
  lines = map LogObject (omap line_tags lines).
Proof.
  intros Hf. revert st; induction lines as [|[tags|] lines IH]; intros [ops b]; [|cbn|done].
  { intros _. cbn. by rewrite app_nil_r, andb_true_r. }
  intros H. destruct (IH _ H) as [IH1 IH2]. cbn. rewrite <- IH2. split; [|done].
  change (each_line f (f (ops, b) tags) lines = (ops ++ g tags ++ concat (map g (omap line_tags lines)),
    b && (ok tags && forallb ok (omap line_tags lines)), true)).
  rewrite IH1, Hf. cbn. by rewrite <- app_assoc, andb_assoc.
Qed.

Lemma conclude_ok f g ok lines :
  (forall st tags, f st tags = (st.1 ++ g tags, st.2 && ok tags)) ->
  (conclude (each_line f ([], true) lines)).2 = true ->
  conclude (each_line f ([], true) lines) =
    (concat (map g (omap line_tags lines)) ++ [SetHasValidTags (forallb ok (omap line_tags lines))], true).
Proof.
  intros Hf H. destruct (each_line_ok f g ok lines ([], true) Hf) as [E _].
  - unfold conclude in H. by destruct (each_line f ([], true) lines) as [[? ?] []].
  - by rewrite E.
Qed.

Definition verdicts (ts : list (gmap string tag_value)) : list op :=
  match ts with
  | [] => []
  | _ => map SetHasValidTags [forallb present ts; forallb (allowed v) ts; forallb (fun tags => negb (denied v tags)) ts]
  end.
Definition findings (ts : list (gmap string tag_value)) : list op :=
  concat (map expected_ops ts) ++ concat (map allowed_ops ts) ++ concat (map denied_ops ts).

Lemma and_then_ok a b : (and_then a b).2 = true -> a.2 = true /\ b.2 = true /\ (and_then a b).1 = a.1 ++ b.1.
Proof. unfold and_then. by destruct a as [? []], b. Qed.

Lemma verdicts_last (es al de : list op) a b c :
  es ++ [a] ++ al ++ [b] ++ de ++ [c] ≡ₚ es ++ al ++ de ++ [a; b; c].
Proof.
  apply Permutation_app_head. cbn [app]. rewrite (app_assoc al de [a; b; c]), <- (Permutation_middle (al ++ de) [b; c] a).
  constructor. rewrite <- app_assoc. apply Permutation_app_head, Permutation_middle.
Qed.

Lemma validate_ok lines :
  (validate tag_order deny_order v lines).2 = true ->
  (validate tag_order deny_order v lines).1 ≡ₚ findings (omap line_tags lines) ++ verdicts (omap line_tags lines).
Proof.
  destruct lines as [|line lines]; [done|]. set (ls := line :: lines).
  change (validate tag_order deny_order v ls) with
    (and_then (ValidateExpectedTags v ls) (and_then (ValidateAllowedTags tag_order v ls) (ValidateDeniedTags deny_order v ls))).
  intros (He & H & ->)%and_then_ok. apply and_then_ok in H as (Ha & H & ->).
  assert (Hne : omap line_tags ls <> []) by (subst ls; destruct line; [by cbn|by cbv in He]).
  unfold ValidateExpectedTags, ValidateAllowedTags, ValidateDeniedTags in *.
  rewrite (conclude_ok _ _ _ _ expected_line_eq He), (conclude_ok _ _ _ _ allowed_line_eq Ha),
    (conclude_ok _ _ _ _ denied_line_eq H). cbn [fst].
  unfold findings, verdicts. destruct (omap line_tags ls) as [|t ts]; [done|]. cbn [map fst].
  rewrite <- !app_assoc. apply verdicts_last.
Qed.

Lemma validate_lines lines :
  (validate tag_order deny_order v lines).2 = true -> lines = map LogObject (omap line_tags lines).
Proof.
  destruct lines as [|line lines]; [done|]. intros (He & _)%and_then_ok. unfold ValidateExpectedTags, conclude in He.
  destruct (each_line _ _ _) as [[ops b] ok] eqn:E. destruct ok; [|done].
  eapply each_line_ok; [apply expected_line_eq|]. by rewrite E.
Qed.

(** A request to either handler, the lines it holds when they have the right
    format, and what its handler does. *)
Context (unmarshal : string -> result (list log_line)) (decoded : string -> list (result log_line)).
Inductive request := ArrayRequest (data : string) | LinesRequest (data : string).
Definition handle (q : request) : list op * bool :=
  match q with
  | ArrayRequest data => LogJsonArrayHandler tag_order deny_order unmarshal v data
  | LinesRequest data => LogJsonLinesHandler tag_order deny_order decoded v data
  end.
Definition request_lines (q : request) : option (list log_line) :=
  match q with
  | ArrayRequest data => array_lines unmarshal data
  | LinesRequest data => match lines_decoding decoded data with Decoded lines => Some lines | _ => None end
  end.
Definition tags_of (q : request) : list (gmap string tag_value) := omap line_tags (default [] (request_lines q)).
Definition well_formed (q : request) : bool := bool_decide (is_Some (request_lines q)).

Definition head_ops (q : request) : list op :=
  SetHasValidFormat (well_formed q) ::
  match request_lines q with Some lines => [AddReceivedCount (length lines)] | None => [] end.

Lemma handle_ok q :
  (handle q).2 = true -> (handle q).1 ≡ₚ head_ops q ++ findings (tags_of q) ++ verdicts (tags_of q).
Proof.
  unfold head_ops, tags_of, well_formed. destruct q as [data|data]; cbn [handle request_lines];
    unfold LogJsonArrayHandler, LogJsonLinesHandler, VerifyJsonArrayFormat, VerifyJsonLinesFormat, and_then.
  - destruct (array_lines unmarshal data) as [lines|]; [|done]. cbn [fst snd default]. intros H.
    rewrite bool_decide_eq_true_2 by (by eexists). rewrite validate_ok by done. cbn [app]. by constructor.
  - destruct (lines_decoding decoded data) as [lines| |]; [|done..]. cbn [fst snd default]. intros H.
    rewrite bool_decide_eq_true_2 by (by eexists). by rewrite validate_ok.
Qed.

(** An answered request of the right format holds objects only. *)
Lemma handle_lines q ls : (handle q).2 = true -> request_lines q = Some ls -> length ls = length (tags_of q).
Proof.
  intros H E. unfold tags_of. rewrite E. cbn [default]. rewrite <- (length_map LogObject), <- validate_lines; [done|].
  destruct q as [data|data]; cbn [handle request_lines] in *;
    unfold LogJsonArrayHandler, LogJsonLinesHandler, VerifyJsonArrayFormat, VerifyJsonLinesFormat in H.
  - rewrite E in H. by apply and_then_ok in H as (_ & H & _).
  - destruct (lines_decoding decoded data); [|done..]. injection E as <-. by apply and_then_ok in H as (_ & H & _).
Qed.

(** Everything a batch of requests does, sorted by kind. *)
Lemma concat_map_app {A B} (f g : A -> list B) l :
  concat (map (fun a => f a ++ g a) l) ≡ₚ concat (map f l) ++ concat (map g l).
Proof.
  induction l as [|a l IH]; cbn; [done|]. rewrite IH, <- !app_assoc. apply Permutation_app_head.
  rewrite !app_assoc. apply Permutation_app_tail, Permutation_app_comm.
Qed.

Lemma concat_map_concat {A B C} (g : B -> list C) (t : A -> list B) l :
  concat (map (fun a => concat (map g (t a))) l) = concat (map g (concat (map t l))).
Proof. induction l as [|a l IH]; cbn; [done|]. by rewrite IH, map_app, concat_app. Qed.

Definition lines_of (qs : list request) : list (gmap string tag_value) := concat (map tags_of qs).

Lemma requests_ops qs :
  Forall (fun q => (handle q).2 = true) qs ->
  concat (map (fun q => (handle q).1) qs) ≡ₚ
    concat (map head_ops qs) ++ findings (lines_of qs) ++ concat (map (fun q => verdicts (tags_of q)) qs).
Proof.
  intros Hqs. transitivity (concat (map (fun q => head_ops q ++ (findings (tags_of q) ++ verdicts (tags_of q))) qs)).
  { induction Hqs as [|q qs Hq _ IH]; cbn; [done|]. by rewrite IH, (handle_ok q Hq), <- !app_assoc. }
  rewrite concat_map_app. apply Permutation_app_head. rewrite concat_map_app. apply Permutation_app_tail.
  unfold findings, lines_of. rewrite <- !concat_map_concat. rewrite concat_map_app. apply Permutation_app_head.
  by rewrite concat_map_app.
Qed.
End requests.

(** ** What the calls leave in the results *)

Definition format_verdict (o : op) : option bool := match o with SetHasValidFormat b => Some b | _ => None end.
Definition tags_verdict (o : op) : option bool := match o with SetHasValidTags b => Some b | _ => None end.
Definition missing_tag (o : op) : option string := match o with AddMissingExpectedTag t => Some t | _ => None end.
Definition empty_tag (o : op) : option string := match o with AddEmptyExpectedTag t => Some t | _ => None end.
Definition unexpected_log (o : op) : option log_line := match o with AddUnexpectedAllowedLog l => Some l | _ => None end.
Definition denied_tag (o : op) : option string := match o with AddUnexpectedDeniedTag t => Some t | _ => None end.
Definition missing_count (o : op) : Z := match o with IncrementMissingExpectedTagsCount => 1 | _ => 0 end.
Definition empty_count (o : op) : Z := match o with IncrementEmptyExpectedTagsCount => 1 | _ => 0 end.
Definition allowed_count (o : op) : Z := match o with IncrementUnexpectedAllowedLogsCount => 1 | _ => 0 end.
Definition denied_count (o : op) : Z := match o with IncrementUnexpectedDeniedTagsCount => 1 | _ => 0 end.
Definition received_count (o : op) : Z := match o with AddReceivedCount n => Z.of_nat n | _ => 0 end.
Definition received (o : op) : option nat := match o with AddReceivedCount n => Some n | _ => None end.

Lemma apply_ops_eq r l :
  apply_ops r l =
    MkResults (foldl verdict (HasValidFormat r) (omap format_verdict l)) (foldl verdict (HasValidTags r) (omap tags_verdict l))
      (MissingExpectedTagsMap r ∪ list_to_set (omap missing_tag l)) (MissingExpectedTagsCount r + zsum missing_count l)
      (EmptyExpectedTagsMap r ∪ list_to_set (omap empty_tag l)) (EmptyExpectedTagsCount r + zsum empty_count l)
      (UnexpectedAllowedLogs r ++ omap unexpected_log l) (UnexpectedAllowedLogsCount r + zsum allowed_count l)
      (UnexpectedDeniedTagsMap r ∪ list_to_set (omap denied_tag l)) (UnexpectedDeniedTagsCount r + zsum denied_count l)
      (ReceivedLogCount r + zsum received_count l).
Proof.
  revert r; induction l as [|o l IH]; intros [f t mm mc em ec al ac dm dc n]; unfold apply_ops; cbn [foldl].
  { cbn. by rewrite !Z.add_0_r, !(right_id_L ∅ (∪)), app_nil_r. }
  fold (apply_ops (apply_op (MkResults f t mm mc em ec al ac dm dc n) o) l). rewrite IH, !zsum_cons. clear IH.
  destruct o; cbn -[zsum]; rewrite <- ?app_assoc; f_equal; try lia; set_solver.
Qed.

Lemma verdict_zero bs : foldl verdict 0%Z bs = 0%Z.
Proof. by induction bs. Qed.
Lemma verdict_one bs : foldl verdict 1%Z bs = if forallb id bs then 1%Z else 0%Z.
Proof. induction bs as [|[] bs IH]; cbn; [done|exact IH|apply verdict_zero]. Qed.

(** The verdict after any sequence of partial verdicts. *)
Definition final_verdict (bs : list bool) : Z :=
  match bs with [] => (-1)%Z | _ => if forallb id bs then 1%Z else 0%Z end.
Lemma verdict_final bs : foldl verdict (-1)%Z bs = final_verdict bs.
Proof. destruct bs as [|[] bs]; cbn; [done|apply verdict_one|apply verdict_zero]. Qed.

#[export] Instance final_verdict_perm : Proper (Permutation ==> eq) final_verdict.
Proof.
  intros l1 l2 H. assert (forallb id l1 = forallb id l2) as E.
  { apply eq_true_iff_eq. rewrite !forallb_forall. split; intros Hl b Hb; apply Hl; by rewrite <- list_elem_of_In, ?H, ?list_elem_of_In in *. }
  unfold final_verdict. rewrite E. destruct l1, l2; try done; [by apply Permutation_nil_l in H|by apply Permutation_nil_r in H].
Qed.

Lemma omap_concat_map {A B} (p : op -> option B) (g : A -> list op) l :
  omap p (concat (map g l)) = concat (map (fun a => omap p (g a)) l).
Proof. induction l as [|a l IH]; cbn; [done|]. by rewrite omap_app, IH. Qed.

Lemma concat_nil_map {A B} (g : A -> list B) l : (forall a, g a = []) -> concat (map g l) = [].
Proof. intros H. induction l as [|a l IH]; cbn; [done|]. by rewrite H. Qed.

Lemma elem_of_concat_map {A B} (g : A -> list B) l b : b ∈ concat (map g l) <-> exists a, a ∈ l /\ b ∈ g a.
Proof.
  rewrite !list_elem_of_In, in_concat. setoid_rewrite in_map_iff. setoid_rewrite list_elem_of_In. naive_solver.
Qed.

Lemma zsum_concat_map {A B} (f : B -> Z) (g : A -> list B) l :
  zsum f (concat (map g l)) = zsum (fun a => zsum f (g a)) l.
Proof. induction l as [|a l IH]; cbn [map concat]; [done|]. by rewrite zsum_app, zsum_cons, IH. Qed.

Section projections.
Context (v : LogVerifier) (deny_order : gmap string (list string) -> list (string * list string)).

Lemma expected_ops_other {B} (p : op -> option B) tags :
  (forall t, p (AddMissingExpectedTag t) = None) -> (forall t, p (AddEmptyExpectedTag t) = None) ->
  p IncrementMissingExpectedTagsCount = None -> p IncrementEmptyExpectedTagsCount = None ->
  omap p (expected_ops v tags) = [].
Proof.
  intros H1 H2 H3 H4. unfold expected_ops. rewrite omap_concat_map. apply concat_nil_map. intros t.
  destruct (lacks tags t); cbn; [by rewrite H1, H3|]. destruct (blank tags t); cbn; [by rewrite H2, H4|done].
Qed.

Lemma allowed_ops_other {B} (p : op -> option B) tags :
  (forall l, p (AddUnexpectedAllowedLog l) = None) -> p IncrementUnexpectedAllowedLogsCount = None ->
  omap p (allowed_ops v tags) = [].
Proof. intros H1 H2. unfold allowed_ops. destruct (allowed v tags); cbn; [done|]. by rewrite H1, H2. Qed.

Lemma denied_ops_other {B} (p : op -> option B) tags :
  (forall t, p (AddUnexpectedDeniedTag t) = None) -> p IncrementUnexpectedDeniedTagsCount = None ->
  omap p (denied_ops deny_order v tags) = [].
Proof.
  intros H1 H2. unfold denied_ops. rewrite omap_concat_map. apply concat_nil_map. intros e. unfold denied_ops_of.
  destruct (tags !! e.1) as [val|]; [|done]. rewrite omap_concat_map. apply concat_nil_map. intros d.
  destruct (tag_is val d); cbn; [by rewrite H1, H2|done].
Qed.
End projections.

(** The verdicts of the three passes over the lines of several requests. *)
Lemma verdicts_all v ts : forallb id (omap tags_verdict (verdicts v ts)) = forallb (fine v) ts.
Proof.
  transitivity (forallb (present v) ts && forallb (allowed v) ts && forallb (fun tags => negb (denied v tags)) ts).
  { destruct ts as [|t ts]; [done|]. cbn -[present allowed denied forallb]. cbn [forallb id].
    by rewrite andb_true_r, andb_assoc. }
  induction ts as [|t ts IH]; [done|]. cbn [forallb]. rewrite <- IH. unfold fine.
  change (forallb _ (expectedTags v)) with (present v t). destruct (present v t), (allowed v t), (denied v t); cbn;
    by rewrite ?andb_false_r.
Qed.

Lemma verdicts_final v tss :
  final_verdict (concat (map (fun ts => omap tags_verdict (verdicts v ts)) tss)) =
    match concat tss with [] => (-1)%Z | _ => if forallb (fine v) (concat tss) then 1%Z else 0%Z end.
Proof.
  assert (Hall : forallb id (concat (map (fun ts => omap tags_verdict (verdicts v ts)) tss)) = forallb (fine v) (concat tss)).
  { induction tss as [|ts tss IH]; [done|]. cbn [map concat]. by rewrite !forallb_app, IH, verdicts_all. }
  assert (Hnil : concat (map (fun ts => omap tags_verdict (verdicts v ts)) tss) = [] <-> concat tss = []).
  { clear Hall. induction tss as [|ts tss IH]; [done|]. cbn [map concat]. destruct ts as [|t ts]; [exact IH|done]. }
  unfold final_verdict. rewrite Hall. destruct (concat (map _ tss)), (concat tss); naive_solver.
Qed.

(** A counter that moves with the calls of one kind. *)
Definition paired {B} (c : op -> Z) (p : op -> option B) (l : list op) : Prop := zsum c l = Z.of_nat (length (omap p l)).

Lemma paired_app {B} c (p : op -> option B) l1 l2 : paired c p l1 -> paired c p l2 -> paired c p (l1 ++ l2).
Proof. unfold paired. rewrite zsum_app, omap_app, length_app. lia. Qed.

Lemma paired_concat {A B} c (p : op -> option B) (g : A -> list op) l :
  (forall a, paired c p (g a)) -> paired c p (concat (map g l)).
Proof. intros H. induction l as [|a l IH]; [done|]. cbn [map concat]. by apply paired_app. Qed.

(** The calls that are made together. *)
Inductive unit_ops : list op -> Prop :=
  | unit_missing t : unit_ops [AddMissingExpectedTag t; IncrementMissingExpectedTagsCount]
  | unit_empty t : unit_ops [AddEmptyExpectedTag t; IncrementEmptyExpectedTagsCount]
  | unit_allowed x : unit_ops [AddUnexpectedAllowedLog x; IncrementUnexpectedAllowedLogsCount]
  | unit_denied t : unit_ops [AddUnexpectedDeniedTag t; IncrementUnexpectedDeniedTagsCount]
  | unit_format b : unit_ops [SetHasValidFormat b]
  | unit_tags b : unit_ops [SetHasValidTags b]
  | unit_received n : unit_ops [AddReceivedCount n]
  | unit_none : unit_ops [].
#[local] Hint Constructors unit_ops : core.

(** ** Properties *)

Section batch.
Context (tag_order : gmap string tag_value -> list (string * tag_value)) (Htags : forall m, iterates (tag_order m) m).
Context (deny_order : gmap string (list string) -> list (string * list string)) (Hdeny : forall m, iterates (deny_order m) m).
Context (v : LogVerifier).
Context (unmarshal : string -> result (list log_line)) (decoded : string -> list (result log_line)).
Abbreviation handle := (handle tag_order deny_order v unmarshal decoded).
Abbreviation tags_of := (tags_of unmarshal decoded).
Abbreviation lines_of := (lines_of unmarshal decoded).
Abbreviation well_formed := (well_formed unmarshal decoded).
Abbreviation head_ops := (head_ops unmarshal decoded).
Context (qs : list request) (l : list op).
Context (Hqs : Forall (fun q => (handle q).2 = true) qs) (Hl : interleaving (map (fun q => (handle q).1) qs) l).

Lemma batch_perm : l ≡ₚ concat (map head_ops qs) ++ findings deny_order v (lines_of qs) ++
  concat (map (fun q => verdicts v (tags_of q)) qs).
Proof. rewrite (interleaving_perm _ _ Hl). by apply requests_ops. Qed.

Lemma batch_project {B} (p : op -> option B) :
  omap p l ≡ₚ concat (map (fun q => omap p (head_ops q)) qs) ++
    concat (map (fun t => omap p (expected_ops v t)) (lines_of qs)) ++
    concat (map (fun t => omap p (allowed_ops v t)) (lines_of qs)) ++
    concat (map (fun t => omap p (denied_ops deny_order v t)) (lines_of qs)) ++
    concat (map (fun q => omap p (verdicts v (tags_of q))) qs).
Proof. rewrite batch_perm. unfold findings. rewrite !omap_app, !omap_concat_map. by rewrite <- !app_assoc. Qed.

Lemma head_other {B} (p : op -> option B) q :
  (forall b, p (SetHasValidFormat b) = None) -> (forall n, p (AddReceivedCount n) = None) -> omap p (head_ops q) = [].
Proof. intros H1 H2. unfold LogVerifier.head_ops. cbn. rewrite H1. destruct (request_lines _ _ q); cbn; by rewrite ?H2. Qed.

Lemma verdicts_other {B} (p : op -> option B) ts : (forall b, p (SetHasValidTags b) = None) -> omap p (verdicts v ts) = [].
Proof. intros H. destruct ts; cbn; [done|]. by rewrite !H. Qed.

Lemma batch_formats : omap format_verdict l ≡ₚ map well_formed qs.
Proof.
  rewrite batch_project. rewrite !(concat_nil_map (A:=gmap string tag_value)).
  - rewrite (concat_nil_map (fun q => omap format_verdict (verdicts v (tags_of q)))) by (intros; by apply verdicts_other).
    cbn. rewrite app_nil_r. clear Hqs Hl. induction qs as [|q qs' IH]; cbn; [done|]. rewrite IH.
    unfold LogVerifier.head_ops. cbn. by destruct (request_lines _ _ q).
  - intros; by apply denied_ops_other.
  - intros; by apply allowed_ops_other.
  - intros; by apply expected_ops_other.
Qed.

(** The calls of one kind, for the kinds of the findings. *)
Lemma batch_findings {B} (p : op -> option B) :
  (forall b, p (SetHasValidFormat b) = None) -> (forall n, p (AddReceivedCount n) = None) ->
  (forall b, p (SetHasValidTags b) = None) ->
  omap p l ≡ₚ concat (map (fun t => omap p (expected_ops v t) ++ omap p (allowed_ops v t) ++
    omap p (denied_ops deny_order v t)) (lines_of qs)).
Proof.
  intros H1 H2 H3. rewrite batch_project, !concat_map_app.
  rewrite (concat_nil_map (fun q => omap p (head_ops q))) by (intros; by apply head_other).
  rewrite (concat_nil_map (fun q => omap p (verdicts v (tags_of q)))) by (intros; by apply verdicts_other).
  by rewrite app_nil_r.
Qed.

Lemma batch_verdicts :
  foldl verdict (-1)%Z (omap tags_verdict l) =
    match lines_of qs with [] => (-1)%Z | _ => if forallb (fine v) (lines_of qs) then 1%Z else 0%Z end.
Proof.
  rewrite verdict_final, batch_project. rewrite !(concat_nil_map (A:=gmap string tag_value)).
  2-4: intros; by first [apply denied_ops_other|apply allowed_ops_other|apply expected_ops_other].
  rewrite (concat_nil_map (fun q => omap tags_verdict (head_ops q))) by (intros; by apply head_other).
  cbn [app]. unfold LogVerifier.lines_of.
  replace (map (fun q => omap tags_verdict (verdicts v (tags_of q))) qs)
    with (map (fun ts => omap tags_verdict (verdicts v ts)) (map tags_of qs)) by by rewrite map_map.
  apply verdicts_final.
Qed.

Lemma batch_paired {B} c (p : op -> option B) : (forall u, unit_ops u -> paired c p u) -> paired c p l.
Proof.
  intros Hu. unfold paired. rewrite (zsum_perm _ _ _ batch_perm), batch_perm.
  change (paired c p (concat (map head_ops qs) ++ findings deny_order v (lines_of qs) ++
    concat (map (fun q => verdicts v (tags_of q)) qs))).
  unfold findings. repeat apply paired_app; apply paired_concat.
  - intros q. unfold LogVerifier.head_ops. apply (paired_app _ _ [_]); [by apply Hu|]. case_match; by apply Hu.
  - intros t. apply paired_concat. intros n. case_match; [by apply Hu|]. case_match; by apply Hu.
  - intros t. unfold allowed_ops. case_match; by apply Hu.
  - intros t. apply paired_concat. intros e. unfold denied_ops_of. case_match; [|by apply Hu].
    apply paired_concat. intros d. case_match; by apply Hu.
  - intros q. unfold verdicts. case_match; [by apply Hu|]. cbn [map].
    apply (paired_app _ _ [_]); [by apply Hu|]. apply (paired_app _ _ [_]); by apply Hu.
Qed.

Lemma batch_received : zsum received_count l = Z.of_nat (length (lines_of qs)).
Proof.
  assert (Hz : forall ops, zsum received_count ops = zsum Z.of_nat (omap received ops)).
  { induction ops as [|o ops IH]; [done|]. rewrite zsum_cons, IH. by destruct o. }
  rewrite Hz. rewrite (zsum_perm _ _ _ (batch_project received)). rewrite !(concat_nil_map (A:=gmap string tag_value)).
  2-4: intros; by first [apply denied_ops_other|apply allowed_ops_other|apply expected_ops_other].
  rewrite (concat_nil_map (fun q => omap received (verdicts v (tags_of q)))) by (intros; by apply verdicts_other).
  cbn [app]. rewrite app_nil_r. unfold LogVerifier.lines_of. clear Hl. revert Hqs.
  induction 1 as [|q qs' Hq _ IH]; [done|]. cbn [map concat]. rewrite zsum_app, length_app, IH.
  assert (zsum Z.of_nat (omap received (head_ops q)) = Z.of_nat (length (tags_of q))); [|lia].
  unfold LogVerifier.head_ops. destruct (request_lines unmarshal decoded q) as [ls|] eqn:E; cbn.
  - rewrite (handle_lines tag_order deny_order v unmarshal decoded q ls Hq E). lia.
  - unfold LogVerifier.tags_of. by rewrite E.
Qed.

(** The expected tags of one of the two complaints. *)
Lemma batch_expected (p : op -> option string) (bad : gmap string tag_value -> string -> bool) t :
  (forall b, p (SetHasValidFormat b) = None) -> (forall n, p (AddReceivedCount n) = None) ->
  (forall b, p (SetHasValidTags b) = None) -> (forall x, p (AddUnexpectedAllowedLog x) = None) ->
  (forall x, p (AddUnexpectedDeniedTag x) = None) -> p IncrementUnexpectedAllowedLogsCount = None ->
  p IncrementUnexpectedDeniedTagsCount = None ->
  (forall tags t', omap p (if lacks tags t' then [AddMissingExpectedTag t'; IncrementMissingExpectedTagsCount]
     else if blank tags t' then [AddEmptyExpectedTag t'; IncrementEmptyExpectedTagsCount] else []) =
     if bad tags t' then [t'] else []) ->
  t ∈ omap p l <-> t ∈ expectedTags v /\ exists tags, tags ∈ lines_of qs /\ bad tags t = true.
Proof.
  intros H1 H2 H3 H4 H5 H6 H7 Hbad. rewrite batch_findings by done. rewrite elem_of_concat_map.
  setoid_rewrite (allowed_ops_other v p); [|done..]. setoid_rewrite (denied_ops_other v deny_order p); [|done..].
  setoid_rewrite app_nil_r. unfold expected_ops. split.
  - intros (tags & Hin & H). rewrite omap_concat_map, elem_of_concat_map in H. destruct H as (t' & Ht & H).
    rewrite Hbad in H. destruct (bad tags t') eqn:Eb; [|by apply not_elem_of_nil in H].
    apply list_elem_of_singleton in H as ->. split; [done|by exists tags].
  - intros (Ht & tags & Hin & Eb). exists tags. split; [done|]. rewrite omap_concat_map, elem_of_concat_map.
    exists t. split; [done|]. rewrite Hbad, Eb. by left.
Qed.

Lemma batch_missing t :
  t ∈ omap missing_tag l <-> t ∈ expectedTags v /\ exists tags, tags ∈ lines_of qs /\ lacks tags t = true.
Proof. apply batch_expected; try done. intros tags t'. by destruct (lacks tags t'), (blank tags t'). Qed.

Lemma batch_empty t :
  t ∈ omap empty_tag l <-> t ∈ expectedTags v /\ exists tags, tags ∈ lines_of qs /\ blank tags t = true.
Proof.
  apply batch_expected; try done. intros tags t'. unfold lacks, blank. by destruct (tags !! t') as [[|[]|]|].
Qed.

Lemma batch_unexpected :
  omap unexpected_log l ≡ₚ map LogObject (List.filter (fun tags => negb (allowed v tags)) (lines_of qs)).
Proof.
  rewrite batch_findings by done. induction (lines_of qs) as [|t ts IH]; [done|]. cbn [map concat List.filter].
  rewrite IH, (expected_ops_other v unexpected_log), (denied_ops_other v deny_order unexpected_log), app_nil_r by done.
  unfold allowed_ops. by destruct (allowed v t).
Qed.

Lemma batch_denied t :
  t ∈ omap denied_tag l <-> exists tags key val, tags ∈ lines_of qs /\ tags !! key = Some (TagString val) /\
    val ∈ default [] (denyListFilteredTags v !! key) /\ t = (key +:+ ":" +:+ val)%string.
Proof.
  rewrite batch_findings by done. rewrite elem_of_concat_map.
  setoid_rewrite (expected_ops_other v denied_tag); [|done..]. setoid_rewrite (allowed_ops_other v denied_tag); [|done..].
  cbn [app]. unfold denied_ops. split.
  - intros (tags & Hin & H). rewrite omap_concat_map, elem_of_concat_map in H. destruct H as ([key vals] & Hk & H).
    apply (iterates_elem _ _ _ _ (Hdeny _)) in Hk. unfold denied_ops_of in H. cbn [fst snd] in H.
    destruct (tags !! key) as [tv|] eqn:Et; [|by apply not_elem_of_nil in H].
    rewrite omap_concat_map, elem_of_concat_map in H. destruct H as (d & Hd & H).
    destruct (tag_is tv d) eqn:Ed; [|by apply not_elem_of_nil in H]. apply list_elem_of_singleton in H as ->.
    destruct tv as [|s|]; [done| |done]. apply String.eqb_eq in Ed as ->.
    exists tags, key, d. by rewrite Hk.
  - intros (tags & key & val & Hin & Et & Hv & ->). exists tags. split; [done|].
    destruct (denyListFilteredTags v !! key) as [vals|] eqn:Ek; [|by apply not_elem_of_nil in Hv].
    rewrite omap_concat_map, elem_of_concat_map. exists (key, vals).
    split; [by apply (iterates_elem _ _ _ _ (Hdeny _))|]. unfold denied_ops_of. cbn [fst snd]. rewrite Et.
    rewrite omap_concat_map, elem_of_concat_map. exists val. split; [exact Hv|]. cbn. rewrite String.eqb_refl. by left.
Qed.
End batch.

(** C40: What the results hold once a batch of requests has been answered, whatever
    the interleaving of their calls: the format is right when that of every
    request was; the tags are right when every line received has all expected
    tags with a value, some allowed tag and no denied one; the tags reported
    missing, empty and denied and the lines reported without an allowed tag
    are those of the lines received, and the counts go with them.  A request
    whose text is not in the format adds nothing else. *)
Theorem log_results_spec (tag_order : gmap string tag_value -> list (string * tag_value))
    (deny_order : gmap string (list string) -> list (string * list string)) (v : LogVerifier)
    (unmarshal : string -> result (list log_line)) (decoded : string -> list (result log_line))
    (qs : list request) (l : list op) :
  (forall m, iterates (tag_order m) m) -> (forall m, iterates (deny_order m) m) ->
  Forall (fun q => (handle tag_order deny_order v unmarshal decoded q).2 = true) qs ->
  interleaving (map (fun q => (handle tag_order deny_order v unmarshal decoded q).1) qs) l ->
  let r := apply_ops NewLogResults l in
  let lines := lines_of unmarshal decoded qs in
  HasValidFormat r = final_verdict (map (well_formed unmarshal decoded) qs) /\
  HasValidTags r = match lines with [] => (-1)%Z | _ => if forallb (fine v) lines then 1%Z else 0%Z end /\
  ReceivedLogCount r = Z.of_nat (length lines) /\
  (forall t, t ∈ MissingExpectedTagsMap r <-> t ∈ expectedTags v /\ exists tags, tags ∈ lines /\ lacks tags t = true) /\
  (forall t, t ∈ EmptyExpectedTagsMap r <-> t ∈ expectedTags v /\ exists tags, tags ∈ lines /\ blank tags t = true) /\
  UnexpectedAllowedLogs r ≡ₚ map LogObject (List.filter (fun tags => negb (allowed v tags)) lines) /\
  UnexpectedAllowedLogsCount r = Z.of_nat (length (UnexpectedAllowedLogs r)) /\
  (forall t, t ∈ UnexpectedDeniedTagsMap r <-> exists tags key val, tags ∈ lines /\
     tags !! key = Some (TagString val) /\ val ∈ default [] (denyListFilteredTags v !! key) /\
     t = (key +:+ ":" +:+ val)%string) /\
  ((MissingExpectedTagsCount r = 0 <-> MissingExpectedTagsMap r = ∅) /\
   (EmptyExpectedTagsCount r = 0 <-> EmptyExpectedTagsMap r = ∅) /\
   (UnexpectedDeniedTagsCount r = 0 <-> UnexpectedDeniedTagsMap r = ∅))%Z.
Proof.
  intros Ht Hd Hqs Hl r lines. unfold r. rewrite apply_ops_eq. cbn -[zsum]. rewrite !Z.add_0_l, !(left_id_L ∅ (∪)).
  pose proof (fun B => @batch_paired tag_order Ht deny_order Hd v unmarshal decoded qs l Hqs Hl B) as Hp.
  assert (Hempty : forall A (x : list A) `{Countable A}, Z.of_nat (length x) = 0%Z <-> list_to_set (C:=gset A) x = ∅).
  { intros A x ? ?. destruct x as [|a x]; [done|]. cbn. split; [lia|set_solver]. }
  rewrite (Hp _ missing_count missing_tag), (Hp _ empty_count empty_tag), (Hp _ allowed_count unexpected_log),
    (Hp _ denied_count denied_tag) by (by destruct 1).
  setoid_rewrite elem_of_list_to_set. split_and!; try apply Hempty.
  - by rewrite verdict_final, (batch_formats tag_order Ht deny_order Hd v unmarshal decoded qs l Hqs Hl).
  - by apply (batch_verdicts tag_order Ht deny_order Hd).
  - by eapply (batch_received tag_order Ht deny_order Hd).
  - by apply (batch_missing tag_order Ht deny_order Hd).
  - by apply (batch_empty tag_order Ht deny_order Hd).
  - by apply (batch_unexpected tag_order Ht deny_order Hd).
  - done.
  - by apply (batch_denied tag_order Ht deny_order Hd).
Qed.

(** A line with everything in a request beside one that is empty. *)
Definition small_verifier : LogVerifier := MkLogVerifier ["source"] {["ns" := ["a"]]} ∅.
Definition good_line : log_line := LogObject (<["source" := TagString "s"]> {["ns" := TagString "a"]}).
Definition bad_line : log_line := LogObject {["ns" := TagString "a"]}.

Lemma log_results_spec_witness :
  let l := [SetHasValidFormat false; AddReceivedCount 1; SetHasValidFormat true;
            SetHasValidTags true; SetHasValidTags true; SetHasValidTags true] in
  let r := apply_ops NewLogResults l in
  HasValidFormat r = 0%Z /\ HasValidTags r = 1%Z /\ ReceivedLogCount r = 1%Z.
Proof.
  intros l r. pose (qs := [ArrayRequest "["; ArrayRequest ""]).
  destruct (log_results_spec map_to_list map_to_list small_verifier (fun _ => Ok [good_line]) (fun _ => []) qs l)
    as (Hf & Ht & Hn & _).
  - intros m. apply iterates_canonical.
  - intros m. apply iterates_canonical.
  - repeat constructor.
  - pose (g := [AddReceivedCount 1; SetHasValidFormat true; SetHasValidTags true; SetHasValidTags true; SetHasValidTags true]).
    change (interleaving ([g] ++ [[SetHasValidFormat false]]) l). apply interleaving_cons.
    do 5 apply (interleaving_cons []). apply interleaving_nil. by repeat constructor.
  - unfold r. rewrite Hf, Ht, Hn. split_and!; vm_compute; reflexivity.
Defined.

(** A line that is no object ends the request before its verdict: the tag that
    the line before it lacks is reported, and the tags still count as right. *)
Lemma panic_without_verdict :
  let out := handle map_to_list map_to_list small_verifier (fun _ => Ok [bad_line; LogOther]) (fun _ => []) (ArrayRequest "[") in
  let r := apply_ops NewLogResults out.1 in
  out.2 = false /\ HasValidTags r = (-1)%Z /\ MissingExpectedTagsCount r = 1%Z.
Proof. cbv zeta. split_and!; vm_compute; reflexivity. Qed.
