(* ===== verification/CadvisorMetrics.v ===== *)
(** How the metrics are read from cadvisor's statistics, internal/metrics/
    metrics.go ([HasValue], [GetValue], [HasLabeledMetric],
    [GetLabeledMetric]), and the keys of historical metrics,
    internal/metrics/historical_types.go.

    The statistics are records of the fields that are read; unsigned 64-bit
    counters are converted to signed ones. *)

From Stdlib Require Import ZArith Lia.
From S2P Require Import Prelude GoFloat Metrics MetricTable Util.

(** ** The statistics *)

Record ContainerSpec := MkContainerSpec {
  CreationTime : Z;
  HasCpu : bool;
  HasMemory : bool;
  HasNetwork : bool;
  HasFilesystem : bool;
  HasDiskIo : bool;
}.
Record InterfaceStats := MkInterfaceStats { RxBytes : Z; RxErrors : Z; TxBytes : Z; TxErrors : Z }.
Record FsStats := MkFsStats {
  fs_Device : string;
  fs_Usage : Z;
  fs_Limit : Z;
  fs_Available : Z;
  fs_HasInodes : bool;
  fs_Inodes : Z;
  fs_InodesFree : Z;
}.
Record AcceleratorStats := MkAcceleratorStats {
  ac_Make : string;
  ac_Model : string;
  ac_ID : string;
  ac_MemoryTotal : Z;
  ac_MemoryUsed : Z;
  ac_DutyCycle : Z;
}.
Record PerDiskStats := MkPerDiskStats {
  pd_Device : string;
  pd_Major : Z;
  pd_Minor : Z;
  pd_Stats : gmap string Z;
}.
Record ContainerStats := MkContainerStats {
  Cpu_LoadAverage : Z;
  Cpu_Usage_Total : Z;
  Memory_Usage : Z;
  Memory_Cache : Z;
  Memory_RSS : Z;
  Memory_WorkingSet : Z;
  Memory_Pgfault : Z;
  Memory_Pgmajfault : Z;
  Network_Interfaces : list InterfaceStats;
  Filesystem : list FsStats;
  Accelerators : list AcceleratorStats;
  DiskIo_IoServiceBytes : list PerDiskStats;
}.

(** ** A metric and how it is read *)

Abbreviation labeled := (LabeledValue (gmap string string)).

(** [now] is the time at which [GetValue] is called. *)
Record Metric := MkMetric {
  m_Descriptor : MetricDescriptor;
  m_HasValue : option (ContainerSpec -> bool);
  m_GetValue : option (Z -> ContainerSpec -> ContainerStats -> Value);
  m_HasLabeledMetric : option (ContainerSpec -> ContainerStats -> bool);
  m_GetLabeledMetric : option (ContainerSpec -> ContainerStats -> list labeled);
}.

Definition value_metric d has get : Metric := MkMetric d (Some has) (Some get) None None.
Definition labeled_metric d has get : Metric := MkMetric d None None (Some has) (Some get).

(** [int64(x)] of an unsigned counter. *)
Definition int64_of (x : Z) : Value := intValue (wrap64 x).

Definition uptime : Metric := value_metric MetricUptime
  (fun spec => negb (time_is_zero (CreationTime spec)))
  (fun now spec _ => intValue (Z.quot (time_sub now (CreationTime spec)) millisecond)).

Definition cpu_load : Metric := value_metric MetricCpuLoad HasCpu (fun _ _ stat => intValue (Cpu_LoadAverage stat)).
Definition cpu_usage : Metric := value_metric MetricCpuUsage HasCpu (fun _ _ stat => int64_of (Cpu_Usage_Total stat)).

Definition memory_usage : Metric := value_metric MetricMemoryUsage HasMemory (fun _ _ stat => int64_of (Memory_Usage stat)).
Definition memory_cache : Metric := value_metric MetricMemoryCache HasMemory (fun _ _ stat => int64_of (Memory_Cache stat)).
Definition memory_rss : Metric := value_metric MetricMemoryRSS HasMemory (fun _ _ stat => int64_of (Memory_RSS stat)).
Definition memory_working_set : Metric :=
  value_metric MetricMemoryWorkingSet HasMemory (fun _ _ stat => int64_of (Memory_WorkingSet stat)).
Definition memory_page_faults : Metric :=
  value_metric MetricMemoryPageFaults HasMemory (fun _ _ stat => int64_of (Memory_Pgfault stat)).
Definition memory_major_page_faults : Metric :=
  value_metric MetricMemoryMajorPageFaults HasMemory (fun _ _ stat => int64_of (Memory_Pgmajfault stat)).

(** The unsigned sum over the interfaces. *)
Definition interfaces_sum (f : InterfaceStats -> Z) (stat : ContainerStats) : Z :=
  foldl (fun acc i => wrapu64 (acc + f i)) 0%Z (Network_Interfaces stat).
Definition network_rx : Metric :=
  value_metric MetricNetworkRx HasNetwork (fun _ _ stat => int64_of (interfaces_sum RxBytes stat)).
Definition network_rx_errors : Metric :=
  value_metric MetricNetworkRxErrors HasNetwork (fun _ _ stat => int64_of (interfaces_sum RxErrors stat)).
Definition network_tx : Metric :=
  value_metric MetricNetworkTx HasNetwork (fun _ _ stat => int64_of (interfaces_sum TxBytes stat)).
Definition network_tx_errors : Metric :=
  value_metric MetricNetworkTxErrors HasNetwork (fun _ _ stat => int64_of (interfaces_sum TxErrors stat)).

(** *** Filesystems *)

Definition fs_value (name : string) (x : FsStats -> Z) (fs : FsStats) : labeled :=
  MkLabeledValue name {[Key LabelResourceID := fs_Device fs]} (int64_of (x fs)).
Definition has_filesystem (spec : ContainerSpec) (_ : ContainerStats) : bool := HasFilesystem spec.

Definition filesystem_usage : Metric := labeled_metric MetricFilesystemUsage has_filesystem
  (fun _ stat => map (fs_value "filesystem/usage" fs_Usage) (Filesystem stat)).
Definition filesystem_limit : Metric := labeled_metric MetricFilesystemLimit has_filesystem
  (fun _ stat => map (fs_value "filesystem/limit" fs_Limit) (Filesystem stat)).
Definition filesystem_available : Metric := labeled_metric MetricFilesystemAvailable has_filesystem
  (fun _ stat => map (fs_value "filesystem/available" fs_Available) (Filesystem stat)).
Definition filesystem_inodes : Metric := labeled_metric MetricFilesystemInodes has_filesystem
  (fun _ stat => omap (fun fs => if fs_HasInodes fs then Some (fs_value "filesystem/inodes" fs_Inodes fs) else None)
     (Filesystem stat)).
Definition filesystem_inodes_free : Metric := labeled_metric MetricFilesystemInodesFree has_filesystem
  (fun _ stat => omap (fun fs => if fs_HasInodes fs then Some (fs_value "filesystem/inodes_free" fs_InodesFree fs) else None)
     (Filesystem stat)).

(** *** Accelerators *)

Definition has_accelerators (_ : ContainerSpec) (stat : ContainerStats) : bool :=
  negb (length (Accelerators stat) =? 0)%nat.
Definition ac_value (name : string) (x : AcceleratorStats -> Z) (ac : AcceleratorStats) : labeled :=
  MkLabeledValue name
    (<[Key LabelAcceleratorMake := ac_Make ac]> (<[Key LabelAcceleratorModel := ac_Model ac]>
      {[Key LabelAcceleratorID := ac_ID ac]})) (int64_of (x ac)).

Definition accelerator_memory_total : Metric := labeled_metric MetricAcceleratorMemoryTotal has_accelerators
  (fun _ stat => map (ac_value "accelerator/memory_total" ac_MemoryTotal) (Accelerators stat)).
Definition accelerator_memory_used : Metric := labeled_metric MetricAcceleratorMemoryUsed has_accelerators
  (fun _ stat => map (ac_value "accelerator/memory_used" ac_MemoryUsed) (Accelerators stat)).
Definition accelerator_duty_cycle : Metric := labeled_metric MetricAcceleratorDutyCycle has_accelerators
  (fun _ stat => map (ac_value "accelerator/duty_cycle" ac_DutyCycle) (Accelerators stat)).

(** *** Disks *)

Definition has_disk_io (spec : ContainerSpec) (_ : ContainerStats) : bool := HasDiskIo spec.
Definition resourceIDKey (p : PerDiskStats) : string :=
  if String.eqb (pd_Device p) "" then (sprint_int (pd_Major p) +:+ ":" +:+ sprint_int (pd_Minor p))%string
  else pd_Device p.
Definition disk_value (name counter : string) (p : PerDiskStats) : labeled :=
  MkLabeledValue name {[Key LabelResourceID := resourceIDKey p]} (int64_of (default 0%Z (pd_Stats p !! counter))).

Definition disk_io_read : Metric := labeled_metric MetricDiskIORead has_disk_io
  (fun _ stat => map (disk_value "disk/io_read_bytes" "Read") (DiskIo_IoServiceBytes stat)).
Definition disk_io_write : Metric := labeled_metric MetricDiskIOWrite has_disk_io
  (fun _ stat => map (disk_value "disk/io_write_bytes" "Write") (DiskIo_IoServiceBytes stat)).

(** Every metric that is read from the statistics. *)
Definition cadvisor_metrics : list Metric :=
  [uptime; cpu_load; cpu_usage; memory_usage; memory_cache; memory_rss; memory_working_set; memory_page_faults;
   memory_major_page_faults; network_rx; network_rx_errors; network_tx; network_tx_errors;
   filesystem_usage; filesystem_limit; filesystem_available; filesystem_inodes; filesystem_inodes_free;
   accelerator_memory_total; accelerator_memory_used; accelerator_duty_cycle; disk_io_read; disk_io_write].

(** ** Historical metrics: historical_types.go *)

Definition AggregationType := string.
Definition AggregationTypeAverage : AggregationType := "average".
Definition AggregationTypeMaximum : AggregationType := "max".
Definition AggregationTypeMinimum : AggregationType := "min".
Definition AggregationTypeMedian : AggregationType := "median".
Definition AggregationTypeCount : AggregationType := "count".
Definition AggregationTypePercentile50 : AggregationType := "50-perc".
Definition AggregationTypePercentile95 : AggregationType := "95-perc".
Definition AggregationTypePercentile99 : AggregationType := "99-perc".

Definition MultiTypedAggregations : list AggregationType :=
  [AggregationTypeAverage; AggregationTypeMaximum; AggregationTypeMinimum; AggregationTypeMedian;
   AggregationTypePercentile50; AggregationTypePercentile95; AggregationTypePercentile99].
Definition AllAggregations : gset AggregationType :=
  list_to_set [AggregationTypeAverage; AggregationTypeMaximum; AggregationTypeMinimum; AggregationTypeMedian;
    AggregationTypePercentile50; AggregationTypePercentile95; AggregationTypePercentile99; AggregationTypeCount].

Record HistoricalKey := MkHistoricalKey {
  ObjectType : string;
  NodeName : string;
  NamespaceName : string;
  PodName : string;
  ContainerName : string;
  PodId : string;
}.

Definition HistoricalKey_String (key : HistoricalKey) : string :=
  let path :=
    if String.eqb (ObjectType key) MetricSetTypeSystemContainer then
      ("node:" +:+ NodeName key +:+ "/container:" +:+ ContainerName key)%string
    else if String.eqb (ObjectType key) MetricSetTypePodContainer then
      if negb (String.eqb (PodId key) "") then ("poduid:" +:+ PodId key +:+ "/container:" +:+ ContainerName key)%string
      else ("ns:" +:+ NamespaceName key +:+ "/pod:" +:+ PodName key +:+ "/container:" +:+ ContainerName key)%string
    else if String.eqb (ObjectType key) MetricSetTypePod then
      if negb (String.eqb (PodId key) "") then ("poduid:" +:+ PodId key)%string
      else ("ns:" +:+ NamespaceName key +:+ "/pod:" +:+ PodName key)%string
    else if String.eqb (ObjectType key) MetricSetTypeNamespace then ("ns:" +:+ NamespaceName key)%string
    else if String.eqb (ObjectType key) MetricSetTypeNode then ("node:" +:+ NodeName key)%string
    else if String.eqb (ObjectType key) MetricSetTypeCluster then "[cluster]"
    else "[unknown type]" in
  ("(" +:+ ObjectType key +:+ ")" +:+ path)%string.

(** ** What is read is of the type the table says *)

Lemma int64_of_ok x : ValueType (int64_of x) = ValueInt64 /\ in_i64 (IntValue (int64_of x)).
Proof. split; [done|apply wrap64_range]. Qed.

(** A scalar metric of the integer type. *)
Definition value_ok (m : Metric) (now : Z) (spec : ContainerSpec) (stat : ContainerStats) : Prop :=
  match m_GetValue m with
  | Some get => ValueType (get now spec stat) = md_ValueType (m_Descriptor m) /\ in_i64 (IntValue (get now spec stat))
  | None => True
  end.

(** A labelled value of the name, type and labels of its metric. *)
Definition labeled_ok (d : MetricDescriptor) (lv : labeled) : Prop :=
  lv_Name lv = md_Name d /\ ValueType (lv_Value lv) = md_ValueType d /\ in_i64 (IntValue (lv_Value lv)) /\
  dom (lv_Labels lv) = list_to_set (C:=gset string) (map Key (md_Labels d)).

Lemma single_label (k v : string) : dom ({[k := v]} : gmap string string) = list_to_set (C:=gset string) [k].
Proof. set_solver. Qed.
Lemma three_labels (k1 k2 k3 v1 v2 v3 : string) :
  dom (<[k1 := v1]> (<[k2 := v2]> {[k3 := v3]}) : gmap string string) = list_to_set (C:=gset string) [k1; k2; k3].
Proof. set_solver. Qed.

Lemma fs_value_ok d name x fs :
  md_Name d = name -> md_ValueType d = ValueInt64 -> md_Labels d = metricLabels -> labeled_ok d (fs_value name x fs).
Proof.
  intros <- Ht Hl. unfold labeled_ok. rewrite Ht, Hl. split_and!; [done|done|apply wrap64_range|].
  apply single_label.
Qed.

Lemma ac_value_ok d name x ac :
  md_Name d = name -> md_ValueType d = ValueInt64 -> md_Labels d = acceleratorLabels -> labeled_ok d (ac_value name x ac).
Proof.
  intros <- Ht Hl. unfold labeled_ok. rewrite Ht, Hl. split_and!; [done|done|apply wrap64_range|].
  apply three_labels.
Qed.

Lemma disk_value_ok d name counter p :
  md_Name d = name -> md_ValueType d = ValueInt64 -> md_Labels d = metricLabels -> labeled_ok d (disk_value name counter p).
Proof.
  intros <- Ht Hl. unfold labeled_ok. rewrite Ht, Hl. split_and!; [done|done|apply wrap64_range|].
  apply single_label.
Qed.

Lemma uptime_range now t : in_i64 (Z.quot (time_sub now t) millisecond).
Proof.
  unfold time_sub, in_i64, millisecond. set (d := Z.max _ _).
  assert (Hd : (- two63 <= d < two63)%Z) by (unfold d, two63; lia). clearbody d. unfold two63 in *.
  destruct (Z.le_gt_cases 0 d) as [H|H].
  - pose proof (Z.quot_pos d 1000000 H ltac:(lia)). pose proof (Z.quot_le_upper_bound d 1000000 d ltac:(lia) ltac:(lia)). lia.
  - pose proof (Z.quot_opp_l d 1000000 ltac:(lia)). pose proof (Z.quot_pos (- d) 1000000 ltac:(lia) ltac:(lia)).
    pose proof (Z.quot_le_upper_bound (- d) 1000000 (- d) ltac:(lia) ltac:(lia)). lia.
Qed.

(** Every metric read from the statistics either has scalar values of the type
    its descriptor declares, or labelled values that carry the name, the type
    and exactly the labels its descriptor declares. *)
Lemma cadvisor_metrics_typed now spec stat m :
  in_i64 (Cpu_LoadAverage stat) -> m ∈ cadvisor_metrics ->
  match m_HasValue m, m_GetValue m, m_HasLabeledMetric m, m_GetLabeledMetric m with
  | Some _, Some get, None, None => value_ok m now spec stat
  | None, None, Some _, Some get => forall lv, lv ∈ get spec stat -> labeled_ok (m_Descriptor m) lv
  | _, _, _, _ => False
  end.
Proof.
  intros Hload Hm. revert m Hm. apply Forall_forall. unfold cadvisor_metrics.
  repeat (apply Forall_cons; split); [..|apply Forall_nil; exact I];
    first [by (split; [done|apply wrap64_range]) | by (split; [done|apply uptime_range]) | by split | idtac];
    match goal with |- context [m_GetLabeledMetric ?m] => unfold m end;
    cbn [labeled_metric m_HasValue m_GetValue m_HasLabeledMetric m_GetLabeledMetric m_Descriptor]; intros lv Hlv;
    first [apply list_elem_of_fmap in Hlv as (x & -> & _)
          |apply list_elem_of_omap in Hlv as (x & _ & Hx); destruct (fs_HasInodes x); [injection Hx as <-|done]];
    match goal with
    | |- labeled_ok _ (fs_value _ _ _) => by apply fs_value_ok
    | |- labeled_ok _ (ac_value _ _ _) => by apply ac_value_ok
    | |- labeled_ok _ (disk_value _ _ _) => by apply disk_value_ok
    end.
Qed.

(** The traffic of a container does not depend on the order of its interfaces:
    it is the sum modulo 2^64. *)
Lemma interfaces_sum_eq f stat : interfaces_sum f stat = wrapu64 (zsum f (Network_Interfaces stat)).
Proof.
  unfold interfaces_sum. generalize (Network_Interfaces stat) as l. intros l.
  replace (zsum f l) with (0 + zsum f l)%Z by lia. change 0%Z with (wrapu64 0) at 1. generalize 0%Z as acc.
  induction l as [|i l IH]; intros acc; cbn [foldl]; [cbn; by rewrite Z.add_0_r|].
  rewrite zsum_cons, (Z.add_assoc acc), <- IH. f_equal. unfold wrapu64. by rewrite Zplus_mod_idemp_l.
Qed.

Lemma interfaces_sum_perm f stat stat' :
  Network_Interfaces stat ≡ₚ Network_Interfaces stat' -> interfaces_sum f stat = interfaces_sum f stat'.
Proof. intros H. by rewrite !interfaces_sum_eq, (zsum_perm _ _ _ H). Qed.

(** All aggregations but the count have values of either type. *)
Lemma aggregations_complete : AllAggregations = {[AggregationTypeCount]} ∪ list_to_set MultiTypedAggregations.
Proof. by apply (bool_decide_unpack _). Qed.

(** The text of a key shows only the fields of its type, so keys that differ
    in others print alike; an identifier hides the pod and the namespace. *)
Lemma historical_key_hides ns pod c id ns' pod' :
  id <> "" ->
  HistoricalKey_String (MkHistoricalKey MetricSetTypePodContainer "" ns pod c id) =
  HistoricalKey_String (MkHistoricalKey MetricSetTypePodContainer "" ns' pod' c id).
Proof. intros Hid. unfold HistoricalKey_String. cbn. by apply String.eqb_neq in Hid as ->. Qed.
