(* ===== verification/LineFormat.v ===== *)
(** From the sink to the proxy: the lines that the sender of the Wavefront SDK
    (vendor/github.com/wavefronthq/wavefront-sdk-go: internal/sanitize.go,
    internal/metric/formatter.go) makes of the metrics that the sink sends, and
    what the test proxy reads of them.

    The SDK is vendored, so its formatter is translated here like the
    collector's own code.  An index out of range is an error of the result. *)

From Stdlib Require Import ZArith Lia.
From S2P Require Import Prelude GoFloat Filters Util Wf Sink GoFmt MetricReader Utf8 LineGrammar MetricDiff.

(** ** Names: sanitize.go *)

Definition DeltaPrefix : string := string_of [increment].
Definition AltDeltaPrefix : string := string_of [916%Z].
Definition panic_index : string := "panic: index out of range".

Definition legal (c : Z) : bool := in_range 44 57 c || in_range 65 90 c || in_range 97 122 c || (c =? 95)%Z.
Definition dash (c : Z) : Z := if legal c then c else 45%Z.
(** The loop over the bytes after the prefix. *)
Fixpoint dashes (s : string) : string :=
  match s with
  | EmptyString => EmptyString
  | String a s' => String (ascii_of (dash (byte a))) (dashes s')
  end.

(** The second character may be a tilde. *)
Definition after_delta (prefix rest : string) : result (string * string) :=
  match rest with
  | EmptyString => Err panic_index
  | String c r => Ok (if (byte c =? tilde)%Z then ((prefix +:+ String c "")%string, r) else (prefix, rest))
  end.
Definition Sanitize (str : string) : result string :=
  head ← (if has_prefix DeltaPrefix str then after_delta DeltaPrefix (str_drop 3 str)
          else if has_prefix AltDeltaPrefix str then after_delta AltDeltaPrefix (str_drop 2 str)
          else after_delta "" str);
  let '(prefix, rest) := head in
  if String.eqb rest "" then Err panic_index else Ok (prefix +:+ dashes rest)%string.

(** ** Values *)

Definition quote_char : Ascii.ascii := Ascii.ascii_of_nat 34.
Definition newline_char : Ascii.ascii := Ascii.ascii_of_nat 10.
Definition quoted (s : string) : string := String quote_char (s +:+ String quote_char "")%string.

Definition SanitizeValue (str : string) : string :=
  let res := TrimSpace str in
  let res := if negb (str_free quote_char str) || negb (str_free "'"%char str)
             then replace_char quote_char (String "\" (String quote_char "")) res else res in
  quoted (replace_char newline_char "\n" res).

(** ** Lines: metric/formatter.go *)

(** [strconv.Quote] is only called on sanitized names, whose characters are
    printed as they are: it adds the quotes. *)
Definition Quote (s : string) : string := quoted s.

Definition line_step (name : string) (sb : string) (kv : string * string) : result string :=
  let '(k, v) := kv in
  if String.eqb v "" then Err ("tag values cannot be empty: metric=" +:+ name +:+ " tag=" +:+ k)%string
  else k ← Sanitize k; Ok (sb +:+ " " +:+ Quote k +:+ "=" +:+ SanitizeValue v)%string.

(** [order]: the visiting order of the tags. *)
Definition Line (order : tagmap -> list (string * string)) (name : string) (value : f64) (ts : Z) (source : string)
    (tags : tagmap) (defaultSource : string) : result string :=
  if String.eqb name "" then Err "empty metric name"
  else
    let source := if String.eqb source "" then defaultSource else source in
    n ← Sanitize name;
    let sb := (Quote n +:+ " " +:+ FormatFloat value)%string in
    let sb := if (ts =? 0)%Z then sb else (sb +:+ " " +:+ sprint_int ts)%string in
    let sb := (sb +:+ " source=" +:+ SanitizeValue source)%string in
    sb ← foldM (line_step name) sb (order tags);
    Ok (sb +:+ String newline_char "")%string.

Definition nl : string := String newline_char "".
Example line_example :
  Line map_to_list "cpu/usage rate" (f64_of_Z (-3)) 1382754475 " web1
" {["pod" := "a b"]} "" =
  Ok (quoted "cpu/usage-rate" +:+ " -3 1382754475 source=" +:+ quoted "web1" +:+ " " +:+ quoted "pod" +:+ "=" +:+
      quoted "a b" +:+ nl)%string.
Proof. by vm_compute. Qed.

(** ** Strings of ASCII runes *)

Definition ascii (r : Z) : Prop := (0 <= r < 128)%Z.

Lemma string_of_ascii r rs : ascii r -> string_of (r :: rs) = String (ascii_of r) (string_of rs).
Proof.
  intros H. unfold string_of. cbn [map concat]. unfold encode_rune, encode_bytes.
  replace (valid_rune r) with true by (symmetry; apply valid_rune_true; unfold ascii in H; lia).
  rewrite (proj2 (Z.ltb_lt r 128)) by (apply H). done.
Qed.

Lemma ascii_valid rs : Forall ascii rs -> Forall (fun r => valid_rune r = true) rs.
Proof. intros H. eapply Forall_impl; [exact H|]. intros r Hr. apply valid_rune_true. unfold ascii in Hr. lia. Qed.

Lemma string_of_length ds : Forall ascii ds -> String.length (string_of ds) = length ds.
Proof. induction 1 as [|d ds Hd _ IH]; [done|]. rewrite string_of_ascii by done. cbn. by rewrite IH. Qed.

Lemma str_drop_of n ds : Forall ascii ds -> str_drop n (string_of ds) = string_of (drop n ds).
Proof.
  intros H. revert n; induction H as [|d ds Hd _ IH]; intros [|n]; try done.
  rewrite string_of_ascii by done. cbn [str_drop drop]. apply IH.
Qed.

Lemma substring_of n ds : Forall ascii ds -> String.substring 0 n (string_of ds) = string_of (take n ds).
Proof.
  intros H. revert n; induction H as [|d ds Hd _ IH]; intros [|n]; try done.
  - by destruct (string_of (d :: ds)).
  - cbn [take]. rewrite !string_of_ascii by done. cbn [String.substring]. by rewrite IH.
Qed.

Lemma zeros_of n : zeros n = string_of (replicate n 48%Z).
Proof. induction n as [|n IH]; [done|]. cbn [replicate]. rewrite string_of_ascii by (unfold ascii; lia). cbn. by rewrite IH. Qed.

Lemma digit_ascii ds : forallb digit ds = true -> Forall ascii ds.
Proof.
  intros H. apply Forall_forall. intros d Hd. rewrite forallb_forall in H. apply list_elem_of_In, H in Hd.
  apply digit_range in Hd. unfold ascii. lia.
Qed.

(** ** Numbers *)

(** The digits of a number; their count when there is fuel for them. *)
Lemma pos_digits_of fuel n acc :
  (0 <= n)%Z -> (0 < fuel)%nat -> exists ds, digits ds /\ pos_digits fuel n acc = (string_of ds +:+ acc)%string /\
    forall k, (k < fuel)%nat -> (10 ^ Z.of_nat k <= n < 10 ^ Z.of_nat (S k))%Z -> length ds = S k.
Proof.
  revert n acc; induction fuel as [|fuel IH]; intros n acc Hn Hf; [lia|]. cbn [pos_digits].
  assert (Hd : (0 <= n mod 10 < 10)%Z) by (apply Z.mod_pos_bound; lia).
  set (d := (48 + n mod 10)%Z). assert (digits [d]) as Hdig.
  { split; [done|]. cbn. rewrite (proj2 (digit_range d)) by (unfold d; lia). done. }
  assert (Hone : forall s, String (ascii_of_N (Z.to_N d)) s = (string_of [d] +:+ s)%string).
  { intros s. rewrite string_of_ascii by (unfold ascii, d; lia). cbn. f_equal. unfold ascii_of, Ascii.ascii_of_nat.
    by rewrite Z_nat_N. }
  rewrite Hone. destruct (Z.ltb_spec n 10).
  - exists [d]. split_and!; [done|done|]. intros [|k] Hk Hb; [done|].
    assert (10 ^ Z.of_nat 1 <= 10 ^ Z.of_nat (S k))%Z by (apply Z.pow_le_mono_r; lia). cbn in *. lia.
  - destruct fuel as [|fuel].
    + exists [d]. split_and!; [done|done|]. intros k Hk Hb. replace k with 0%nat in * by lia. cbn in Hb. lia.
    + destruct (IH (n / 10)%Z (string_of [d] +:+ acc)%string) as (ds & [Hne Hds] & -> & Hl);
        [apply Z.div_pos; lia|lia|].
      exists (ds ++ [d]). split_and!.
      * split; [by destruct ds|]. rewrite forallb_app, Hds. apply Hdig.
      * by rewrite string_of_app, str_app_assoc.
      * intros [|k] Hk Hb; [cbn in Hb; lia|]. rewrite length_app, (Hl k); [cbn; lia|lia|].
        rewrite !Nat2Z.inj_succ, !Z.pow_succ_r in * by lia. split.
        -- apply Z.div_le_lower_bound; lia.
        -- apply Z.div_lt_upper_bound; lia.
Qed.

Lemma sprint_int_digits n : (0 <= n)%Z -> exists ds, digits ds /\ sprint_int n = string_of ds /\
  forall k, (k < 20)%nat -> (10 ^ Z.of_nat k <= n < 10 ^ Z.of_nat (S k))%Z -> length ds = S k.
Proof.
  intros Hn. unfold sprint_int. rewrite (proj2 (Z.ltb_ge n 0)) by done.
  destruct (pos_digits_of 20 n "" Hn) as (ds & Hd & -> & Hl); [lia|]. exists ds. by rewrite str_app_nil_r.
Qed.

(** Digits with a point are a number. *)
Lemma fixed_number ds dp : digits ds -> exists ints frac, fixed (string_of ds) dp = string_of (ints ++ frac) /\
  digits ints /\ (frac = [] \/ exists fs, frac = 46%Z :: fs /\ digits fs).
Proof.
  intros [Hne Hd]. pose proof (digit_ascii ds Hd) as Ha.
  assert (Hz : forall n, forallb digit (replicate n 48%Z) = true) by (induction n; done).
  unfold fixed. rewrite string_of_length by done. rewrite !zeros_of.
  destruct (Z.leb_spec dp 0); [|destruct (Z.leb_spec (Z.of_nat (length ds)) dp)].
  - exists [48%Z], (46%Z :: replicate (Z.to_nat (- dp)) 48%Z ++ ds). cbn [app].
    split_and!; [by rewrite !string_of_ascii, string_of_app by (unfold ascii; lia)|done|].
    right. eexists; split; [done|]. split; [by intros [_ E]%app_eq_nil|]. by rewrite forallb_app, Hz, Hd.
  - exists (ds ++ replicate (Z.to_nat (dp - Z.of_nat (length ds))) 48%Z), []. rewrite app_nil_r, string_of_app.
    split_and!; [done| |by left]. split; [by destruct ds|]. by rewrite forallb_app, Hz, Hd.
  - rewrite substring_of, str_drop_of by done. rewrite <- (take_drop (Z.to_nat dp) ds), forallb_app in Hd.
    apply andb_prop in Hd as [H1 H2].
    exists (take (Z.to_nat dp) ds), (46%Z :: drop (Z.to_nat dp) ds). split_and!.
    + by rewrite (string_of_app _ (46%Z :: _)).
    + split; [|done]. intros E%(f_equal length). rewrite length_take in E. cbn in E. lia.
    + right. eexists; split; [done|]. split; [|done]. intros E%(f_equal length). rewrite length_drop in E. cbn in E. lia.
Qed.

Lemma scale_nonneg v e k : (0 <= v)%Z -> let '(a, b) := scale v e k in (0 <= a)%Z /\ (0 < b)%Z.
Proof.
  intros Hv. unfold scale. destruct (Z.leb_spec 0 (e - 2)), (Z.leb_spec 0 k); split;
    repeat first [apply Z.mul_nonneg_nonneg|apply Z.mul_pos_pos]; try apply Z.shiftl_nonneg; try done;
    try (apply Z.pow_nonneg; lia); try (apply Z.pow_pos_nonneg; lia).
  all: rewrite Z.shiftl_1_l; apply Z.pow_pos_nonneg; lia.
Qed.

Lemma shortest_nonneg fuel m e n : (0 <= m)%Z -> (0 <= (shortest fuel m e n).1)%Z.
Proof.
  intros Hm. revert n; induction fuel as [|fuel IH]; intros n; cbn [shortest]; unfold interval;
    set (k := find_exp _ _ _ _ _); pose proof (scale_nonneg (4 * m) e k ltac:(lia)) as Hs;
    destruct (scale (4 * m) e k) as [a b]; destruct Hs as [Ha Hb];
    pose proof (Z.div_pos a b Ha Hb) as Hq; cbn zeta; [done|].
  repeat case_match; cbn [fst]; try lia; apply IH.
Qed.

Lemma cut_zeros_nonneg fuel d k : (0 <= d)%Z -> (0 <= (cut_zeros fuel d k).1)%Z.
Proof.
  revert d k; induction fuel as [|fuel IH]; intros d k Hd; cbn; [done|]. case_match; [|done].
  apply IH, Z.div_pos; lia.
Qed.

Definition is_finite (x : f64) : bool :=
  match x with SpecFloat.S754_zero _ | SpecFloat.S754_finite _ _ _ => true | _ => false end.

(** The text of a finite value is a number of the grammar. *)
Lemma FormatFloat_value x : is_finite x = true -> exists v, FormatFloat x = string_of v /\ valid_value v /\ Forall ascii v.
Proof.
  assert (H : forall (neg : bool) s, (exists ints frac, s = string_of (ints ++ frac) /\ digits ints /\
      (frac = [] \/ exists fs, frac = 46%Z :: fs /\ digits fs)) ->
    exists v, ((if neg then "-" else "") +:+ s)%string = string_of v /\ valid_value v /\ Forall ascii v).
  { intros neg s (ints & frac & -> & Hi & Hf). exists ((if neg then [45%Z] else []) ++ ints ++ frac). split_and!.
    - rewrite (string_of_app (if neg then _ else _)). by destruct neg.
    - exists (if neg then [45%Z] else []), ints, frac. split_and!; [done|destruct neg; auto|done|done].
    - apply Forall_app; split; [destruct neg; repeat constructor; unfold ascii; lia|].
      apply Forall_app; split; [apply digit_ascii, Hi|]. destruct Hf as [->|(fs & -> & Hf)]; [done|].
      constructor; [unfold ascii; lia|apply digit_ascii, Hf]. }
  destruct x as [neg|neg| |neg m e]; intros Hx; try done; cbn [FormatFloat].
  - replace (if neg then "-0" else "0") with ((if neg then "-" else "") +:+ "0")%string by (by destruct neg).
    apply H. exists [48%Z], []. split_and!; [done|done|by left].
  - pose proof (shortest_nonneg 17 (Z.pos m) e 1 ltac:(lia)) as Hd. destruct (shortest 17 (Z.pos m) e 1) as [d k].
    apply H. unfold fmt_f. pose proof (cut_zeros_nonneg 20 d k Hd) as Hc. destruct (cut_zeros 20 d k) as [d' k'].
    destruct (sprint_int_digits d' Hc) as (ds & Hds & -> & _). by apply fixed_number.
Qed.

(** ** Names and keys *)

Lemma byte_range a : (0 <= byte a < 256)%Z.
Proof. unfold byte. pose proof (Ascii.nat_ascii_bounded a). lia. Qed.

Lemma dash_spec c :
  name_char (dash c) = true /\ dash c <> increment /\ dash c <> tilde /\ ascii (dash c) /\
  (c <> 44%Z -> tag_char true (dash c) = true).
Proof.
  unfold dash, legal, name_char, tag_char, alnum, digit, one_of, increment, tilde, ascii. cbn [existsb].
  destruct (in_range 44 57 c || in_range 65 90 c || in_range 97 122 c || (c =? 95)%Z) eqn:E; [|done].
  rewrite !orb_true_iff, !in_range_true, Z.eqb_eq in E.
  rewrite !orb_true_iff, !in_range_true, !Z.eqb_eq. lia.
Qed.

Definition dashed (s : string) : list Z := map (fun a => dash (byte a)) (String.list_ascii_of_string s).

Lemma dashes_of s : dashes s = string_of (dashed s).
Proof.
  induction s as [|a s IH]; [done|]. change (dashed (String a s)) with (dash (byte a) :: dashed s).
  rewrite string_of_ascii by apply dash_spec. cbn [dashes]. by rewrite IH.
Qed.

Lemma dashed_cons a s : dashed (String a s) = dash (byte a) :: dashed s.
Proof. done. Qed.
Lemma dashed_ascii s : Forall ascii (dashed s).
Proof. induction s as [|a s IH]; [constructor|]. rewrite dashed_cons. constructor; [apply dash_spec|done]. Qed.
Lemma dashed_chars f s : (forall c, f (dash c) = true) -> forallb f (dashed s) = true.
Proof. intros H. induction s as [|a s IH]; [done|]. rewrite dashed_cons. cbn [forallb]. by rewrite H, IH. Qed.

(** A prefix that [Sanitize] writes and sanitized characters. *)
Lemma dashed_name p s :
  p = [] \/ p = [tilde] \/ p = [increment] \/ p = [increment; tilde] -> s <> "" -> valid_name (p ++ dashed s).
Proof.
  intros Hp Hs. destruct s as [|a s]; [done|].
  assert (strip tilde (strip increment (p ++ dashed (String a s))) = dashed (String a s)) as E.
  { rewrite dashed_cons. destruct Hp as [->|[->|[->| ->]]]; cbn [app].
    - by rewrite !strip_ne by (apply not_eq_sym, dash_spec).
    - by rewrite (strip_ne increment tilde).
    - change (strip increment (increment :: ?l)) with l. by rewrite strip_ne by (apply not_eq_sym, dash_spec).
    - done. }
  unfold valid_name. rewrite E. split; [done|]. apply dashed_chars. intros c. apply dash_spec.
Qed.

Lemma byte_inj a n : byte a = Z.of_nat n -> (n < 256)%nat -> a = Ascii.ascii_of_nat n.
Proof. intros H Hn. rewrite <- (Ascii.ascii_nat_embedding a). f_equal. unfold byte in H. lia. Qed.

(** What a sanitized name is, unless it starts with the other delta. *)
Lemma Sanitize_name s t :
  Sanitize s = Ok t -> has_prefix AltDeltaPrefix s = false ->
  exists n, t = string_of n /\ valid_name n /\ Forall (fun r => valid_rune r = true) n.
Proof.
  intros H Halt.
  assert (Hp : exists p rest, (p = [] \/ p = [tilde] \/ p = [increment] \/ p = [increment; tilde]) /\ rest <> "" /\
    t = (string_of p +:+ dashes rest)%string).
  { revert H. unfold Sanitize. rewrite Halt. unfold after_delta. destruct (has_prefix DeltaPrefix s).
    - destruct (str_drop 3 s) as [|c r]; [done|]. destruct (Z.eqb_spec (byte c) tilde) as [Hc|_].
      + cbn. destruct (String.eqb_spec r ""); [done|]. intros [= <-]. exists [increment; tilde], r.
        apply (byte_inj c 126) in Hc as ->; [auto 10|lia].
      + cbn. intros [= <-]. exists [increment], (String c r). auto 10.
    - destruct s as [|c r]; [done|]. destruct (Z.eqb_spec (byte c) tilde) as [Hc|_].
      + cbn. destruct (String.eqb_spec r ""); [done|]. intros [= <-]. exists [tilde], r.
        apply (byte_inj c 126) in Hc as ->; [auto|lia].
      + cbn. intros [= <-]. exists [], (String c r). auto. }
  destruct Hp as (p & rest & Hp & Hne & ->). exists (p ++ dashed rest). rewrite dashes_of, string_of_app. split_and!; [done| |].
  - by apply dashed_name.
  - apply Forall_app; split; [|apply ascii_valid, dashed_ascii]. by destruct Hp as [->|[->|[->| ->]]]; repeat constructor.
Qed.

(** Keys that reach the proxy: not empty, without the prefixes that names may
    have, and without a comma, which the grammar takes in names only. *)
Definition sendable_key (k : string) : bool :=
  negb (String.eqb k "") && negb (has_prefix DeltaPrefix k) && negb (has_prefix AltDeltaPrefix k) &&
  negb (has_prefix "~" k) && str_free ","%char k.

Lemma dashed_key k : str_free ","%char k = true -> forallb (tag_char true) (dashed k) = true.
Proof.
  induction k as [|a k IH]; [done|]. cbn [str_free]. intros [Ha Hk]%andb_prop. rewrite dashed_cons. cbn [forallb].
  rewrite IH by done. rewrite andb_true_r. apply dash_spec. intros E. apply (byte_inj a 44) in E as ->; [done|lia].
Qed.

Lemma Sanitize_key k :
  sendable_key k = true -> Sanitize k = Ok (string_of (dashed k)) /\ valid_tag_name true (dashed k).
Proof.
  unfold sendable_key. intros [[[[H0 H1]%andb_prop H2]%andb_prop H3]%andb_prop H4]%andb_prop.
  apply negb_true_iff in H0, H1, H2, H3. unfold Sanitize. rewrite H1, H2. unfold after_delta.
  destruct k as [|c r]; [done|]. destruct (Z.eqb_spec (byte c) tilde) as [Hc|_].
  - apply (byte_inj c 126) in Hc as ->; [done|lia].
  - cbn [mbind result_bind]. rewrite H0, dashes_of. split; [done|]. split; [done|]. by apply dashed_key.
Qed.

(** ** Values *)

Definition escape_rune (r : Z) : list Z :=
  if (r =? quote)%Z then [backslash; quote] else if (r =? 10)%Z then [backslash; 110%Z] else [r].
Definition escape (v : list Z) : list Z := concat (map escape_rune v).
Definition ends_in_backslash (v : list Z) : bool := bool_decide (last v = Some backslash).

Lemma escape_head v c v' : escape v = c :: v' -> c <> quote.
Proof.
  destruct v as [|r v]; [done|]. unfold escape. cbn [map concat]. unfold escape_rune.
  destruct (Z.eqb_spec r quote); [by intros [= <- _]|]. destruct (r =? 10)%Z; [by intros [= <- _]|]. by intros [= <- _].
Qed.

(** Every quote is escaped. *)
Lemma escape_escaped v : ends_in_backslash v = false -> escaped (escape v) = true.
Proof.
  unfold ends_in_backslash. induction v as [|r v IH]; intros H; [done|]. apply bool_decide_eq_false_1 in H.
  assert (Hv : escaped (escape v) = true).
  { destruct v as [|r2 v2]; [done|]. apply IH, bool_decide_eq_false_2. intros E. apply H. by rewrite last_cons, E. }
  change (escape (r :: v)) with (escape_rune r ++ escape v). unfold escape_rune.
  destruct (Z.eqb_spec r quote); [done|]. destruct (Z.eqb_spec r 10).
  - cbn [app escaped]. done.
  - cbn [app escaped]. rewrite (proj2 (Z.eqb_neq r quote)) by done. destruct (Z.eqb_spec r backslash) as [->|]; [|done].
    destruct (escape v) as [|c e] eqn:Ee.
    + destruct v as [|r2 v2]; [by destruct H|]. unfold escape, escape_rune in Ee. cbn in Ee. by repeat case_match.
    + apply escape_head in Ee as Hc. by rewrite (proj2 (Z.eqb_neq c quote)).
Qed.

Lemma escape_valid v :
  Forall (fun r => valid_rune r = true) v -> Forall (fun r => valid_rune r = true) (escape v).
Proof.
  induction 1 as [|r v Hr _ IH]; [constructor|]. change (escape (r :: v)) with (escape_rune r ++ escape v).
  apply Forall_app; split; [|done]. unfold escape_rune. by repeat case_match; repeat constructor.
Qed.

Lemma escape_nonempty v : v <> [] -> escape v <> [].
Proof. destruct v as [|r v]; [done|]. intros _. unfold escape, escape_rune. cbn. by repeat case_match. Qed.

(** *** Replacing characters *)

Lemma replace_app a w s t : replace_char a w (s +:+ t)%string = (replace_char a w s +:+ replace_char a w t)%string.
Proof.
  induction s as [|c s IH]; [done|].
  change (String c s +:+ t)%string with (String c (s +:+ t)). cbn [replace_char]. rewrite IH.
  destruct (Ascii.eqb c a); [by rewrite str_app_assoc|done].
Qed.

Lemma replace_bytes c w bs :
  Forall (fun b => 0 <= b < 256 /\ b <> c)%Z bs -> (0 <= c < 256)%Z ->
  replace_char (ascii_of c) w (string_of_bytes bs) = string_of_bytes bs.
Proof.
  intros H Hc. induction H as [|b bs [Hb Hne] _ IH]; [done|]. cbn. unfold string_of_bytes in IH. rewrite IH.
  destruct (Ascii.eqb_spec (ascii_of b) (ascii_of c)) as [E|]; [|done].
  apply (f_equal byte) in E. by rewrite !byte_of in E.
Qed.

Lemma encode_bytes_range r : valid_rune r = true -> (128 <= r)%Z -> Forall (fun b => 128 <= b < 256)%Z (encode_bytes r).
Proof.
  intros [Hr _]%valid_rune_true Hr'. unfold encode_bytes. rewrite (proj2 (Z.ltb_ge r 128)) by done.
  destruct (Z.ltb_spec r 2048); [|destruct (Z.ltb_spec r 65536)]; repeat constructor; Z.to_euclidean_division_equations; lia.
Qed.

Lemma replace_of c ws rs :
  ascii c -> Forall (fun r => valid_rune r = true) rs ->
  replace_char (ascii_of c) (string_of ws) (string_of rs) =
    string_of (concat (map (fun r => if (r =? c)%Z then ws else [r]) rs)).
Proof.
  intros Hc. unfold ascii in Hc. induction 1 as [|r rs Hr _ IH]; [done|].
  change (r :: rs) with ([r] ++ rs). rewrite string_of_app, replace_app, IH. cbn [map concat app].
  rewrite string_of_app. f_equal. destruct (Z.eqb_spec r c) as [->|Hne].
  - rewrite string_of_ascii by done. cbn. rewrite Ascii.eqb_refl. apply str_app_nil_r.
  - unfold string_of. cbn [map concat]. rewrite app_nil_r. unfold encode_rune. rewrite Hr.
    apply replace_bytes; [|lia]. destruct (Z.ltb_spec r 128).
    + unfold encode_bytes. rewrite (proj2 (Z.ltb_lt r 128)) by done. repeat constructor; try done.
      all: apply valid_rune_true in Hr; lia.
    + eapply Forall_impl; [by apply encode_bytes_range|]. cbn. lia.
Qed.

Lemma free_runes c rs :
  ascii c -> str_free (ascii_of c) (string_of rs) = true -> Forall (fun r => r <> c) rs.
Proof.
  intros Hc. unfold ascii in Hc. induction rs as [|r rs IH]; intros H; [constructor|].
  change (r :: rs) with ([r] ++ rs) in H. rewrite string_of_app, str_free_app in H. apply andb_prop in H as [H1 H2].
  constructor; [|by apply IH]. intros ->. rewrite string_of_ascii in H1 by done. cbn in H1. by rewrite Ascii.eqb_refl in H1.
Qed.

Definition replace_rune (c : Z) (ws : list Z) (rs : list Z) : list Z :=
  concat (map (fun r => if (r =? c)%Z then ws else [r]) rs).

Lemma replace_rune_none c ws rs : Forall (fun r => r <> c) rs -> replace_rune c ws rs = rs.
Proof.
  unfold replace_rune. induction 1 as [|r rs Hr _ IH]; [done|]. cbn. rewrite (proj2 (Z.eqb_neq r c)) by done. cbn. by rewrite IH.
Qed.

Lemma replace_twice v : replace_rune 10 [backslash; 110%Z] (replace_rune quote [backslash; quote] v) = escape v.
Proof.
  unfold replace_rune, escape. induction v as [|r v IH]; [done|]. cbn [map concat]. rewrite map_app, concat_app, IH.
  f_equal. unfold escape_rune. destruct (Z.eqb_spec r quote); [done|]. cbn. rewrite app_nil_r. by destruct (r =? 10)%Z.
Qed.

Lemma replace_rune_valid c ws rs :
  Forall (fun r => valid_rune r = true) ws -> Forall (fun r => valid_rune r = true) rs ->
  Forall (fun r => valid_rune r = true) (replace_rune c ws rs).
Proof.
  intros Hw. unfold replace_rune. induction 1 as [|r rs Hr _ IH]; [constructor|]. cbn. apply Forall_app; split; [|done].
  destruct (r =? c)%Z; [done|by constructor].
Qed.

(** What the sanitizing of a text does to its runes. *)
Lemma SanitizeValue_of rs :
  Forall (fun r => valid_rune r = true) rs ->
  SanitizeValue (string_of rs) = quoted (string_of (escape (trim is_space rs))).
Proof.
  intros H. pose proof (trim_Forall _ is_space rs H) as Ht. unfold SanitizeValue. rewrite TrimSpace_of by done. f_equal.
  rewrite <- replace_twice. unfold replace_rune at 1.
  rewrite <- (replace_of 10 [backslash; 110%Z]) by (done || by apply replace_rune_valid; [repeat constructor|]).
  change (string_of [backslash; 110%Z]) with "\n". f_equal.
  destruct (str_free quote_char (string_of rs)) eqn:Ef; cbn [negb orb].
  - apply (free_runes quote) in Ef; [|done]. rewrite replace_rune_none by (by apply trim_Forall).
    destruct (negb _); [|done]. change (String "\" (String quote_char "")) with (string_of [backslash; quote]).
    rewrite (replace_of quote) by done. f_equal. apply replace_rune_none. by apply trim_Forall.
  - change (String "\" (String quote_char "")) with (string_of [backslash; quote]). by rewrite (replace_of quote).
Qed.

(** Values that reach the proxy: well-formed text that is not blank and does
    not end in a backslash. *)
Definition utf8 (s : string) : bool := forallb valid_rune (runes s) && String.eqb (string_of (runes s)) s.
Definition sendable_value (s : string) : bool :=
  utf8 s && negb (bool_decide (trim is_space (runes s) = [])) && negb (ends_in_backslash (trim is_space (runes s))).
Definition stored_runes (s : string) : list Z := escape (trim is_space (runes s)).

Lemma utf8_spec s : utf8 s = true -> Forall (fun r => valid_rune r = true) (runes s) /\ string_of (runes s) = s.
Proof.
  unfold utf8. intros [H1 H2]%andb_prop. apply String.eqb_eq in H2. split; [|done].
  apply Forall_forall. intros r Hr. rewrite forallb_forall in H1. by apply H1, list_elem_of_In.
Qed.

Lemma SanitizeValue_sendable s :
  sendable_value s = true ->
  SanitizeValue s = quoted (string_of (stored_runes s)) /\ valid_tag_value (stored_runes s) /\
  Forall (fun r => valid_rune r = true) (stored_runes s).
Proof.
  unfold sendable_value. intros [[[Hv E]%utf8_spec H2]%andb_prop H3]%andb_prop.
  apply negb_true_iff, bool_decide_eq_false_1 in H2. apply negb_true_iff in H3. split_and!.
  - rewrite <- E at 1. by apply SanitizeValue_of.
  - split; [by apply escape_nonempty|by apply escape_escaped].
  - by apply escape_valid, trim_Forall.
Qed.

(** ** A line of the sender is a line of the grammar *)

Lemma quoted_of x : quoted (string_of x) = string_of (quote :: x ++ [quote]).
Proof. rewrite string_of_ascii by (unfold ascii, quote; lia). rewrite string_of_app. done. Qed.

Definition sent_tag (kv : string * string) : line_tag := MkLineTag true (dashed kv.1) (stored_runes kv.2).
Definition sent_timestamp (ts : Z) : list Z := if (ts =? 0)%Z then [] else runes (sprint_int ts).
Definition sent_line (n : list Z) (value : f64) (ts : Z) (source : string) (tags : list (string * string)) : line :=
  MkLine true n (runes (FormatFloat value)) (sent_timestamp ts)
    (MkLineTag false (runes "source") (stored_runes source) :: map sent_tag tags).

(** Timestamps of ten, thirteen or sixteen digits, or none. *)
Definition sendable_timestamp (ts : Z) : bool :=
  (ts =? 0)%Z || in_range 1000000000 9999999999 ts || in_range 1000000000000 9999999999999 ts ||
  in_range 1000000000000000 9999999999999999 ts.
Definition sendable_tag (kv : string * string) : bool := sendable_key kv.1 && sendable_value kv.2.

Lemma sendable_nonempty v : sendable_value v = true -> v <> "".
Proof. by intros H ->. Qed.

Lemma sent_tag_ok kv : sendable_tag kv = true ->
  valid_tag (sent_tag kv) /\ Forall (fun r => valid_rune r = true) (print_tag (sent_tag kv)) /\
  Sanitize kv.1 = Ok (string_of (dashed kv.1)) /\
  (Quote (string_of (dashed kv.1)) +:+ "=" +:+ SanitizeValue kv.2)%string = string_of (print_tag (sent_tag kv)).
Proof.
  unfold sendable_tag. intros [Hk Hv]%andb_prop. destruct (Sanitize_key _ Hk) as [Hs Hn].
  destruct (SanitizeValue_sendable _ Hv) as (E & Hval & Hr). split_and!; [by split| |done|].
  - unfold print_tag. cbn. constructor; [done|]. rewrite <- app_assoc.
    apply Forall_app; split; [apply ascii_valid, dashed_ascii|]. repeat constructor. by apply Forall_app; repeat constructor.
  - rewrite E. unfold Quote. rewrite !quoted_of. unfold print_tag. cbn [lt_quoted lt_name lt_value put sent_tag].
    rewrite (string_of_app (quote :: dashed kv.1 ++ [quote])). f_equal.
Qed.

Lemma line_step_ok name sb kv : sendable_tag kv = true ->
  line_step name (string_of sb) kv = Ok (string_of (sb ++ space :: print_tag (sent_tag kv))).
Proof.
  intros H. destruct (sent_tag_ok _ H) as (_ & _ & Hk & E). destruct kv as [k v]. cbn [fst snd] in Hk, E.
  unfold line_step. apply andb_prop in H as [_ Hv%sendable_nonempty]. cbn [snd] in Hv.
  apply String.eqb_neq in Hv as ->. rewrite Hk. cbn [mbind result_bind]. rewrite E.
  change (" " +:+ ?s)%string with (string_of [space] +:+ s)%string. by rewrite <- !string_of_app.
Qed.

Definition more_tags (tags : list (string * string)) : list Z :=
  concat (map (fun t => space :: print_tag t) (map sent_tag tags)).

Lemma line_steps name tags sb :
  forallb sendable_tag tags = true ->
  foldM (line_step name) (string_of sb) tags = Ok (string_of (sb ++ more_tags tags)).
Proof.
  revert sb; induction tags as [|kv tags IH]; intros sb H; [by unfold more_tags; rewrite app_nil_r|].
  cbn [forallb] in H. apply andb_prop in H as [Hkv Ht]. cbn [foldM]. rewrite line_step_ok by done.
  cbn [mbind result_bind]. rewrite IH by done. by rewrite <- app_assoc.
Qed.

Lemma sent_timestamp_ok ts : sendable_timestamp ts = true ->
  (sent_timestamp ts = [] /\ ts = 0%Z) \/
  (valid_timestamp (sent_timestamp ts) /\ ts <> 0%Z /\ sprint_int ts = string_of (sent_timestamp ts)).
Proof.
  unfold sendable_timestamp, sent_timestamp. destruct (Z.eqb_spec ts 0) as [->|Hne]; [by left|].
  cbn [orb]. rewrite !orb_true_iff, !in_range_true. intros H. right.
  destruct (sprint_int_digits ts) as (ds & [Hds0 Hds] & E & Hl); [lia|]. rewrite E.
  rewrite runes_string_of by (by apply ascii_valid, digit_ascii). split_and!; [|done|done]. split; [done|].
  destruct H as [[H|H]|H].
  - left. apply (Hl 9%nat); cbn; lia.
  - right; left. apply (Hl 12%nat); cbn; lia.
  - right; right. apply (Hl 15%nat); cbn; lia.
Qed.

Section sent.
Context (n : list Z) (value : f64) (ts : Z) (source : string) (tags : list (string * string)).
Context (Hn : valid_name n) (Hnr : Forall (fun r => valid_rune r = true) n) (Hv : is_finite value = true).
Context (Hts : sendable_timestamp ts = true) (Hs : sendable_value source = true).
Context (Ht : forallb sendable_tag tags = true).
Let l := sent_line n value ts source tags.

Lemma sent_value : exists v, FormatFloat value = string_of v /\ runes (FormatFloat value) = v /\ valid_value v /\ Forall ascii v.
Proof.
  destruct (FormatFloat_value value Hv) as (v & E & Hval & Ha). exists v.
  rewrite E, runes_string_of by (by apply ascii_valid). done.
Qed.

Lemma sent_tags_ok : Forall valid_tag (l_tags l).
Proof.
  constructor.
  - split; [by split|]. by apply SanitizeValue_sendable.
  - apply Forall_map, Forall_forall. intros kv Hkv. rewrite forallb_forall in Ht. apply list_elem_of_In, Ht in Hkv.
    by apply sent_tag_ok.
Qed.

Lemma sent_line_valid : valid_line l.
Proof.
  split; cbn.
  - done.
  - by destruct sent_value as (v & _ & -> & ? & _).
  - destruct (sent_timestamp_ok ts Hts) as [[-> _]|(H & _)]; [right|by left]. by split.
  - done.
  - apply sent_tags_ok.
Qed.

Lemma sent_line_runes : Forall (fun r => valid_rune r = true) (print_line l).
Proof.
  unfold print_line. cbn [l sent_line l_quoted l_name l_value l_timestamp l_tags put]. repeat (apply Forall_app; split).
  - constructor; [done|]. apply Forall_app; split; [done|by repeat constructor].
  - constructor; [done|]. destruct sent_value as (v & _ & -> & _ & Ha). apply Forall_app; split; [by apply ascii_valid|].
    apply Forall_app; split.
    + destruct (sent_timestamp_ok ts Hts) as [[-> _]|([Hd _] & _)]; [constructor|].
      apply digit_ascii, ascii_valid in Hd. destruct (sent_timestamp ts); [constructor|by constructor].
    + constructor; [done|]. cbn [print_tags]. apply Forall_app; split.
      * unfold print_tag. cbn. destruct (SanitizeValue_sendable _ Hs) as (_ & _ & Hr).
        repeat (constructor; [done|]). apply Forall_app; split; [done|by repeat constructor].
      * apply Forall_concat, Forall_map, Forall_map, Forall_forall. intros kv Hkv. constructor; [done|].
        rewrite forallb_forall in Ht. apply list_elem_of_In, Ht in Hkv. by apply sent_tag_ok.
Qed.

(** The formatter prints the line. *)
Lemma Line_prints order name tagmap dflt :
  Sanitize name = Ok (string_of n) -> order tagmap = tags ->
  Line order name value ts source tagmap dflt = Ok (print l +:+ nl)%string.
Proof.
  intros Hname Horder. unfold Line. rewrite Horder, Hname. cbn [mbind result_bind].
  destruct (String.eqb_spec name "") as [->|_]; [done|].
  apply sendable_nonempty in Hs as Hs0. apply String.eqb_neq in Hs0 as ->.
  destruct (SanitizeValue_sendable _ Hs) as (-> & _). destruct sent_value as (v & Ev & Er & _). rewrite Ev.
  unfold Quote. rewrite !quoted_of.
  set (stamp := match sent_timestamp ts with [] => [] | t => space :: t end).
  set (head := (quote :: n ++ [quote]) ++ space :: v ++ stamp ++ space :: runes "source" ++ [61%Z] ++
    (quote :: stored_runes source ++ [quote])).
  match goal with |- foldM _ ?s _ ≫= _ = _ => assert (s = string_of head) as -> end.
  { unfold head, stamp. change (" " +:+ ?s)%string with (string_of [space] +:+ s)%string.
    change (" source=" +:+ ?s)%string with (string_of (space :: runes "source" ++ [61%Z]) +:+ s)%string.
    destruct (sent_timestamp_ok ts Hts) as [[-> ->]|([Hd Hl] & H0 & ->)].
    - cbn [Z.eqb]. rewrite <- !string_of_app. f_equal. cbn [app]. by rewrite <- !app_assoc.
    - rewrite (proj2 (Z.eqb_neq ts 0)) by done. destruct (sent_timestamp ts) as [|d ds]; [by destruct Hl as [|[|]]|].
      rewrite <- !string_of_app. f_equal. cbn [app]. by rewrite <- !app_assoc. }
  rewrite line_steps by done. cbn [mbind result_bind]. unfold print. do 3 f_equal.
  unfold print_line, head, more_tags. cbn [l sent_line l_quoted l_name l_value l_timestamp l_tags put print_tags].
  rewrite Er. unfold print_tag at 2. cbn [lt_quoted lt_name lt_value put].
  by repeat first [rewrite <- app_assoc|progress cbn [app]].
Qed.
End sent.

(** ** Lines stay apart *)

Definition no_newline (r : Z) : Prop := r <> 10%Z.

Lemma runes_free c rs :
  ascii c -> Forall (fun r => valid_rune r = true) rs -> Forall (fun r => r <> c) rs ->
  str_free (ascii_of c) (string_of rs) = true.
Proof.
  intros Hc Hv. induction Hv as [|r rs Hr _ IH]; intros H; [done|]. apply Forall_cons in H as [Hne H].
  change (r :: rs) with ([r] ++ rs). rewrite string_of_app, str_free_app, IH, andb_true_r by done.
  unfold string_of. cbn [map concat]. rewrite app_nil_r. unfold encode_rune. rewrite Hr.
  assert (Forall (fun b => 0 <= b < 256 /\ b <> c)%Z (encode_bytes r)) as Hb.
  { unfold ascii in Hc. destruct (Z.ltb_spec r 128).
    - unfold encode_bytes. rewrite (proj2 (Z.ltb_lt r 128)) by done. repeat constructor; [..|done];
        apply valid_rune_true in Hr; lia.
    - eapply Forall_impl; [by apply encode_bytes_range|]. cbn. lia. }
  induction Hb as [|b bs [Hb Hbc] _ IHb]; [done|]. cbn. unfold string_of_bytes in IHb. rewrite IHb, andb_true_r.
  destruct (Ascii.eqb_spec (ascii_of b) (ascii_of c)) as [E|]; [|done]. unfold ascii in Hc.
  apply (f_equal byte) in E. rewrite !byte_of in E by lia. done.
Qed.

Lemma chars_no_newline f l : (forall c, f c = true -> no_newline c) -> forallb f l = true -> Forall no_newline l.
Proof.
  intros Hf Hl. apply Forall_forall. intros c Hc. rewrite forallb_forall in Hl. by apply Hf, Hl, list_elem_of_In.
Qed.

Lemma digits_no_newline ds : forallb digit ds = true -> Forall no_newline ds.
Proof. apply chars_no_newline. intros c [H _]%digit_range. unfold no_newline. lia. Qed.

Lemma name_char_no_newline c : name_char c = true -> no_newline c.
Proof.
  unfold name_char, alnum, digit, one_of, no_newline. cbn [existsb].
  rewrite !orb_true_iff, !in_range_true, !Z.eqb_eq. lia.
Qed.

Lemma name_no_newline m : valid_name m -> Forall no_newline m.
Proof.
  intros [_ H]. apply (chars_no_newline _ _ name_char_no_newline) in H.
  assert (Hs : forall c l, c <> 10%Z -> Forall no_newline (strip c l) -> Forall no_newline l).
  { intros c [|c' l] Hc; cbn; [done|]. destruct (Z.eqb_spec c c') as [<-|]; [by constructor|done]. }
  by apply Hs in H; [apply Hs in H|].
Qed.

Lemma value_no_newline v : valid_value v -> Forall no_newline v.
Proof.
  intros (sign & ints & frac & -> & Hs & [_ Hi%digits_no_newline] & Hf). apply Forall_app; split.
  - by destruct Hs as [->| ->]; repeat constructor.
  - apply Forall_app; split; [done|]. destruct Hf as [->|(fs & -> & _ & Hf%digits_no_newline)]; [done|by constructor].
Qed.

Lemma escape_no_newline v : Forall no_newline (escape v).
Proof.
  induction v as [|r v IH]; [constructor|]. change (escape (r :: v)) with (escape_rune r ++ escape v).
  apply Forall_app; split; [|done]. unfold escape_rune.
  destruct (r =? quote)%Z; [by repeat constructor|]. destruct (Z.eqb_spec r 10); by repeat constructor.
Qed.

Lemma print_tag_no_newline q m v :
  Forall no_newline m -> Forall no_newline v -> Forall no_newline (print_tag (MkLineTag q m v)).
Proof.
  intros Hm Hv. unfold print_tag, put. cbn. apply Forall_app; split.
  - destruct q; [|done]. constructor; [done|]. apply Forall_app; split; [done|by repeat constructor].
  - repeat (constructor; [done|]). apply Forall_app; split; [done|by repeat constructor].
Qed.

Lemma sent_no_newline m value ts source tags :
  valid_name m -> is_finite value = true -> sendable_timestamp ts = true ->
  Forall no_newline (print_line (sent_line m value ts source tags)).
Proof.
  intros Hm Hv Hts. unfold print_line. cbn [sent_line l_quoted l_name l_value l_timestamp l_tags put].
  repeat (apply Forall_app; split).
  - constructor; [done|]. apply Forall_app; split; [by apply name_no_newline|by repeat constructor].
  - constructor; [done|]. destruct (sent_value value Hv) as (v & _ & -> & Hval & _).
    apply Forall_app; split; [by apply value_no_newline|]. apply Forall_app; split.
    + destruct (sent_timestamp_ok ts Hts) as [[-> _]|([Hd%digits_no_newline _] & _)]; [constructor|].
      destruct (sent_timestamp ts); [constructor|by constructor].
    + constructor; [done|]. cbn [print_tags]. apply Forall_app; split.
      * apply print_tag_no_newline; [by repeat constructor|apply escape_no_newline].
      * apply Forall_concat, Forall_map, Forall_map, Forall_true. intros kv. constructor; [done|].
        apply print_tag_no_newline; [|apply escape_no_newline].
        apply (chars_no_newline _ _ name_char_no_newline), dashed_chars. intros c. apply dash_spec.
Qed.

(** ** What arrives *)

Definition stored (s : string) : string := string_of (stored_runes s).
Definition store_tag (m : gmap string string) (kv : string * string) : gmap string string :=
  <[dashes kv.1 := stored kv.2]> m.
Definition stored_tags (source : string) (tags : list (string * string)) : gmap string string :=
  foldl store_tag {["source" := stored source]} tags.

(** The metric that the proxy keeps of one that was sent. *)
Definition arrived (order : tagmap -> list (string * string)) (s : sent) : option Metric :=
  match s with
  | SendMetric name value ts source tags =>
      match Sanitize name with
      | Ok n => Some (MkMetric n (FormatFloat value) (if (ts =? 0)%Z then "" else sprint_int ts)
                        (stored_tags source (order tags)))
      | Err _ => None
      end
  | SendDistribution _ _ _ _ _ => None
  end.

(** The line of a metric. *)
Definition sent_text (order : tagmap -> list (string * string)) (defaultSource : string) (s : sent) : result string :=
  match s with
  | SendMetric name value ts source tags => Line order name value ts source tags defaultSource
  | SendDistribution _ _ _ _ _ => Err "a histogram"
  end.

(** A metric that reaches the proxy's store: its name does not start with the
    other delta, its value is finite, its timestamp none or one the grammar
    takes, its source and tags can be sent, and it has at most nineteen tags. *)
Definition deliverable (s : sent) : bool :=
  match s with
  | SendMetric name value ts source tags =>
      is_ok (Sanitize name) && negb (has_prefix AltDeltaPrefix name) && is_finite value && sendable_timestamp ts &&
      sendable_value source && forallb sendable_tag (map_to_list tags) && (size tags <=? maxWavefrontTags)%nat
  | SendDistribution _ _ _ _ _ => false
  end.

Lemma stored_tags_size source tags : (size (stored_tags source tags) <= S (length tags))%nat.
Proof.
  unfold stored_tags. induction tags as [|kv tags IH] using rev_ind; [cbn; by rewrite map_size_singleton|].
  rewrite foldl_app, length_app. cbn [foldl]. unfold store_tag at 1. rewrite map_size_insert. case_match; cbn; lia.
Qed.

Lemma sent_meaning n value ts source tags :
  is_finite value = true -> sendable_timestamp ts = true ->
  let g := meaning (sent_line n value ts source tags) in
  Name g = string_of n /\ Value g = FormatFloat value /\
  Timestamp g = (if (ts =? 0)%Z then "" else sprint_int ts) /\ Tags g = stored_tags source tags.
Proof.
  intros Hv Hts. cbn. split_and!; [done| | |].
  - by destruct (sent_value value Hv) as (v & -> & -> & _).
  - destruct (sent_timestamp_ok ts Hts) as [[-> ->]|(_ & H0 & ->)]; [done|]. by rewrite (proj2 (Z.eqb_neq ts 0)).
  - unfold stored_tags. change (set_tag ∅ _) with ({["source" := stored source]} : gmap string string).
    generalize ({["source" := stored source]} : gmap string string). induction tags as [|kv tags IH]; intros m; [done|].
    cbn [map foldl]. rewrite IH. unfold set_tag, store_tag. cbn [sent_tag lt_name lt_value]. by rewrite dashes_of.
Qed.

Lemma print_line_ends l : l_tags l <> [] -> exists x, print_line l = x ++ [quote].
Proof.
  assert (Ht : forall t, exists x, print_tag t = x ++ [quote]).
  { intros t. exists (put (lt_quoted t) (lt_name t) ++ 61%Z :: quote :: lt_value t). by rewrite <- app_assoc. }
  assert (H : forall ts, ts <> [] -> exists x, print_tags ts = x ++ [quote]).
  { intros ts. induction ts as [|t ts _] using rev_ind; [done|]. intros _. destruct (Ht t) as [x Hx].
    destruct ts as [|t0 ts]; cbn [app print_tags].
    - exists x. cbn. by rewrite app_nil_r.
    - rewrite map_app, concat_app. cbn [map concat]. rewrite app_nil_r, Hx. eexists. rewrite app_comm_cons, !app_assoc.
      done. }
  intros Hne. destruct (H _ Hne) as [x E]. unfold print_line. rewrite E.
  eexists. rewrite !app_comm_cons, !app_assoc. done.
Qed.

Lemma no_suffix a c c' : c <> c' -> has_suffix (String c "") (a +:+ String c' "")%string = false.
Proof.
  intros H. unfold has_suffix. rewrite str_length_app. cbn [String.length].
  replace (String.length a + 1 - 1)%nat with (String.length a) by lia. rewrite str_drop_app.
  destruct (String.eqb_spec (String c' "") (String c "")) as [[= E]|]; [congruence|]. apply andb_false_r.
Qed.

(** The line of a deliverable metric, and what the proxy makes of it. *)
Lemma deliver_one order dflt s :
  (forall m, iterates (order m) m) -> deliverable s = true ->
  exists t m, sent_text order dflt s = Ok (t +:+ nl)%string /\ arrived order s = Some m /\
    accepted t = Some m /\ unreadable t = false /\
    str_free MetricReader.newline t = true /\ has_suffix (String MetricReader.carriage_return "") t = false.
Proof.
  intros Hord. destruct s as [name value ts source tags|]; [|done]. unfold deliverable.
  intros [[[[[[Hok Halt]%andb_prop Hv]%andb_prop Hts]%andb_prop Hs]%andb_prop Ht]%andb_prop Hsz]%andb_prop.
  apply negb_true_iff in Halt. apply Nat.leb_le in Hsz. destruct (Sanitize name) as [n'|] eqn:Hn; [|done].
  destruct (Sanitize_name _ _ Hn Halt) as (n & -> & Hname & Hnr).
  assert (Htags : forallb sendable_tag (order tags) = true).
  { apply forallb_forall. intros [k v] Hkv. rewrite forallb_forall in Ht. apply Ht.
    apply list_elem_of_In, elem_of_map_to_list. by apply (iterates_elem _ _ _ _ (Hord tags)), list_elem_of_In. }
  set (l := sent_line n value ts source (order tags)).
  assert (Hl : valid_line l) by (by apply sent_line_valid).
  assert (Hr : Forall (fun r => valid_rune r = true) (print_line l)) by (by apply sent_line_runes).
  destruct (sent_meaning n value ts source (order tags) Hv Hts) as (E1 & E2 & E3 & E4).
  destruct (printed_accepted l Hl Hr) as [Ha Hu].
  exists (print l), (MkMetric (string_of n) (FormatFloat value) (if (ts =? 0)%Z then "" else sprint_int ts)
    (stored_tags source (order tags))). split_and!; [by apply (Line_prints n value ts source (order tags))|unfold arrived; by rewrite Hn| |done| |].
  - rewrite Ha. unfold line_metric. fold l in E1, E2, E3, E4. rewrite E1, E2, E3, E4.
    pose proof (stored_tags_size source (order tags)) as Hz.
    assert (length (order tags) = size tags) as Hlen by (rewrite (Permutation_length (Hord tags)); apply length_map_to_list).
    destruct (Nat.ltb_spec 20 (size (stored_tags source (order tags)))); [unfold maxWavefrontTags in Hsz; lia|done].
  - change MetricReader.newline with (ascii_of 10). by apply runes_free; [| |apply sent_no_newline].
  - destruct (print_line_ends l) as [x E]; [done|]. unfold print. rewrite E, string_of_app. by apply no_suffix.
Qed.

(** ** From the sink to the store *)

(** The text of a connection: the sender reports lines one after the other. *)
Fixpoint connection (order : tagmap -> list (string * string)) (defaultSource : string) (sents : list sent)
    : result string :=
  match sents with
  | [] => Ok ""
  | s :: sents' => t ← sent_text order defaultSource s; r ← connection order defaultSource sents'; Ok (t +:+ r)%string
  end.
(** Lines that the scanner of the proxy can hold. *)
Definition short (order : tagmap -> list (string * string)) (defaultSource : string) (s : sent) : bool :=
  match sent_text order defaultSource s with
  | Ok t => (Z.of_nat (String.length t) <=? MetricReader.MaxScanTokenSize)%Z
  | Err _ => true
  end.

Lemma connection_lines order dflt sents :
  (forall m, iterates (order m) m) -> forallb deliverable sents = true -> forallb (short order dflt) sents = true ->
  exists ts, connection order dflt sents = Ok (MetricReader.unlines ts) /\
    Forall (fun t => MetricReader.plain_line t = true) ts /\
    omap accepted ts = omap (arrived order) sents /\ List.filter unreadable ts = [] /\
    length (omap (arrived order) sents) = length sents.
Proof.
  intros Hord. induction sents as [|s sents IH]; intros Hd Hsh; [by exists []|].
  cbn [forallb] in Hd, Hsh. apply andb_prop in Hd as [Hs Hd], Hsh as [H1 Hsh].
  destruct (IH Hd Hsh) as (ts & E & Hp & Ha & Hu & Hl).
  destruct (deliver_one order dflt s Hord Hs) as (t & m & Et & Em & Hacc & Hunr & Hfree & Hcr).
  exists (t :: ts). cbn [connection omap list_omap List.filter MetricReader.unlines].
  rewrite Et, E, Em, Hacc, Hunr, Ha, Hu. cbn [mbind result_bind length]. rewrite Hl. split_and!; try done.
  - by rewrite str_app_assoc.
  - constructor; [|done]. unfold MetricReader.plain_line. rewrite Hfree, Hcr. cbn [negb andb].
    unfold short in H1. rewrite Et, str_length_app in H1. apply Z.leb_le in H1. apply Z.ltb_lt. cbn in H1. lia.
Qed.

(** C9: From the sink to the proxy.  Whatever the batch: when the metrics that
    [Export] hands to the sender can be delivered (finite values, names and tag
    keys that start like the grammar wants, values that are not blank and do not
    end in a backslash, at most nineteen tags, lines of at most 64 KB), the
    connection's text parses to exactly those metrics, in order and none lost,
    with names and keys sanitized and the source as a tag: the proxy's store grows
    by them and no line is reported as bad. *)
Theorem sink_to_proxy {F : Type} `{!MetricFilter F} (order order' : tagmap -> list (string * string))
    (accepts : sent -> bool) (sink : wavefrontSink) (h : heap) (ms : list (option wfmetric))
    (defaultSource : string) (store : MetricStore) :
  (forall m, iterates (order' m) m) ->
  let sents := ex_sent (Export order accepts sink h ms) in
  forallb deliverable sents = true -> forallb (short order' defaultSource) sents = true ->
  exists text, connection order' defaultSource sents = Ok text /\
    HandleIncomingMetrics store (MetricReader.lines text) =
      MkMetricStore (s_metrics store ++ omap (arrived order') sents) (s_badMetrics store) /\
    length (omap (arrived order') sents) = length sents.
Proof.
  intros Hord sents Hd Hsh. destruct (connection_lines order' defaultSource sents Hord Hd Hsh) as (ts & E & Hp & Ha & Hu & Hl).
  exists (MetricReader.unlines ts). split_and!; [done| |done].
  by rewrite MetricReader.lines_unlines, incoming_spec, Ha, Hu, app_nil_r by done.
Qed.

(** Two points of one pod: the plus of the name becomes a dash, the quote of
    a tag value is escaped. *)
Definition sample_sink : wavefrontSink (F := globFilter) := MkSink "k8s-cluster" "kubernetes" [] None.
Definition sample_heap : heap := {[1%positive := {["label.app" := "web"; "command" := ("say " +:+ quoted "hi")%string]}]}.
Definition sample_points : list (option wfmetric) :=
  [Some (MPoint (NewPoint "cpu+usage_rate" (f64_div (f64_of_Z 5) (f64_of_Z 2)) 1382754475 "node-1" (Some 1%positive)));
   None; Some (MPoint (NewPoint "memory/usage" (f64_of_Z (-7)) 1382754475 "node-1" (Some 1%positive)))].

Lemma sink_to_proxy_witness :
  let sents := ex_sent (Export map_to_list (fun _ => true) sample_sink sample_heap sample_points) in
  length sents = 2%nat /\
  exists text, connection map_to_list "" sents = Ok text /\
    length (s_metrics (HandleIncomingMetrics NewMetricStore (MetricReader.lines text))) = 2%nat /\
    s_badMetrics (HandleIncomingMetrics NewMetricStore (MetricReader.lines text)) = [].
Proof.
  intros sents.
  destruct (sink_to_proxy map_to_list map_to_list (fun _ => true) sample_sink sample_heap sample_points "" NewMetricStore)
    as (text & E & Hs & Hl).
  - intros m. apply iterates_canonical.
  - vm_compute. reflexivity.
  - vm_compute. reflexivity.
  - assert (length sents = 2%nat) as Hn by (vm_compute; reflexivity). split; [exact Hn|].
    exists text. split; [exact E|]. rewrite Hs. cbn [s_metrics s_badMetrics app NewMetricStore]. split; [|reflexivity].
    exact (eq_trans Hl Hn).
Defined.

(** ** What does not arrive *)

Definition one_line (name : string) (value : f64) (tags : list (string * string)) : MetricStore :=
  match connection map_to_list "" [SendMetric name value 1382754475 "node-1" (list_to_map tags)] with
  | Ok text => HandleIncomingMetrics NewMetricStore (MetricReader.lines text)
  | Err _ => NewMetricStore
  end.
Definition bad (s : MetricStore) : bool := bool_decide (s_metrics s = []) && negb (bool_decide (s_badMetrics s = [])).

(** A tag value that ends in a backslash escapes the quote that ends it, a
    blank one is empty, a comma in a key is no character of the grammar's
    keys, and infinite values are no numbers: the proxy reports the lines. *)
Lemma refused_lines :
  forallb bad [one_line "disk" (f64_of_Z 1) [("path", "C:\")]; one_line "disk" (f64_of_Z 1) [("path", " ")];
               one_line "disk" (f64_of_Z 1) [("a,b", "c")]; one_line "disk" f64_inf []] = true.
Proof. vm_compute. reflexivity. Qed.

(** A name of a tilde or a delta alone makes the formatter panic. *)
Lemma bare_prefix_panics : Sanitize "~" = Err panic_index /\ Sanitize DeltaPrefix = Err panic_index.
Proof. by split. Qed.

(** ** What arrives unchanged *)

(** Text without white space at its ends, quotes and line breaks; keys of
    legal characters. *)
Definition plain_value (s : string) : bool :=
  utf8 s && bool_decide (trim is_space (runes s) = runes s) && forallb (fun r => negb (r =? quote)%Z && negb (r =? 10)%Z) (runes s).
Definition plain_key (k : string) : bool := String.eqb (dashes k) k.

Lemma stored_plain s : plain_value s = true -> stored s = s.
Proof.
  unfold plain_value. intros [[[_ E]%utf8_spec Ht%bool_decide_eq_true_1]%andb_prop Hc]%andb_prop.
  unfold stored, stored_runes. rewrite Ht. transitivity (string_of (runes s)); [|done]. f_equal.
  clear E Ht. induction (runes s) as [|r l IH]; [done|]. cbn [forallb] in Hc. apply andb_prop in Hc as [[H1 H2]%andb_prop Hc].
  change (escape (r :: l)) with (escape_rune r ++ escape l). rewrite IH by done. unfold escape_rune.
  apply negb_true_iff in H1, H2. by rewrite H1, H2.
Qed.

Lemma store_tags_union l m :
  NoDup l.*1 -> (forall kv, kv ∈ l -> plain_key kv.1 = true /\ plain_value kv.2 = true) ->
  foldl store_tag m l = list_to_map l ∪ m.
Proof.
  revert m; induction l as [|[k v] l IH]; intros m Hnd Hl; [symmetry; apply (left_id_L ∅ (∪) m)|].
  cbn [fmap list_fmap fst] in Hnd. apply NoDup_cons in Hnd as [Hk Hnd].
  destruct (Hl (k, v)) as [Hpk Hpv]; [by left|]. cbn [foldl list_to_map foldr fst snd] in *.
  rewrite IH; [|done|intros kv Hkv; apply Hl; by right]. unfold store_tag. cbn [fst snd].
  apply String.eqb_eq in Hpk as ->. rewrite stored_plain by done.
  rewrite <- insert_union_l, insert_union_r; [done|]. by apply not_elem_of_list_to_map_1.
Qed.

(** Plain tags arrive as they are, whatever order they are visited in. *)
Lemma tags_unchanged order source tags :
  iterates (order tags) tags -> tags !! "source" = None -> plain_value source = true ->
  (forall k v, tags !! k = Some v -> plain_key k = true /\ plain_value v = true) ->
  stored_tags source (order tags) = <["source" := source]> tags.
Proof.
  intros Hord Hns Hs Ht. unfold stored_tags. rewrite stored_plain by done. rewrite store_tags_union.
  - rewrite (iterates_to_map _ _ Hord), <- insert_empty, <- insert_union_r by done. by rewrite (right_id_L ∅ (∪)).
  - by apply (iterates_NoDup _ tags).
  - intros [k v] Hkv. apply Ht. by apply (iterates_elem _ _ _ _ Hord).
Qed.
