(* ===== verification/Listers.v ===== *)
(** The shared listers of internal/util/util.go, the resource lister of
    plugins/discovery/lister.go and the loop of internal/util/wait.go.

    A lister reads a store that a reflector of client-go fills in the
    background; what is modelled is which reflectors are started, with which
    selectors, and which store a call gets.  A store is known by the number of
    its reflector. *)

From Stdlib Require Import Lia.
From S2P Require Import Prelude Util.

Record reflector := MkReflector { rf_resource : string; rf_selector : Selector }.
(** The package's variables, guarded by its lock, and the reflectors running. *)
Record listers := MkListers {
  nodeLister : option nat;
  podLister : option nat;
  nsStore : option nat;
  running : list reflector;
}.
Definition no_listers : listers := MkListers None None None [].

Definition run (r : reflector) (st : listers) : nat * listers :=
  (length (running st), MkListers (nodeLister st) (podLister st) (nsStore st) (running st ++ [r])).

Definition GetNodeLister (ownNodeOnly : bool) (e : env) (st : listers) : nat * listers :=
  match nodeLister st with
  | Some l => (l, st)
  | None =>
      let '(l, st) := run (MkReflector "nodes" (GetFieldSelector ownNodeOnly e "nodes")) st in
      (l, MkListers (Some l) (podLister st) (nsStore st) (running st))
  end.
Definition GetPodLister (ownNodeOnly : bool) (e : env) (st : listers) : nat * listers :=
  match podLister st with
  | Some l => (l, st)
  | None =>
      let '(l, st) := run (MkReflector "pods" (GetFieldSelector ownNodeOnly e "pods")) st in
      (l, MkListers (nodeLister st) (Some l) (nsStore st) (running st))
  end.
Definition GetServiceLister (st : listers) : nat * listers := run (MkReflector "services" Everything) st.
Definition GetNamespaceStore (st : listers) : nat * listers :=
  match nsStore st with
  | Some l => (l, st)
  | None =>
      let '(l, st) := run (MkReflector "namespaces" Everything) st in
      (l, MkListers (nodeLister st) (podLister st) (Some l) (running st))
  end.

Inductive lister_call := NodeCall | PodCall | ServiceCall | NamespaceCall.
Definition call_resource (c : lister_call) : string :=
  match c with NodeCall => "nodes" | PodCall => "pods" | ServiceCall => "services" | NamespaceCall => "namespaces" end.
#[export] Instance lister_call_eq_dec : EqDecision lister_call.
Proof. solve_decision. Defined.
(** A call, with the kind of agent and the environment at its time. *)
Definition do_call (st : listers) (c : lister_call * (bool * env)) : nat * listers :=
  let '(c, (ownNodeOnly, e)) := c in
  match c with
  | NodeCall => GetNodeLister ownNodeOnly e st
  | PodCall => GetPodLister ownNodeOnly e st
  | ServiceCall => GetServiceLister st
  | NamespaceCall => GetNamespaceStore st
  end.
(** What a sequence of calls gets. *)
Fixpoint do_calls (st : listers) (cs : list (lister_call * (bool * env))) : list nat * listers :=
  match cs with
  | [] => ([], st)
  | c :: cs' => let '(l, st) := do_call st c in let '(ls, st) := do_calls st cs' in (l :: ls, st)
  end.

(** *** The resource lister *)

Section resources.
Context {P V N : Type} (podNamespace : P -> string) (serviceNamespace : V -> string).
Context (podLabels : P -> gmap string string) (serviceLabels : V -> gmap string string).
(** [labels.SelectorFromSet(l).Matches(t)]. *)
Context (selects : gmap string string -> gmap string string -> bool).

Record resourceLister := NewResourceLister { rl_pods : list P; rl_services : list V; rl_nodes : list N }.

Definition in_ns (ns actual : string) : bool := String.eqb ns "" || String.eqb actual ns.
Definition ListPods (rl : resourceLister) (ns : string) (l : gmap string string) : list P :=
  if String.eqb ns "" then List.filter (fun p => selects l (podLabels p)) (rl_pods rl)
  else List.filter (fun p => selects l (podLabels p)) (List.filter (fun p => String.eqb (podNamespace p) ns) (rl_pods rl)).
Definition ListServices (rl : resourceLister) (ns : string) (l : gmap string string) : list V :=
  if String.eqb ns "" then List.filter (fun s => selects l (serviceLabels s)) (rl_services rl)
  else List.filter (fun s => selects l (serviceLabels s))
         (List.filter (fun s => String.eqb (serviceNamespace s) ns) (rl_services rl)).
Definition ListNodes (rl : resourceLister) : list N := rl_nodes rl.
End resources.

(** *** wait.go *)

(** What the first [select] of a round finds ready (of a tick and the closed
    channel it takes either), and whether the second finds the channel closed. *)
Inductive ready := TickReady | StopReady | BothReady (takes_tick : bool).
Record round := MkRound { rd_first : ready; rd_stopped : bool }.

(** How often [f] runs. *)
Fixpoint Retry (rounds : list round) : nat :=
  match rounds with
  | [] => 0
  | r :: rounds' =>
      match rd_first r with
      | StopReady | BothReady false => 0
      | TickReady | BothReady true => if rd_stopped r then 0 else S (Retry rounds')
      end
  end.

(** ** One reflector per kind *)

Definition shared (c : lister_call) (st : listers) : option nat :=
  match c with NodeCall => nodeLister st | PodCall => podLister st | NamespaceCall => nsStore st | ServiceCall => None end.
Definition count_of (res : string) (st : listers) : nat :=
  length (List.filter (fun r => String.eqb (rf_resource r) res) (running st)).

(** A store that is shared belongs to the one reflector of its kind; there is
    none as long as nobody has asked. *)
Definition listers_ok (st : listers) : Prop :=
  forall c, c <> ServiceCall ->
    match shared c st with
    | Some l => (exists r, running st !! l = Some r /\ rf_resource r = call_resource c) /\ count_of (call_resource c) st = 1%nat
    | None => count_of (call_resource c) st = 0%nat
    end.

Lemma count_snoc res rs r :
  length (List.filter (fun r => String.eqb (rf_resource r) res) (rs ++ [r])) =
    (length (List.filter (fun r => String.eqb (rf_resource r) res) rs) +
     if String.eqb (rf_resource r) res then 1 else 0)%nat.
Proof. rewrite List.filter_app, length_app. cbn. by destruct (String.eqb (rf_resource r) res). Qed.

(** A call gets the shared store or starts a reflector. *)
Lemma do_call_cases st c :
  (exists l, shared c.1 st = Some l /\ do_call st c = (l, st)) \/
  (shared c.1 st = None /\ exists st' r, do_call st c = (length (running st), st') /\
    running st' = running st ++ [r] /\ rf_resource r = call_resource c.1 /\
    forall c', c' <> ServiceCall -> shared c' st' = if decide (c' = c.1) then Some (length (running st)) else shared c' st).
Proof.
  destruct c as [c [own e]], st as [n p s rs]. cbn [fst].
  assert (Hnew : forall r st', running st' = rs ++ [r] -> rf_resource r = call_resource c ->
    (forall c', c' <> ServiceCall -> shared c' st' = if decide (c' = c) then Some (length rs) else shared c' (MkListers n p s rs)) ->
    exists st0 r0, (length rs, st') = (length rs, st0) /\ running st0 = rs ++ [r0] /\ rf_resource r0 = call_resource c /\
      forall c', c' <> ServiceCall -> shared c' st0 = if decide (c' = c) then Some (length rs) else shared c' (MkListers n p s rs))
    by (intros r st' ? ? ?; by exists st', r).
  destruct c; cbn [do_call shared nodeLister podLister nsStore running].
  - destruct n as [l|]; [left; by exists l|right; split; [done|]]. eapply Hnew; [done..|]. by intros [].
  - destruct p as [l|]; [left; by exists l|right; split; [done|]]. eapply Hnew; [done..|]. by intros [].
  - right; split; [done|]. eapply Hnew; [done..|]. by intros [].
  - destruct s as [l|]; [left; by exists l|right; split; [done|]]. eapply Hnew; [done..|]. by intros [].
Qed.

Lemma do_call_ok st c : listers_ok st -> listers_ok (do_call st c).2.
Proof.
  intros Hok. destruct (do_call_cases st c) as [(l & _ & ->)|(Hnone & st' & r & -> & Hr & Hres & Hsh)]; [done|].
  cbn [snd]. intros c' Hc'. rewrite Hsh by done. unfold count_of. rewrite Hr, count_snoc, Hres. destruct (decide (c' = c.1)) as [->|Hne].
  - rewrite String.eqb_refl. specialize (Hok c.1 Hc'). rewrite Hnone in Hok. unfold count_of in Hok. split; [|lia].
    exists r. by rewrite list_lookup_middle.
  - assert (String.eqb (call_resource c.1) (call_resource c') = false) as -> by (by destruct c', c.1).
    specialize (Hok c' Hc'). unfold count_of in Hok. destruct (shared c' st); [|lia].
    destruct Hok as [(r' & Hr' & E) Hn]. split; [|lia]. exists r'. by rewrite (lookup_app_l_Some _ _ _ _ Hr').
Qed.

(** What has been shared stays, and so do the reflectors. *)
Lemma do_calls_grow cs st :
  let st' := (do_calls st cs).2 in
  (exists rs, running st' = running st ++ rs) /\
  (forall c l, c <> ServiceCall -> shared c st = Some l -> shared c st' = Some l).
Proof.
  revert st; induction cs as [|c cs IH]; intros st; cbn [do_calls]; [split; [exists []; by rewrite app_nil_r|done]|].
  destruct (do_call st c) as [l st1] eqn:E1. destruct (do_calls st1 cs) as [ls st2] eqn:E2. cbn [snd].
  specialize (IH st1). rewrite E2 in IH. destruct IH as [[rs Hrs] Hsh]. cbn in *.
  destruct (do_call_cases st c) as [(l' & _ & E)|(Hnone & st' & r & E & Hr & Hres & Hs)]; rewrite E1 in E; injection E as -> ->.
  - split; [by exists rs|auto].
  - split; [exists (r :: rs); by rewrite Hrs, Hr, <- app_assoc|]. intros c' l' Hc' Hl'. apply Hsh; [done|].
    rewrite Hs by done. case_decide as Hd; [|done]. subst c'. by rewrite Hnone in Hl'.
Qed.

(** Over any sequence of calls: at most one reflector each watches the nodes,
    the pods and the namespaces, and everybody who asks for one of them gets
    the store of that reflector, whose selector is the one at the first call. *)
Lemma one_reflector cs :
  let '(ls, st) := do_calls no_listers cs in
  listers_ok st /\
  (forall i l c, ls !! i = Some l -> cs !! i = Some c -> c.1 <> ServiceCall -> shared c.1 st = Some l) /\
  count_of "services" st = length (List.filter (fun c => bool_decide (c.1 = ServiceCall)) cs).
Proof.
  assert (H : forall cs st0, listers_ok st0 -> let '(ls, st) := do_calls st0 cs in
    listers_ok st /\
    (forall i l c, ls !! i = Some l -> cs !! i = Some c -> c.1 <> ServiceCall -> shared c.1 st = Some l) /\
    count_of "services" st =
      (count_of "services" st0 + length (List.filter (fun c => bool_decide (c.1 = ServiceCall)) cs))%nat).
  2:{ specialize (H cs no_listers). destruct (do_calls no_listers cs). apply H. by intros []. }
  clear cs. intros cs. induction cs as [|c cs IH]; intros st0 Hok; cbn [do_calls].
  { split_and!; [done|by intros i l c|by cbn; lia]. }
  pose proof (do_call_ok st0 c Hok) as Hok1. destruct (do_call st0 c) as [l st1] eqn:E1. cbn [snd] in Hok1.
  pose proof (do_calls_grow cs st1) as [_ Hgrow]. specialize (IH st1 Hok1). destruct (do_calls st1 cs) as [ls st2] eqn:E2.
  cbn [snd] in Hgrow. destruct IH as (Hok2 & Hsh & Hn). cbn [List.filter]. split_and!; [done| |].
  - intros [|i] l' c' Hl' Hc' Hs; [|by apply (Hsh i)]. injection Hl' as <-; injection Hc' as <-. apply Hgrow; [done|].
    destruct (do_call_cases st0 c) as [(l0 & Hl0 & E)|(_ & st' & r & E & _ & _ & Hsh')]; rewrite E1 in E; injection E as -> ->; [done|].
    rewrite Hsh' by done. by rewrite decide_True.
  - rewrite Hn. clear Hn. destruct (do_call_cases st0 c) as [(l0 & Hl0 & E)|(_ & st' & r & E & Hr & Hres & _)];
      rewrite E1 in E; injection E as -> ->.
    + case_bool_decide as Hc; [by rewrite Hc in Hl0|done].
    + unfold count_of at 1. rewrite Hr, count_snoc, Hres. case_bool_decide as Hc.
      * rewrite Hc. cbn. unfold count_of. lia.
      * assert (String.eqb (call_resource c.1) "services" = false) as -> by (by destruct c.1). unfold count_of. lia.
Qed.

(** The reflectors of nodes and pods of an agent that scrapes its own node only
    watch that node. *)
Lemma own_node_watched cs e st :
  GetNodeName e <> "" -> Forall (fun c => c.2 = (true, e)) cs -> do_calls no_listers cs = st ->
  Forall (fun r => (rf_resource r = "nodes" -> rf_selector r = OneTerm "metadata.name" (GetNodeName e)) /\
                   (rf_resource r = "pods" -> rf_selector r = OneTerm "spec.nodeName" (GetNodeName e))) (running st.2).
Proof.
  intros He Hcs <-. set (P := fun r : reflector => _).
  assert (H : forall cs st0, Forall (fun c => c.2 = (true, e)) cs -> Forall P (running st0) -> Forall P (running (do_calls st0 cs).2));
    [|by apply H; [|constructor]].
  clear cs Hcs. intros cs. induction cs as [|c cs IH]; intros st0 Hcs H0; [done|]. apply Forall_cons in Hcs as [Hc Hcs].
  cbn [do_calls]. destruct (do_call st0 c) as [l st1] eqn:E1. specialize (IH st1 Hcs).
  destruct (do_calls st1 cs) as [ls st2]. apply IH. clear IH. destruct c as [c [own e']]. cbn in Hc. injection Hc as -> ->.
  apply String.eqb_neq in He as Hb.
  assert (Hsnoc : forall r, P r -> Forall P (running st0 ++ [r])) by (intros r Hr; apply Forall_app; split; [done|by apply Forall_singleton]).
  revert E1. destruct c; cbn [do_call]; unfold GetNodeLister, GetPodLister, GetServiceLister, GetNamespaceStore, run, GetFieldSelector;
    rewrite ?Hb; repeat case_match; intros [= <- <-]; try done; apply Hsnoc; by unfold P.
Qed.

(** ** The loop and its channel *)

Definition sees_stop (r : round) : bool := match rd_first r with TickReady => false | _ => true end.
(** A closed channel stays closed. *)
Fixpoint stays_closed (rounds : list round) : Prop :=
  match rounds with
  | [] => True
  | r :: rounds' =>
      (sees_stop r = true -> rd_stopped r = true) /\
      (rd_stopped r = true -> Forall (fun r' => sees_stop r' = true) rounds') /\ stays_closed rounds'
  end.

(** The function runs once for every round before the channel is closed and
    never after, even when a tick is taken from a closed channel's round. *)
Lemma Retry_runs rounds :
  stays_closed rounds -> Retry rounds = length (List.filter (fun r => negb (rd_stopped r)) rounds).
Proof.
  assert (Hnone : forall rs, stays_closed rs -> Forall (fun r => sees_stop r = true) rs ->
    List.filter (fun r => negb (rd_stopped r)) rs = []).
  { induction rs as [|r rs IH]; intros Hw Hs; [done|]. destruct Hw as (Hr & _ & Hrs). apply Forall_cons in Hs as [H1 H2].
    cbn. rewrite Hr by done. by apply IH. }
  induction rounds as [|[first stopped] rounds IH]; intros Hw; [done|]. destruct Hw as (Hr & Hs & Hrs).
  cbn in *. destruct stopped; cbn.
  - rewrite Hnone by auto. by destruct first as [| |[]].
  - destruct first as [| |[]]; cbn in *; [by rewrite IH|by specialize (Hr eq_refl)..].
Qed.
