(* ===== verification/SummaryProvider.v ===== *)
(** The provider of the summary source: the end of
    plugins/sources/summary/summary.go and the client it is built with
    (plugins/sources/summary/kubelet/transport.go and kubelet_client.go).

    Summary.v has what a source makes of the statistics it is given and
    Clients.v how one request is answered; here they are put together, from
    the section of the configuration to the batches of its sources.  The
    transport of client-go, the client of the API server, the decoding of the
    statistics and the network are parameters. *)

From S2P Require Import Prelude GoFloat Metrics MetricTable Wf Util Converter Leadership SourceManager Summary.
From S2P Require Import Configuration SinkSetup Clients Listers.

Section provider.
Context {IP RT : Type} (ParseIP : string -> option IP) (IP_String : IP -> string).
(** net/http and client-go: the default transport, the TLS configuration, a
    transport for one, and the wrappers that add the token. *)
Context {TLS : Type} (DefaultTransport : RT) (TLSConfigFor : transport_config -> result (option TLS))
  (SetOldTransportDefaults : TLS -> RT) (HTTPWrappersForConfig : transport_config -> RT -> result RT).

(** No configuration sets a dialer: only that of TLS matters. *)
Definition MakeTransport (config : KubeletClientConfig) : result RT :=
  tlsConfig ← TLSConfigFor (transportConfig config);
  HTTPWrappersForConfig (transportConfig config)
    (match tlsConfig with Some t => SetOldTransportDefaults t | None => DefaultTransport end).

Record KubeletClient := MkKubeletClient {
  kcl_config : KubeletClientConfig; kcl_Transport : RT; kcl_Timeout : Z }.
(** [GetKubeConfigs] leaves [HTTPTimeout] at zero. *)
Definition HTTPTimeout (_ : KubeletClientConfig) : Z := 0.
Definition NewKubeletClient (kubeletConfig : KubeletClientConfig) : result KubeletClient :=
  transport ← MakeTransport kubeletConfig;
  Ok (MkKubeletClient kubeletConfig transport (HTTPTimeout kubeletConfig)).
Definition GetPort (kc : KubeletClient) : Z := kc_Port (kcl_config kc).

(** A source: a node, its address and the client all sources share. *)
Record summaryMetricsSource := MkSummarySource {
  ss_node : NodeInfo; ss_IP : IP; ss_kubeletClient : KubeletClient }.
Definition NewSummaryMetricsSource (info : NodeInfo * IP) (client : KubeletClient) : summaryMetricsSource :=
  MkSummarySource info.1 info.2 client.
Definition summary_AutoDiscovered (_ : summaryMetricsSource) : bool := false.
Definition summary_String (src : summaryMetricsSource) : string :=
  ("kubelet_summary:" +:+ IP_String (ss_IP src) +:+ ":" +:+ sprint_int (GetPort (ss_kubeletClient src)))%string.
Definition summary_Name (src : summaryMetricsSource) : string := summary_String src.

(** [Scrape]: one request to the kubelet of the node, and its statistics
    decoded. *)
Definition source_Scrape (Quote : string -> string) (Unmarshal : string -> result SummaryStats)
    (Do : RT -> string -> http_response) (now : Z) (collectErrors : Z) (h : heap) (src : summaryMetricsSource)
    : outcome (heap * Z * result Batch) :=
  let client := ss_kubeletClient src in
  match GetSummary IP_String Quote Unmarshal (Do (kcl_Transport client)) (kcl_config client) (ss_IP src) with
  | Done summary => Done (summary_Scrape (ss_node src) now summary collectErrors h)
  | Fatal e => Fatal e
  | Panic e => Panic e
  end.

(** The provider, whose lister is one of the shared ones. *)
Record summaryProvider := MkSummaryProvider {
  sp_nodeLister : nat; sp_kubeletClient : KubeletClient; hostIDAnnotation : string }.
Definition summaryProvider_Name (_ : summaryProvider) : string := "kubernetes_summary_provider".

Context (GetKubeConfigs : SummarySourceConfig -> result (rest_config * KubeletClientConfig))
  (NewForConfigOrDie : rest_config -> outcome unit).

Definition NewSummaryProvider (cfg : SummarySourceConfig) (ownNodeOnly : bool) (e : env) (st : listers)
    : outcome (result summaryProvider * listers) :=
  match GetKubeConfigs cfg with
  | Err err => Done (Err err, st)
  | Ok (kubeConfig, kubeletConfig) =>
      match NewForConfigOrDie kubeConfig with
      | Fatal m => Fatal m
      | Panic m => Panic m
      | Done _ =>
          match NewKubeletClient kubeletConfig with
          | Err err => Done (Err err, st)
          | Ok kubeletClient =>
              let '(nodeLister, st) := GetNodeLister ownNodeOnly e st in
              Done (Ok (MkSummaryProvider nodeLister kubeletClient ""), st)
          end
      end
  end.

(** [GetMetricsSources]: [List] reads the store of a lister. *)
Definition provider_GetMetricsSources (a : AgentType) (List : nat -> result (list KubeNode)) (e : env)
    (sp : summaryProvider) : env * list summaryMetricsSource :=
  let '(e, infos) := summary_GetMetricsSources ParseIP a (hostIDAnnotation sp) (List (sp_nodeLister sp)) e in
  (e, (fun info => NewSummaryMetricsSource info (sp_kubeletClient sp)) <$> infos).

(** ** The sources of a provider *)

(** The nodes that are ready and have an address, in the order of the list. *)
Definition usable (nodes : list KubeNode) : list (KubeNode * (string * IP)) :=
  omap (fun n => match GetNodeHostnameAndIP ParseIP (kn_node n) with
                 | Ok hi => Some (n, hi) | Err _ => None end) nodes.
Definition source_of (client : KubeletClient) (u : KubeNode * (string * IP)) : summaryMetricsSource :=
  let '(n, (hostname, ip)) := u in
  MkSummarySource (MkNodeInfo (node_Name (kn_node n)) hostname "" (kn_KubeletVersion n) (GetNodeRole (kn_node n)))
    ip client.

(** What any provider that could be built gives: a source for every usable
    node, in order, without a host identifier (the annotation that names it is
    never set), all on one client that has no timeout. *)
Lemma summary_provider_sources cfg own e0 st sp st' a List nodes e :
  NewSummaryProvider cfg own e0 st = Done (Ok sp, st') -> ScrapeAnyNodes a = true ->
  List (sp_nodeLister sp) = Ok nodes ->
  (provider_GetMetricsSources a List e sp).2 = source_of (sp_kubeletClient sp) <$> usable nodes /\
  kcl_Timeout (sp_kubeletClient sp) = 0%Z.
Proof.
  unfold NewSummaryProvider, NewKubeletClient. intros H Ha Hl.
  destruct (GetKubeConfigs cfg) as [[k kl]|]; [|discriminate].
  destruct (NewForConfigOrDie k); [|discriminate..].
  destruct (MakeTransport kl) as [t|]; [|discriminate]; cbn in H.
  destruct (GetNodeLister own e0 st) as [l st1].
  injection H as <- <-. split; [|reflexivity].
  unfold provider_GetMetricsSources, summary_GetMetricsSources. rewrite Ha, Hl. cbn [negb hostIDAnnotation].
  match goal with |- context [foldl ?f] => set (step := f) end.
  cut (forall acc e, fmap (fun info => NewSummaryMetricsSource info (MkKubeletClient kl t 0%Z)) (foldl step (e, acc) nodes).2
         = fmap (fun info => NewSummaryMetricsSource info (MkKubeletClient kl t 0%Z)) acc
           ++ (source_of (MkKubeletClient kl t 0%Z) <$> usable nodes)).
  { intros C. specialize (C [] e). cbn in C |- *. revert C. destruct (foldl step _ _); cbn. auto. }
  clear. induction nodes as [|n nodes IH]; intros acc e; cbn [foldl usable omap list_omap fmap list_fmap].
  { now rewrite app_nil_r. }
  unfold usable in *. cbn [omap list_omap].
  assert (step (e, acc) n = let '(e, o) := getNodeInfo ParseIP "" n e in
            (e, match o with Ok info => acc ++ [info] | Err _ => acc end)) as ->.
  { unfold step. now destruct (getNodeInfo ParseIP "" n e) as [? [?|?]]. }
  unfold getNodeInfo. destruct (GetNodeHostnameAndIP ParseIP (kn_node n)) as [[hn ip]|]; cbn -[list_omap].
  - rewrite IH, fmap_app, <- app_assoc. reflexivity.
  - apply IH.
Qed.
End provider.
