(* ===== verification/TestSender.v ===== *)
(** The sender of the test mode: plugins/sinks/wavefront/testsender.go.  It
    keeps the text of what it is given.

    Lines are made outside of the lock and appended under it, so the calls of
    several goroutines are an interleaving of appends. *)

From Stdlib Require Import ZArith Lia.
From S2P Require Import Prelude GoFloat Util Wf Interleaving.

(** ** The verb %f: six decimals, rounded to even *)

(** [num / den] to the nearest integer. *)
Definition round_even (num den : Z) : Z :=
  let q := (num / den)%Z in
  let r := (num mod den)%Z in
  if (2 * r <? den)%Z then q else if (den <? 2 * r)%Z then (q + 1)%Z else if Z.even q then q else (q + 1)%Z.
(** [m * 2^e] in millionths. *)
Definition millionths (m e : Z) : Z :=
  if (0 <=? e)%Z then (m * 2 ^ e * 1000000)%Z else round_even (m * 1000000) (2 ^ (- e)).

Fixpoint pad_zeros (n : nat) (s : string) : string := match n with O => s | S n => String "0" (pad_zeros n s) end.
Definition six_digits (n : Z) : string :=
  let s := pos_digits 6 n "" in pad_zeros (6 - String.length s) s.
Definition sprintf_f (x : f64) : string :=
  match x with
  | SpecFloat.S754_nan => "NaN"
  | SpecFloat.S754_infinity s => if s then "-Inf" else "+Inf"
  | SpecFloat.S754_zero s => if s then "-0.000000" else "0.000000"
  | SpecFloat.S754_finite s m e =>
      let n := millionths (Z.pos m) e in
      ((if s then "-" else "") +:+ pos_digits 320 (n / 1000000) "" +:+ "." +:+ six_digits (n mod 1000000))%string
  end.

Example sprintf_f_examples :
  sprintf_f <$> [f64_of_Z 1; f64_div (f64_of_Z (-5)) (f64_of_Z 2); f64_div (f64_of_Z 2) (f64_of_Z 3);
                 f64_div (f64_of_Z 1) (f64_of_Z 128); f64_div (f64_of_Z 1) (f64_of_Z (2 ^ 30)); f64_of_Z (10 ^ 18); f64_inf]
  = ["1.000000"; "-2.500000"; "0.666667"; "0.007812"; "0.000000"; "1000000000000000000.000000"; "+Inf"].
Proof. by vm_compute. Qed.

(** The millionths are the nearest. *)
Lemma round_even_nearest num den : (0 < den)%Z -> (Z.abs (2 * (round_even num den * den - num)) <= den)%Z.
Proof.
  intros Hd. pose proof (Z.div_mod num den ltac:(lia)) as E. pose proof (Z.mod_pos_bound num den Hd) as Hr.
  unfold round_even. destruct (Z.ltb_spec (2 * (num mod den)) den); [nia|].
  destruct (Z.ltb_spec den (2 * (num mod den))); [nia|]. destruct (Z.even (num / den)); nia.
Qed.

(** ** The sender *)

Definition dquote : string := String (Ascii.ascii_of_nat 34) "".
Definition line_end : string := String (Ascii.ascii_of_nat 10) "".

(** [order]: the visiting order of the tags. *)
Definition sortKeys (order : tagmap -> list (string * string)) (tags : tagmap) : list string :=
  sort_strings (map fst (order tags)).
Definition orderedTagString (order : tagmap -> list (string * string)) (tags : tagmap) : string :=
  foldl (fun tagStr tagName =>
           if negb (String.eqb tagName "cluster")
           then (tagStr +:+ tagName +:+ "=" +:+ dquote +:+ get_str tags tagName +:+ dquote +:+ " ")%string
           else tagStr)
    "" (sortKeys order tags).

Inductive test_call :=
  | TestMetric (name : string) (value : f64) (source : string) (tags : tagmap)
  | TestEvent (name source : string) (tags : tagmap).

(** The line of a call of [SendMetric] or [SendEvent]; the setters of an event
    change a map that is thrown away. *)
Definition test_line (order : tagmap -> list (string * string)) (c : test_call) : string :=
  match c with
  | TestMetric name value source tags =>
      ("Metric: " +:+ name +:+ " " +:+ sprintf_f value +:+ " source=" +:+ dquote +:+ source +:+ dquote +:+ " " +:+
       orderedTagString order tags +:+ line_end)%string
  | TestEvent name source tags =>
      (name +:+ " event source=" +:+ dquote +:+ source +:+ dquote +:+ " " +:+
       orderedTagString order tags +:+ line_end)%string
  end.

Record TestSender := MkTestSender { testReceivedLines : string }.
Definition NewTestSender : TestSender := MkTestSender "".
Definition append_line (t : TestSender) (line : string) : TestSender :=
  MkTestSender (testReceivedLines t +:+ line)%string.
Definition GetReceivedLines (t : TestSender) : string := testReceivedLines t.

(** ** Properties *)

(** The tags of a line do not depend on the order of the map. *)
Lemma orderedTagString_order order order' tags :
  iterates (order tags) tags -> iterates (order' tags) tags -> orderedTagString order tags = orderedTagString order' tags.
Proof.
  intros H H'. unfold orderedTagString, sortKeys. f_equal. apply sort_strings_proper.
  unfold iterates in H, H'. by rewrite H, H'.
Qed.

Lemma append_lines t ls :
  GetReceivedLines (foldl append_line t ls) = (GetReceivedLines t +:+ foldr String.append "" ls)%string.
Proof.
  revert t; induction ls as [|l ls IH]; intros t; cbn [foldl foldr]; [by rewrite str_app_nil_r|].
  rewrite IH. apply str_app_assoc.
Qed.

(** In every interleaving of the calls of several goroutines the text holds
    the line of every call, whole and once. *)
Lemma received_whole order (threads : list (list test_call)) (calls : list test_call) :
  interleaving threads calls ->
  GetReceivedLines (foldl append_line NewTestSender (map (test_line order) calls)) =
    foldr String.append "" (map (test_line order) calls) /\ calls ≡ₚ concat threads.
Proof. intros H. split; [apply append_lines|by apply interleaving_perm]. Qed.
